(** * xmake.js configure: a shallow embedding of [src/configure.ts]

    The configurator is a single TypeScript module.  Its process-wide
    variables become fields of a record that is threaded through the
    functions that touch them; the [maps] store is a finite map of
    finite maps keyed by the concatenated strings the source builds;
    JavaScript values that reach the store are the inductive [jsval];
    exceptions and [process.exit] are constructors of [result]. *)

From Stdlib Require Import ZArith Ascii String DecimalString.
From stdpp Require Import base option list strings gmap.

Local Open Scope Z_scope.
Local Open Scope stdpp_scope.

(** ** JavaScript strings *)

Module Js.

(** The double quote, line feed and tab characters (kept out of literals). *)
Definition dquote : string := String (ascii_of_nat 34) EmptyString.
Definition lf : string := String (ascii_of_nat 10) EmptyString.
Definition tab : string := String (ascii_of_nat 9) EmptyString.

Definition space : ascii := ascii_of_nat 32.

(** [s.startsWith(p)] *)
Definition startsWith (s p : string) : bool := String.prefix p s.

(** [s.slice(n)] for [0 <= n] *)
Fixpoint drop (n : nat) (s : string) : string :=
  match n, s with
  | O, _ => s
  | S k, String _ r => drop k r
  | S _, EmptyString => EmptyString
  end.

(** [s.endsWith(p)] *)
Definition endsWith (s p : string) : bool :=
  (String.length p <=? String.length s)%nat &&
  String.eqb (drop (String.length s - String.length p) s) p.

(** [s.indexOf(p) !== -1] *)
Fixpoint contains (s p : string) : bool :=
  String.prefix p s ||
  match s with
  | EmptyString => false
  | String _ r => contains r p
  end.

(** [s.split(c)] for a one-character separator: never the empty array. *)
Fixpoint split (c : ascii) (s : string) : list string :=
  match s with
  | EmptyString => [EmptyString]
  | String a r =>
      if Ascii.eqb a c then EmptyString :: split c r
      else match split c r with
           | [] => [String a EmptyString]
           | w :: ws => String a w :: ws
           end
  end.

Definition nonempty (s : string) : bool :=
  match s with EmptyString => false | _ => true end.

(** [s.split(" ").filter(s => s !== "")] *)
Definition tokens (s : string) : list string :=
  List.filter nonempty (split space s).

(** [l.join(sep)] *)
Fixpoint join (sep : string) (l : list string) : string :=
  match l with
  | [] => EmptyString
  | [x] => x
  | x :: r => x +:+ sep +:+ join sep r
  end.

(** White space removed by [trim], within the ASCII range. *)
Definition is_white (a : ascii) : bool :=
  let n := nat_of_ascii a in
  ((9 <=? n)%nat && (n <=? 13)%nat) || (n =? 32)%nat.

Fixpoint trimStart (s : string) : string :=
  match s with
  | String a r => if is_white a then trimStart r else s
  | EmptyString => EmptyString
  end.

(** The string without its trailing white space. *)
Fixpoint trimEnd (s : string) : string :=
  match s with
  | EmptyString => EmptyString
  | String a r =>
      match trimEnd r with
      | EmptyString => if is_white a then EmptyString else String a EmptyString
      | r' => String a r'
      end
  end.

(** [s.trim()], for the white space of ASCII: a string is its bytes
    here, and the white space that JavaScript knows outside ASCII is
    kept. *)
Definition trim (s : string) : string := trimEnd (trimStart s).

(** The replacement text of [replace]/[replaceAll] for a string pattern
    (ECMAScript GetSubstitution without captures): [$$] is a dollar,
    [$&] the match, [$`] the text before it and [$'] the text after it;
    any other dollar is literal. *)
Fixpoint substitution (matched before after repl : string) : string :=
  match repl with
  | EmptyString => EmptyString
  | String a r =>
      if Ascii.eqb a "$"%char then
        match r with
        | String b r' =>
            if Ascii.eqb b "$"%char then String "$"%char (substitution matched before after r')
            else if Ascii.eqb b "&"%char then matched +:+ substitution matched before after r'
            else if Ascii.eqb b "`"%char then before +:+ substitution matched before after r'
            else if Ascii.eqb b "'"%char then after +:+ substitution matched before after r'
            else String a (substitution matched before after r)
        | EmptyString => String a EmptyString
        end
      else String a (substitution matched before after r)
  end.

(** The scan of [replace] (first match only) and [replaceAll] over the
    rest [s] of the subject; [before] is the text already passed, kept
    in reverse, and [skip] counts characters of a match still to pass. *)
Fixpoint replace_scan (all : bool) (pat repl : string) (before : string)
    (skip : nat) (active : bool) (s : string) : string :=
  match s with
  | EmptyString => EmptyString
  | String a r =>
      match skip with
      | S k => replace_scan all pat repl (String a before) k active r
      | O =>
          if active && String.prefix pat s then
            substitution pat (String.rev before) (drop (String.length pat) s) repl
            +:+ replace_scan all pat repl (String a before)
                  (String.length pat - 1) all r
          else String a (replace_scan all pat repl (String a before) O active r)
      end
  end.

(** [s.replaceAll(pat, repl)] for a non-empty string pattern. *)
Definition replaceAll (s pat repl : string) : string :=
  replace_scan true pat repl EmptyString O true s.

(** [s.replace(pat, repl)] for a non-empty string pattern. *)
Definition replace (s pat repl : string) : string :=
  replace_scan false pat repl EmptyString O true s.

End Js.

(** ** JavaScript values and outcomes *)

(** The values the configurator keeps in its store and variables:
    [undefined], booleans, integer-valued numbers, strings and the
    string arrays that rest parameters produce. *)
Inductive jsval : Type :=
| VUndef
| VBool (b : bool)
| VNum (n : Z)
| VStr (s : string)
| VArr (l : list string).

#[global] Instance jsval_eq_dec : EqDecision jsval.
Proof. solve_decision. Defined.

(** How a call ends: it returns, an exception propagates, the process
    exits with a code, or the recursion never comes back. *)
Inductive result (A : Type) : Type :=
| Ret (a : A)
| Throw (msg : string)
| Exit (code : Z)
| Diverge.
Arguments Ret {A} a.
Arguments Throw {A} msg.
Arguments Exit {A} code.
Arguments Diverge {A}.

#[global] Instance result_ret : MRet result := fun A a => Ret a.
#[global] Instance result_bind : MBind result := fun A B f m =>
  match m with
  | Ret a => f a
  | Throw msg => Throw msg
  | Exit code => Exit code
  | Diverge => Diverge
  end.

(** String conversion as done by template literals and by [+] with a
    string operand. *)
Definition to_string (v : jsval) : string :=
  match v with
  | VUndef => "undefined"
  | VBool true => "true"
  | VBool false => "false"
  | VNum n => NilZero.string_of_int (Z.to_int n)
  | VStr s => s
  | VArr l => Js.join "," l
  end.

(** [a === b] on these values (arrays are compared by identity, so an
    array is never equal to a value read from elsewhere). *)
Definition strict_eq (a b : jsval) : bool :=
  match a, b with
  | VUndef, VUndef => true
  | VBool x, VBool y => Bool.eqb x y
  | VNum x, VNum y => Z.eqb x y
  | VStr x, VStr y => String.eqb x y
  | _, _ => false
  end.

Definition test_z (str : jsval) : bool :=
  match str with
  | VUndef => true
  | VStr EmptyString => true
  | _ => false
  end.

Definition test_nz (str : jsval) : bool :=
  match str with
  | VUndef => false
  | VStr EmptyString => false
  | _ => true
  end.

Definition test_eq (str1 str2 : jsval) : bool := strict_eq str1 str2.

Definition test_nq (str1 str2 : jsval) : bool := negb (strict_eq str1 str2).

(** [a ?? b] *)
Definition nullish (a b : jsval) : jsval :=
  match a with VUndef => b | _ => a end.

(** JavaScript truthiness, for [if (v)], [!v] and [a || b]. *)
Definition truthy (v : jsval) : bool :=
  match v with
  | VUndef => false
  | VBool b => b
  | VNum n => negb (Z.eqb n 0)
  | VStr s => Js.nonempty s
  | VArr _ => true
  end.

Definition string_replace (str pattern replacement : string) : string :=
  Js.replaceAll str pattern replacement.

Definition string_contains (str substr : string) : bool := Js.contains str substr.

(** The words of a space-separated list: [s.trim().split(" ")] without
    the empty strings. *)
Definition words_of (s : string) : list string := Js.tokens (Js.trim s).

(** [string_to_array]: an array is returned as it is; [undefined] counts
    as the empty string; [trim] is not a method of booleans and numbers. *)
Definition string_to_array (s : jsval) : result (list string) :=
  match s with
  | VArr l => Ret l
  | VUndef => Ret (words_of EmptyString)
  | VStr x => Ret (words_of x)
  | VBool _ | VNum _ => Throw "TypeError: (s ?? '').trim is not a function"
  end.

Definition _is_enabled (value : jsval) : bool :=
  match value with
  | VBool true => true
  | VStr s => String.eqb s "true" || String.eqb s "yes" || String.eqb s "y"
  | _ => false
  end.

Definition _split_flags (str : string) : string := string_replace str ":" " ".

(** [_split_flags] on a value of the store: [replaceAll] exists on
    strings only. *)
Definition _split_flags_of (flags : jsval) : result string :=
  match flags with
  | VStr str => Ret (_split_flags str)
  | _ => Throw "TypeError: str.replaceAll is not a function"
  end.

(** The first array word kept by [_dedup_reverse]: [deduped.unshift(word)]
    walking the words from the last to the first. *)
Fixpoint _dedup_reverse_loop (words : list string) (deduped : list string) : list string :=
  match words with
  | [] => deduped
  | word :: rest =>
      if bool_decide (word ∈ deduped) then _dedup_reverse_loop rest deduped
      else _dedup_reverse_loop rest (word :: deduped)
  end.

Definition _dedup_reverse (str : string) : string :=
  Js.join " " (_dedup_reverse_loop (rev (Js.tokens str)) []).

Fixpoint _dedup_loop (words : list string) (deduped : list string) : list string :=
  match words with
  | [] => deduped
  | word :: rest =>
      if bool_decide (word ∈ deduped) then _dedup_loop rest deduped
      else _dedup_loop rest (deduped ++ [word])
  end.

Definition _dedup (str : string) : string :=
  Js.join " " (_dedup_loop (Js.tokens str) []).

(** ** Process-wide variables *)

(** The variables that the command line can set ([_handle_option]). *)
Record config : Type := Config {
  xmake_sh_verbose : bool;
  xmake_sh_diagnosis : bool;
  xmake_sh_buildir : string;
  _target_plat : string;
  _target_arch : string;
  _target_mode : string;
  _target_toolchain : jsval;
  _project_generator : string;
  _make_program : jsval;
  _ninja_program : jsval;
  _install_prefix_default : jsval;
  _install_bindir_default : string;
  _install_libdir_default : string;
  _install_includedir_default : string
}.

Definition with_verbose (v : bool) (c : config) : config :=
  Config v (xmake_sh_diagnosis c) (xmake_sh_buildir c) (_target_plat c) (_target_arch c)
    (_target_mode c) (_target_toolchain c) (_project_generator c) (_make_program c)
    (_ninja_program c) (_install_prefix_default c) (_install_bindir_default c)
    (_install_libdir_default c) (_install_includedir_default c).
Definition with_diagnosis (v : bool) (c : config) : config :=
  Config (xmake_sh_verbose c) v (xmake_sh_buildir c) (_target_plat c) (_target_arch c)
    (_target_mode c) (_target_toolchain c) (_project_generator c) (_make_program c)
    (_ninja_program c) (_install_prefix_default c) (_install_bindir_default c)
    (_install_libdir_default c) (_install_includedir_default c).
Definition with_buildir (v : string) (c : config) : config :=
  Config (xmake_sh_verbose c) (xmake_sh_diagnosis c) v (_target_plat c) (_target_arch c)
    (_target_mode c) (_target_toolchain c) (_project_generator c) (_make_program c)
    (_ninja_program c) (_install_prefix_default c) (_install_bindir_default c)
    (_install_libdir_default c) (_install_includedir_default c).
Definition with_plat (v : string) (c : config) : config :=
  Config (xmake_sh_verbose c) (xmake_sh_diagnosis c) (xmake_sh_buildir c) v (_target_arch c)
    (_target_mode c) (_target_toolchain c) (_project_generator c) (_make_program c)
    (_ninja_program c) (_install_prefix_default c) (_install_bindir_default c)
    (_install_libdir_default c) (_install_includedir_default c).
Definition with_arch (v : string) (c : config) : config :=
  Config (xmake_sh_verbose c) (xmake_sh_diagnosis c) (xmake_sh_buildir c) (_target_plat c) v
    (_target_mode c) (_target_toolchain c) (_project_generator c) (_make_program c)
    (_ninja_program c) (_install_prefix_default c) (_install_bindir_default c)
    (_install_libdir_default c) (_install_includedir_default c).
Definition with_mode (v : string) (c : config) : config :=
  Config (xmake_sh_verbose c) (xmake_sh_diagnosis c) (xmake_sh_buildir c) (_target_plat c)
    (_target_arch c) v (_target_toolchain c) (_project_generator c) (_make_program c)
    (_ninja_program c) (_install_prefix_default c) (_install_bindir_default c)
    (_install_libdir_default c) (_install_includedir_default c).
Definition with_toolchain (v : jsval) (c : config) : config :=
  Config (xmake_sh_verbose c) (xmake_sh_diagnosis c) (xmake_sh_buildir c) (_target_plat c)
    (_target_arch c) (_target_mode c) v (_project_generator c) (_make_program c)
    (_ninja_program c) (_install_prefix_default c) (_install_bindir_default c)
    (_install_libdir_default c) (_install_includedir_default c).
Definition with_generator (v : string) (c : config) : config :=
  Config (xmake_sh_verbose c) (xmake_sh_diagnosis c) (xmake_sh_buildir c) (_target_plat c)
    (_target_arch c) (_target_mode c) (_target_toolchain c) v (_make_program c)
    (_ninja_program c) (_install_prefix_default c) (_install_bindir_default c)
    (_install_libdir_default c) (_install_includedir_default c).
Definition with_make (v : jsval) (c : config) : config :=
  Config (xmake_sh_verbose c) (xmake_sh_diagnosis c) (xmake_sh_buildir c) (_target_plat c)
    (_target_arch c) (_target_mode c) (_target_toolchain c) (_project_generator c) v
    (_ninja_program c) (_install_prefix_default c) (_install_bindir_default c)
    (_install_libdir_default c) (_install_includedir_default c).
Definition with_ninja (v : jsval) (c : config) : config :=
  Config (xmake_sh_verbose c) (xmake_sh_diagnosis c) (xmake_sh_buildir c) (_target_plat c)
    (_target_arch c) (_target_mode c) (_target_toolchain c) (_project_generator c)
    (_make_program c) v (_install_prefix_default c) (_install_bindir_default c)
    (_install_libdir_default c) (_install_includedir_default c).
Definition with_prefix (v : jsval) (c : config) : config :=
  Config (xmake_sh_verbose c) (xmake_sh_diagnosis c) (xmake_sh_buildir c) (_target_plat c)
    (_target_arch c) (_target_mode c) (_target_toolchain c) (_project_generator c)
    (_make_program c) (_ninja_program c) v (_install_bindir_default c)
    (_install_libdir_default c) (_install_includedir_default c).
Definition with_bindir (v : string) (c : config) : config :=
  Config (xmake_sh_verbose c) (xmake_sh_diagnosis c) (xmake_sh_buildir c) (_target_plat c)
    (_target_arch c) (_target_mode c) (_target_toolchain c) (_project_generator c)
    (_make_program c) (_ninja_program c) (_install_prefix_default c) v
    (_install_libdir_default c) (_install_includedir_default c).
Definition with_libdir (v : string) (c : config) : config :=
  Config (xmake_sh_verbose c) (xmake_sh_diagnosis c) (xmake_sh_buildir c) (_target_plat c)
    (_target_arch c) (_target_mode c) (_target_toolchain c) (_project_generator c)
    (_make_program c) (_ninja_program c) (_install_prefix_default c)
    (_install_bindir_default c) v (_install_includedir_default c).
Definition with_includedir (v : string) (c : config) : config :=
  Config (xmake_sh_verbose c) (xmake_sh_diagnosis c) (xmake_sh_buildir c) (_target_plat c)
    (_target_arch c) (_target_mode c) (_target_toolchain c) (_project_generator c)
    (_make_program c) (_ninja_program c) (_install_prefix_default c)
    (_install_bindir_default c) (_install_libdir_default c) v.

(** What the process does to the outside, in order. *)
Inductive event : Type :=
| Run (program : string) (args : list string)
| WriteFile (path content : string)
| Remove (path : string)
| Mkdir (path : string)
| Log (line : string).

#[global] Instance event_eq_dec : EqDecision event.
Proof. solve_decision. Defined.

(** The store [maps] with the remaining variables of the module. *)
Record env : Type := Env {
  maps : gmap string (gmap string jsval);
  cfg : config;
  _loading_toolchains : bool;
  _loading_options : bool;
  _loading_targets : bool;
  _xmake_sh_options : string;
  _xmake_sh_targets : string;
  _xmake_sh_option_current : jsval;
  _xmake_sh_target_current : jsval;
  trace : list event;
  tmp_count : nat
}.

Definition with_maps (m : gmap string (gmap string jsval)) (e : env) : env :=
  Env m (cfg e) (_loading_toolchains e) (_loading_options e) (_loading_targets e)
    (_xmake_sh_options e) (_xmake_sh_targets e) (_xmake_sh_option_current e)
    (_xmake_sh_target_current e) (trace e) (tmp_count e).
Definition with_cfg (c : config) (e : env) : env :=
  Env (maps e) c (_loading_toolchains e) (_loading_options e) (_loading_targets e)
    (_xmake_sh_options e) (_xmake_sh_targets e) (_xmake_sh_option_current e)
    (_xmake_sh_target_current e) (trace e) (tmp_count e).
Definition with_loading (tc op tg : bool) (e : env) : env :=
  Env (maps e) (cfg e) tc op tg
    (_xmake_sh_options e) (_xmake_sh_targets e) (_xmake_sh_option_current e)
    (_xmake_sh_target_current e) (trace e) (tmp_count e).
Definition with_options (s : string) (e : env) : env :=
  Env (maps e) (cfg e) (_loading_toolchains e) (_loading_options e) (_loading_targets e)
    s (_xmake_sh_targets e) (_xmake_sh_option_current e)
    (_xmake_sh_target_current e) (trace e) (tmp_count e).
Definition with_targets (s : string) (e : env) : env :=
  Env (maps e) (cfg e) (_loading_toolchains e) (_loading_options e) (_loading_targets e)
    (_xmake_sh_options e) s (_xmake_sh_option_current e)
    (_xmake_sh_target_current e) (trace e) (tmp_count e).
Definition with_option_current (v : jsval) (e : env) : env :=
  Env (maps e) (cfg e) (_loading_toolchains e) (_loading_options e) (_loading_targets e)
    (_xmake_sh_options e) (_xmake_sh_targets e) v
    (_xmake_sh_target_current e) (trace e) (tmp_count e).
Definition with_target_current (v : jsval) (e : env) : env :=
  Env (maps e) (cfg e) (_loading_toolchains e) (_loading_options e) (_loading_targets e)
    (_xmake_sh_options e) (_xmake_sh_targets e) (_xmake_sh_option_current e)
    v (trace e) (tmp_count e).
Definition with_trace (t : list event) (e : env) : env :=
  Env (maps e) (cfg e) (_loading_toolchains e) (_loading_options e) (_loading_targets e)
    (_xmake_sh_options e) (_xmake_sh_targets e) (_xmake_sh_option_current e)
    (_xmake_sh_target_current e) t (tmp_count e).
Definition with_tmp_count (n : nat) (e : env) : env :=
  Env (maps e) (cfg e) (_loading_toolchains e) (_loading_options e) (_loading_targets e)
    (_xmake_sh_options e) (_xmake_sh_targets e) (_xmake_sh_option_current e)
    (_xmake_sh_target_current e) (trace e) n.

(** An effect appended to the trace. *)
Definition emit (ev : event) (e : env) : env := with_trace (trace e ++ [ev]) e.

(** [raise(msg)]: the message goes to stderr and the process exits with 1. *)
Definition raise {A : Type} (msg : string) : result A := Exit 1.

(** ** The store *)

Definition _map_get (m : gmap string (gmap string jsval)) (name key : string) : jsval :=
  match m !! name with
  | None => VUndef
  | Some map => default VUndef (map !! key)
  end.

Definition _map_has (m : gmap string (gmap string jsval)) (name key : string) : bool :=
  match m !! name with
  | None => false
  | Some map => bool_decide (is_Some (map !! key))
  end.

Definition _map_set (m : gmap string (gmap string jsval)) (name key : string) (value : jsval)
    : gmap string (gmap string jsval) :=
  match m !! name with
  | None => <[name := <[key := value]> ∅]> m
  | Some map => <[name := <[key := value]> map]> m
  end.

Definition is_plat (c : config) (plats : list string) : bool :=
  bool_decide (_target_plat c ∈ plats).

Definition is_arch (c : config) (archs : list string) : bool :=
  bool_decide (_target_arch c ∈ archs).

(** ** The flag translator *)

(** A [switch] over string labels whose cases all [break]. *)
Fixpoint switch {A : Type} (v : string) (cases : list (string * A)) (otherwise : A) : A :=
  match cases with
  | [] => otherwise
  | (label, body) :: rest => if String.eqb v label then body else switch v rest otherwise
  end.

Definition c_languages : list (string * string) :=
  [ ("ansi", "-ansi"); ("c89", "-std=c89"); ("gnu89", "-std=gnu89"); ("c99", "-std=c99");
    ("gnu99", "-std=gnu99"); ("c11", "-std=c11"); ("gnu11", "-std=gnu11");
    ("c17", "-std=c17"); ("gnu17", "-std=gnu17") ].

Definition cxx_languages : list (string * string) :=
  [ ("cxx98", "-std=c++98"); ("c++98", "-std=c++98");
    ("gnuxx98", "-std=gnu++98"); ("gnu++98", "-std=gnu++98");
    ("cxx11", "-std=c++11"); ("c++11", "-std=c++11");
    ("gnuxx11", "-std=gnu++11"); ("gnu++11", "-std=gnu++11");
    ("cxx14", "-std=c++14"); ("c++14", "-std=c++14");
    ("gnuxx14", "-std=gnu++14"); ("gnu++14", "-std=gnu++14");
    ("cxx17", "-std=c++17"); ("c++17", "-std=c++17");
    ("gnuxx17", "-std=gnu++17"); ("gnu++17", "-std=gnu++17");
    ("cxx1z", "-std=c++1z"); ("c++1z", "-std=c++1z");
    ("gnuxx1z", "-std=gnu++1z"); ("gnu++1z", "-std=gnu++1z");
    ("cxx2a", "-std=c++2a"); ("c++2a", "-std=c++2a");
    ("gnuxx2a", "-std=gnu++2a"); ("gnu++2a", "-std=gnu++2a");
    ("cxx20", "-std=c++20"); ("c++20", "-std=c++20");
    ("gnuxx20", "-std=gnu++20"); ("gnu++20", "-std=gnu++20") ].

Definition unknown_language (value : string) : string :=
  "unknown language value(" +:+ value +:+ ")!".

Definition unknown_itemname (itemname : string) : string :=
  "unknown itemname(" +:+ itemname +:+ ")!".

Definition unknown_toolname (toolname : string) : string :=
  "unknown toolname(" +:+ toolname +:+ ")!".

Definition _get_abstract_flag_for_gcc_clang (c : config)
    (toolkind toolname itemname value : string) : result string :=
  if String.eqb itemname "defines" then
    Ret ("-D" +:+ string_replace value Js.dquote ("\" +:+ Js.dquote))
  else if String.eqb itemname "udefines" then Ret ("-U" +:+ value)
  else if String.eqb itemname "includedirs" then Ret ("-I" +:+ value)
  else if String.eqb itemname "linkdirs" then Ret ("-L" +:+ value)
  else if String.eqb itemname "links" then Ret ("-l" +:+ value)
  else if String.eqb itemname "syslinks" then Ret ("-l" +:+ value)
  else if String.eqb itemname "frameworks" then Ret ("-framework " +:+ value)
  else if String.eqb itemname "frameworkdirs" then Ret ("-F" +:+ value)
  else if String.eqb itemname "rpathdirs" then
    if String.eqb toolname "gcc" || String.eqb toolname "gxx" then
      Ret ("-Wl,-rpath='" +:+ Js.replace value "@loader_path" "$$$$ORIGIN" +:+ "'")
    else if String.eqb toolname "clang" || String.eqb toolname "clangxx" then
      Ret ("-Xlinker -rpath -Xlinker " +:+ Js.replace value "$ORIGIN" "@loader_path")
    else Ret ""
  else if String.eqb itemname "symbols" then
    if String.eqb value "debug" then Ret "-g"
    else if String.eqb value "hidden" then Ret "-fvisibility=hidden"
    else Ret ""
  else if String.eqb itemname "strip" then
    if String.eqb value "debug" then Ret "-Wl,-S"
    else if String.eqb value "all" then
      if is_plat c ["macosx"] then Ret "-Wl,-x" else Ret "-s"
    else Ret ""
  else if String.eqb itemname "warnings" then
    if String.eqb value "all" || String.eqb value "more" || String.eqb value "less"
    then Ret "-Wall"
    else if String.eqb value "allextra" then Ret "-Wall -Wextra"
    else if String.eqb value "error" then Ret "-Werror"
    else if String.eqb value "everything" then Ret "-Wall -Wextra"
    else if String.eqb value "none" then Ret "-w"
    else Ret ""
  else if String.eqb itemname "optimizes" then
    if String.eqb value "fast" then Ret "-O1"
    else if String.eqb value "faster" then Ret "-O2"
    else if String.eqb value "fastest" then Ret "-O3"
    else if String.eqb value "smallest" then
      if String.eqb toolname "clang" || String.eqb toolname "clangxx"
      then Ret "-Oz" else Ret "-Os"
    else if String.eqb value "aggressive" then Ret "-Ofast"
    else if String.eqb value "none" then Ret "-O0"
    else Ret ""
  else if String.eqb itemname "languages" then
    if String.eqb toolkind "cc" || String.eqb toolkind "mm" then
      Ret (switch value c_languages "")
    else if String.eqb toolkind "cxx" || String.eqb toolkind "mxx" then
      switch value (prod_map id Ret <$> cxx_languages)
        (if Js.startsWith value "cxx" then Throw (unknown_language value)
         else if Js.startsWith value "c++" then Throw (unknown_language value)
         else Ret "")
    else Ret ""
  else Throw (unknown_itemname itemname).

(** The loop of [_get_abstract_flags] over the words of [values]. *)
Fixpoint _get_abstract_flags_loop (c : config) (toolkind toolname itemname : string)
    (values : list string) (flags : string) : result string :=
  match values with
  | [] => Ret flags
  | value :: rest =>
      flag ← (if String.eqb toolname "gcc" || String.eqb toolname "gxx"
                 || String.eqb toolname "clang" || String.eqb toolname "clangxx"
              then _get_abstract_flag_for_gcc_clang c toolkind toolname itemname value
              else Throw (unknown_toolname toolname));
      _get_abstract_flags_loop c toolkind toolname itemname rest
        (if Js.nonempty flag then flags +:+ " " +:+ flag else flags)
  end.

Definition _get_abstract_flags (c : config) (toolkind toolname itemname : string)
    (values : jsval) : result string :=
  words ← string_to_array values;
  _get_abstract_flags_loop c toolkind toolname itemname words "".

(** ** Calls that change the variables *)

(** A call that reads and writes the variables of the module. *)
Definition M (A : Type) : Type := env → result (A * env).

#[global] Instance M_ret : MRet M := fun A a e => Ret (a, e).
#[global] Instance M_bind : MBind M := fun A B f m e =>
  match m e with
  | Ret (a, e') => f a e'
  | Throw msg => Throw msg
  | Exit code => Exit code
  | Diverge => Diverge
  end.

#[global] Instance result_fmap : FMap result := fun A B f m =>
  match m with
  | Ret a => Ret (f a)
  | Throw msg => Throw msg
  | Exit code => Exit code
  | Diverge => Diverge
  end.

(** A pure outcome inside a stateful call. *)
Definition lift {A : Type} (r : result A) : M A := fun e => (λ a, (a, e)) <$> r.

Definition get_env : M env := fun e => Ret (e, e).
Definition modify_env (f : env → env) : M unit := fun e => Ret (tt, f e).

(** [console.log(line)] *)
Definition print (line : string) : M unit := modify_env (emit (Log line)).

Definition vprint (line : string) : M unit := fun e =>
  if xmake_sh_verbose (cfg e) then print line e else Ret (tt, e).

Definition dprint (line : string) : M unit := fun e =>
  if xmake_sh_diagnosis (cfg e) then print line e else Ret (tt, e).

(** ** Options *)

Definition _has_option (e : env) (name : string) : bool :=
  _map_has (maps e) "options" (name +:+ "_name").

Definition _get_option_item (e : env) (name key : string) : jsval :=
  _map_get (maps e) "options" (name +:+ "_" +:+ key).

Definition _set_option_item (name : jsval) (key : string) (value : jsval) : M unit := fun e =>
  if test_nz name then
    Ret (tt, with_maps (_map_set (maps e) "options" (to_string name +:+ "_" +:+ key) value) e)
  else raise ("please call set_" +:+ key +:+ "(" +:+ to_string value +:+ ") in the option scope!").

Definition _add_option_item (name : jsval) (key : string) (value : jsval) : M unit := fun e =>
  if test_nz name then
    let values := _map_get (maps e) "options" (to_string name +:+ "_" +:+ key) in
    let newValues :=
      match values with
      | VUndef => value
      | _ => VStr (to_string values +:+ " " +:+ to_string value)
      end in
    Ret (tt, with_maps (_map_set (maps e) "options" (to_string name +:+ "_" +:+ key) newValues) e)
  else Throw ("please call add_" +:+ key +:+ "(" +:+ to_string value +:+ ") in the option scope!").

(** The source's [option]; the name is taken by the Rocq type. *)
Definition option_ (name : string) (description _default : jsval) : M bool := fun e =>
  let e := with_option_current (VStr name) e in
  if negb (_loading_options e) then
    Ret (false, if test_nz description then with_option_current (VStr "") e else e)
  else
    let e := if negb (_map_has (maps e) "options" (name +:+ "_name"))
             then with_options (_xmake_sh_options e +:+ " " +:+ name) e else e in
    let m := _map_set (maps e) "options" (name +:+ "_name") (VStr name) in
    let m := _map_set m "options" (name +:+ "_description") description in
    let m := _map_set m "options" (name +:+ "_default") _default in
    let e := with_maps m e in
    Ret (true, if test_nz description then with_option_current (VStr "") e else e).

Definition option_end : M unit := modify_env (with_option_current (VStr "")).

Definition _get_option_value (e : env) (name : string) : jsval :=
  let value := _get_option_item e name "value" in
  if test_z value then _get_option_item e name "default" else value.

Definition _set_option_value (name : string) (value : jsval) : M unit :=
  _set_option_item (VStr name) "value" value.

Definition _option_need_checking (e : env) (name : string) : bool :=
  let _default := nullish (_get_option_item e name "default") (VStr "") in
  if test_nz _default then false
  else
    let cfuncs := _get_option_item e name "cfuncs" in
    let cxxfuncs := _get_option_item e name "cxxfuncs" in
    let cincludes := _get_option_item e name "cincludes" in
    let cxxincludes := _get_option_item e name "cxxincludes" in
    let ctypes := _get_option_item e name "ctypes" in
    let cxxtypes := _get_option_item e name "cxxtypes" in
    let csnippets := _get_option_item e name "csnippets" in
    let cxxsnippets := _get_option_item e name "cxxsnippets" in
    let links := _get_option_item e name "links" in
    let syslinks := _get_option_item e name "syslinks" in
    if truthy cfuncs || truthy cxxfuncs || truthy cincludes || truthy cxxincludes
       || truthy ctypes || truthy cxxtypes || truthy csnippets || truthy cxxsnippets
       || truthy links || truthy syslinks
    then true else false.

(** The loop of [_get_options_for_checking] over the option names. *)
Fixpoint _get_options_for_checking_loop (e : env) (names : list string) (options : string)
    : string :=
  match names with
  | [] => options
  | name :: rest =>
      let showmenu := _get_option_item e name "showmenu" in
      _get_options_for_checking_loop e rest
        (if negb (truthy showmenu) && _option_need_checking e name
         then options +:+ " " +:+ name else options)
  end.

Definition _get_options_for_checking (e : env) : string :=
  _get_options_for_checking_loop e (words_of (_xmake_sh_options e)) "".

Definition _get_option_abstract_flags (e : env) (name toolkind toolname itemname : string)
    (values : jsval) : result string :=
  let values := if test_z values then _get_option_item e name itemname else values in
  _get_abstract_flags (cfg e) toolkind toolname itemname values.

Definition is_config (e : env) (name : string) (value : jsval) : bool :=
  if negb (_loading_targets e) then false
  else
    let value_cur := _get_option_value e name in
    strict_eq value_cur value.

Definition has_config (e : env) (name : string) : bool :=
  if negb (_loading_targets e) then false
  else
    let value_cur := _get_option_value e name in
    _is_enabled value_cur.

Definition set_config (name : string) (value : jsval) : M unit :=
  _set_option_value name value.

(** ** Toolchains *)

Definition _get_toolchain_item (e : env) (name : jsval) (key : string) : jsval :=
  _map_get (maps e) "toolchains" (to_string name +:+ "_" +:+ key).

Definition _get_toolchain_toolset (e : env) (name : jsval) (kind : string) : jsval :=
  _get_toolchain_item e name ("toolset_" +:+ kind).

(** [path_toolname]: [endsWith] exists on strings only. *)
Definition path_toolname (path : jsval) : result string :=
  match path with
  | VStr path =>
      if Js.endsWith path "-gcc" || Js.endsWith path "/gcc" then Ret "gcc"
      else if String.eqb path "gcc" then Ret "gcc"
      else if Js.endsWith path "-g++" || Js.endsWith path "/g++" then Ret "gxx"
      else if String.eqb path "g++" then Ret "gxx"
      else if Js.startsWith path "xcrun" && Js.endsWith path "clang++" then Ret "clangxx"
      else if Js.startsWith path "xcrun" && Js.endsWith path "clang" then Ret "clang"
      else if Js.endsWith path "-clang++" || Js.endsWith path "/clang++" then Ret "clangxx"
      else if String.eqb path "clang++" then Ret "clangxx"
      else if Js.endsWith path "-clang" || Js.endsWith path "/clang" then Ret "clang"
      else if String.eqb path "clang" then Ret "clang"
      else if Js.endsWith path "-ar" || Js.endsWith path "/ar" then Ret "ar"
      else if String.eqb path "ar" then Ret "ar"
      else Throw ("unknown tool " +:+ path)
  | _ => Throw "TypeError: path.endsWith is not a function"
  end.

Definition _get_flagname (toolkind : string) : result string :=
  switch toolkind
    [ ("cc", Ret "cflags"); ("cxx", Ret "cxxflags"); ("as", Ret "asflags");
      ("mm", Ret "mflags"); ("mxx", Ret "mxxflags"); ("ar", Ret "arflags");
      ("sh", Ret "shflags"); ("ld", Ret "ldflags") ]
    (Throw ("unknown toolkind(" +:+ toolkind +:+ ")!")).

Definition _toolchain_compcmd_for_gcc_clang (program objectfile sourcefile flags : string)
    : string :=
  program +:+ " -c " +:+ flags +:+ " -o " +:+ objectfile +:+ " " +:+ sourcefile.

Definition _toolchain_linkcmd_for_gcc_clang
    (toolkind program binaryfile objectfiles flags : string) : string :=
  let flags := if String.eqb toolkind "sh" then "-shared -fPIC ${flags}" else flags in
  program +:+ " -o " +:+ binaryfile +:+ " " +:+ objectfiles +:+ " " +:+ flags.

Definition _toolchain_linkcmd_for_ar
    (toolkind program binaryfile objectfiles flags : string) : string :=
  program +:+ " " +:+ flags +:+ " " +:+ binaryfile +:+ " " +:+ objectfiles.

Definition _toolchain_compcmd (e : env) (sourcekind objectfile sourcefile flags : string)
    : result string :=
  let program := _get_toolchain_toolset e (_target_toolchain (cfg e)) sourcekind in
  toolname ← path_toolname program;
  if String.eqb toolname "gcc" || String.eqb toolname "gxx"
     || String.eqb toolname "clang" || String.eqb toolname "clangxx"
  then Ret (_toolchain_compcmd_for_gcc_clang (to_string program) objectfile sourcefile flags)
  else Throw (unknown_toolname toolname).

Definition _toolchain_linkcmd (e : env) (toolkind binaryfile objectfiles flags : string)
    : result string :=
  let program := _get_toolchain_toolset e (_target_toolchain (cfg e)) toolkind in
  toolname ← path_toolname program;
  if String.eqb toolname "gcc" || String.eqb toolname "gxx"
     || String.eqb toolname "clang" || String.eqb toolname "clangxx"
  then Ret (_toolchain_linkcmd_for_gcc_clang toolkind (to_string program) binaryfile
              objectfiles flags)
  else if String.eqb toolname "ar"
  then Ret (_toolchain_linkcmd_for_ar toolkind (to_string program) binaryfile objectfiles flags)
  else raise (unknown_toolname toolname).

(** ** The option prober *)

Definition _get_funccode (func : string) : string :=
  if string_contains func "(" then func
  else "volatile void* p" +:+ func +:+ " = (void*)&" +:+ func +:+ ";".

Definition is_letter (a : ascii) : bool :=
  let n := nat_of_ascii a in
  ((65 <=? n)%nat && (n <=? 90)%nat) || ((97 <=? n)%nat && (n <=? 122)%nat).

(** [type.replaceAll(/[^a-zA-Z]/g, "_")] *)
Fixpoint typevar_of (type : string) : string :=
  match type with
  | EmptyString => EmptyString
  | String a r => String (if is_letter a then a else "_"%char) (typevar_of r)
  end.

Definition _generate_cxsnippets_sourcecode (funcs includes types snippets : jsval)
    : result string :=
  include_list ← string_to_array includes;
  let snippet_includes :=
    foldl (λ acc include, acc +:+ "#include " +:+ Js.dquote +:+ include +:+ Js.dquote +:+ Js.lf)
      "" include_list in
  type_list ← string_to_array types;
  let snippet_types :=
    foldl (λ acc type,
             acc +:+ "typedef " +:+ type +:+ " __type_" +:+ typevar_of type +:+ ";" +:+ Js.lf)
      "" type_list in
  func_list ← string_to_array funcs;
  let snippet_funcs :=
    foldl (λ acc func, acc +:+ _get_funccode func +:+ Js.lf) "" func_list in
  let snippets_code := "" in
  let snippets_code :=
    if Js.nonempty snippet_includes then snippets_code +:+ snippet_includes +:+ Js.lf
    else snippets_code in
  let snippets_code :=
    if Js.nonempty snippet_types then snippets_code +:+ snippet_types +:+ Js.lf
    else snippets_code in
  let snippets_code :=
    if test_nz snippets then snippets_code +:+ to_string snippets +:+ Js.lf
    else snippets_code in
  Ret (snippets_code +:+ "int main(int argc, char** argv) {" +:+ Js.lf
       +:+ "    " +:+ snippet_funcs +:+ Js.lf
       +:+ "    return 0;" +:+ Js.lf +:+ "}").

(** The message of the error that [execaSync] throws for a command
    that has exited with [code] (its first line, without the quoting
    of the arguments). *)
Definition command_failed (program : string) (args : list string) (code : Z) : string :=
  "Command failed with exit code " +:+ to_string (VNum code) +:+ ": "
  +:+ Js.join " " (program :: args).

Section Prober.

(** The exit code of a command run through [execaSync], which may
    depend on what the process did before, and the names handed out by
    [tmp.fileSync()]. *)
Variable exec : list event → string → list string → Z.
Variable tmp_name : nat → string.

(** [_os_runv]: [execaSync] throws when the command does not exit with
    the code 0, and nothing catches that here: the function returns
    [true] or does not return, and its [return false] is never
    reached. *)
Definition _os_runv (program : string) (args : list string) : M bool := fun e =>
  let ok := exec (trace e) program args in
  if Z.eqb ok 0 then Ret (true, emit (Run program args) e)
  else Throw (command_failed program args ok).

(** [_os_tmpfile]: [tmp.fileSync()] creates an empty file and gives its
    name. *)
Definition _os_tmpfile : M string := fun e =>
  let name := tmp_name (tmp_count e) in
  Ret (name, emit (WriteFile name "") (with_tmp_count (S (tmp_count e)) e)).

Definition _os_tryrm (path : string) : M unit := modify_env (emit (Remove path)).

Definition writeFileSync (path content : string) : M unit :=
  modify_env (emit (WriteFile path content)).

(** The loop over the abstract item names of an option's compile or
    link flags; [split] tells whether [_split_flags] is applied. *)
Fixpoint option_flags_loop (e : env) (name toolkind toolname : string) (split : bool)
    (itemnames : list string) (acc : string) : result string :=
  match itemnames with
  | [] => Ret acc
  | itemname :: rest =>
      flags ← _get_option_abstract_flags e name toolkind toolname itemname (VStr "");
      option_flags_loop e name toolkind toolname split rest
        (if Js.nonempty flags
         then acc +:+ " " +:+ (if split then _split_flags flags else flags)
         else acc)
  end.

(** The loop over the raw flag attributes of an option. *)
Fixpoint option_rawflags_loop (e : env) (name : string) (flagnames : list string)
    (acc : string) : string :=
  match flagnames with
  | [] => acc
  | flagname :: rest =>
      let flags := _get_option_item e name flagname in
      option_rawflags_loop e name rest
        (if test_nz flags then acc +:+ " " +:+ to_string flags else acc)
  end.

Definition _check_cxsnippets (name kind : string) : M bool :=
  e ← get_env;
  let funcs := _get_option_item e name (kind +:+ "funcs") in
  let includes := _get_option_item e name (kind +:+ "includes") in
  let types := _get_option_item e name (kind +:+ "types") in
  let snippets := _get_option_item e name (kind +:+ "snippets") in
  let links := _get_option_item e name "links" in
  let syslinks := _get_option_item e name "syslinks" in
  if test_z funcs && test_z includes && test_z types && test_z snippets then mret false
  else
    let links :=
      if test_nz syslinks then VStr (to_string links +:+ to_string syslinks) else links in
    let extension := if String.eqb kind "cxx" then ".cpp" else ".c" in
    let sourcekind := if String.eqb kind "cxx" then "cxx" else "cc" in
    sourcecode ← lift (_generate_cxsnippets_sourcecode
                         (nullish funcs (VStr "")) includes (nullish types (VStr "")) snippets);
    dprint sourcecode;;
    tmpfile ← _os_tmpfile;
    let sourcefile := tmpfile +:+ extension in
    let objectfile := tmpfile +:+ ".o" in
    let binaryfile := tmpfile +:+ ".bin" in
    writeFileSync sourcefile sourcecode;;
    let program := _get_toolchain_toolset e (_target_toolchain (cfg e)) sourcekind in
    toolname ← lift (path_toolname program);
    compflags ← lift (option_flags_loop e name sourcekind toolname true
                        ["languages"; "warnings"; "optimizes"; "defines"; "undefines"] "");
    let compflags :=
      option_rawflags_loop e name
        (Js.split Js.space ("cxflags" +:+ (if String.eqb sourcekind "cxx"
                                            then " cxxflags" else " cflags")))
        compflags in
    compcmd ← lift (_toolchain_compcmd e sourcekind objectfile sourcefile compflags);
    (if xmake_sh_diagnosis (cfg e) then print ("> " +:+ compcmd) else mret tt);;
    ok ← _os_runv compcmd [];
    ok ← (if ok && test_nz links then
            let toolkind := "ld" in
            let program := _get_toolchain_toolset e (_target_toolchain (cfg e)) toolkind in
            toolname ← lift (path_toolname program);
            linkflags ← lift (option_flags_loop e name toolkind toolname false
                                ["linkdirs"; "links"; "syslinks"] "");
            let flags := _get_option_item e name "ldflags" in
            linkflags ← lift (if test_nz flags
                              then (λ flags, linkflags +:+ " " +:+ flags)
                                     <$> _split_flags_of flags
                              else Ret linkflags);
            linkcmd ← lift (_toolchain_linkcmd e toolkind binaryfile objectfile linkflags);
            (if xmake_sh_diagnosis (cfg e) then print ("> " +:+ linkcmd) else mret tt);;
            _os_runv linkcmd []
          else mret ok);
    (if xmake_sh_verbose (cfg e) || xmake_sh_diagnosis (cfg e) then
       (if test_nz includes
        then print ("> checking for " +:+ kind +:+ " includes(" +:+ to_string includes +:+ ")")
        else mret tt);;
       (if test_nz types
        then print ("> checking for " +:+ kind +:+ " types(" +:+ to_string types +:+ ")")
        else mret tt);;
       (if test_nz funcs
        then print ("> checking for " +:+ kind +:+ " funcs(" +:+ to_string funcs +:+ ")")
        else mret tt);;
       (if test_nz links
        then print ("> checking for " +:+ kind +:+ " links(" +:+ to_string links +:+ ")")
        else mret tt)
     else mret tt);;
    _os_tryrm sourcefile;;
    _os_tryrm objectfile;;
    _os_tryrm binaryfile;;
    mret ok.

Definition _check_csnippets (name : string) : M bool := _check_cxsnippets name "c".

Definition _check_cxxsnippets (name : string) : M bool := _check_cxsnippets name "cxx".

(** [a && b]: the second check runs only when the first one holds. *)
Definition _check_option (name : string) : M bool :=
  _check_csnippets name ≫= λ ok : bool,
  if ok then _check_cxxsnippets name else mret false.

(** The loop of [_check_options] over the names to check. *)
Fixpoint _check_options_loop (names : list string) : M unit :=
  match names with
  | [] => mret tt
  | name :: rest =>
      _check_option name ≫= λ ok : bool,
      (if ok then
         print ("checking for " +:+ name +:+ " .. ok");;
         _set_option_value name (VBool true)
       else
         print ("checking for " +:+ name +:+ " .. no");;
         _set_option_value name (VBool false));;
      _check_options_loop rest
  end.

Definition _check_options : M unit :=
  e ← get_env;
  _check_options_loop (words_of (_get_options_for_checking e)).

End Prober.

(** ** Targets *)

Definition _has_target_item (e : env) (name key : string) : bool :=
  _map_has (maps e) "targets" (name +:+ "_" +:+ key)
  || _map_has (maps e) "targets" ("__root_" +:+ key).

Definition _get_target_item (e : env) (name key : string) : jsval :=
  let values := _map_get (maps e) "targets" (name +:+ "_" +:+ key) in
  if _map_has (maps e) "targets" ("__root_" +:+ key) then
    let root_values := _map_get (maps e) "targets" ("__root_" +:+ key) in
    if test_nz values then VStr (to_string root_values +:+ " " +:+ to_string values)
    else root_values
  else values.

Definition _set_target_item (name : jsval) (key : string) (value : jsval) : M unit := fun e =>
  if test_nz name then
    Ret (tt, with_maps (_map_set (maps e) "targets" (to_string name +:+ "_" +:+ key) value) e)
  else
    Ret (tt, with_maps (_map_set (maps e) "targets" ("__root_" +:+ key) value) e).

Definition _add_target_item (name : jsval) (key : string) (value : jsval) : M unit := fun e =>
  let slot := if test_nz name then to_string name +:+ "_" +:+ key else "__root_" +:+ key in
  let values := _map_get (maps e) "targets" slot in
  let newValues :=
    match values with
    | VUndef => value
    | _ => VStr (to_string values +:+ " " +:+ to_string value)
    end in
  Ret (tt, with_maps (_map_set (maps e) "targets" slot newValues) e).

Definition _get_target_basename (e : env) (name : string) : jsval :=
  nullish (_get_target_item e name "basename") (VStr name).

Definition _get_target_extension (e : env) (name : string) : jsval :=
  if _has_target_item e name "extension" then _get_target_item e name "extension"
  else if is_plat (cfg e) ["mingw"] then
    let kind := _get_target_item e name "kind" in
    if strict_eq kind (VStr "binary") then VStr ".exe"
    else if strict_eq kind (VStr "static") then VStr ".a"
    else if strict_eq kind (VStr "shared") then VStr ".dll"
    else VStr ""
  else
    let kind := _get_target_item e name "kind" in
    if strict_eq kind (VStr "static") then VStr ".a"
    else if strict_eq kind (VStr "shared") then VStr ".so"
    else VStr "".

Definition _get_target_prefixname (e : env) (name : string) : jsval :=
  if _has_target_item e name "prefixname" then _get_target_item e name "prefixname"
  else if is_plat (cfg e) ["mingw"] then
    let kind := _get_target_item e name "kind" in
    if strict_eq kind (VStr "static") then VStr "lib"
    else if strict_eq kind (VStr "shared") then VStr "lib"
    else VStr ""
  else
    let kind := _get_target_item e name "kind" in
    if strict_eq kind (VStr "static") then VStr "lib"
    else if strict_eq kind (VStr "shared") then VStr "lib"
    else VStr "".

Definition _get_target_filename (e : env) (name : string) : jsval :=
  let filename := _get_target_item e name "filename" in
  if test_z filename then
    let basename := _get_target_basename e name in
    let extension := _get_target_extension e name in
    let prefixname := _get_target_prefixname e name in
    VStr (to_string prefixname +:+ to_string basename +:+ to_string extension)
  else filename.

Section Paths.

(** Node's [path.join] on string arguments. *)
Variable path_join : list string → string.

Fixpoint all_strings (args : list jsval) : option (list string) :=
  match args with
  | [] => Some []
  | VStr s :: rest => (λ l, s :: l) <$> all_strings rest
  | _ :: _ => None
  end.

(** [path_join(...args)]: Node throws when an argument is not a string. *)
Definition js_path_join (args : list jsval) : result string :=
  match all_strings args with
  | Some l => Ret (path_join l)
  | None => Throw "TypeError [ERR_INVALID_ARG_TYPE]: The path argument must be of type string"
  end.

Definition _get_targetdir (e : env) (name : string) : result jsval :=
  let targetdir := _get_target_item e name "targetdir" in
  if test_z targetdir then
    VStr <$> js_path_join [VStr (xmake_sh_buildir (cfg e)); VStr (_target_plat (cfg e));
                           VStr (_target_arch (cfg e)); VStr (_target_mode (cfg e))]
  else Ret targetdir.

Definition _get_target_file (e : env) (name : string) : result string :=
  let filename := _get_target_filename e name in
  targetdir ← _get_targetdir e name;
  js_path_join [targetdir; filename].

End Paths.

(** ** Transitive library dependencies *)

Definition is_library_kind (dep_kind : jsval) : bool :=
  test_eq dep_kind (VStr "static") || test_eq dep_kind (VStr "shared").

(** The loop of [_get_target_librarydeps_impl] over the words of [deps];
    [impl] is the recursive call. *)
Fixpoint _get_target_librarydeps_loop (impl : string → result string) (e : env)
    (deps : list string) (librarydeps : string) : result string :=
  match deps with
  | [] => Ret librarydeps
  | dep :: rest =>
      let dep_kind := _get_target_item e dep "kind" in
      if is_library_kind dep_kind then
        let librarydeps := librarydeps +:+ " " +:+ dep in
        dep_librarydeps ← impl dep;
        _get_target_librarydeps_loop impl e rest
          (if Js.nonempty dep_librarydeps
           then librarydeps +:+ " " +:+ dep_librarydeps else librarydeps)
      else _get_target_librarydeps_loop impl e rest librarydeps
  end.

(** [fuel] bounds the depth of the recursion, which the source leaves
    unbounded: with enough fuel the result is that of the source.  On
    a cycle of dependencies the source overflows the stack and throws
    a RangeError, where this definition has [Diverge] for every
    fuel. *)
Fixpoint _get_target_librarydeps_impl (fuel : nat) (e : env) (name : string)
    : result string :=
  match fuel with
  | O => Diverge
  | S fuel =>
      deps ← string_to_array (_get_target_item e name "deps");
      _get_target_librarydeps_loop (_get_target_librarydeps_impl fuel e) e deps ""
  end.

Definition _get_target_librarydeps (fuel : nat) (name : string) : M jsval :=
  e ← get_env;
  let librarydeps := _get_target_item e name "librarydeps" in
  librarydeps ←
    (if test_z librarydeps && test_nq librarydeps (VStr "__none__") then
       lift (_get_target_librarydeps_impl fuel e name) ≫= λ librarydeps : string,
       if Js.nonempty librarydeps then
         let librarydeps := _dedup_reverse librarydeps in
         _set_target_item (VStr name) "librarydeps" (VStr librarydeps);;
         mret (VStr librarydeps)
       else
         _set_target_item (VStr name) "librarydeps" (VStr "__none__");;
         mret (VStr librarydeps)
     else mret librarydeps);
  mret (if test_eq librarydeps (VStr "__none__") then VStr "" else librarydeps).

(** ** Flags of a target *)

(** The [reduce] of [_get_target_abstract_flags] over the library
    dependencies: the public values of each one are appended. *)
Fixpoint public_values_loop (e : env) (itemname : string) (deps : list string)
    (values : list string) : list string :=
  match deps with
  | [] => values
  | dep :: rest =>
      let dep_kind := _get_target_item e dep "kind" in
      public_values_loop e itemname rest
        (if is_library_kind dep_kind then
           let depvalues := _get_target_item e dep (itemname +:+ "_public") in
           if test_nz depvalues then values ++ [to_string depvalues] else values
         else values)
  end.

Definition _get_target_abstract_flags (fuel : nat) (name toolkind toolname itemname : string)
    (values : jsval) : M string :=
  let _values := nullish values (VStr "") in
  _values ←
    (if strict_eq _values (VStr "") then
       e ← get_env;
       let _values := nullish (_get_target_item e name itemname) (VArr []) in
       deps ← _get_target_librarydeps fuel name;
       e ← get_env;
       dep_list ← lift (string_to_array (nullish deps (VStr "")));
       own ← lift (string_to_array _values);
       mret (VStr (Js.join " " (public_values_loop e itemname dep_list own)))
     else mret _values);
  e ← get_env;
  lift (_get_abstract_flags (cfg e) toolkind toolname itemname _values).

Definition _get_target_toolchain_flags_for_ar : string := "-cr".

Definition _get_target_toolchain_flags_for_gcc (e : env) (name toolkind : string) : string :=
  let flags := "" in
  let flags := if is_arch (cfg e) ["i386"] then "-m32" else flags in
  let targetkind := _get_target_item e name "kind" in
  if test_eq targetkind (VStr "shared") && test_eq (VStr toolkind) (VStr "sh")
  then "-shared -fPIC" else flags.

Definition _get_target_toolchain_flags_for_clang (e : env) (name toolkind : string) : string :=
  let flags := "-Qunused-arguments" in
  let flags := if is_arch (cfg e) ["i386"] then "-m32" else flags in
  let targetkind := _get_target_item e name "kind" in
  if test_eq targetkind (VStr "shared") && test_eq (VStr toolkind) (VStr "sh")
  then "-shared -fPIC" else flags.

Definition _get_target_toolchain_flags (e : env) (name toolkind toolname : string)
    : result string :=
  switch toolname
    [ ("gcc", Ret (_get_target_toolchain_flags_for_gcc e name toolkind));
      ("gxx", Ret (_get_target_toolchain_flags_for_gcc e name toolkind));
      ("clang", Ret (_get_target_toolchain_flags_for_clang e name toolkind));
      ("clangxx", Ret (_get_target_toolchain_flags_for_clang e name toolkind));
      ("ar", Ret _get_target_toolchain_flags_for_ar) ]
    (Throw (unknown_toolname toolname)).

(** The loop of [_get_target_compiler_flags] over the abstract item names. *)
Fixpoint target_flags_loop (fuel : nat) (name toolkind toolname : string)
    (itemnames : list string) (result : string) : M string :=
  match itemnames with
  | [] => mret result
  | itemname :: rest =>
      flags ← _get_target_abstract_flags fuel name toolkind toolname itemname VUndef;
      target_flags_loop fuel name toolkind toolname rest
        (if Js.nonempty flags then result +:+ " " +:+ flags else result)
  end.

Definition compiler_itemnames : list string :=
  ["symbols"; "optimizes"; "warnings"; "languages"; "defines"; "undefines";
   "includedirs"; "frameworkdirs"; "frameworks"].

Definition _get_target_compiler_flags (fuel : nat) (name toolkind : string) : M string :=
  e ← get_env;
  let program := _get_toolchain_toolset e (_target_toolchain (cfg e)) toolkind in
  toolname ← lift (path_toolname program);
  let result := "" in
  toolchain_flags ← lift (_get_target_toolchain_flags e name toolkind toolname);
  let result :=
    if Js.nonempty toolchain_flags then result +:+ " " +:+ toolchain_flags else result in
  result ← target_flags_loop fuel name toolkind toolname compiler_itemnames result;
  flagname ← lift (_get_flagname toolkind);
  e ← get_env;
  let flags := _get_target_item e name flagname in
  let result := if test_nz flags then result +:+ " " +:+ to_string flags else result in
  if String.eqb flagname "cflags" || String.eqb flagname "cxxflags" then
    let flags := _get_target_item e name "cxflags" in
    mret (if test_nz flags then result +:+ " " +:+ to_string flags else result)
  else if String.eqb flagname "mflags" || String.eqb flagname "mxxflags" then
    let flags := _get_target_item e name "mxflags" in
    mret (if test_nz flags then result +:+ " " +:+ to_string flags else result)
  else mret result.

(** ** The target-scope calls of a project script *)

(** The source's [target]. *)
Definition target_ (name : string) : M unit := fun e =>
  let e := with_target_current (VStr name) e in
  if negb (_loading_targets e) then Ret (tt, e)
  else
    let e := if negb (_map_has (maps e) "targets" (name +:+ "_name"))
             then with_targets (_xmake_sh_targets e +:+ " " +:+ name) e else e in
    Ret (tt, with_maps (_map_set (maps e) "targets" (name +:+ "_name") (VStr name)) e).

Definition target_end : M unit := modify_env (with_target_current (VStr "")).

(** A loop [for (const x of args) body(x)]. *)
Fixpoint for_each {A : Type} (args : list A) (body : A → M unit) : M unit :=
  match args with
  | [] => mret tt
  | x :: rest => body x;; for_each rest body
  end.

Definition add_deps (args : list string) : M unit :=
  e ← get_env;
  if negb (_loading_targets e) then mret tt
  else for_each args (λ dep,
         e ← get_env; _add_target_item (_xmake_sh_target_current e) "deps" (VStr dep)).

Definition has_public (args : list string) : bool :=
  bool_decide ("{public}" ∈ args).

Definition add_udefines (args : list string) : M unit :=
  e ← get_env;
  if _loading_targets e && test_z (_xmake_sh_option_current e) then
    for_each args (λ udefine,
      if test_nq (VStr udefine) (VStr "{public}")
      then _add_target_item (_xmake_sh_target_current e) "udefines" (VStr udefine)
      else mret tt);;
    if has_public args then
      for_each args (λ udefine,
        if test_nq (VStr udefine) (VStr "{public}")
        then _add_target_item (_xmake_sh_target_current e) "undefines_public" (VStr udefine)
        else mret tt)
    else mret tt
  else if _loading_options e && test_nz (_xmake_sh_option_current e) then
    for_each args (λ udefine,
      _add_option_item (_xmake_sh_option_current e) "udefines" (VStr udefine))
  else mret tt.

Definition add_defines (args : list string) : M unit :=
  e ← get_env;
  if _loading_targets e && test_z (_xmake_sh_option_current e) then
    for_each args (λ define,
      if test_nq (VStr define) (VStr "{public}")
      then _add_target_item (_xmake_sh_target_current e) "defines" (VStr define)
      else mret tt);;
    if has_public args then
      for_each args (λ define,
        if test_nq (VStr define) (VStr "{public}")
        then _add_target_item (_xmake_sh_target_current e) "defines_public" (VStr define)
        else mret tt)
    else mret tt
  else if _loading_options e && test_nz (_xmake_sh_option_current e) then
    for_each args (λ define,
      _add_option_item (_xmake_sh_option_current e) "defines" (VStr define))
  else mret tt.

Definition add_cfuncs (cfuncs : jsval) : M unit :=
  e ← get_env;
  if negb (_loading_options e) then mret tt
  else _add_option_item (_xmake_sh_option_current e) "cfuncs" cfuncs.

Definition add_cincludes (cincludes : jsval) : M unit :=
  e ← get_env;
  if negb (_loading_options e) then mret tt
  else _add_option_item (_xmake_sh_option_current e) "cincludes" cincludes.

Definition add_links (args : list string) : M unit :=
  e ← get_env;
  if _loading_targets e && test_z (_xmake_sh_option_current e) then
    for_each args (λ link,
      if test_nq (VStr link) (VStr "{public}")
      then _add_target_item (_xmake_sh_target_current e) "links" (VStr link)
      else mret tt);;
    if has_public args then
      for_each args (λ link,
        if test_nq (VStr link) (VStr "{public}")
        then _add_target_item (_xmake_sh_target_current e) "links_public" (VStr link)
        else mret tt)
    else mret tt
  else if _loading_options e && test_nz (_xmake_sh_option_current e) then
    for_each args (λ link,
      _add_option_item (_xmake_sh_option_current e) "links" (VStr link))
  else mret tt.

Definition set_version (version version_build : jsval) : M unit :=
  e ← get_env;
  if negb (_loading_targets e) then mret tt
  else
    _set_target_item (_xmake_sh_target_current e) "version" version;;
    _set_target_item (_xmake_sh_target_current e) "version_build" version_build.

Definition set_configvar (name : string) (value : jsval) : M unit :=
  e ← get_env;
  if negb (_loading_targets e) then mret tt
  else
    _set_target_item (_xmake_sh_target_current e) ("configvar_" +:+ name) value;;
    _add_target_item (_xmake_sh_target_current e) "configvars" (VStr name).

Definition set_filename (filename : jsval) : M unit :=
  e ← get_env;
  if negb (_loading_targets e) then mret tt
  else _set_target_item (_xmake_sh_target_current e) "filename" filename.

(** [set_kind] without the bookkeeping of [_targets_toolkinds]. *)
Definition set_kind (kind : string) : M unit :=
  e ← get_env;
  if negb (_loading_targets e) then mret tt
  else
    _set_target_item (_xmake_sh_target_current e) "kind" (VStr kind);;
    if String.eqb kind "binary" || String.eqb kind "static" || String.eqb kind "shared"
    then mret tt
    else lift (raise ("unknown target kind " +:+ kind)).

(** ** The command line *)

(** [str.toUpperCase()] for ASCII text: a string is its bytes here, and
    the letters outside ASCII are kept as they are. *)
Definition to_upper (a : ascii) : ascii :=
  let n := nat_of_ascii a in
  if ((97 <=? n)%nat && (n <=? 122)%nat) then ascii_of_nat (n - 32) else a.

Fixpoint string_toupper (str : string) : string :=
  match str with
  | EmptyString => EmptyString
  | String a r => String (to_upper a) (string_toupper r)
  end.

(** The part of [s] before its last [=], when it has one: what is left
    when the match of [=[^=]*$] is removed. *)
Fixpoint before_last_eq (s : string) : option string :=
  match s with
  | EmptyString => None
  | String a r =>
      match before_last_eq r with
      | Some p => Some (String a p)
      | None => if Ascii.eqb a "="%char then Some EmptyString else None
      end
  end.

(** The part of [s] after its first [=], when it has one: what is left
    when the match of [^[^=]*=] is removed. *)
Fixpoint after_first_eq (s : string) : option string :=
  match s with
  | EmptyString => None
  | String a r => if Ascii.eqb a "="%char then Some r else after_first_eq r
  end.

(** [--foo=yes => foo], with the default separator. *)
Definition _parse_argument_name (arg : string) : string :=
  let arg := if Js.startsWith arg "--" then Js.drop 2 arg else arg in
  default arg (before_last_eq arg).

(** [--foo=yes => yes], with the default separator. *)
Definition _parse_argument_value (arg : string) : string :=
  default arg (after_first_eq arg).

(** The loop of [_get_options_for_menu]. *)
Fixpoint _get_options_for_menu_loop (e : env) (names : list string) (options : string)
    : string :=
  match names with
  | [] => options
  | name :: rest =>
      let showmenu := _get_option_item e name "showmenu" in
      _get_options_for_menu_loop e rest
        (if _is_enabled showmenu then options +:+ " " +:+ name
         else if test_z showmenu && negb (_option_need_checking e name)
              then options +:+ " " +:+ name
              else options)
  end.

Definition _get_options_for_menu (e : env) : string :=
  _get_options_for_menu_loop e (words_of (_xmake_sh_options e)) "".

(** [" ".repeat(count)], which rejects a negative count. *)
Definition repeat_space (count : Z) : result string :=
  if count <? 0 then Throw "RangeError: Invalid count value"
  else Ret (string_of_list_ascii (replicate (Z.to_nat count) Js.space)).

(** The loop of [_show_options_usage].  [head.length] is the number of
    bytes here, which is that of JavaScript for names in ASCII. *)
Fixpoint _show_options_usage_loop (e : env) (names : list string) (usage : string)
    : result string :=
  match names with
  | [] => Ret usage
  | name :: rest =>
      let description := nullish (_get_option_item e name "description") (VStr "") in
      let _default := _get_option_item e name "default" in
      let head := "--" +:+ name +:+ "=" +:+ string_toupper name in
      let headsize := Z.of_nat (String.length head) in
      let tail := to_string description in
      let tail :=
        match _default with
        | VUndef => tail
        | _ => tail +:+ " (default: " +:+ (if _is_enabled _default then "yes" else "no") +:+ ")"
        end in
      let width := 24 in
      let padding_width := width - headsize in
      padding ← repeat_space padding_width;
      _show_options_usage_loop e rest
        (usage +:+ "  " +:+ head +:+ padding +:+ tail +:+ Js.lf)
  end.

Definition _show_options_usage (e : env) : result string :=
  _show_options_usage_loop e (words_of (_get_options_for_menu e)) "".

Definition xmake_sh_version : string := "1.0.3".

Definition xmake_sh_copyright : string :=
  "Copyright (C) 2022-present Ruki Wang, tboox.org, xmake.io.".

Section CommandLine.

(** [process.argv[0]] and the defaults computed from the host when
    the module is loaded. *)
Variable argv0 : string.
Variable _make_program_default _ninja_program_default : string.
Variable _target_plat_default _target_arch_default : string.

Definition _target_mode_default : string := "release".

Definition usage_text (e : env) (project_options : string) : string :=
  Js.lf +:+ "Usage: " +:+ argv0 +:+ " [<options>...]
Options: [defaults in brackets after descriptions]
Common options:
  --help                  Print this message.
  --version               Only print version information.
  --verbose               Display more information.
  --diagnosis             Display lots of diagnosis information.

  --generator=GENERATOR   Set the project generator. (default: "
  +:+ _project_generator (cfg e) +:+ ")
                            - gmake
                            - ninja
  --make=MAKE             Set the make program. (default: " +:+ _make_program_default +:+ ")
  --ninja=NINJA           Set the Ninja program. (default: " +:+ _ninja_program_default +:+ ")
  --plat=PLAT             Compile for the given platform. (default: "
  +:+ _target_plat_default +:+ ")
                            - msys
                            - cross
                            - bsd
                            - mingw
                            - macosx
                            - linux
  --arch=ARCH             Compile for the given architecture. (default: "
  +:+ _target_arch_default +:+ ")
                            - msys: i386 x86_64
                            - cross: i386 x86_64 arm arm64 mips mips64 riscv riscv64 s390x ppc ppc64 sh4
                            - bsd: i386 x86_64
                            - mingw: i386 x86_64 arm arm64
                            - macosx: x86_64 arm64
                            - linux: i386 x86_64 armv7 armv7s arm64-v8a mips mips64 mipsel mips64el
  --mode=MODE             Set the given compilation mode. (default: "
  +:+ _target_mode_default +:+ ")
                            - release
                            - debug
  --toolchain=TOOLCHAIN   Set toolchain name.
                            - clang
                            - gcc

  --prefix=PREFIX         Set install files directory in tree rooted at PREFIX. (default: "
  +:+ to_string (_install_prefix_default (cfg e)) +:+ ")
  --bindir=DIR            Set install binaries directory in PREFIX/DIR. (default: "
  +:+ _install_bindir_default (cfg e) +:+ ")
  --libdir=DIR            Set install libraries directory in PREFIX/DIR. (default: "
  +:+ _install_libdir_default (cfg e) +:+ ")
  --includedir=DIR        Set install includes directory in PREFIX/DIR. (default: "
  +:+ _install_includedir_default (cfg e) +:+ ")
  --buildir=DIR           Set build directory. (default: " +:+ xmake_sh_buildir (cfg e) +:+ ")

Project options:
" +:+ project_options.

(** [_show_usage]: the text is printed, then [process.exit(1)]. *)
Definition _show_usage {A : Type} : M A := fun e =>
  project_options ← _show_options_usage e;
  let e := emit (Log (usage_text e project_options)) e in
  Exit 1.

Definition version_banner : string :=
  "                         _               _            
    __  ___ __  __  __ _| | ______   ___| |__         
    \ \/ / |  \/  |/ _  | |/ / __ \ / __| '_  \       
     >  <  | \__/ | /_| |   <  ___/_\__ \ | | |       
    /_/\_\_|_|  |_|\__ \|_|\_\____(_)___/_| |_|       
                                     by ruki, xmake.io
                                                      
   👉  Manual: https://xmake.io/#/getting_started     
   🙏  Donate: https://xmake.io/#/sponsor             
                                                      ".

(** [_show_version]: the version, the copyright and the banner are
    printed, then [process.exit(2)]. *)
Definition _show_version {A : Type} : M A := fun e =>
  let e := emit (Log ("xmake.js v" +:+ xmake_sh_version
                      +:+ ", A script-only build utility like autotools")) e in
  let e := emit (Log xmake_sh_copyright) e in
  let e := emit (Log version_banner) e in
  Exit 2.

Definition set_cfg (f : config → config) : M bool := fun e =>
  Ret (true, with_cfg (f (cfg e)) e).

Definition _handle_option (arg : string) : M bool :=
  let name := _parse_argument_name arg in
  let value := _parse_argument_value arg in
  if String.eqb name "help" then _show_usage
  else if String.eqb name "version" then _show_version
  else if String.eqb name "verbose" then set_cfg (with_verbose true)
  else if String.eqb name "diagnosis" then set_cfg (with_diagnosis true)
  else if String.eqb name "plat" then set_cfg (with_plat value)
  else if String.eqb name "arch" then set_cfg (with_arch value)
  else if String.eqb name "mode" then set_cfg (with_mode value)
  else if String.eqb name "toolchain" then set_cfg (with_toolchain (VStr value))
  else if String.eqb name "generator" then set_cfg (with_generator value)
  else if String.eqb name "make" then set_cfg (with_make (VStr value))
  else if String.eqb name "ninja" then set_cfg (with_ninja (VStr value))
  else if String.eqb name "prefix" then set_cfg (with_prefix (VStr value))
  else if String.eqb name "bindir" then set_cfg (with_bindir value)
  else if String.eqb name "libdir" then set_cfg (with_libdir value)
  else if String.eqb name "includedir" then set_cfg (with_includedir value)
  else if String.eqb name "buildir" then set_cfg (with_buildir value)
  else
    e ← get_env;
    if _has_option e name then _set_option_value name (VStr value);; mret true
    else mret false.

(** The loop over [process.argv.slice(2)]. *)
Fixpoint handle_arguments (args : list string) : M unit :=
  match args with
  | [] => mret tt
  | option :: rest =>
      _handle_option option ≫= λ handled : bool,
      if handled then handle_arguments rest
      else lift (Throw ("Unknown option: " +:+ option))
  end.

End CommandLine.

(** The exit code of the process for each way the module can end: 0
    when it runs to its end, 1 for an uncaught exception (Node's rule),
    the argument of [process.exit] otherwise. *)
Definition exit_code {A : Type} (r : result A) : option Z :=
  match r with
  | Ret _ => Some 0
  | Throw _ => Some 1
  | Exit code => Some code
  | Diverge => None
  end.

(** ** Regular expressions of the templater *)

(** The regular-expression terms that occur in the source: the end
    assertion [$], a literal character, and the capturing group around
    a greedy [.*]. *)
Inductive renode : Type :=
| REnd
| RChar (c : ascii)
| RGroupDotStar.

(** A pattern passed to [replaceAll]: a string, or a regular expression
    with the [g] flag. *)
Inductive pattern : Type :=
| PStr (s : string)
| PRegex (nodes : list renode).

Definition is_line_terminator (a : ascii) : bool :=
  let n := nat_of_ascii a in (n =? 10)%nat || (n =? 13)%nat.

(** A match of [nodes] at the start of the subject: the captures and
    the number of characters consumed.  The group is greedy and
    backtracks. *)
Fixpoint rmatch (nodes : list renode) : string → option (list string * nat) :=
  match nodes with
  | [] => λ _, Some ([], O)
  | REnd :: ns => λ s,
      match s with
      | EmptyString => rmatch ns s
      | String _ _ => None
      end
  | RChar c :: ns => λ s,
      match s with
      | EmptyString => None
      | String a r =>
          if Ascii.eqb a c then
            match rmatch ns r with
            | Some (caps, n) => Some (caps, S n)
            | None => None
            end
          else None
      end
  | RGroupDotStar :: ns =>
      fix star (s : string) : option (list string * nat) :=
        let stop :=
          match rmatch ns s with
          | Some (caps, n) => Some (EmptyString :: caps, n)
          | None => None
          end in
        match s with
        | EmptyString => stop
        | String a r =>
            if is_line_terminator a then stop
            else match star r with
                 | Some (cap :: caps, n) => Some (String a cap :: caps, S n)
                 | _ => stop
                 end
        end
  end.

Definition digit_of (a : ascii) : option nat :=
  let n := nat_of_ascii a in
  if ((48 <=? n)%nat && (n <=? 57)%nat) then Some (n - 48)%nat else None.

(** The capture numbered [i] from 1, when there is one. *)
Definition capture (caps : list string) (i : nat) : option string :=
  match i with
  | O => None
  | S k => caps !! k
  end.

(** The replacement text for a match of a regular expression
    (GetSubstitution with captures): as [Js.substitution], and [$n] or
    [$nn] is the capture of that number when it exists. *)
Fixpoint substitution_re (matched before after : string) (caps : list string)
    (repl : string) : string :=
  match repl with
  | EmptyString => EmptyString
  | String a r =>
      if Ascii.eqb a "$"%char then
        match r with
        | String b r' =>
            if Ascii.eqb b "$"%char
            then String "$"%char (substitution_re matched before after caps r')
            else if Ascii.eqb b "&"%char
            then matched +:+ substitution_re matched before after caps r'
            else if Ascii.eqb b "`"%char
            then before +:+ substitution_re matched before after caps r'
            else if Ascii.eqb b "'"%char
            then after +:+ substitution_re matched before after caps r'
            else
              match digit_of b with
              | Some d1 =>
                  let one :=
                    match capture caps d1 with
                    | Some cap => cap +:+ substitution_re matched before after caps r'
                    | None => String a (substitution_re matched before after caps r)
                    end in
                  match r' with
                  | String c r'' =>
                      match digit_of c ≫= λ d2, capture caps (10 * d1 + d2) with
                      | Some cap => cap +:+ substitution_re matched before after caps r''
                      | None => one
                      end
                  | EmptyString => one
                  end
              | None => String a (substitution_re matched before after caps r)
              end
        | EmptyString => String a EmptyString
        end
      else String a (substitution_re matched before after caps r)
  end.

(** The first [n] characters of [s]. *)
Fixpoint take (n : nat) (s : string) : string :=
  match n, s with
  | S k, String a r => String a (take k r)
  | _, _ => EmptyString
  end.

(** The scan of [replaceAll] with a global regular expression. *)
Fixpoint regex_scan (nodes : list renode) (repl : string) (before : string)
    (skip : nat) (s : string) : string :=
  let here :=
    match rmatch nodes s with
    | Some (caps, n) =>
        Some (substitution_re (take n s) (String.rev before) (Js.drop n s) caps repl, n)
    | None => None
    end in
  match s with
  | EmptyString =>
      match skip with
      | O => match here with Some (text, _) => text | None => EmptyString end
      | S _ => EmptyString
      end
  | String a r =>
      match skip with
      | S k => regex_scan nodes repl (String a before) k r
      | O =>
          match here with
          | Some (text, O) => text +:+ String a (regex_scan nodes repl (String a before) O r)
          | Some (text, S k) => text +:+ regex_scan nodes repl (String a before) k r
          | None => String a (regex_scan nodes repl (String a before) O r)
          end
      end
  end.

Definition js_replaceAll (content : string) (searchValue : pattern) (replaceValue : jsval)
    : string :=
  match searchValue with
  | PStr pat => Js.replaceAll content pat (to_string replaceValue)
  | PRegex nodes => regex_scan nodes (to_string replaceValue) EmptyString O content
  end.

(** The regular expression of the final sweep, built by [new RegExp]
    from a dollar, an opening brace, the word define, a space, the
    group and a closing brace, with the [g] flag: the dollar is the end
    assertion and the braces are literal characters. *)
Definition sweep_regex : list renode :=
  REnd :: (RChar <$> list_ascii_of_string "{define ")
       ++ RGroupDotStar :: [RChar "}"%char].

(** ** The configfile templater *)

Definition _io_replace_file (infile : string) (patterns : list (pattern * jsval)) : string :=
  foldl (λ content p, js_replaceAll content p.1 p.2) infile patterns.

Definition _vprint_configvar_value (name : string) (value : jsval) : M unit :=
  vprint ("  > replace " +:+ name +:+ " -> " +:+ to_string value).

Definition _vprint_configvar_define (name : string) (value : jsval) : M unit :=
  if test_z value then
    vprint ("  > replace " +:+ name +:+ " -> /* #undef " +:+ name +:+ " */")
  else if test_eq value (VStr "1") || test_eq value (VStr "true") then
    vprint ("  > replace " +:+ name +:+ " -> #define " +:+ name +:+ " 1")
  else if test_eq value (VStr "0") || test_eq value (VStr "false") then
    vprint ("  > replace " +:+ name +:+ " -> #define " +:+ name +:+ " 0")
  else
    vprint ("  > replace " +:+ name +:+ " -> #define " +:+ name +:+ " " +:+ to_string value).

Definition _replace_configvar_define (name : string) (value : jsval) : pattern * jsval :=
  if test_z value then
    (PStr ("${define " +:+ name +:+ "}"), VStr ("/*#undef " +:+ name +:+ "*/"))
  else if test_eq value (VStr "1") || test_eq value (VStr "true") then
    (PStr ("${define " +:+ name +:+ "}"), VStr ("#define " +:+ name +:+ " 1"))
  else if test_eq value (VStr "0") || test_eq value (VStr "false") then
    (PStr ("${define " +:+ name +:+ "}"), VStr ("/*#define " +:+ name +:+ " 0*/"))
  else
    (PStr ("${define " +:+ name +:+ "}"),
     VStr ("#define " +:+ name +:+ " " +:+ to_string value)).

Definition _replace_configvar_value (name : string) (value : jsval) : pattern * jsval :=
  (PStr ("${" +:+ name +:+ "}"), value).

(** [string_split(str, sep)] without an index: [split] exists on
    strings only. *)
Definition string_split (str : jsval) (sep : ascii) : result (list string) :=
  match str with
  | VStr s => Ret (Js.split sep s)
  | _ => Throw "TypeError: str.split is not a function"
  end.

(** The element [i] of an array destructuring. *)
Definition element (l : list string) (i : nat) : jsval :=
  match l !! i with
  | Some s => VStr s
  | None => VUndef
  end.

(** One step of the templater: when [value] is not empty it is traced
    and a substitution of [${name}] is added. *)
Definition add_value_pattern (name : string) (value : jsval)
    (patterns : list (pattern * jsval)) : M (list (pattern * jsval)) :=
  if test_nz value then
    _vprint_configvar_value name value;;
    mret (patterns ++ [_replace_configvar_value name value])
  else mret patterns.

(** The loop of the templater over the configvars of the target. *)
Fixpoint configvars_loop (target : string) (names : list string)
    (patterns : list (pattern * jsval)) : M (list (pattern * jsval)) :=
  match names with
  | [] => mret patterns
  | name :: rest =>
      e ← get_env;
      let value := _get_target_item e target ("configvar_" +:+ name) in
      _vprint_configvar_define name value;;
      _vprint_configvar_value name value;;
      configvars_loop target rest
        (patterns ++ [_replace_configvar_define name value; _replace_configvar_value name value])
  end.

(** The last two steps of [_generate_configfile] on the text of the
    template: the collected substitutions, then the final sweep. *)
Definition substitute_configfile (content : string) (patterns : list (pattern * jsval))
    : string :=
  let content :=
    if (0 <? Z.of_nat (length patterns)) then _io_replace_file content patterns
    else content in
  _io_replace_file content [(PRegex sweep_regex, VStr "/*#undef $1*/")].

Section Templater.

(** Node's [path] functions, the file system, the commands run
    through [execaSync] with a pipe (their exit code and output, or
    nothing when the call throws) and the text that [dayjs] formats. *)
Variable path_join : list string → string.
Variable path_dirname : string → string.
Variable path_parse_name : string → string.
Variable file_exists : list event → string → bool.
Variable read_file : list event → string → result string.
Variable exec_pipe : list event → string → list string → option (Z * string).
Variable dayjs_format : string → string.

Definition _os_date (format : jsval) : string := dayjs_format "YYYYMMDDTHHmm".

Definition _os_iorunv (program : string) (args : list string) : M string := fun e =>
  let out := exec_pipe (trace e) program args in
  Ret (match out with
       | Some (ok, stdout) => if Z.eqb ok 0 then stdout else ""
       | None => ""
       end, emit (Run program args) e).

(** [path_directory]: its guard tests the imported module [path],
    which is never empty. *)
Definition path_directory (str : string) : string := path_dirname str.

Definition path_basename (str : string) : string := path_parse_name str.

Definition git_pattern (name program : string) (args : list string)
    (patterns : list (pattern * jsval)) : M (list (pattern * jsval)) :=
  out ← _os_iorunv program args;
  add_value_pattern name (VStr out) patterns.

Definition _generate_configfile (target : string) (configfile_in : string) : M unit :=
  e ← get_env;
  let configdir := _get_target_item e target "configdir" in
  let configdir := if test_z configdir then VStr (path_directory configfile_in) else configdir in
  (if negb (file_exists (trace e) (to_string configdir))
   then modify_env (emit (Mkdir (to_string configdir))) else mret tt);;
  let filename := path_basename configfile_in in
  configfile ← lift (js_path_join path_join [configdir; VStr filename]);
  print ("generating " +:+ configfile +:+ " ..");;
  let patterns := [] in
  let target_os :=
    if is_plat (cfg e) ["mingw"] then "windows" else _target_plat (cfg e) in
  let target_os := string_toupper target_os in
  _vprint_configvar_value "OS" (VStr target_os);;
  let patterns := patterns ++ [_replace_configvar_value "OS" (VStr target_os)] in
  let version := _get_target_item e target "version" in
  let version_build := _get_target_item e target "version_build" in
  parts ← lift (string_split version "."%char);
  let version_major := element parts 0 in
  let version_minor := element parts 1 in
  let version_alter := element parts 2 in
  patterns ← add_value_pattern "VERSION" version patterns;
  patterns ← add_value_pattern "VERSION_MAJOR" version_major patterns;
  patterns ← add_value_pattern "VERSION_MINOR" version_minor patterns;
  patterns ← add_value_pattern "VERSION_ALTER" version_alter patterns;
  patterns ←
    (if test_nz version_build
     then
       let version_build := VStr (_os_date version_build) in
       _vprint_configvar_value "VERSION_BUILD" version_build;;
       mret (patterns ++ [_replace_configvar_value "VERSION_BUILD" version_build])
     else mret patterns);
  e1 ← get_env;
  content ← lift (read_file (trace e1) configfile_in);
  patterns ←
    (if string_contains content "GIT_" then
       patterns ← git_pattern "GIT_TAG" "git" ["describe"; "--tags"] patterns;
       patterns ← git_pattern "GIT_TAG_LONG" "git" ["describe"; "--tags"; "--long"] patterns;
       patterns ← git_pattern "GIT_BRANCH" "git" ["rev-parse"; "--abbrev-ref"; "HEAD"] patterns;
       patterns ← git_pattern "GIT_COMMIT" "git" ["rev-parse"; "--short"; "HEAD"] patterns;
       patterns ← git_pattern "GIT_COMMIT_LONG" "git" ["rev-parse"; "HEAD"] patterns;
       git_pattern "GIT_COMMIT_DATE" "log"
         ["-1"; "--date=format:%Y%m%d%H%M%S"; "--format=%ad"] patterns
     else mret patterns);
  let configvars := nullish (_get_target_item e target "configvars") (VStr "") in
  names ← lift (string_to_array configvars);
  patterns ← configvars_loop target names patterns;
  let content := substitute_configfile content patterns in
  modify_env (emit (WriteFile configfile content));;
  print (configfile +:+ " is generated!").

End Templater.

(** ** The run of the module *)

Section Main.

(** [process.argv[0]], the defaults computed from the host, the
    commands and temporary names of the host, and the parts of the run
    that are taken as given: the evaluation of the project scripts, the
    built-in toolchain declarations, the toolchain detection, the
    configfile generation and the makefile writer. *)
Variable argv0 : string.
Variable _make_program_default _ninja_program_default : string.
Variable _target_plat_default _target_arch_default : string.
Variable exec : list event → string → list string → Z.
Variable tmp_name : nat → string.
Variable load_scripts : M unit.
Variable declare_toolchains : M unit.
Variable _check_toolchain : M unit.
Variable _generate_configfiles : M unit.
Variable _generate_for_gmake : M unit.

Definition _load_options_and_toolchains : M unit :=
  modify_env (with_loading true true false);;
  load_scripts.

(** [a || b] on strings. *)
Definition or_default (a b : string) : string := if Js.nonempty a then a else b.

Definition _check_platform : M unit :=
  modify_env (λ e,
    with_cfg
      (with_mode (or_default (_target_mode (cfg e)) _target_mode_default)
         (with_arch (or_default (_target_arch (cfg e)) _target_arch_default)
            (with_plat (or_default (_target_plat (cfg e)) _target_plat_default) (cfg e))))
      e);;
  e ← get_env;
  print ("checking for platform ... " +:+ _target_plat (cfg e));;
  print ("checking for architecture ... " +:+ _target_arch (cfg e)).

Definition _check_all : M unit :=
  _check_platform;;
  _check_toolchain;;
  _check_options exec tmp_name.

Definition _load_targets : M unit :=
  modify_env (λ e,
    with_target_current (VStr "")
      (with_option_current (VStr "") (with_loading false false true e)));;
  load_scripts.

Definition _generate_for_ninja : M unit :=
  lift (Throw "Ninja generator has been not supported!").

Definition _generate_build_file : M unit :=
  e ← get_env;
  if String.eqb (_project_generator (cfg e)) "gmake" then _generate_for_gmake
  else if String.eqb (_project_generator (cfg e)) "ninja" then _generate_for_ninja
  else lift (Throw ("unknown generator: " +:+ _project_generator (cfg e))).

(** The statements of the module in their order, for the arguments
    [process.argv.slice(2)]. *)
Definition configure (args : list string) : M unit :=
  _load_options_and_toolchains;;
  handle_arguments argv0 _make_program_default _ninja_program_default
    _target_plat_default _target_arch_default args;;
  declare_toolchains;;
  _check_all;;
  _load_targets;;
  _generate_configfiles;;
  _generate_build_file.

End Main.
(** * The rest of the module *)

(** ** The host *)

(** The value of [os_host] once the tests that follow its
    initialisation have run; [os_type] is [os.type().toLowerCase()]. *)
Definition os_host (os_type : string) : string :=
  let os_host := os_type in
  let os_host := if Js.contains os_host "cygwin" then "cygwin" else os_host in
  let os_host := if Js.contains os_host "msys" then "msys" else os_host in
  let os_host := if Js.contains os_host "mingw" then "msys" else os_host in
  let os_host := if Js.contains os_host "darwin" then "macosx" else os_host in
  let os_host := if Js.contains os_host "linux" then "linux" else os_host in
  let os_host := if Js.contains os_host "freebsd" then "freebsd" else os_host in
  let os_host := if Js.contains os_host "bsd" then "bsd" else os_host in
  os_host.

Definition is_host (os_host : string) (hosts : list string) : bool :=
  bool_decide (os_host ∈ hosts).

(** The value of [os_arch]; [arch] is [os.arch().toLowerCase()]. *)
Definition os_arch (arch : string) : string :=
  let os_arch := arch in
  let os_arch := if test_eq (VStr os_arch) (VStr "x64") then "x86_64" else os_arch in
  let os_arch := if test_eq (VStr os_arch) (VStr "i686") then "i386" else os_arch in
  os_arch.

(** The defaults that depend on the host. *)
Definition _target_plat_default (os_host : string) : string :=
  if is_host os_host ["msys"] then "mingw" else os_host.

Definition _make_program_default (os_host : string) : string :=
  if is_host os_host ["freebsd"; "bsd"] then "gmake"
  else if is_host os_host ["msys"; "cygwin"] then "make.exe"
  else "make".

Definition _ninja_program_default (os_host : string) : string :=
  if is_host os_host ["freebsd"; "bsd"] then "ninja"
  else if is_host os_host ["msys"; "cygwin"] then "ninja.exe"
  else "ninja".

(** ** Source kinds *)

Definition path_sourcekind (file : string) : result string :=
  if Js.endsWith file ".cpp" then Ret "cxx"
  else if Js.endsWith file ".cc" then Ret "cxx"
  else if Js.endsWith file ".c" then Ret "cc"
  else if Js.endsWith file ".ixx" then Ret "cxx"
  else if Js.endsWith file ".mm" then Ret "mxx"
  else if Js.endsWith file ".m" then Ret "mm"
  else if Js.endsWith file ".S" then Ret "as"
  else if Js.endsWith file ".s" then Ret "as"
  else if Js.endsWith file ".asm" then Ret "as"
  else raise ("unknown sourcekind for " +:+ file).

(** ** More calls of the option and target scopes *)

Definition set_showmenu (show : jsval) : M unit :=
  e ← get_env;
  if negb (_loading_options e) then mret tt
  else _set_option_item (_xmake_sh_option_current e) "showmenu" show.

Definition set_description (description : jsval) : M unit :=
  e ← get_env;
  if negb (_loading_options e) then mret tt
  else _set_option_item (_xmake_sh_option_current e) "description" description.

Definition set_default (_default : jsval) : M unit :=
  e ← get_env;
  if _loading_targets e && test_z (_xmake_sh_option_current e) then
    _set_target_item (_xmake_sh_target_current e) "default" _default
  else if _loading_options e && test_nz (_xmake_sh_option_current e) then
    _set_option_item (_xmake_sh_option_current e) "default" _default
  else mret tt.

Definition _is_target_default (e : env) (name : string) : bool :=
  if _has_target_item e name "default" then
    let defaultValue := _get_target_item e name "default" in
    _is_enabled defaultValue
  else true.

(** ** The variables left out so far *)

(** The module keeps more variables than [env] holds: the toolchain
    scope, the outcomes of the compiler checks, the directory of the
    script being read and the text of the makefile being written. *)
Record session : Type := Session {
  vars : env;
  _xmake_sh_toolchains : string;
  _xmake_sh_toolchain_current : jsval;
  _toolchain_try_gcc_result : string;
  _toolchain_try_gxx_result : string;
  _toolchain_try_clang_result : string;
  _toolchain_try_clangxx_result : string;
  xmake_sh_scriptdir : jsval;
  makefile : string
}.

Definition with_vars (e : env) (s : session) : session :=
  Session e (_xmake_sh_toolchains s) (_xmake_sh_toolchain_current s)
    (_toolchain_try_gcc_result s) (_toolchain_try_gxx_result s)
    (_toolchain_try_clang_result s) (_toolchain_try_clangxx_result s)
    (xmake_sh_scriptdir s) (makefile s).
Definition with_toolchains (v : string) (s : session) : session :=
  Session (vars s) v (_xmake_sh_toolchain_current s)
    (_toolchain_try_gcc_result s) (_toolchain_try_gxx_result s)
    (_toolchain_try_clang_result s) (_toolchain_try_clangxx_result s)
    (xmake_sh_scriptdir s) (makefile s).
Definition with_toolchain_current (v : jsval) (s : session) : session :=
  Session (vars s) (_xmake_sh_toolchains s) v
    (_toolchain_try_gcc_result s) (_toolchain_try_gxx_result s)
    (_toolchain_try_clang_result s) (_toolchain_try_clangxx_result s)
    (xmake_sh_scriptdir s) (makefile s).
Definition with_try_gcc_result (v : string) (s : session) : session :=
  Session (vars s) (_xmake_sh_toolchains s) (_xmake_sh_toolchain_current s)
    v (_toolchain_try_gxx_result s)
    (_toolchain_try_clang_result s) (_toolchain_try_clangxx_result s)
    (xmake_sh_scriptdir s) (makefile s).
Definition with_try_gxx_result (v : string) (s : session) : session :=
  Session (vars s) (_xmake_sh_toolchains s) (_xmake_sh_toolchain_current s)
    (_toolchain_try_gcc_result s) v
    (_toolchain_try_clang_result s) (_toolchain_try_clangxx_result s)
    (xmake_sh_scriptdir s) (makefile s).
Definition with_try_clang_result (v : string) (s : session) : session :=
  Session (vars s) (_xmake_sh_toolchains s) (_xmake_sh_toolchain_current s)
    (_toolchain_try_gcc_result s) (_toolchain_try_gxx_result s)
    v (_toolchain_try_clangxx_result s)
    (xmake_sh_scriptdir s) (makefile s).
Definition with_try_clangxx_result (v : string) (s : session) : session :=
  Session (vars s) (_xmake_sh_toolchains s) (_xmake_sh_toolchain_current s)
    (_toolchain_try_gcc_result s) (_toolchain_try_gxx_result s)
    (_toolchain_try_clang_result s) v
    (xmake_sh_scriptdir s) (makefile s).
Definition with_scriptdir (v : jsval) (s : session) : session :=
  Session (vars s) (_xmake_sh_toolchains s) (_xmake_sh_toolchain_current s)
    (_toolchain_try_gcc_result s) (_toolchain_try_gxx_result s)
    (_toolchain_try_clang_result s) (_toolchain_try_clangxx_result s)
    v (makefile s).
Definition with_makefile (v : string) (s : session) : session :=
  Session (vars s) (_xmake_sh_toolchains s) (_xmake_sh_toolchain_current s)
    (_toolchain_try_gcc_result s) (_toolchain_try_gxx_result s)
    (_toolchain_try_clang_result s) (_toolchain_try_clangxx_result s)
    (xmake_sh_scriptdir s) v.

(** A call that reads and writes all of these variables. *)
Definition G (A : Type) : Type := session → result (A * session).

#[global] Instance G_ret : MRet G := fun A a s => Ret (a, s).
#[global] Instance G_bind : MBind G := fun A B f m s =>
  match m s with
  | Ret (a, s') => f a s'
  | Throw msg => Throw msg
  | Exit code => Exit code
  | Diverge => Diverge
  end.

(** A call on the variables of [env], within a session. *)
Definition on_vars {A : Type} (m : M A) : G A := fun s =>
  match m (vars s) with
  | Ret (a, e') => Ret (a, with_vars e' s)
  | Throw msg => Throw msg
  | Exit code => Exit code
  | Diverge => Diverge
  end.

Definition get_session : G session := fun s => Ret (s, s).
Definition modify_session (f : session → session) : G unit := fun s => Ret (tt, f s).

(** ** The toolchain scope *)

(** The source's [toolchain]. *)
Definition toolchain_ (name : string) : G bool := fun s =>
  let s := with_toolchain_current (VStr name) s in
  if negb (_loading_toolchains (vars s)) then Ret (false, s)
  else
    let s := with_toolchains (_xmake_sh_toolchains s +:+ " " +:+ name) s in
    Ret (true,
         with_vars (with_maps (_map_set (maps (vars s)) "toolchains" (name +:+ "_name")
                                 (VStr name)) (vars s)) s).

Definition toolchain_end : G unit := modify_session (with_toolchain_current (VStr "")).

Definition _has_toolchain (e : env) (name : string) : bool :=
  _map_has (maps e) "toolchains" (name +:+ "_name").

Definition _set_toolchain_item (name : jsval) (key : string) (value : jsval) : M unit := fun e =>
  if test_nz name then
    Ret (tt, with_maps (_map_set (maps e) "toolchains" (to_string name +:+ "_" +:+ key) value) e)
  else raise "please set toolchain in the toolchain scope!".

Definition _set_toolchain_toolset (name : jsval) (kind : string) (programs : jsval) : M unit :=
  _set_toolchain_item name ("toolset_" +:+ kind) programs.

Definition _add_toolchain_toolset (name : jsval) (kind : string) (program : jsval) : M unit :=
  e ← get_env;
  let programs := _get_toolchain_item e name ("toolset_" +:+ kind) in
  let programs :=
    if test_nz programs then VStr (to_string programs +:+ ":" +:+ to_string program)
    else VStr (to_string program) in
  _set_toolchain_item name ("toolset_" +:+ kind) programs.

(** The key of the program number [idx] of a tool kind. *)
Definition toolset_key (kind : string) (idx : nat) : string :=
  match idx with
  | O => kind
  | _ => kind +:+ "_" +:+ to_string (VNum (Z.of_nat idx))
  end.

(** The loop of [set_toolset] over the programs, from the index [idx]. *)
Fixpoint set_toolset_loop (current : jsval) (kind : string) (programs : list string)
    (idx : nat) : M unit :=
  match programs with
  | [] => mret tt
  | program :: rest =>
      _set_toolchain_toolset current (toolset_key kind idx) (VStr program);;
      set_toolset_loop current kind rest (S idx)
  end.

Definition set_toolset (kind : string) (programs : list string) : G unit :=
  s ← get_session;
  if negb (_loading_toolchains (vars s)) then mret tt
  else on_vars (set_toolset_loop (_xmake_sh_toolchain_current s) kind programs 0).

(** The toolchains that the module declares itself, after the project
    scripts have been read; [CC], [CXX], [AS], [LD] and [AR] are the
    environment variables of these names, empty when unset. *)
Definition declare_envs_toolchain (CC CXX AS LD AR : string) : G unit :=
  toolchain_ "envs";;
  set_toolset "as" [CC; CXX; AS];;
  set_toolset "cc" [CC];;
  set_toolset "cxx" [CC; CXX];;
  set_toolset "mm" [CC; CXX];;
  set_toolset "mxx" [CC; CXX];;
  set_toolset "ld" [CXX; CC; LD];;
  set_toolset "sh" [CXX; CC; LD];;
  set_toolset "ar" [AR];;
  toolchain_end.

Definition declare_clang_toolchain : G unit :=
  toolchain_ "clang";;
  set_toolset "as" ["clang"];;
  set_toolset "cc" ["clang"];;
  set_toolset "cxx" ["clang"; "clang++"];;
  set_toolset "mm" ["clang"];;
  set_toolset "mxx" ["clang"; "clang++"];;
  set_toolset "ld" ["clang++"; "clang"];;
  set_toolset "sh" ["clang++"; "clang"];;
  set_toolset "ar" ["ar"];;
  toolchain_end.

Definition declare_gcc_toolchain : G unit :=
  toolchain_ "gcc";;
  set_toolset "as" ["gcc"];;
  set_toolset "cc" ["gcc"];;
  set_toolset "cxx" ["gcc"; "g++"];;
  set_toolset "mm" ["gcc"];;
  set_toolset "mxx" ["gcc"; "g++"];;
  set_toolset "ld" ["g++"; "gcc"];;
  set_toolset "sh" ["g++"; "gcc"];;
  set_toolset "ar" ["ar"];;
  toolchain_end.

Definition declare_mingw_toolchain (name triple : string) : G unit :=
  toolchain_ name;;
  set_toolset "as" [triple +:+ "-gcc"];;
  set_toolset "cc" [triple +:+ "-gcc"];;
  set_toolset "cxx" [triple +:+ "-gcc"; triple +:+ "-g++"];;
  set_toolset "mm" [triple +:+ "-gcc"];;
  set_toolset "mxx" [triple +:+ "-gcc"; triple +:+ "-g++"];;
  set_toolset "ld" [triple +:+ "-g++"; triple +:+ "-gcc"];;
  set_toolset "sh" [triple +:+ "-g++"; triple +:+ "-gcc"];;
  set_toolset "ar" [triple +:+ "-ar"; "ar"];;
  toolchain_end.

Definition declare_builtin_toolchains (CC CXX AS LD AR : string) : G unit :=
  declare_envs_toolchain CC CXX AS LD AR;;
  declare_clang_toolchain;;
  declare_gcc_toolchain;;
  declare_mingw_toolchain "x86_64_w64_mingw32" "x86_64-w64-mingw32";;
  declare_mingw_toolchain "i686_w64_mingw32" "i686-w64-mingw32".

(** ** The detection of the toolchain *)

Section Detector.

Variable exec : list event → string → list string → Z.
Variable tmp_name : nat → string.

(** The default of the make and ninja programs on this host. *)
Variable make_default ninja_default : string.

Definition _toolchain_try_make (program : string) : G bool :=
  on_vars (_os_runv exec program ["--version"]).

Definition _toolchain_try_ninja (program : string) : G bool :=
  on_vars (_os_runv exec program ["--version"]).

Definition _toolchain_try_gcc (kind program : string) : G bool :=
  s ← get_session;
  if String.eqb (_toolchain_try_gcc_result s) "ok" then mret true
  else if String.eqb (_toolchain_try_gcc_result s) "no" then mret false
  else
    on_vars (_os_runv exec program ["--version"]) ≫= λ ok : bool,
    if ok then modify_session (with_try_gcc_result "ok");; mret true
    else modify_session (with_try_gcc_result "no");; mret false.

Definition _toolchain_try_gxx (kind program : string) : G bool :=
  s ← get_session;
  if String.eqb (_toolchain_try_gxx_result s) "ok" then mret true
  else if String.eqb (_toolchain_try_gxx_result s) "no" then mret false
  else
    on_vars (_os_runv exec (program +:+ " --version") []) ≫= λ ok : bool,
    if ok then modify_session (with_try_gxx_result "ok");; mret true
    else modify_session (with_try_gxx_result "no");; mret false.

Definition _toolchain_try_clang (kind program : string) : G bool :=
  s ← get_session;
  if String.eqb (_toolchain_try_clang_result s) "ok" then mret true
  else if String.eqb (_toolchain_try_clang_result s) "no" then mret false
  else
    on_vars (_os_runv exec (program +:+ " --version") []) ≫= λ ok : bool,
    if ok then modify_session (with_try_clang_result "ok");; mret true
    else modify_session (with_try_clang_result "no");; mret false.

Definition _toolchain_try_clangxx (kind program : string) : G bool :=
  s ← get_session;
  if String.eqb (_toolchain_try_clangxx_result s) "ok" then mret true
  else if String.eqb (_toolchain_try_clangxx_result s) "no" then mret false
  else
    on_vars (_os_runv exec (program +:+ " --version") []) ≫= λ ok : bool,
    if ok then modify_session (with_try_clangxx_result "ok");; mret true
    else modify_session (with_try_clangxx_result "no");; mret false.

Definition _toolchain_try_ar (kind program : string) : G bool :=
  on_vars (
    tmpfile ← _os_tmpfile tmp_name;
    let objectfile := tmpfile +:+ ".o" in
    let libraryfile := tmpfile +:+ ".a" in
    writeFileSync objectfile "";;
    _os_runv exec program ["-cr"; libraryfile; objectfile] ≫= λ ok : bool,
    _os_tryrm objectfile;;
    _os_tryrm libraryfile;;
    mret ok).

Definition _toolchain_try_program (toolchain kind : string) (program : jsval) : G bool :=
  on_vars (lift (path_toolname program)) ≫= λ toolname : string,
  (if String.eqb toolname "gcc" then _toolchain_try_gcc kind (to_string program)
   else if String.eqb toolname "gxx" then _toolchain_try_gxx kind (to_string program)
   else if String.eqb toolname "clang" then _toolchain_try_clang kind (to_string program)
   else if String.eqb toolname "clangxx"
   then _toolchain_try_clangxx kind (to_string program)
   else if String.eqb toolname "ar" then _toolchain_try_ar kind (to_string program)
   else on_vars (lift (raise (unknown_toolname toolname)))) ≫= λ ok : bool,
  if ok then
    on_vars (vprint ("checking for " +:+ to_string program +:+ " ... ok"));; mret true
  else
    on_vars (vprint ("checking for " +:+ to_string program +:+ " ... no"));; mret false.

(** The loop of [_toolchain_try_toolset] over the indices. *)
Fixpoint _toolchain_try_toolset_loop (toolchain kind description : string)
    (indices : list nat) : G bool :=
  match indices with
  | [] => mret false
  | idx :: rest =>
      let key := toolset_key kind idx in
      s ← get_session;
      let program := _get_toolchain_toolset (vars s) (VStr toolchain) key in
      if test_nz program then
        _toolchain_try_program toolchain kind program ≫= λ ok : bool,
        if ok then
          on_vars (_set_toolchain_toolset (VStr toolchain) kind program);;
          on_vars (print ("checking for the " +:+ description +:+ " (" +:+ kind +:+ ") ... "
                          +:+ to_string program));;
          mret true
        else _toolchain_try_toolset_loop toolchain kind description rest
      else _toolchain_try_toolset_loop toolchain kind description rest
  end.

Definition _toolchain_try_toolset (toolchain kind description : string) : G bool :=
  _toolchain_try_toolset_loop toolchain kind description [0; 1; 2; 3; 4; 5]%nat.

(** The tool kinds that a toolchain must serve, with their descriptions. *)
Definition toolchain_kinds : list (string * string) :=
  [ ("cc", "c compiler"); ("cxx", "c++ compiler"); ("as", "assembler");
    ("mm", "objc compiler"); ("mxx", "objc++ compiler"); ("ld", "linker");
    ("ar", "static library archiver"); ("sh", "shared library linker") ].

(** The conjunction of [_toolchain_try]: it stops at the first kind
    that no program serves. *)
Fixpoint _toolchain_try_kinds (toolchain : string) (kinds : list (string * string)) : G bool :=
  match kinds with
  | [] => mret true
  | (kind, description) :: rest =>
      _toolchain_try_toolset toolchain kind description ≫= λ ok : bool,
      if ok then _toolchain_try_kinds toolchain rest else mret false
  end.

Definition _toolchain_try (toolchain : string) : G bool :=
  on_vars (vprint ("checking for " +:+ toolchain +:+ " toolchain ..."));;
  _toolchain_try_kinds toolchain toolchain_kinds.

Definition _toolchain_detect_make : G unit :=
  s ← get_session;
  let program := nullish (_make_program (cfg (vars s))) (VStr make_default) in
  on_vars (modify_env (λ e, with_cfg (with_make program (cfg e)) e));;
  _toolchain_try_make (to_string program) ≫= λ ok : bool,
  if ok then on_vars (print "checking for make ... ok")
  else on_vars (print "checking for make ... no");; on_vars (lift (raise "make not found!")).

Definition _toolchain_detect_ninja : G unit :=
  s ← get_session;
  let program := nullish (_ninja_program (cfg (vars s))) (VStr ninja_default) in
  on_vars (modify_env (λ e, with_cfg (with_ninja program (cfg e)) e));;
  _toolchain_try_ninja (to_string program) ≫= λ ok : bool,
  if ok then on_vars (print "checking for ninja ... ok")
  else on_vars (print "checking for ninja ... no");; on_vars (lift (raise "ninja not found!")).

Definition _toolchain_detect_backend : G unit :=
  s ← get_session;
  if String.eqb (_project_generator (cfg (vars s))) "gmake" then _toolchain_detect_make
  else if String.eqb (_project_generator (cfg (vars s))) "ninja" then _toolchain_detect_ninja
  else mret tt.

(** The loop of [_toolchain_detect]: the first toolchain that serves
    every kind is taken. *)
Fixpoint _toolchain_detect_loop (toolchains : list string) : G unit :=
  match toolchains with
  | [] => mret tt
  | toolchain :: rest =>
      _toolchain_try toolchain ≫= λ ok : bool,
      if ok then
        on_vars (modify_env (λ e, with_cfg (with_toolchain (VStr toolchain) (cfg e)) e))
      else _toolchain_detect_loop rest
  end.

(** [_toolchain_detect]; [split] exists on strings only. *)
Definition _toolchain_detect (toolchains : jsval) : G unit :=
  _toolchain_detect_backend;;
  s ← get_session;
  let c := cfg (vars s) in
  let toolchains :=
    if test_z toolchains then
      if is_plat c ["macosx"] then VStr "envs clang gcc"
      else if is_plat c ["mingw"] then
        if is_arch c ["i386"] then VStr "i686_w64_mingw32" else VStr "x86_64_w64_mingw32"
      else VStr "envs gcc clang"
    else toolchains in
  match toolchains with
  | VStr toolchains => _toolchain_detect_loop (Js.split Js.space toolchains)
  | _ => on_vars (lift (Throw "TypeError: toolchains.split is not a function"))
  end.

Definition _check_toolchain : G unit :=
  s ← get_session;
  let toolchain := _target_toolchain (cfg (vars s)) in
  on_vars (modify_env (λ e, with_cfg (with_toolchain (VStr "") (cfg e)) e));;
  _toolchain_detect toolchain;;
  s ← get_session;
  if test_nz (_target_toolchain (cfg (vars s))) then
    on_vars (print ("checking for toolchain ... "
                    +:+ to_string (_target_toolchain (cfg (vars s)))))
  else
    on_vars (print "checking for toolchain ... no");;
    on_vars (lift (Throw "toolchain not found!")).

End Detector.


(** ** The build rules of the makefile *)

Section Makefile.

(** Node's [path.join] and [path.dirname]. *)
Variable path_join : list string → string.
Variable path_dirname : string → string.

(** [fs.appendFileSync(xmake_sh_makefile, data)] *)
Definition appendFileSync (data : string) : G unit :=
  modify_session (λ s, with_makefile (makefile s +:+ data) s).

Definition _get_target_objectdir (e : env) (name : string) : result jsval :=
  let objectdir := _get_target_item e name "objectdir" in
  if test_z objectdir then
    VStr <$> js_path_join path_join
               [VStr (xmake_sh_buildir (cfg e)); VStr ".objs"; VStr name;
                VStr (_target_plat (cfg e)); VStr (_target_arch (cfg e));
                VStr (_target_mode (cfg e))]
  else Ret objectdir.

Definition _get_target_sourcefiles (e : env) (name : string) : jsval :=
  _get_target_item e name "files".

Definition _get_target_objectfile (e : env) (name sourcefile : string) : result string :=
  let extension := if is_plat (cfg e) ["mingw"] then ".obj" else ".o" in
  objectdir ← _get_target_objectdir e name;
  js_path_join path_join [objectdir; VStr (sourcefile +:+ extension)].

(** The [map] of [_get_target_objectfiles]. *)
Fixpoint objectfiles_loop (e : env) (name : string) (sourcefiles : list string)
    : result (list string) :=
  match sourcefiles with
  | [] => Ret []
  | sourcefile :: rest =>
      objectfile ← _get_target_objectfile e name sourcefile;
      objectfiles ← objectfiles_loop e name rest;
      Ret (objectfile :: objectfiles)
  end.

Definition _get_target_objectfiles (e : env) (name : string) : result string :=
  sourcefiles ← string_to_array (nullish (_get_target_sourcefiles e name) (VStr ""));
  objectfiles ← objectfiles_loop e name sourcefiles;
  Ret (Js.join " " objectfiles).

Definition _gmake_add_build_object_for_gcc_clang
    (kind sourcefile objectfile flagname : string) : G unit :=
  let objectdir := path_directory path_dirname objectfile in
  appendFileSync (Js.tab +:+ "@mkdir -p " +:+ objectdir +:+ Js.lf);;
  appendFileSync (Js.tab +:+ "$(V)$(" +:+ kind +:+ ") -c $(" +:+ flagname +:+ ") -o "
                  +:+ objectfile +:+ " " +:+ sourcefile +:+ Js.lf).

(** [_gmake_add_build_object]; the message of its [raise] is written
    between double quotes, so that its [${toolname}] is not replaced. *)
Definition _gmake_add_build_object (target sourcefile objectfile : string) : G unit :=
  on_vars (lift (path_sourcekind sourcefile)) ≫= λ sourcekind : string,
  s ← get_session;
  let e := vars s in
  let program := _get_toolchain_toolset e (_target_toolchain (cfg e)) sourcekind in
  on_vars (lift (path_toolname program)) ≫= λ toolname : string,
  on_vars (lift (_get_flagname sourcekind)) ≫= λ flagname : string,
  let flagname := target +:+ "_" +:+ flagname in
  appendFileSync (objectfile +:+ ": " +:+ sourcefile +:+ Js.lf);;
  appendFileSync (Js.tab +:+ "@echo compiling." +:+ _target_mode (cfg e) +:+ " "
                  +:+ sourcefile +:+ Js.lf);;
  switch toolname
    [ ("gcc", _gmake_add_build_object_for_gcc_clang sourcekind sourcefile objectfile flagname);
      ("gxx", _gmake_add_build_object_for_gcc_clang sourcekind sourcefile objectfile flagname);
      ("clang",
       _gmake_add_build_object_for_gcc_clang sourcekind sourcefile objectfile flagname);
      ("clangxx",
       _gmake_add_build_object_for_gcc_clang sourcekind sourcefile objectfile flagname) ]
    (on_vars (lift (raise "unknown toolname(${toolname})!")));;
  appendFileSync Js.lf.

(** The loop of [_gmake_add_build_objects]. *)
Fixpoint _gmake_add_build_objects_loop (target : string) (sourcefiles : list string)
    : G unit :=
  match sourcefiles with
  | [] => mret tt
  | sourcefile :: rest =>
      s ← get_session;
      on_vars (lift (_get_target_objectfile (vars s) target sourcefile))
        ≫= λ objectfile : string,
      _gmake_add_build_object target sourcefile objectfile;;
      _gmake_add_build_objects_loop target rest
  end.

(** [_gmake_add_build_objects]: the source files are split as they are
    stored, and [split] is a method of strings only. *)
Definition _gmake_add_build_objects (target : string) : G unit :=
  s ← get_session;
  match _get_target_sourcefiles (vars s) target with
  | VStr sourcefiles =>
      _gmake_add_build_objects_loop target (Js.split Js.space sourcefiles)
  | VUndef =>
      on_vars (lift (Throw
        "TypeError: Cannot read properties of undefined (reading 'split')"))
  | _ => on_vars (lift (Throw "TypeError: sourcefiles.split is not a function"))
  end.

Definition _gmake_add_build_target_for_gcc_clang
    (kind targetfile objectfiles flagname : string) : G unit :=
  let targetdir := path_directory path_dirname targetfile in
  appendFileSync (Js.tab +:+ "@mkdir -p " +:+ targetdir +:+ Js.lf);;
  appendFileSync (Js.tab +:+ "$(V)$(" +:+ kind +:+ ") -o " +:+ targetfile +:+ " "
                  +:+ objectfiles +:+ " $(" +:+ flagname +:+ ")" +:+ Js.lf).

Definition _gmake_add_build_target_for_ar
    (kind targetfile objectfiles flagname : string) : G unit :=
  let targetdir := path_directory path_dirname targetfile in
  appendFileSync (Js.tab +:+ "@mkdir -p " +:+ targetdir +:+ Js.lf);;
  appendFileSync (Js.tab +:+ "$(V)$(" +:+ kind +:+ ") $(" +:+ flagname +:+ ") "
                  +:+ targetfile +:+ " " +:+ objectfiles +:+ Js.lf).

(** The [map] of the dependencies to their target files. *)
Fixpoint depfiles_loop (e : env) (deps : list string) : result (list string) :=
  match deps with
  | [] => Ret []
  | dep :: rest =>
      depfile ← _get_target_file path_join e dep;
      depfiles ← depfiles_loop e rest;
      Ret (depfile :: depfiles)
  end.

Definition _gmake_add_build_target (target : string) : G unit :=
  s ← get_session;
  let e := vars s in
  on_vars (lift (_get_targetdir path_join e target)) ≫= λ targetdir : jsval,
  on_vars (lift (_get_target_file path_join e target)) ≫= λ targetfile : string,
  let deps := nullish (_get_target_item e target "deps") (VStr "") in
  on_vars (lift (_get_target_objectfiles e target)) ≫= λ objectfiles : string,
  let targetkind := _get_target_item e target "kind" in
  (if strict_eq targetkind (VStr "binary") then mret "ld"
   else if strict_eq targetkind (VStr "static") then mret "ar"
   else if strict_eq targetkind (VStr "shared") then mret "sh"
   else on_vars (lift (raise ("unknown targetkind(" +:+ to_string targetkind +:+ ")!"))))
    ≫= λ toolkind : string,
  let program := _get_toolchain_toolset e (_target_toolchain (cfg e)) toolkind in
  on_vars (lift (path_toolname program)) ≫= λ toolname : string,
  on_vars (lift (_get_flagname toolkind)) ≫= λ flagname : string,
  let flagname := target +:+ "_" +:+ flagname in
  on_vars (lift (string_to_array deps)) ≫= λ deps : list string,
  on_vars (lift (depfiles_loop e deps)) ≫= λ depfiles : list string,
  let depfiles := Js.join " " (List.filter Js.nonempty depfiles) in
  appendFileSync (target +:+ ": " +:+ targetfile +:+ Js.lf);;
  appendFileSync (targetfile +:+ ": " +:+ depfiles +:+ " " +:+ objectfiles +:+ Js.lf);;
  appendFileSync (Js.tab +:+ "@echo linking." +:+ _target_mode (cfg e) +:+ " "
                  +:+ targetfile +:+ Js.lf);;
  switch toolname
    [ ("gcc", _gmake_add_build_target_for_gcc_clang toolkind targetfile objectfiles flagname);
      ("gxx", _gmake_add_build_target_for_gcc_clang toolkind targetfile objectfiles flagname);
      ("clang",
       _gmake_add_build_target_for_gcc_clang toolkind targetfile objectfiles flagname);
      ("clangxx",
       _gmake_add_build_target_for_gcc_clang toolkind targetfile objectfiles flagname);
      ("ar", _gmake_add_build_target_for_ar toolkind targetfile objectfiles flagname) ]
    (on_vars (lift (raise ("unknown toolname(" +:+ toolname +:+ ")!"))));;
  appendFileSync Js.lf;;
  _gmake_add_build_objects target.

(** The targets that are built by default, each after a space. *)
Fixpoint default_targets (e : env) (targets : list string) : string :=
  match targets with
  | [] => ""
  | target :: rest =>
      (if _is_target_default e target then " " +:+ target else "")
      +:+ default_targets e rest
  end.

(** The [forEach] of [_gmake_add_build_targets]. *)
Fixpoint _gmake_add_build_targets_loop (targets : list string) : G unit :=
  match targets with
  | [] => mret tt
  | target :: rest =>
      _gmake_add_build_target target;;
      _gmake_add_build_targets_loop rest
  end.

Definition _gmake_add_build_targets : G unit :=
  s ← get_session;
  let e := vars s in
  let defaults := default_targets e (words_of (_xmake_sh_targets e)) in
  appendFileSync ("default:" +:+ defaults +:+ Js.lf);;
  appendFileSync ("all:" +:+ _xmake_sh_targets e +:+ Js.lf);;
  appendFileSync (".PHONY: default all" +:+ Js.lf);;
  appendFileSync Js.lf;;
  _gmake_add_build_targets_loop (Js.split Js.space (Js.trim (_xmake_sh_targets e))).

Definition _gmake_add_build : G unit := _gmake_add_build_targets.

End Makefile.

(** ** The flags of the linker and of the archiver *)

Section Linker.

(** Node's [path.join] and [path.relative]. *)
Variable path_join : list string → string.
Variable path_relative : string → string → string.

(** [path_relative(source, target)]: Node throws when an argument is
    not a string. *)
Definition js_path_relative (source target : jsval) : result string :=
  match source, target with
  | VStr source, VStr target => Ret (path_relative source target)
  | _, _ => Throw "TypeError [ERR_INVALID_ARG_TYPE]: The path argument must be of type string"
  end.

(** The [forEach] of [_get_target_linker_flags] over the library
    dependencies. *)
Fixpoint linker_deps_loop (fuel : nat) (name toolkind toolname : string)
    (deps : list string) (result : string) : M string :=
  match deps with
  | [] => mret result
  | dep :: rest =>
      e ← get_env;
      let dep_kind := _get_target_item e dep "kind" in
      if test_eq dep_kind (VStr "static") || test_eq dep_kind (VStr "shared") then
        lift (_get_targetdir path_join e dep) ≫= λ dep_targetdir : jsval,
        let dep_basename := _get_target_basename e dep in
        _get_target_abstract_flags fuel dep toolkind toolname "linkdirs" dep_targetdir
          ≫= λ linkdirs_flags : string,
        _get_target_abstract_flags fuel dep toolkind toolname "links" dep_basename
          ≫= λ links_flags : string,
        (if test_eq dep_kind (VStr "shared") then
           e ← get_env;
           lift (_get_targetdir path_join e name) ≫= λ targetdir : jsval,
           lift (js_path_relative targetdir dep_targetdir) ≫= λ subdir : string,
           let rpathdir :=
             if Js.nonempty subdir then path_join ["@loader_path"; subdir]
             else "@loader_path" in
           _get_target_abstract_flags fuel dep toolkind toolname "rpathdirs" (VStr rpathdir)
             ≫= λ rpathdirs_flags : string,
           mret (result +:+ " " +:+ rpathdirs_flags)
         else mret result) ≫= λ result : string,
        linker_deps_loop fuel name toolkind toolname rest
          (result +:+ " " +:+ linkdirs_flags +:+ " " +:+ links_flags)
      else linker_deps_loop fuel name toolkind toolname rest result
  end.

Definition linker_itemnames : list string :=
  ["strip"; "frameworkdirs"; "linkdir"; "links"; "rpathdirs"; "frameworks"; "syslinks"].

Definition _get_target_linker_flags (fuel : nat) (name toolkind : string) : M string :=
  e ← get_env;
  let program := _get_toolchain_toolset e (_target_toolchain (cfg e)) toolkind in
  lift (path_toolname program) ≫= λ toolname : string,
  let result := "" in
  lift (_get_target_toolchain_flags e name toolkind toolname)
    ≫= λ toolchain_flags : string,
  let result :=
    if Js.nonempty toolchain_flags then result +:+ " " +:+ toolchain_flags else result in
  _get_target_librarydeps fuel name ≫= λ deps : jsval,
  lift (string_to_array (nullish deps (VStr ""))) ≫= λ deps : list string,
  linker_deps_loop fuel name toolkind toolname deps result ≫= λ result : string,
  target_flags_loop fuel name toolkind toolname linker_itemnames result
    ≫= λ result : string,
  lift (_get_flagname toolkind) ≫= λ flagname : string,
  e ← get_env;
  let flags := _get_target_item e name flagname in
  mret (if test_nz flags then result +:+ " " +:+ to_string flags else result).

Definition _get_target_archiver_flags (name toolkind : string) : M string :=
  e ← get_env;
  let program := _get_toolchain_toolset e (_target_toolchain (cfg e)) toolkind in
  lift (path_toolname program) ≫= λ toolname : string,
  let result := "" in
  lift (_get_target_toolchain_flags e name toolkind toolname)
    ≫= λ toolchain_flags : string,
  let result :=
    if Js.nonempty toolchain_flags then result +:+ " " +:+ toolchain_flags else result in
  lift (_get_flagname toolkind) ≫= λ flagname : string,
  let flags := _get_target_item e name flagname in
  mret (if test_nz flags then result +:+ " " +:+ to_string flags else result).

Definition _get_target_flags (fuel : nat) (name toolkind : string) : M string :=
  if String.eqb toolkind "sh" then _get_target_linker_flags fuel name toolkind
  else if String.eqb toolkind "ld" then _get_target_linker_flags fuel name toolkind
  else if String.eqb toolkind "ar" then _get_target_archiver_flags name toolkind
  else _get_target_compiler_flags fuel name toolkind.

End Linker.

(** ** The link directories *)

Section Linkdirs.

(** Node's [path] functions and the directory of the project. *)
Variable path_join : list string → string.
Variable path_relative : string → string → string.
Variable path_is_absolute : string → bool.
Variable xmake_sh_projectdir : string.

(** A directory as [add_linkdirs] stores it: joined to the directory
    of the script when it is not absolute, then made relative to the
    directory of the project. *)
Definition stored_dir (scriptdir : jsval) (dir : string) : result string :=
  (if negb (path_is_absolute dir) then js_path_join path_join [scriptdir; VStr dir]
   else Ret dir) ≫= λ dir : string,
  Ret (path_relative xmake_sh_projectdir dir).

(** The first loop of [add_linkdirs]. *)
Fixpoint add_linkdirs_loop (args : list string) : G unit :=
  match args with
  | [] => mret tt
  | dir :: rest =>
      (if test_nq (VStr dir) (VStr "{public}") then
         s ← get_session;
         let e := vars s in
         on_vars (lift (stored_dir (xmake_sh_scriptdir s) dir)) ≫= λ dir : string,
         if _loading_targets e && test_z (_xmake_sh_option_current e) then
           on_vars (_add_target_item (_xmake_sh_target_current e) "linkdirs" (VStr dir))
         else if _loading_options e && test_nz (_xmake_sh_option_current e) then
           on_vars (_add_option_item (_xmake_sh_option_current e) "linkdirs" (VStr dir))
         else mret tt
       else mret tt);;
      add_linkdirs_loop rest
  end.

(** The second loop of [add_linkdirs], run when [{public}] is among
    the arguments. *)
Fixpoint add_linkdirs_public_loop (args : list string) : G unit :=
  match args with
  | [] => mret tt
  | dir :: rest =>
      (if test_nq (VStr dir) (VStr "{public}") then
         s ← get_session;
         let e := vars s in
         on_vars (lift (stored_dir (xmake_sh_scriptdir s) dir)) ≫= λ dir : string,
         if _loading_targets e && test_z (_xmake_sh_option_current e) then
           on_vars (_add_target_item (_xmake_sh_target_current e) "linkdirs_public"
                      (VStr dir))
         else mret tt
       else mret tt);;
      add_linkdirs_public_loop rest
  end.

Definition add_linkdirs (args : list string) : G unit :=
  add_linkdirs_loop args;;
  if has_public args then add_linkdirs_public_loop args else mret tt.

End Linkdirs.

(** * Reference definitions and sample inputs *)

(** ** The translator's table, as the specification words it *)

(** The compiler family that the translator serves. *)
Definition gcc_clang_family : list string := ["gcc"; "gxx"; "clang"; "clangxx"].

(** The item names that the translator knows. *)
Definition known_itemnames : list string :=
  ["defines"; "udefines"; "includedirs"; "linkdirs"; "links"; "syslinks"; "frameworks";
   "frameworkdirs"; "rpathdirs"; "symbols"; "strip"; "warnings"; "optimizes"; "languages"].

(** The values that an item name with a closed set of values accepts
    for a tool kind; [None] for the item names that take any value. *)
Definition recognised_values (toolkind itemname : string) : option (list string) :=
  if String.eqb itemname "symbols" then Some ["debug"; "hidden"]
  else if String.eqb itemname "strip" then Some ["debug"; "all"]
  else if String.eqb itemname "warnings"
  then Some ["all"; "more"; "less"; "allextra"; "error"; "everything"; "none"]
  else if String.eqb itemname "optimizes"
  then Some ["fast"; "faster"; "fastest"; "smallest"; "aggressive"; "none"]
  else if String.eqb itemname "languages" then
    if bool_decide (toolkind ∈ ["cc"; "mm"]) then Some (c_languages.*1)
    else if bool_decide (toolkind ∈ ["cxx"; "mxx"]) then Some (cxx_languages.*1)
    else Some []
  else None.

(** A Linux host with the gcc toolchain selected and nothing declared. *)
Definition sample_config : config :=
  Config false false "build" "linux" "x86_64" "release" (VStr "gcc") "gmake"
    VUndef VUndef (VStr "/usr/local") "bin" "lib" "include".

(** ** Words *)

(** [c] occurs in [s]. *)
Fixpoint has_char (c : ascii) (s : string) : bool :=
  match s with
  | EmptyString => false
  | String a r => Ascii.eqb a c || has_char c r
  end.

(** A word of a space-separated list: not empty, without a space. *)
Definition is_token (s : string) : bool := Js.nonempty s && negb (has_char Js.space s).

(** A white-space character occurs in [s]. *)
Fixpoint has_white (s : string) : bool :=
  match s with
  | EmptyString => false
  | String a r => Js.is_white a || has_white r
  end.

(** A name that survives [string_to_array] wherever it stands in a
    list: not empty, without white space. *)
Definition is_name (s : string) : bool := Js.nonempty s && negb (has_white s).

(** The words [l], each one preceded by a space: the shape of the lists
    that the source builds by appending. *)
Fixpoint spaced (l : list string) : string :=
  match l with
  | [] => EmptyString
  | w :: r => " " +:+ w +:+ spaced r
  end.

(** The last character of [s] is not white space. *)
Fixpoint ends_black (s : string) : bool :=
  match s with
  | EmptyString => false
  | String a EmptyString => negb (Js.is_white a)
  | String _ r => ends_black r
  end.

(** The last character of a string. *)
Fixpoint last_char (s : string) : option ascii :=
  match s with
  | EmptyString => None
  | String a EmptyString => Some a
  | String _ r => last_char r
  end.

(** ** States *)

(** [e'] differs from [e] in the trace and in the count of temporary
    files at most. *)
Definition same_variables (e e' : env) : Prop :=
  with_trace (trace e) (with_tmp_count (tmp_count e) e') = e.

(** A call that, when it returns, has changed the trace and the count
    of temporary files at most. *)
Definition keeps {A : Type} (m : M A) : Prop :=
  ∀ (e : env) (a : A) (e' : env), m e = Ret (a, e') → same_variables e e'.

(** The toolsets of the gcc toolchain once detection has fixed them. *)
Definition sample_toolchains : gmap string jsval :=
  <["gcc_toolset_cc" := VStr "gcc"]>
    (<["gcc_toolset_cxx" := VStr "g++"]> (<["gcc_toolset_ld" := VStr "g++"]> ∅)).

(** The state while the options are loaded. *)
Definition loading_options_env : env :=
  Env (<["toolchains" := sample_toolchains]> ∅) sample_config
    true true false "" "" VUndef VUndef [] 0.

(** The state while the targets are loaded. *)
Definition loading_targets_env : env :=
  Env (<["toolchains" := sample_toolchains]> ∅) sample_config
    false false true "" "" (VStr "") (VStr "") [] 0.

(** A host on which every command succeeds. *)
Definition always_ok (history : list event) (program : string) (args : list string) : Z := 0.

(** A host on which every command fails. *)
Definition always_fails (history : list event) (program : string) (args : list string) : Z := 1.

Definition sample_tmp_name (n : nat) : string := "/tmp/tmp-" +:+ to_string (VNum (Z.of_nat n)).

(** The state reached by a call from a given state, when it returns. *)
Definition state_after {A : Type} (m : M A) (e : env) : env :=
  match m e with
  | Ret (_, e') => e'
  | _ => e
  end.

(** The script of scenario S3: an option probed through C inputs and a
    library to link. *)
Definition pthread_script : M unit :=
  option_ "pthread" VUndef VUndef;;
  add_links ["pthread"];;
  add_cincludes (VStr "pthread.h");;
  add_cfuncs (VStr "pthread_create");;
  option_end.

(** An option with a default, and the same option overridden on the
    command line. *)
Definition debug_script : M unit :=
  option_ "debug" (VStr "Enable debug compilation mode.") (VBool false);;
  pthread_script.

(** An option is selected for probing: its menu entry is not forced
    and it needs checking. *)
Definition selected_for_checking (e : env) (name : string) : bool :=
  negb (truthy (_get_option_item e name "showmenu")) && _option_need_checking e name.

(** [_handle_option] on a Linux host. *)
Definition sample_handle_option : string → M bool :=
  _handle_option "node" "make" "ninja" "linux" "x86_64".

Definition sample_handle_arguments : list string → M unit :=
  handle_arguments "node" "make" "ninja" "linux" "x86_64".

(** The states after the scripts above have been loaded. *)
Definition pthread_env : env := state_after pthread_script loading_options_env.

Definition debug_env : env := state_after debug_script loading_options_env.

(** The same with [--debug=yes] on the command line. *)
Definition debug_cli_env : env := state_after (sample_handle_option "--debug=yes") debug_env.

(** ** The dependency graph, as the specification words it *)

(** The platform defaults of a target file name. *)
Definition default_prefixname (kind : jsval) : string :=
  if is_library_kind kind then "lib" else "".

Definition default_extension (mingw : bool) (kind : jsval) : string :=
  if strict_eq kind (VStr "static") then ".a"
  else if strict_eq kind (VStr "shared") then (if mingw then ".dll" else ".so")
  else if strict_eq kind (VStr "binary") then (if mingw then ".exe" else "")
  else "".

(** The dependencies of a target that are libraries, in the order of
    its [deps]. *)
Definition library_deps_of (e : env) (name : string) : result (list string) :=
  deps ← string_to_array (_get_target_item e name "deps");
  Ret (List.filter (λ dep, is_library_kind (_get_target_item e dep "kind")) deps).

(** A depth-first enumeration of a list of nodes: each node, then what
    [visit] enumerates below it, then the nodes after it. *)
Fixpoint dfs_list (visit : string → result (list string)) (deps : list string)
    : result (list string) :=
  match deps with
  | [] => Ret []
  | dep :: rest =>
      below ← visit dep;
      after ← dfs_list visit rest;
      Ret (dep :: below ++ after)
  end.

(** The depth-first enumeration of the library dependencies below a
    target, to the depth [fuel]. *)
Fixpoint dfs_enumeration (fuel : nat) (e : env) (name : string) : result (list string) :=
  match fuel with
  | O => Diverge
  | S fuel =>
      deps ← library_deps_of e name;
      dfs_list (dfs_enumeration fuel e) deps
  end.

(** The [deps] of every target are a list of words, and [rank] is
    smaller on each library among them than on the target: the
    dependency graph has no cycle through libraries. *)
Definition ranked_deps (e : env) (rank : string → nat) : Prop :=
  ∀ name : string,
    ∃ deps : list string,
      string_to_array (_get_target_item e name "deps") = Ret deps
      ∧ Forall (λ w, is_token w = true) deps
      ∧ ∀ dep, dep ∈ deps → is_library_kind (_get_target_item e dep "kind") = true →
               (rank dep < rank name)%nat.

(** Of the occurrences of a name the first one is kept. *)
Fixpoint keep_first (l : list string) : list string :=
  match l with
  | [] => []
  | x :: r => x :: List.filter (λ y, negb (String.eqb x y)) (keep_first r)
  end.

(** Of the occurrences of a name the last one is kept. *)
Fixpoint keep_last (l : list string) : list string :=
  match l with
  | [] => []
  | x :: r => if bool_decide (x ∈ r) then keep_last r else x :: keep_last r
  end.

(** The list that [_get_target_librarydeps] answers for an enumeration
    [l]: the words of [l] with the last occurrences kept, unless that
    is the memo mark itself. *)
Definition librarydeps_answer (l : list string) : string :=
  if bool_decide (keep_last l = ["__none__"]) then "" else Js.join " " (keep_last l).

(** A path join that only puts a slash between its arguments. *)
Definition sample_path_join (l : list string) : string := Js.join "/" l.

(** A project in which [app] depends on the libraries [b] and [a], and
    [a] on [b]; [a] exports an undefine. *)
Definition diamond_script : M unit :=
  target_ "app";; set_kind "binary";; add_deps ["b"; "a"];;
    add_udefines ["X"];; add_defines ["Y"];; target_end;;
  target_ "a";; set_kind "static";; add_deps ["b"];;
    add_udefines ["{public}"; "Z"];; target_end;;
  target_ "b";; set_kind "shared";; target_end.

Definition diamond_env : env := state_after diamond_script loading_targets_env.

(** The depth of a target of that project in its dependency graph. *)
Definition diamond_rank (name : string) : nat :=
  if String.eqb name "app" then 2 else if String.eqb name "a" then 1 else 0.

(** The same project with a file name set on [a]. *)
Definition named_env : env :=
  state_after (target_ "a";; set_filename (VStr "a.lib");; target_end) diamond_env.

(** [s] without the suffix [suffix], when it ends with it. *)
Definition strip_suffix (suffix s : string) : option string :=
  if Js.endsWith s suffix
  then Some (take (String.length s - String.length suffix) s)
  else None.

(** The target attributes of the sample project, as a list. *)
Definition diamond_items : list (string * jsval) :=
  Eval vm_compute in map_to_list (default ∅ (maps diamond_env !! "targets")).

(** A call that, when it returns, leaves the states related by [Q]. *)
Definition preserves {A : Type} (Q : env → env → Prop) (m : M A) : Prop :=
  ∀ (e : env) (a : A) (e' : env), m e = Ret (a, e') → Q e e'.

(** ** The command line, as the specification words it *)

(** The names that [_handle_option] knows by itself. *)
Definition builtin_option_names : list string :=
  ["help"; "version"; "verbose"; "diagnosis"; "plat"; "arch"; "mode"; "toolchain";
   "generator"; "make"; "ninja"; "prefix"; "bindir"; "libdir"; "includedir"; "buildir"].

(** The state of the module when it starts to run. *)
Definition initial_env : env :=
  Env ∅ (Config false false "build" "" "" "" VUndef "gmake" VUndef VUndef
           (VStr "/usr/local") "bin" "lib" "include")
    true true true "" "" VUndef VUndef [] 0.

(** The start of a run on a Linux host where the project declares the
    options of [debug_script]: the loading of the project and the
    loop over the arguments are the code's own; the parts that follow
    the arguments are place holders, for runs that end at an
    argument. *)
Definition sample_check_toolchain : M unit :=
  modify_env (λ e,
    with_cfg (with_toolchain (VStr "gcc") (cfg e))
      (with_maps (<["toolchains" := sample_toolchains]> (maps e)) e)).

Definition sample_configure : list string → M unit :=
  configure "node" "make" "ninja" "linux" "x86_64" always_ok sample_tmp_name
    debug_script (mret tt) sample_check_toolchain (mret tt) (mret tt).

(** The text that replaces a [define] placeholder of the variable
    [name] with the value [value], as the source writes it. *)
Definition define_text (name : string) (value : jsval) : string :=
  if test_z value then "/*#undef " +:+ name +:+ "*/"
  else if bool_decide (value = VStr "1" ∨ value = VStr "true") then "#define " +:+ name +:+ " 1"
  else if bool_decide (value = VStr "0" ∨ value = VStr "false")
  then "/*#define " +:+ name +:+ " 0*/"
  else "#define " +:+ name +:+ " " +:+ to_string value.

(** The placeholder of a [define] substitution. *)
Definition define_placeholder (name : string) : string := "${define " +:+ name +:+ "}".

(** A template of configvars and the project that fills it. *)
Definition sample_template : string :=
  "#define V ${VERSION_MAJOR}" +:+ Js.lf
  +:+ "${define HAS_PTHREAD}" +:+ Js.lf
  +:+ "${define FOO}" +:+ Js.lf
  +:+ "${define BAR}" +:+ Js.lf
  +:+ "${define ZERO}" +:+ Js.lf.

Definition configvars_script : M unit :=
  target_ "app";;
  set_version (VStr "1.2.3") (VStr "%Y%m%d%H%M");;
  set_configvar "HAS_PTHREAD" (VNum 1);;
  set_configvar "FOO" (VStr "");;
  set_configvar "ZERO" (VStr "0");;
  target_end.

Definition configvars_env : env := state_after configvars_script loading_targets_env.

(** [_generate_configfile] on a host where the template is the file
    [config.h.in], git is missing and the output goes to [out]. *)
Definition sample_generate_configfile : string → string → M unit :=
  _generate_configfile sample_path_join (λ _, "out") (λ _, "config.h") (λ _ _, true)
    (λ _ _, Ret sample_template) (λ _ _ _, None) (λ _, "20221207T2222").

(** No match of [pat] begins inside [pre] when [rest] follows it. *)
Fixpoint clear_before (pat pre rest : string) : bool :=
  match pre with
  | EmptyString => true
  | String a p => negb (String.prefix pat (pre +:+ rest)) && clear_before pat p rest
  end.

(** The state of that run once the options are loaded. *)
Definition loaded_env : env :=
  state_after (_load_options_and_toolchains debug_script) initial_env.

(** ** The file of a target, as the specification words it *)

(** The base name of a target: the one set on it, or its name. *)
Definition file_basename (e : env) (name : string) : string :=
  match _get_target_item e name "basename" with
  | VUndef => name
  | basename => to_string basename
  end.

(** The prefix and the extension: those set on the target, or those of
    its kind on the platform. *)
Definition file_prefixname (e : env) (name : string) : string :=
  if _has_target_item e name "prefixname"
  then to_string (_get_target_item e name "prefixname")
  else default_prefixname (_get_target_item e name "kind").

Definition file_extension (e : env) (name : string) : string :=
  if _has_target_item e name "extension"
  then to_string (_get_target_item e name "extension")
  else default_extension (is_plat (cfg e) ["mingw"]) (_get_target_item e name "kind").

(** The file name: the one set on the target, or prefix, base name and
    extension put together. *)
Definition file_name (e : env) (name : string) : string :=
  match _get_target_item e name "filename" with
  | VStr (String a filename) => String a filename
  | _ => file_prefixname e name +:+ file_basename e name +:+ file_extension e name
  end.

(** The directory: the one set on the target, or the join of the build
    directory, the platform, the architecture and the mode. *)
Definition file_directory (path_join : list string → string) (e : env) (name : string)
    : string :=
  match _get_target_item e name "targetdir" with
  | VStr (String a targetdir) => String a targetdir
  | _ => path_join [xmake_sh_buildir (cfg e); _target_plat (cfg e); _target_arch (cfg e);
                    _target_mode (cfg e)]
  end.

(** An attribute that is not set, or is a text. *)
Definition unset_or_text (v : jsval) : Prop := v = VUndef ∨ ∃ s : string, v = VStr s.

(** The sample project with a base name, a prefix, an extension and a
    directory set on [a], and a base name alone on [b]. *)
Definition custom_env : env :=
  state_after
    (_set_target_item (VStr "a") "basename" (VStr "foo");;
     _set_target_item (VStr "a") "prefixname" (VStr "my");;
     _set_target_item (VStr "a") "extension" (VStr ".lib");;
     _set_target_item (VStr "a") "targetdir" (VStr "out");;
     _set_target_item (VStr "b") "basename" (VStr "bar"))
    diamond_env.

(** ** What the flags of a target depend on *)

(** The attributes of the targets. *)
Definition targets_of (e : env) : gmap string jsval := default ∅ (maps e !! "targets").

(** [e'] has the configuration, the toolchains and the attributes of
    the targets of [e], but for the keys that [hidden] holds of. *)
Definition same_but (hidden : string → bool) (e e' : env) : Prop :=
  cfg e' = cfg e
  ∧ maps e' !! "toolchains" = maps e !! "toolchains"
  ∧ ∀ key : string, hidden key = false → targets_of e' !! key = targets_of e !! key.

(** The value or the end of a call, without the state. *)
Definition outcome {A : Type} (r : result (A * env)) : result A := fst <$> r.

(** Two runs with the same outcome, from and to states that differ in
    the hidden keys at most. *)
Definition agree {A : Type} (hidden : string → bool) (r r' : result (A * env)) : Prop :=
  match r, r' with
  | Ret (a, e), Ret (a', e') => a' = a ∧ same_but hidden e e'
  | Throw msg, Throw msg' => msg' = msg
  | Exit code, Exit code' => code' = code
  | Diverge, Diverge => True
  | _, _ => False
  end.

Definition blind {A : Type} (hidden : string → bool) (m m' : M A) : Prop :=
  ∀ e e' : env, same_but hidden e e' → agree hidden (m e) (m' e').

(** The item names that the assembly of the flags of a target asks
    for, and the attributes of the targets that it reads. *)
Definition flag_items : list string :=
  ["symbols"; "optimizes"; "warnings"; "languages"; "defines"; "undefines"; "includedirs";
   "frameworkdirs"; "frameworks"; "strip"; "linkdir"; "links"; "rpathdirs"; "syslinks"].

Definition flag_keys : list string :=
  ["kind"; "deps"; "librarydeps"; "targetdir"; "basename"]
  ++ flag_items ++ ((λ itemname, itemname +:+ "_public") <$> flag_items)
  ++ ["cflags"; "cxxflags"; "asflags"; "mflags"; "mxxflags"; "arflags"; "shflags"; "ldflags";
      "cxflags"; "mxflags"].

(** The keys under which [add_udefines] keeps the private undefines
    of the targets. *)
Definition is_udefines_key (key : string) : bool := Js.endsWith key "_udefines".

(** Two states that differ in the private undefines of the targets at
    most. *)
Definition same_but_udefines (e e' : env) : Prop :=
  cfg e' = cfg e
  ∧ maps e' !! "toolchains" = maps e !! "toolchains"
  ∧ ∀ key : string,
      is_udefines_key key = false → targets_of e' !! key = targets_of e !! key.

(** A key [name_attribute] does not end with [suffix], whatever the
    name is: neither is a suffix of the other. *)
Definition apart_from (suffix key : string) : bool :=
  negb (Js.endsWith suffix ("_" +:+ key)) && negb (Js.endsWith ("_" +:+ key) suffix).

(** A project of one program with a define and an undefine, before and
    after the undefine is added. *)
Definition tool_env : env :=
  state_after (target_ "tool";; set_kind "binary";; add_defines ["Y"]) loading_targets_env.
(** * Reference definitions for the rest of the module *)

(** ** Characters *)

(** A decimal digit. *)
Definition is_digit (a : ascii) : bool :=
  let n := nat_of_ascii a in (48 <=? n)%nat && (n <=? 57)%nat.

(** ** Options *)

(** An option is listed in the help menu: its menu entry is forced, or
    it is left open and the option needs no checking. *)
Definition shown_in_menu (e : env) (name : string) : bool :=
  let showmenu := _get_option_item e name "showmenu" in
  _is_enabled showmenu || (test_z showmenu && negb (_option_need_checking e name)).

(** An option with probe inputs whose menu entry is forced. *)
Definition zlib_script : M unit :=
  option_ "zlib" VUndef VUndef;;
  set_showmenu (VBool true);;
  add_cincludes (VStr "zlib.h");;
  option_end.

Definition zlib_env : env := state_after zlib_script loading_options_env.

(** The option of scenario S3 with [--pthread=yes] on the command line. *)
Definition pthread_cli_env : env :=
  state_after (sample_handle_option "--pthread=yes") pthread_env.

(** A text of ASCII characters: the length of such a text in
    JavaScript is its number of characters, and its capital form has
    the same length. *)
Definition is_ascii (s : string) : bool :=
  forallb (λ a, (nat_of_ascii a <? 128)%nat) (list_ascii_of_string s).

(** A project with one option of a long name, shown in the menu. *)
Definition long_name_env : env :=
  state_after (option_ "compression" VUndef VUndef;; set_showmenu (VBool true);; option_end)
    loading_options_env.

(** An option has inputs of a kind, [c] or [cxx]: functions, includes,
    types or snippets. *)
Definition has_inputs (e : env) (name kind : string) : bool :=
  negb (test_z (_get_option_item e name (kind +:+ "funcs"))
        && test_z (_get_option_item e name (kind +:+ "includes"))
        && test_z (_get_option_item e name (kind +:+ "types"))
        && test_z (_get_option_item e name (kind +:+ "snippets"))).

(** What the probe of an option answers when it returns: the option
    must have inputs of both kinds. *)
Definition probe_answer (e : env) (name : string) : bool :=
  has_inputs e name "c" && has_inputs e name "cxx".

(** ** The store *)

(** The value of an attribute to which the words [l] have been added
    one by one, starting from nothing. *)
Definition added_values (l : list string) : jsval :=
  match l with
  | [] => VUndef
  | _ => VStr (Js.join " " l)
  end.

(** Two targets of which one is named like a configvar of the other. *)
Definition alias_script : M unit :=
  target_ "app_configvar";; set_kind "static";; target_end;;
  target_ "app";; set_kind "binary";; set_configvar "kind" (VStr "1");; target_end.

Definition alias_env : env := state_after alias_script loading_targets_env.

(** ** Traces *)

(** The events of a trace other than the lines that are printed. *)
Definition is_log (ev : event) : bool :=
  match ev with Log _ => true | _ => false end.

Definition effects (evs : list event) : list event :=
  List.filter (λ ev, negb (is_log ev)) evs.

(** A call that, when it returns, has printed lines at most. *)
Definition prints_only {A : Type} (m : M A) : Prop :=
  ∀ (e : env) (a : A) (e' : env),
    m e = Ret (a, e') →
    ∃ evs : list event,
      trace e' = trace e ++ evs ∧ effects evs = [] ∧ tmp_count e' = tmp_count e.

(** ** Sessions *)

(** A call of the detection that, when it returns, has left the store
    and the settings of the command line as they were. *)
Definition probes_only {A : Type} (m : G A) : Prop :=
  ∀ (s : session) (a : A) (s' : session),
    m s = Ret (a, s') → maps (vars s') = maps (vars s) ∧ cfg (vars s') = cfg (vars s).

(** The indices of the programs of a tool kind. *)
Definition toolset_indices : list nat := [0; 1; 2; 3; 4; 5]%nat.

(** The key of the store that holds the program of a tool kind. *)
Definition toolset_slot (toolchain kind : string) : string :=
  toolchain +:+ "_" +:+ "toolset_" +:+ kind.

(** The outcome that a compiler check remembers for a tool name. *)
Definition remembered (s : session) (toolname : string) : string :=
  if String.eqb toolname "gcc" then _toolchain_try_gcc_result s
  else if String.eqb toolname "gxx" then _toolchain_try_gxx_result s
  else if String.eqb toolname "clang" then _toolchain_try_clang_result s
  else _toolchain_try_clangxx_result s.

(** A session that starts from the variables [e]. *)
Definition session_of (e : env) : session :=
  Session e "" VUndef "" "" "" "" VUndef "".

(** The session reached by a call from a given session, when it returns. *)
Definition session_after {A : Type} (m : G A) (s : session) : session :=
  match m s with
  | Ret (_, s') => s'
  | _ => s
  end.

(** The toolchains of the module declared on a host where only [CC] is
    set, to [gcc]. *)
Definition declared_session : session :=
  session_after (declare_builtin_toolchains "gcc" "" "" "" "") (session_of initial_env).

(** A tool kind of a toolchain is served: the store holds a program
    for it, which is not empty and has a tool name. *)
Definition served (e : env) (toolchain kind : string) : Prop :=
  ∃ program toolname : string,
    _get_toolchain_toolset e (VStr toolchain) kind = VStr program
    ∧ program ≠ ""
    ∧ path_toolname (VStr program) = Ret toolname.

(** A tool kind of a toolchain has no program to try. *)
Definition unserved (e : env) (toolchain kind : string) : Prop :=
  ∀ idx : nat, idx ∈ toolset_indices →
    test_nz (_get_toolchain_toolset e (VStr toolchain) (toolset_key kind idx)) = false.

(** The names of the tool kinds that a toolchain must serve. *)
Definition toolchain_kind_names : list string :=
  ["cc"; "cxx"; "as"; "mm"; "mxx"; "ld"; "ar"; "sh"].

(** A machine where the only command that succeeds is [gcc]. *)
Definition only_gcc (history : list event) (program : string) (args : list string) : Z :=
  if String.eqb program "gcc" then 0 else 1.

(** A result that is an exception, or the end of the process with the
    code 1. *)
Definition stops {A : Type} (r : result A) : Prop :=
  r = Exit 1 ∨ ∃ msg : string, r = Throw msg.

(** A result that is a value, or that stops. *)
Definition lands {A : Type} (r : result A) : Prop :=
  (∃ a : A, r = Ret a) ∨ stops r.

(** The keys under which the link directories of the targets are kept. *)
Definition is_linkdirs_key (key : string) : bool :=
  Js.endsWith key "_linkdirs" || Js.endsWith key "_linkdirs_public".

(** [e'] has the configuration, the toolchains and the attributes of
    the targets of [e], the link directories apart. *)
Definition same_but_linkdirs (e e' : env) : Prop :=
  cfg e' = cfg e
  ∧ maps e' !! "toolchains" = maps e !! "toolchains"
  ∧ ∀ key : string, is_linkdirs_key key = false → targets_of e' !! key = targets_of e !! key.

(** Node's [path.join], as far as this goes: the parts that are not
    empty with slashes between them, and a dot when nothing is left. *)
Definition node_path_join (l : list string) : string :=
  let joined := Js.join "/" (List.filter Js.nonempty l) in
  if Js.nonempty joined then joined else ".".

(** The sample project, in the scope of its target [app]. *)
Definition app_scope : session :=
  with_scriptdir (VStr "/project") (session_of (state_after (target_ "app") diamond_env)).

(** The session after the declarations of the module, for the
    environment variables [CC], [CXX], [AS], [LD] and [AR], when the
    project has declared no toolchain of its own. *)
Definition declared_for (CC CXX AS LD AR : string) : session :=
  session_after (declare_builtin_toolchains CC CXX AS LD AR) (session_of initial_env).


(** * Properties *)

(** ** Strings *)

Lemma eqb_false (x y : string) : x ≠ y → String.eqb x y = false.
Proof. apply String.eqb_neq. Qed.

Lemma eqb_true (x : string) : String.eqb x x = true.
Proof. apply String.eqb_refl. Qed.

(** Every comparison of [x] with a string it is known to differ from
    is rewritten to [false]. *)
Ltac eqb_simpl :=
  repeat match goal with
  | H : ?x ≠ ?y |- context [String.eqb ?x ?y] => rewrite (eqb_false x y H)
  | |- context [String.eqb ?x ?x] => rewrite (eqb_true x)
  end.

(** A hypothesis [x ∉ [a; b; ...]] is split into its disequalities. *)
Ltac split_notin :=
  repeat match goal with
  | H : _ ∉ _ :: _ |- _ => apply not_elem_of_cons in H; destruct H
  | H : _ ∉ [] |- _ => clear H
  end.

(** A decidable proposition about concrete data is settled by
    evaluating its decision procedure. *)
Ltac decide_by_computation := refine (bool_decide_unpack _ _); vm_compute; exact I.

(** ** The flag translator *)

Lemma switch_none {A : Type} (v : string) (cases : list (string * A)) (otherwise : A) :
  v ∉ cases.*1 → switch v cases otherwise = otherwise.
Proof.
  induction cases as [|[label body] cases IH]; simpl; [done|].
  intros Hnotin. apply not_elem_of_cons in Hnotin as [Hne Hrest].
  rewrite (eqb_false _ _ Hne). by apply IH.
Qed.

Lemma unknown_itemname_throws (c : config) (toolkind toolname itemname value : string) :
  itemname ∉ known_itemnames →
  _get_abstract_flag_for_gcc_clang c toolkind toolname itemname value
  = Throw (unknown_itemname itemname).
Proof.
  unfold known_itemnames. intros H. split_notin.
  unfold _get_abstract_flag_for_gcc_clang. by eqb_simpl.
Qed.

Lemma family_toolname (toolname : string) :
  toolname ∈ gcc_clang_family →
  String.eqb toolname "gcc" || String.eqb toolname "gxx"
  || String.eqb toolname "clang" || String.eqb toolname "clangxx" = true.
Proof.
  unfold gcc_clang_family. rewrite !elem_of_cons, elem_of_nil.
  intros [->|[->|[->|[->|[]]]]]; reflexivity.
Qed.

Lemma not_family_toolname (toolname : string) :
  toolname ∉ gcc_clang_family →
  String.eqb toolname "gcc" || String.eqb toolname "gxx"
  || String.eqb toolname "clang" || String.eqb toolname "clangxx" = false.
Proof. unfold gcc_clang_family. intros H. split_notin. by eqb_simpl. Qed.

(** The translation of a value outside the closed set of its item name. *)
Lemma unknown_value_flag (c : config) (toolkind toolname itemname value : string)
    (known : list string) :
  recognised_values toolkind itemname = Some known →
  value ∉ known →
  _get_abstract_flag_for_gcc_clang c toolkind toolname itemname value
  = if String.eqb itemname "languages" && bool_decide (toolkind ∈ ["cxx"; "mxx"])
       && (Js.startsWith value "cxx" || Js.startsWith value "c++")
    then Throw (unknown_language value) else Ret "".
Proof.
  unfold recognised_values.
  destruct (String.eqb_spec itemname "symbols") as [->|?].
  { intros [= <-] H. split_notin. cbn. by eqb_simpl. }
  destruct (String.eqb_spec itemname "strip") as [->|?].
  { intros [= <-] H. split_notin. cbn. by eqb_simpl. }
  destruct (String.eqb_spec itemname "warnings") as [->|?].
  { intros [= <-] H. split_notin. cbn. by eqb_simpl. }
  destruct (String.eqb_spec itemname "optimizes") as [->|?].
  { intros [= <-] H. split_notin. cbn. by eqb_simpl. }
  destruct (String.eqb_spec itemname "languages") as [->|?]; [|done].
  unfold _get_abstract_flag_for_gcc_clang.
  change (String.eqb "languages" _) with false at 1 2 3 4 5 6 7 8 9 10 11 12 13.
  change (String.eqb "languages" "languages") with true. cbn [andb].
  case_bool_decide as Hc.
  { intros [= <-] H.
    assert (String.eqb toolkind "cc" || String.eqb toolkind "mm" = true) as ->.
    { rewrite !elem_of_cons, elem_of_nil in Hc. by destruct Hc as [->|[->|[]]]. }
    rewrite (switch_none value c_languages "" H).
    case_bool_decide as Hx; [|done].
    rewrite !elem_of_cons, elem_of_nil in Hc, Hx.
    destruct Hc as [->|[->|[]]], Hx as [?|[?|[]]]; discriminate. }
  assert (String.eqb toolkind "cc" || String.eqb toolkind "mm" = false) as ->.
  { split_notin. by eqb_simpl. }
  case_bool_decide as Hx.
  - intros [= <-] H.
    assert (String.eqb toolkind "cxx" || String.eqb toolkind "mxx" = true) as ->.
    { rewrite !elem_of_cons, elem_of_nil in Hx. by destruct Hx as [->|[->|[]]]. }
    rewrite switch_none.
    + cbn [andb]. by destruct (Js.startsWith value "cxx"), (Js.startsWith value "c++").
    + rewrite <-list_fmap_compose. exact H.
  - intros _ _.
    assert (String.eqb toolkind "cxx" || String.eqb toolkind "mxx" = false) as ->.
    { split_notin. by eqb_simpl. }
    done.
Qed.

(** C5 (amended): for the gcc/clang family a value outside the closed
    set of a known item name is skipped (the translation is the empty
    string), except a [languages] value that starts with [cxx] or [c++]
    and is translated for the tool kind [cxx] or [mxx], which throws;
    an unknown item name throws for every value; an unknown tool name
    throws as soon as there is a value to translate. *)
Theorem translate_unknown_inputs (c : config) (toolkind toolname itemname value : string) :
  (toolname ∈ gcc_clang_family →
   ∀ known : list string,
     recognised_values toolkind itemname = Some known → value ∉ known →
     _get_abstract_flags c toolkind toolname itemname (VArr [value])
     = if String.eqb itemname "languages" && bool_decide (toolkind ∈ ["cxx"; "mxx"])
          && (Js.startsWith value "cxx" || Js.startsWith value "c++")
       then Throw (unknown_language value) else Ret "")
  ∧ (toolname ∈ gcc_clang_family → itemname ∉ known_itemnames →
     _get_abstract_flag_for_gcc_clang c toolkind toolname itemname value
     = Throw (unknown_itemname itemname)
     ∧ _get_abstract_flags c toolkind toolname itemname (VArr [value])
       = Throw (unknown_itemname itemname))
  ∧ (toolname ∉ gcc_clang_family →
     ∀ (values : jsval) (words : list string),
       string_to_array values = Ret (value :: words) →
       _get_abstract_flags c toolkind toolname itemname values
       = Throw (unknown_toolname toolname)).
Proof.
  split; [|split].
  - intros Hfam known Hknown Hvalue.
    unfold _get_abstract_flags. cbn.
    rewrite (family_toolname _ Hfam).
    rewrite (unknown_value_flag c toolkind toolname itemname value known Hknown Hvalue).
    by destruct (_ && _ && _).
  - intros Hfam Hitem. split; [by apply unknown_itemname_throws|].
    unfold _get_abstract_flags. cbn.
    rewrite (family_toolname _ Hfam).
    by rewrite unknown_itemname_throws.
  - intros Hfam values words Hwords.
    unfold _get_abstract_flags. rewrite Hwords. cbn.
    by rewrite (not_family_toolname _ Hfam).
Qed.

Lemma translate_unknown_inputs_witness :
  _get_abstract_flags sample_config "cxx" "gxx" "warnings" (VArr ["pedantic"]) = Ret ""
  ∧ _get_abstract_flags sample_config "cxx" "gxx" "languages" (VArr ["c++99"])
    = Throw (unknown_language "c++99")
  ∧ _get_abstract_flags sample_config "cc" "gcc" "undefines" (VArr ["X"])
    = Throw (unknown_itemname "undefines")
  ∧ _get_abstract_flags sample_config "cc" "tcc" "defines" (VStr "X Y")
    = Throw (unknown_toolname "tcc").
Proof.
  split; [|split; [|split]].
  - refine (proj1 (translate_unknown_inputs sample_config "cxx" "gxx" "warnings" "pedantic")
              _ _ eq_refl _); decide_by_computation.
  - refine (proj1 (translate_unknown_inputs sample_config "cxx" "gxx" "languages" "c++99")
              _ _ eq_refl _); decide_by_computation.
  - refine (proj2 (proj1 (proj2
              (translate_unknown_inputs sample_config "cc" "gcc" "undefines" "X")) _ _));
      decide_by_computation.
  - refine (proj2 (proj2 (translate_unknown_inputs sample_config "cc" "tcc" "defines" "X"))
              _ (VStr "X Y") ["Y"] eq_refl); decide_by_computation.
Defined.

(** C5 as stated fails: a [languages] value that starts with [c++] and
    is unknown to the C table is skipped for the tool kind [cc], not
    rejected. *)
Lemma cxx_language_for_c_compiler_is_skipped :
  Js.startsWith "c++11" "c++" = true
  ∧ ("c++11" ∉ c_languages.*1)
  ∧ _get_abstract_flag_for_gcc_clang sample_config "cc" "gcc" "languages" "c++11" = Ret ""
  ∧ _get_abstract_flags sample_config "cc" "gcc" "languages" (VStr "c++11") = Ret "".
Proof.
  split; [reflexivity|]. split; [|split; reflexivity].
  decide_by_computation.
Qed.

(** ** Space-separated lists *)

Lemma append_cons (x : ascii) (a b : string) : String x a +:+ b = String x (a +:+ b).
Proof. reflexivity. Qed.

Lemma append_empty_l (a : string) : "" +:+ a = a.
Proof. reflexivity. Qed.

Lemma append_assoc (a b c : string) : (a +:+ b) +:+ c = a +:+ b +:+ c.
Proof. induction a as [|x a IH]; [done|]. by rewrite !append_cons, IH. Qed.

Lemma append_empty_r (a : string) : a +:+ "" = a.
Proof. induction a as [|x a IH]; [done|]. by rewrite append_cons, IH. Qed.

Lemma split_nonnil (c : ascii) (s : string) : Js.split c s ≠ [].
Proof.
  destruct s as [|a r]; simpl; [done|].
  destruct (Ascii.eqb a c); [done|]. by destruct (Js.split c r).
Qed.

Lemma split_app (c : ascii) (s1 s2 : string) :
  Js.split c (s1 +:+ String c s2) = Js.split c s1 ++ Js.split c s2.
Proof.
  induction s1 as [|a r IH]; rewrite ?append_cons, ?append_empty_l; simpl.
  - by rewrite Ascii.eqb_refl.
  - destruct (Ascii.eqb a c); [by rewrite IH|].
    rewrite IH. pose proof (split_nonnil c r) as Hr.
    by destruct (Js.split c r).
Qed.

Lemma split_no_char (c : ascii) (s : string) :
  has_char c s = false → Js.split c s = [s].
Proof.
  induction s as [|a r IH]; simpl; [done|].
  intros [Ha Hr]%orb_false_iff. rewrite Ha. by rewrite (IH Hr).
Qed.

Lemma tokens_app (s1 s2 : string) :
  Js.tokens (s1 +:+ " " +:+ s2) = Js.tokens s1 ++ Js.tokens s2.
Proof. unfold Js.tokens. change (" " +:+ s2) with (String Js.space s2).
  by rewrite split_app, List.filter_app. Qed.

Lemma tokens_empty : Js.tokens "" = [].
Proof. reflexivity. Qed.

Lemma tokens_token (w : string) : is_token w = true → Js.tokens w = [w].
Proof.
  unfold is_token, Js.tokens. intros [Hne Hsp%negb_true_iff]%andb_true_iff.
  rewrite (split_no_char _ _ Hsp). simpl. by rewrite Hne.
Qed.

Lemma split_pieces_no_char (c : ascii) (s : string) :
  Forall (λ w, has_char c w = false) (Js.split c s).
Proof.
  induction s as [|a r IH]; simpl; [by constructor|].
  destruct (Ascii.eqb a c) eqn:Ha; [by constructor|].
  pose proof (split_nonnil c r) as Hr.
  destruct (Js.split c r) as [|w ws]; [done|].
  inversion IH; subst. constructor; [|done]. simpl. by rewrite Ha.
Qed.

Lemma tokens_are_tokens (s : string) : Forall (λ w, is_token w = true) (Js.tokens s).
Proof.
  unfold Js.tokens. pose proof (split_pieces_no_char Js.space s) as H.
  induction H as [|w ws Hw _ IH]; simpl; [constructor|].
  destruct (Js.nonempty w) eqn:Hne; [|done].
  constructor; [|done]. unfold is_token. by rewrite Hne, Hw.
Qed.

Lemma words_of_are_tokens (s : string) : Forall (λ w, is_token w = true) (words_of s).
Proof. apply tokens_are_tokens. Qed.

Lemma tokens_spaced (l : list string) :
  Forall (λ w, is_token w = true) l → Js.tokens (spaced l) = l.
Proof.
  induction 1 as [|w l Hw _ IH]; [done|].
  change (spaced (w :: l)) with ("" +:+ " " +:+ (w +:+ spaced l)).
  rewrite tokens_app, tokens_empty. simpl.
  destruct l as [|w' l'].
  - simpl. rewrite append_empty_r. by apply tokens_token.
  - change (spaced (w' :: l')) with (" " +:+ (w' +:+ spaced l')).
    rewrite tokens_app, (tokens_token _ Hw).
    change (" " +:+ (w' +:+ spaced l')) with (spaced (w' :: l')) in IH.
    change (spaced (w' :: l')) with ("" +:+ " " +:+ (w' +:+ spaced l')) in IH.
    rewrite tokens_app, tokens_empty in IH. simpl in IH. by rewrite IH.
Qed.

Lemma spaced_app (l1 l2 : list string) : spaced (l1 ++ l2) = spaced l1 +:+ spaced l2.
Proof.
  induction l1 as [|w l1 IH]; [done|].
  change (spaced ((w :: l1) ++ l2)) with (" " +:+ w +:+ spaced (l1 ++ l2)).
  change (spaced (w :: l1)) with (" " +:+ w +:+ spaced l1).
  by rewrite IH, !append_assoc.
Qed.

Lemma tokens_join (l : list string) :
  Forall (λ w, is_token w = true) l → Js.tokens (Js.join " " l) = l.
Proof.
  induction 1 as [|w l Hw Hl IH]; [done|].
  destruct l as [|w' l']; [by apply tokens_token|].
  change (Js.join " " (w :: w' :: l')) with (w +:+ " " +:+ Js.join " " (w' :: l')).
  by rewrite tokens_app, (tokens_token _ Hw), IH.
Qed.

Lemma trimEnd_black (s : string) : ends_black s = true → Js.trimEnd s = s.
Proof.
  induction s as [|a r IH]; [done|].
  destruct r as [|b r'].
  - simpl. by intros ->%negb_true_iff.
  - intros H. change (ends_black (String a (String b r'))) with (ends_black (String b r')) in H.
    change (Js.trimEnd (String a (String b r')))
      with (match Js.trimEnd (String b r') with
            | EmptyString => if Js.is_white a then EmptyString else String a EmptyString
            | r0 => String a r0
            end).
    by rewrite (IH H).
Qed.

Lemma ends_black_app (a b : string) :
  Js.nonempty b = true → ends_black (a +:+ b) = ends_black b.
Proof.
  intros Hb. induction a as [|x a IH]; [done|].
  rewrite append_cons.
  destruct (a +:+ b) eqn:Hab.
  - destruct a; [|done]. rewrite append_empty_l in Hab. by subst b.
  - done.
Qed.

Lemma has_white_space (s : string) : has_white s = false → has_char Js.space s = false.
Proof.
  induction s as [|a r IH]; [done|]. simpl.
  intros [Ha Hr]%orb_false_iff. rewrite (IH Hr), orb_false_r.
  destruct (Ascii.eqb_spec a Js.space) as [->|]; [|done]. done.
Qed.

Lemma name_is_token (w : string) : is_name w = true → is_token w = true.
Proof.
  unfold is_name, is_token. intros [-> Hw%negb_true_iff]%andb_true_iff.
  by rewrite (has_white_space _ Hw).
Qed.

Lemma name_ends_black (w : string) : is_name w = true → ends_black w = true.
Proof.
  unfold is_name. intros [Hne Hw%negb_true_iff]%andb_true_iff.
  induction w as [|a r IH]; [done|].
  simpl in Hw. apply orb_false_iff in Hw as [Ha Hr].
  destruct r as [|b r']; [simpl; by rewrite Ha|].
  change (ends_black (String a (String b r'))) with (ends_black (String b r')).
  by apply IH.
Qed.

Lemma spaced_ends_black (w : string) (l : list string) :
  Forall (λ w, is_name w = true) (w :: l) → ends_black (w +:+ spaced l) = true.
Proof.
  revert w. induction l as [|w' l IH]; intros w Hall.
  - simpl. rewrite append_empty_r. apply name_ends_black. by inversion Hall.
  - inversion Hall as [|? ? Hw Hl]; subst.
    rewrite ends_black_app; [|done].
    change (spaced (w' :: l)) with (String Js.space (w' +:+ spaced l)).
    pose proof (IH w' Hl) as H.
    destruct (w' +:+ spaced l) eqn:E; [done|]. exact H.
Qed.

(** A list of names written with a space before each one reads back as
    the same list. *)
Lemma words_of_spaced (l : list string) :
  Forall (λ w, is_name w = true) l → words_of (spaced l) = l.
Proof.
  intros Hall. destruct l as [|w l]; [done|].
  unfold words_of, Js.trim.
  assert (Js.trimStart (spaced (w :: l)) = w +:+ spaced l) as ->.
  { change (spaced (w :: l)) with (String Js.space (w +:+ spaced l)).
    change (Js.trimStart (String Js.space (w +:+ spaced l)))
      with (Js.trimStart (w +:+ spaced l)).
    inversion Hall as [|? ? Hw _]; subst.
    unfold is_name in Hw. apply andb_true_iff in Hw as [Hne Hwh%negb_true_iff].
    destruct w as [|a r]; [done|]. rewrite append_cons. simpl.
    simpl in Hwh. apply orb_false_iff in Hwh as [-> _]. done. }
  rewrite (trimEnd_black _ (spaced_ends_black w l Hall)).
  transitivity (Js.tokens (spaced (w :: l))).
  - change (spaced (w :: l)) with ("" +:+ " " +:+ (w +:+ spaced l)).
    by rewrite tokens_app, tokens_empty.
  - apply tokens_spaced.
    eapply Forall_impl; [exact Hall|]. intros. by apply name_is_token.
Qed.

(** ** Keys of the store *)

Lemma length_append (a b : string) :
  String.length (a +:+ b) = (String.length a + String.length b)%nat.
Proof. induction a as [|x a IH]; [done|]. rewrite append_cons. simpl. by rewrite IH. Qed.

(** Two names with the same suffix appended are the same name. *)
Lemma append_inj_l (t a b : string) : a +:+ t = b +:+ t → a = b.
Proof.
  revert b. induction a as [|x a IH]; intros [|y b] H.
  - done.
  - apply (f_equal String.length) in H. rewrite !length_append in H. simpl in H. lia.
  - apply (f_equal String.length) in H. rewrite !length_append in H. simpl in H. lia.
  - rewrite !append_cons in H. injection H as -> H. f_equal. by apply IH.
Qed.

Lemma last_char_app (a b : string) :
  Js.nonempty b = true → last_char (a +:+ b) = last_char b.
Proof.
  intros Hb. induction a as [|x a IH]; [done|].
  rewrite append_cons. destruct (a +:+ b) eqn:E; [|done].
  destruct a; [|done]. rewrite append_empty_l in E. by subst b.
Qed.

(** Keys built from two names and two suffixes that end differently
    are different. *)
Lemma key_suffix_ne (a b s t : string) :
  Js.nonempty s = true → Js.nonempty t = true → last_char s ≠ last_char t →
  a +:+ s ≠ b +:+ t.
Proof.
  intros Hs Ht Hne H. apply (f_equal last_char) in H.
  by rewrite !last_char_app in H.
Qed.

Lemma key_name_ne (a b s : string) : a ≠ b → a +:+ s ≠ b +:+ s.
Proof. intros Hne H. by apply Hne, (append_inj_l s). Qed.

Lemma map_get_set (m : gmap string (gmap string jsval)) (name key key' : string)
    (value : jsval) :
  _map_get (_map_set m name key value) name key'
  = if decide (key = key') then value else _map_get m name key'.
Proof.
  unfold _map_get, _map_set.
  destruct (m !! name) as [inner|] eqn:E; rewrite lookup_insert_eq;
    rewrite lookup_insert; repeat case_decide; subst; try done.
Qed.

Lemma map_get_set_other (m : gmap string (gmap string jsval)) (name name' key key' : string)
    (value : jsval) :
  name ≠ name' → _map_get (_map_set m name key value) name' key' = _map_get m name' key'.
Proof.
  intros Hne. unfold _map_get, _map_set.
  destruct (m !! name) as [inner|] eqn:E; by rewrite lookup_insert_ne.
Qed.

(** ** Calls that leave the variables alone *)

Lemma same_variables_refl (e : env) : same_variables e e.
Proof. by destruct e. Qed.

Lemma same_variables_trans (e1 e2 e3 : env) :
  same_variables e1 e2 → same_variables e2 e3 → same_variables e1 e3.
Proof.
  unfold same_variables. destruct e1, e2, e3; cbn. intros [= -> -> -> -> -> -> -> -> ->].
  by intros [= -> -> -> -> -> -> -> -> ->].
Qed.

Lemma same_variables_maps (e e' : env) : same_variables e e' → maps e' = maps e.
Proof. unfold same_variables. destruct e, e'; cbn. by intros [= -> _]. Qed.

Lemma same_variables_emit (e : env) (ev : event) : same_variables e (emit ev e).
Proof. by destruct e. Qed.

Lemma keeps_ret {A : Type} (a : A) : keeps (mret a).
Proof. intros e a' e' [= <- <-]. apply same_variables_refl. Qed.

Lemma keeps_bind {A B : Type} (m : M A) (f : A → M B) :
  keeps m → (∀ a, keeps (f a)) → keeps (m ≫= f).
Proof.
  intros Hm Hf e b e'. unfold mbind, M_bind.
  destruct (m e) as [[a e1]| | |] eqn:E; try done.
  intros H. eapply same_variables_trans; [by eapply Hm|by eapply Hf].
Qed.

Lemma keeps_lift {A : Type} (r : result A) : keeps (lift r).
Proof.
  intros e a e'. unfold lift. destruct r; cbn; try done.
  intros [= <- <-]. apply same_variables_refl.
Qed.

Lemma keeps_get_env : keeps get_env.
Proof. intros e a e' [= <- <-]. apply same_variables_refl. Qed.

Lemma keeps_print (line : string) : keeps (print line).
Proof. intros e a e' [= <- <-]. apply same_variables_emit. Qed.

Lemma keeps_dprint (line : string) : keeps (dprint line).
Proof.
  intros e a e'. unfold dprint. destruct (xmake_sh_diagnosis (cfg e)).
  - apply keeps_print.
  - intros [= <- <-]. apply same_variables_refl.
Qed.

Lemma keeps_vprint (line : string) : keeps (vprint line).
Proof.
  intros e a e'. unfold vprint. destruct (xmake_sh_verbose (cfg e)).
  - apply keeps_print.
  - intros [= <- <-]. apply same_variables_refl.
Qed.

Lemma keeps_emit (ev : event) : keeps (modify_env (emit ev)).
Proof. intros e a e' [= <- <-]. apply same_variables_emit. Qed.

Lemma keeps_os_runv exec (program : string) (args : list string) :
  keeps (_os_runv exec program args).
Proof.
  intros e a e'. unfold _os_runv. destruct (_ =? 0); [|done].
  intros [= <- <-]. apply same_variables_emit.
Qed.

Lemma keeps_os_tmpfile tmp_name : keeps (_os_tmpfile tmp_name).
Proof. intros e a e' [= <- <-]. by destruct e. Qed.

(** The structure of a call is followed down to its primitive effects. *)
Ltac keeps_tac :=
  repeat first
    [ apply keeps_ret | apply keeps_lift | apply keeps_get_env | apply keeps_print
    | apply keeps_dprint | apply keeps_vprint | apply keeps_emit | apply keeps_os_runv
    | apply keeps_os_tmpfile
    | apply keeps_bind; [|intros ?]
    | match goal with |- keeps (if ?b then _ else _) => destruct b end
    | progress cbv zeta ].

Lemma keeps_check_cxsnippets exec tmp_name (name kind : string) :
  keeps (_check_cxsnippets exec tmp_name name kind).
Proof. unfold _check_cxsnippets, _os_tryrm, writeFileSync. keeps_tac. Qed.

Lemma keeps_check_option exec tmp_name (name : string) :
  keeps (_check_option exec tmp_name name).
Proof.
  unfold _check_option, _check_csnippets, _check_cxxsnippets.
  apply keeps_bind; [apply keeps_check_cxsnippets|].
  intros [|]; [apply keeps_check_cxsnippets|apply keeps_ret].
Qed.

(** ** Options *)

(** C9: outside the targets-loading phase [has_config] and [is_config]
    answer false whatever the store holds; inside it they consult the
    resolved value of the option, which is its [value] attribute or,
    when that is unset or empty, its [default]. *)
Theorem config_predicates_follow_the_phase (e : env) (name : string) (value : jsval) :
  (_loading_targets e = false →
   has_config e name = false ∧ is_config e name value = false)
  ∧ (_loading_targets e = true →
     has_config e name = _is_enabled (_get_option_value e name)
     ∧ is_config e name value = strict_eq (_get_option_value e name) value
     ∧ (test_z (_get_option_item e name "value") = true →
        _get_option_value e name = _get_option_item e name "default")
     ∧ (test_z (_get_option_item e name "value") = false →
        _get_option_value e name = _get_option_item e name "value")).
Proof.
  unfold has_config, is_config, _get_option_value. split.
  - by intros ->.
  - intros ->. cbn [negb]. repeat split; by intros ->.
Qed.

Lemma option_need_checking_default (e : env) (name : string) :
  test_nz (_get_option_item e name "default") = true → _option_need_checking e name = false.
Proof.
  unfold _option_need_checking. intros H.
  destruct (_get_option_item e name "default"); [done|..]; cbn [nullish]; by rewrite H.
Qed.

Lemma options_for_checking_loop (e : env) (names : list string) (options : string) :
  _get_options_for_checking_loop e names options
  = options +:+ spaced (List.filter (selected_for_checking e) names).
Proof.
  revert options. induction names as [|name names IH]; intros options.
  - simpl. by rewrite append_empty_r.
  - cbn [_get_options_for_checking_loop List.filter]. rewrite IH.
    fold (selected_for_checking e name).
    destruct (selected_for_checking e name); [|done].
    cbn [spaced]. by rewrite !append_assoc.
Qed.

Lemma Forall_filter_bool {A : Type} (P : A → Prop) (f : A → bool) (l : list A) :
  Forall P l → Forall P (List.filter f l).
Proof.
  induction 1 as [|x l Hx _ IH]; simpl; [constructor|].
  destruct (f x); [by constructor|done].
Qed.

(** The names handed to the prober are the declared names that are
    selected for checking. *)
Lemma options_for_checking_words (e : env) :
  Forall (λ w, is_name w = true) (words_of (_xmake_sh_options e)) →
  words_of (_get_options_for_checking e)
  = List.filter (selected_for_checking e) (words_of (_xmake_sh_options e)).
Proof.
  intros Hnames. unfold _get_options_for_checking.
  rewrite options_for_checking_loop, append_empty_l.
  by apply words_of_spaced, Forall_filter_bool.
Qed.

Lemma set_option_value_other (e e' : env) (n name key : string) (v : jsval) :
  _set_option_value n v e = Ret (tt, e') →
  n +:+ "_value" ≠ name +:+ "_" +:+ key →
  _get_option_item e' name key = _get_option_item e name key.
Proof.
  unfold _set_option_value, _set_option_item, _get_option_item.
  destruct (test_nz (VStr n)); [|done].
  intros [= <-] Hne. cbn [maps with_maps to_string].
  rewrite map_get_set. change ("_" +:+ "value") with "_value".
  by case_decide.
Qed.

(** Probing the options of a list leaves the attributes [key] of every
    option outside the list as they were, for every [key] that ends
    like [value] or [default]. *)
Lemma check_options_loop_other exec tmp_name (names : list string) (name key : string)
    (e e' : env) :
  name ∉ names →
  key = "value" ∨ key = "default" →
  _check_options_loop exec tmp_name names e = Ret (tt, e') →
  _get_option_item e' name key = _get_option_item e name key.
Proof.
  intros Hnotin Hkey. revert e.
  induction names as [|n names IH]; intros e.
  - by intros [= <-].
  - apply not_elem_of_cons in Hnotin as [Hne Hnotin].
    cbn [_check_options_loop]. unfold mbind at 1, M_bind at 1.
    destruct (_check_option exec tmp_name n e) as [[ok e1]| | |] eqn:Hcheck; try done.
    apply keeps_check_option, same_variables_maps in Hcheck.
    unfold mbind at 1, M_bind at 1.
    set (step := if ok then _ else _).
    destruct (step e1) as [[[] e2]| | |] eqn:Hstep; try done.
    intros Hrest. rewrite (IH Hnotin _ Hrest).
    transitivity (_get_option_item e1 name key);
      [|unfold _get_option_item; by rewrite Hcheck].
    assert (n +:+ "_value" ≠ name +:+ "_" +:+ key) as Hkeys.
    { destruct Hkey as [->| ->].
      - change ("_" +:+ "value") with "_value". apply key_name_ne. congruence.
      - change ("_" +:+ "default") with "_default". by apply key_suffix_ne. }
    subst step. destruct ok; cbn in Hstep.
    + eapply (set_option_value_other (emit _ e1)) in Hstep; [|exact Hkeys].
      by rewrite Hstep.
    + eapply (set_option_value_other (emit _ e1)) in Hstep; [|exact Hkeys].
      by rewrite Hstep.
Qed.

(** C6 (amended): an option with a non-empty [default] needs no
    checking and is not among the names handed to the prober, so the
    prober writes neither its [value] nor its [default]; its resolved
    value is the same after probing as before, and it is the default
    whenever no value was set before (option names being words without
    white space). *)
Theorem default_skips_probing exec tmp_name (e : env) (name : string) :
  test_nz (_get_option_item e name "default") = true →
  Forall (λ w, is_name w = true) (words_of (_xmake_sh_options e)) →
  _option_need_checking e name = false
  ∧ (name ∉ words_of (_get_options_for_checking e))
  ∧ ∀ e' : env,
      _check_options exec tmp_name e = Ret (tt, e') →
      _get_option_item e' name "value" = _get_option_item e name "value"
      ∧ _get_option_item e' name "default" = _get_option_item e name "default"
      ∧ _get_option_value e' name = _get_option_value e name
      ∧ (test_z (_get_option_item e name "value") = true →
         _get_option_value e' name = _get_option_item e name "default").
Proof.
  intros Hdefault Hnames.
  pose proof (option_need_checking_default e name Hdefault) as Hneed.
  assert (name ∉ words_of (_get_options_for_checking e)) as Hnotin.
  { rewrite (options_for_checking_words e Hnames), list_elem_of_In, List.filter_In.
    intros [_ Hsel]. unfold selected_for_checking in Hsel.
    rewrite Hneed, andb_false_r in Hsel. done. }
  split; [done|]. split; [done|].
  intros e' Hrun. unfold _check_options in Hrun. cbn in Hrun.
  pose proof (check_options_loop_other _ _ _ name "value" _ _ Hnotin (or_introl eq_refl) Hrun)
    as Hvalue.
  pose proof (check_options_loop_other _ _ _ name "default" _ _ Hnotin (or_intror eq_refl) Hrun)
    as Hdef.
  unfold _get_option_value. rewrite Hvalue, Hdef.
  repeat split. by intros ->.
Qed.

Lemma config_predicates_follow_the_phase_witness :
  has_config debug_cli_env "debug" = false
  ∧ is_config debug_cli_env "debug" (VStr "yes") = false
  ∧ has_config (with_loading false false true debug_cli_env) "debug" = true
  ∧ is_config (with_loading false false true debug_cli_env) "debug" (VStr "yes") = true
  ∧ has_config (with_loading false false true debug_env) "debug" = false.
Proof.
  pose proof (proj1 (config_predicates_follow_the_phase debug_cli_env "debug" (VStr "yes"))
                eq_refl) as [H1 H2].
  pose proof (proj2 (config_predicates_follow_the_phase
                       (with_loading false false true debug_cli_env) "debug" (VStr "yes"))
                eq_refl) as (H3 & H4 & _).
  pose proof (proj2 (config_predicates_follow_the_phase
                       (with_loading false false true debug_env) "debug" VUndef)
                eq_refl) as (H5 & _).
  split; [exact H1|]. split; [exact H2|]. split; [by rewrite H3|].
  split; [by rewrite H4|by rewrite H5].
Defined.

Lemma default_skips_probing_witness :
  _option_need_checking debug_env "debug" = false
  ∧ ("debug" ∉ words_of (_get_options_for_checking debug_env))
  ∧ _get_option_value (state_after (_check_options always_ok sample_tmp_name) debug_env)
      "debug" = VBool false.
Proof.
  assert (Forall (λ w, is_name w = true) (words_of (_xmake_sh_options debug_env))) as Hnames
    by decide_by_computation.
  destruct (default_skips_probing always_ok sample_tmp_name debug_env "debug" eq_refl Hnames)
    as (H1 & H2 & H3).
  split; [exact H1|]. split; [exact H2|].
  destruct (H3 (state_after (_check_options always_ok sample_tmp_name) debug_env))
    as (_ & _ & _ & H4); [by vm_compute|].
  by rewrite H4.
Defined.

(** C6 as stated fails: with [--debug=yes] on the command line the
    option keeps its default [false], is not probed, and resolves to
    the value of the command line. *)
Lemma command_line_value_overrides_default :
  _get_option_item debug_cli_env "debug" "default" = VBool false
  ∧ test_nz (_get_option_item debug_cli_env "debug" "default") = true
  ∧ _get_option_value (state_after (_check_options always_ok sample_tmp_name) debug_cli_env)
      "debug" = VStr "yes".
Proof. by vm_compute. Qed.

(** ** The option prober *)

(** A snippet check of a kind without inputs answers false at once:
    nothing is written, run or removed. *)
Lemma check_without_inputs exec tmp_name (e : env) (name kind : string) :
  test_z (_get_option_item e name (kind +:+ "funcs")) = true →
  test_z (_get_option_item e name (kind +:+ "includes")) = true →
  test_z (_get_option_item e name (kind +:+ "types")) = true →
  test_z (_get_option_item e name (kind +:+ "snippets")) = true →
  _check_cxsnippets exec tmp_name name kind e = Ret (false, e).
Proof.
  intros H1 H2 H3 H4. unfold _check_cxsnippets.
  unfold mbind at 1, M_bind at 1, get_env at 1. cbv beta iota.
  by rewrite H1, H2, H3, H4.
Qed.

(** C1 on the code: the option of scenario S3 has C inputs and a
    library only.  Its C snippet compiles and links (both commands
    exit with 0), the C++ check then answers false without running
    anything, and the option is resolved to [false]. *)
Theorem pthread_option_resolves_to_false :
  _check_csnippets always_ok sample_tmp_name "pthread" pthread_env
  = Ret (true,
         with_tmp_count 1
           (with_trace
              [ WriteFile "/tmp/tmp-0" "";
                WriteFile "/tmp/tmp-0.c"
                  ("#include " +:+ Js.dquote +:+ "pthread.h" +:+ Js.dquote +:+ Js.lf +:+ Js.lf
                   +:+ "int main(int argc, char** argv) {" +:+ Js.lf
                   +:+ "    volatile void* ppthread_create = (void*)&pthread_create;"
                   +:+ Js.lf +:+ Js.lf +:+ "    return 0;" +:+ Js.lf +:+ "}");
                Run "gcc -c  -o /tmp/tmp-0.o /tmp/tmp-0.c" [];
                Run "g++ -o /tmp/tmp-0.bin /tmp/tmp-0.o   -lpthread" [];
                Remove "/tmp/tmp-0.c"; Remove "/tmp/tmp-0.o"; Remove "/tmp/tmp-0.bin" ]
              pthread_env))
  ∧ (∀ e : env, maps e = maps pthread_env →
       _check_cxxsnippets always_ok sample_tmp_name "pthread" e = Ret (false, e))
  ∧ _get_option_value (state_after (_check_options always_ok sample_tmp_name) pthread_env)
      "pthread" = VBool false.
Proof.
  split; [by vm_compute|]. split; [|by vm_compute].
  intros e He. apply check_without_inputs; unfold _get_option_item; by rewrite He.
Qed.

(** ** Target files *)

Lemma default_prefixname_ok (e : env) (name : string) :
  _has_target_item e name "prefixname" = false →
  _get_target_prefixname e name
  = VStr (default_prefixname (_get_target_item e name "kind")).
Proof.
  unfold _get_target_prefixname, default_prefixname, is_library_kind, test_eq. intros ->.
  destruct (is_plat (cfg e) ["mingw"]);
    by destruct (strict_eq _ (VStr "static")), (strict_eq _ (VStr "shared")).
Qed.

Lemma strict_eq_str (v : jsval) (s : string) : strict_eq v (VStr s) = true → v = VStr s.
Proof. destruct v; try done. cbn. by intros ->%String.eqb_eq. Qed.

Lemma default_extension_ok (e : env) (name : string) :
  _has_target_item e name "extension" = false →
  _get_target_extension e name
  = VStr (default_extension (is_plat (cfg e) ["mingw"]) (_get_target_item e name "kind")).
Proof.
  unfold _get_target_extension, default_extension. intros ->.
  destruct (_get_target_item e name "kind") as [| | |kind|];
    try by destruct (is_plat (cfg e) ["mingw"]).
  cbn [strict_eq].
  destruct (String.eqb_spec kind "static") as [->|?];
    [by destruct (is_plat (cfg e) ["mingw"])|].
  destruct (String.eqb_spec kind "shared") as [->|?];
    [by destruct (is_plat (cfg e) ["mingw"])|].
  destruct (String.eqb_spec kind "binary") as [->|?];
    by destruct (is_plat (cfg e) ["mingw"]).
Qed.

Lemma file_basename_ok (e : env) (name : string) :
  to_string (_get_target_basename e name) = file_basename e name.
Proof.
  unfold _get_target_basename, file_basename.
  by destruct (_get_target_item e name "basename").
Qed.

Lemma file_prefixname_ok (e : env) (name : string) :
  to_string (_get_target_prefixname e name) = file_prefixname e name.
Proof.
  unfold file_prefixname.
  destruct (_has_target_item e name "prefixname") eqn:E;
    [unfold _get_target_prefixname; by rewrite E|].
  by rewrite default_prefixname_ok.
Qed.

Lemma file_extension_ok (e : env) (name : string) :
  to_string (_get_target_extension e name) = file_extension e name.
Proof.
  unfold file_extension.
  destruct (_has_target_item e name "extension") eqn:E;
    [unfold _get_target_extension; by rewrite E|].
  by rewrite default_extension_ok.
Qed.

(** C7: the file of a target is the join of its directory with its
    file name.  The file name is the one set on the target or, when
    none is set, prefix, base name and extension put together, where
    the base name is the one set on the target or else its name, and
    prefix and extension are those set on the target or else follow
    its kind and the platform; the directory is the one set on the
    target or else the join of the build directory, the platform, the
    architecture and the mode.  (An attribute that is the empty text
    counts as not set but for the base name, the prefix and the
    extension; a file name or a directory that is no text makes
    [path.join] throw.) *)
Theorem target_file_path path_join (e : env) (name : string) :
  unset_or_text (_get_target_item e name "filename") →
  unset_or_text (_get_target_item e name "targetdir") →
  _get_target_file path_join e name
  = Ret (path_join [file_directory path_join e name; file_name e name])
  ∧ (test_z (_get_target_item e name "filename") = true →
     file_name e name
     = file_prefixname e name +:+ file_basename e name +:+ file_extension e name)
  ∧ (∀ filename : string,
       _get_target_item e name "filename" = VStr filename → filename ≠ "" →
       file_name e name = filename).
Proof.
  intros Hfile Hdir. split; [|split].
  - unfold _get_target_file, _get_target_filename, _get_targetdir, file_name, file_directory.
    rewrite file_basename_ok, file_prefixname_ok, file_extension_ok.
    destruct Hfile as [->|[[|a filename] ->]], Hdir as [->|[[|b dir] ->]]; reflexivity.
  - unfold file_name.
    by destruct (_get_target_item e name "filename") as [| | |[]|].
  - intros filename Hf Hne. unfold file_name. rewrite Hf. by destruct filename.
Qed.

Lemma target_file_path_witness :
  _get_target_file sample_path_join diamond_env "a" = Ret "build/linux/x86_64/release/liba.a"
  ∧ _get_target_file sample_path_join diamond_env "b" = Ret "build/linux/x86_64/release/libb.so"
  ∧ _get_target_file sample_path_join diamond_env "app" = Ret "build/linux/x86_64/release/app"
  ∧ _get_target_file sample_path_join named_env "a" = Ret "build/linux/x86_64/release/a.lib"
  ∧ _get_target_file sample_path_join custom_env "a" = Ret "out/myfoo.lib"
  ∧ _get_target_file sample_path_join custom_env "b"
    = Ret "build/linux/x86_64/release/libbar.so".
Proof.
  assert (∀ e name, unset_or_text (_get_target_item e name "filename") →
                    unset_or_text (_get_target_item e name "targetdir") →
                    _get_target_file sample_path_join e name
                    = Ret (sample_path_join [file_directory sample_path_join e name;
                                             file_name e name])) as Hfile
    by (intros e name H1 H2; exact (proj1 (target_file_path sample_path_join e name H1 H2))).
  split; [|split; [|split; [|split; [|split]]]].
  - rewrite Hfile; [by vm_compute|left; by vm_compute..].
  - rewrite Hfile; [by vm_compute|left; by vm_compute..].
  - rewrite Hfile; [by vm_compute|left; by vm_compute..].
  - rewrite Hfile; [by vm_compute|right; eexists; by vm_compute|left; by vm_compute].
  - rewrite Hfile; [by vm_compute|left; by vm_compute|right; eexists; by vm_compute].
  - rewrite Hfile; [by vm_compute|left; by vm_compute..].
Defined.

(** ** Reverse deduplication *)

Lemma dedup_reverse_loop_app (a b deduped : list string) :
  _dedup_reverse_loop (a ++ b) deduped
  = _dedup_reverse_loop b (_dedup_reverse_loop a deduped).
Proof.
  revert deduped. induction a as [|w a IH]; intros deduped; [done|].
  simpl. by case_bool_decide.
Qed.

Lemma keep_last_elem (x : string) (l : list string) : x ∈ keep_last l ↔ x ∈ l.
Proof.
  induction l as [|y l IH]; [done|]. simpl.
  case_bool_decide as Hy; rewrite ?elem_of_cons, IH; [|done].
  split; [tauto|]. intros [->|?]; done.
Qed.

Lemma keep_last_NoDup (l : list string) : NoDup (keep_last l).
Proof.
  induction l as [|y l IH]; simpl; [constructor|].
  case_bool_decide as Hy; [done|]. constructor; [|done]. by rewrite keep_last_elem.
Qed.

(** The loop of the source, which walks the words backwards and puts
    each new one in front, keeps the last occurrence of every word. *)
Lemma dedup_reverse_loop_keep_last (l : list string) :
  _dedup_reverse_loop (rev l) [] = keep_last l.
Proof.
  induction l as [|x l IH]; [done|].
  cbn [rev]. rewrite dedup_reverse_loop_app, IH. simpl.
  do 2 case_bool_decide; rewrite keep_last_elem in *; done.
Qed.

Lemma dedup_reverse_keep_last (str : string) :
  _dedup_reverse str = Js.join " " (keep_last (Js.tokens str)).
Proof. unfold _dedup_reverse. by rewrite dedup_reverse_loop_keep_last. Qed.

Lemma keep_last_tokens (l : list string) :
  Forall (λ w, is_token w = true) l → Forall (λ w, is_token w = true) (keep_last l).
Proof.
  rewrite !Forall_forall. intros H x Hx. apply H. by apply keep_last_elem.
Qed.

(** ** The enumeration of the library dependencies *)

Lemma dfs_list_tokens (impl : string → result string) (visit : string → result (list string))
    (e : env) (deps : list string) (librarydeps : string) :
  (∀ dep, Js.tokens <$> impl dep = visit dep) →
  Forall (λ w, is_token w = true) deps →
  Js.tokens <$> _get_target_librarydeps_loop impl e deps librarydeps
  = (l ← dfs_list visit
           (List.filter (λ dep, is_library_kind (_get_target_item e dep "kind")) deps);
     Ret (Js.tokens librarydeps ++ l)).
Proof.
  intros Hvisit Hdeps. revert librarydeps.
  induction Hdeps as [|dep deps Hdep _ IH]; intros librarydeps.
  - cbn. by rewrite app_nil_r.
  - cbn [_get_target_librarydeps_loop List.filter].
    destruct (is_library_kind (_get_target_item e dep "kind")); [|apply IH].
    cbn [dfs_list]. rewrite <-Hvisit.
    destruct (impl dep) as [below| | |]; try done.
    cbn [mbind result_bind fmap result_fmap].
    rewrite IH.
    assert (Js.tokens (if Js.nonempty below
                       then (librarydeps +:+ " " +:+ dep) +:+ " " +:+ below
                       else librarydeps +:+ " " +:+ dep)
            = Js.tokens librarydeps ++ dep :: Js.tokens below) as ->.
    { destruct below as [|c below].
      - cbn [Js.nonempty]. by rewrite tokens_app, (tokens_token _ Hdep), tokens_empty.
      - cbn [Js.nonempty].
        rewrite tokens_app, tokens_app, (tokens_token _ Hdep), <-app_assoc. done. }
    destruct (dfs_list visit _) as [after| | |]; try done.
    cbn. by rewrite <-!app_assoc.
Qed.

Lemma string_to_array_tokens (v : jsval) (l : list string) :
  (∀ a, v ≠ VArr a) → string_to_array v = Ret l → Forall (λ w, is_token w = true) l.
Proof.
  intros Hna H. destruct v as [| | |s|a]; try done.
  - injection H as <-. apply words_of_are_tokens.
  - injection H as <-. apply words_of_are_tokens.
  - by destruct (Hna a).
Qed.

(** The source's recursion writes, word for word, the depth-first
    enumeration. *)
Lemma impl_tokens (e : env) (fuel : nat) (name : string) :
  (∀ t deps, string_to_array (_get_target_item e t "deps") = Ret deps →
             Forall (λ w, is_token w = true) deps) →
  Js.tokens <$> _get_target_librarydeps_impl fuel e name = dfs_enumeration fuel e name.
Proof.
  intros Hwords. revert name. induction fuel as [|fuel IH]; intros name; [done|].
  cbn [_get_target_librarydeps_impl dfs_enumeration]. unfold library_deps_of.
  destruct (string_to_array (_get_target_item e name "deps")) as [deps| | |] eqn:Hdeps;
    try done.
  cbn [mbind result_bind].
  rewrite (dfs_list_tokens _ (dfs_enumeration fuel e) e deps "" IH (Hwords _ _ Hdeps)).
  rewrite tokens_empty.
  by destruct (dfs_list _ _).
Qed.

Lemma ranked_deps_words (e : env) (rank : string → nat) :
  ranked_deps e rank →
  ∀ t deps, string_to_array (_get_target_item e t "deps") = Ret deps →
            Forall (λ w, is_token w = true) deps.
Proof. intros H t deps Hdeps. destruct (H t) as (deps' & Hd & Htok & _). congruence. Qed.

Lemma dfs_list_total (visit : nat → string → result (list string)) (n : nat)
    (deps : list string) :
  (∀ dep, dep ∈ deps → ∃ l, ∀ k, (n ≤ k)%nat → visit k dep = Ret l) →
  ∃ l, ∀ k, (n ≤ k)%nat → dfs_list (visit k) deps = Ret l.
Proof.
  induction deps as [|dep deps IH]; intros H.
  - by exists [].
  - destruct (H dep) as [below Hbelow]; [by left|].
    destruct IH as [after Hafter]; [intros d Hd; apply H; by right|].
    exists (dep :: below ++ after). intros k Hk. cbn [dfs_list].
    by rewrite (Hbelow k Hk), (Hafter k Hk).
Qed.

(** In a graph without cycles the enumeration is defined, and the same
    for every depth that is allowed beyond the rank of the target. *)
Lemma dfs_enumeration_total (e : env) (rank : string → nat) :
  ranked_deps e rank →
  ∀ (n : nat) (name : string), (rank name < n)%nat →
    ∃ l, ∀ fuel, (n ≤ fuel)%nat → dfs_enumeration fuel e name = Ret l.
Proof.
  intros Hrank. induction n as [|n IH]; intros name Hn; [lia|].
  destruct (Hrank name) as (deps & Hdeps & _ & Hlt).
  destruct (dfs_list_total (λ k, dfs_enumeration k e) n
              (List.filter (λ dep, is_library_kind (_get_target_item e dep "kind")) deps))
    as [l Hl].
  { intros dep [Hin Hlib]%list_elem_of_In%List.filter_In. apply IH.
    specialize (Hlt dep (proj2 (list_elem_of_In _ _) Hin) Hlib). lia. }
  exists l. intros [|fuel] Hfuel; [lia|].
  cbn [dfs_enumeration]. unfold library_deps_of. rewrite Hdeps. cbn [mbind result_bind].
  apply Hl. lia.
Qed.

Lemma tokens_librarydeps_answer (l : list string) :
  Forall (λ w, is_token w = true) l →
  Js.tokens (librarydeps_answer l) = if bool_decide (keep_last l = ["__none__"]) then []
                                     else keep_last l.
Proof.
  intros Hl. unfold librarydeps_answer. case_bool_decide; [done|].
  by apply tokens_join, keep_last_tokens.
Qed.

Lemma join_is_none (l : list string) :
  Forall (λ w, is_token w = true) l → Js.join " " l = "__none__" → l = ["__none__"].
Proof.
  intros Hl Hjoin. apply (f_equal Js.tokens) in Hjoin.
  by rewrite (tokens_join _ Hl) in Hjoin.
Qed.

Lemma set_target_item_returns (name : jsval) (key : string) (value : jsval) (e : env) :
  ∃ e', _set_target_item name key value e = Ret (tt, e').
Proof. unfold _set_target_item. destruct (test_nz name); by eexists. Qed.

(** What [_get_target_librarydeps] answers on its first call for a
    target, from what the recursion has written. *)
Lemma librarydeps_first_call (e : env) (fuel : nat) (name : string) (l : list string) :
  test_z (_get_target_item e name "librarydeps") = true →
  (∀ t deps, string_to_array (_get_target_item e t "deps") = Ret deps →
             Forall (λ w, is_token w = true) deps) →
  dfs_enumeration fuel e name = Ret l →
  ∃ e' memo,
    _get_target_librarydeps fuel name e = Ret (VStr (librarydeps_answer l), e')
    ∧ _set_target_item (VStr name) "librarydeps" memo e = Ret (tt, e')
    ∧ Forall (λ w, is_token w = true) l.
Proof.
  intros Hmemo Hwords Hdfs.
  pose proof (impl_tokens e fuel name Hwords) as Himpl. rewrite Hdfs in Himpl.
  destruct (_get_target_librarydeps_impl fuel e name) as [s| | |] eqn:Hs; try done.
  injection Himpl as Hl.
  assert (Forall (λ w, is_token w = true) l) as Htok.
  { rewrite <-Hl. apply tokens_are_tokens. }
  unfold _get_target_librarydeps.
  unfold mbind at 1, M_bind at 1, get_env at 1. cbv beta iota.
  assert (test_nq (_get_target_item e name "librarydeps") (VStr "__none__") = true) as Hnq.
  { by destruct (_get_target_item e name "librarydeps") as [| | |[|]|]. }
  rewrite Hmemo, Hnq. cbn [andb].
  unfold mbind at 1, M_bind at 1. unfold mbind at 1, M_bind at 1.
  unfold lift at 1. rewrite Hs. cbn [fmap result_fmap].
  unfold librarydeps_answer.
  destruct (Js.nonempty s) eqn:Hne.
  - rewrite dedup_reverse_keep_last, Hl.
    destruct (set_target_item_returns (VStr name) "librarydeps"
                (VStr (Js.join " " (keep_last l))) e) as [e' He'].
    exists e', (VStr (Js.join " " (keep_last l))). split; [|done].
    unfold mbind at 1, M_bind at 1. rewrite He'. cbn [mret M_ret].
    do 2 f_equal. cbn [test_eq strict_eq].
    case_bool_decide as Hk.
    + by rewrite Hk.
    + destruct (String.eqb_spec (Js.join " " (keep_last l)) "__none__") as [Heq|?]; [|done].
      destruct Hk. by apply join_is_none; [apply keep_last_tokens|].
  - destruct s; [|done]. cbn in Hl. subst l.
    destruct (set_target_item_returns (VStr name) "librarydeps" (VStr "__none__") e)
      as [e' He'].
    exists e', (VStr "__none__"). split; [|done].
    unfold mbind at 1, M_bind at 1. by rewrite He'.
Qed.

Lemma dfs_list_elem (visit : string → result (list string)) (deps l : list string)
    (t : string) :
  dfs_list visit deps = Ret l → t ∈ l →
  ∃ dep below, dep ∈ deps ∧ visit dep = Ret below ∧ (t = dep ∨ t ∈ below)
               ∧ ∀ x, x = dep ∨ x ∈ below → x ∈ l.
Proof.
  revert l. induction deps as [|dep deps IH]; intros l.
  - intros [= <-] Ht. by apply elem_of_nil in Ht.
  - cbn [dfs_list].
    destruct (visit dep) as [below| | |] eqn:Hbelow; try done. cbn [mbind result_bind].
    destruct (dfs_list visit deps) as [after| | |] eqn:Hafter; try done.
    intros [= <-]. rewrite elem_of_cons, elem_of_app. intros [->|[Ht|Ht]].
    + exists dep, below. split; [by left|]. split; [done|]. split; [by left|].
      intros x [->|Hx]; [by left|]. right. apply elem_of_app. by left.
    + exists dep, below. split; [by left|]. split; [done|]. split; [by right|].
      intros x [->|Hx]; [by left|]. right. apply elem_of_app. by left.
    + destruct (IH after eq_refl Ht) as (d & b & Hd & Hb & Htb & Hsub).
      exists d, b. split; [by right|]. split; [done|]. split; [done|].
      intros x Hx. right. apply elem_of_app. right. by apply Hsub.
Qed.

Lemma dfs_list_heads (visit : string → result (list string)) (deps l : list string) :
  dfs_list visit deps = Ret l → ∀ dep, dep ∈ deps → dep ∈ l.
Proof.
  revert l. induction deps as [|d deps IH]; intros l Hl dep Hdep.
  - by apply elem_of_nil in Hdep.
  - cbn [dfs_list] in Hl.
    destruct (visit d) as [below| | |]; try done. cbn [mbind result_bind] in Hl.
    destruct (dfs_list visit deps) as [after| | |]; try done.
    injection Hl as <-. apply elem_of_cons in Hdep as [->|Hdep]; [by left|].
    right. apply elem_of_app. right. by apply (IH after).
Qed.

Lemma library_deps_are_libraries (e : env) (name : string) (deps : list string) :
  library_deps_of e name = Ret deps →
  ∀ dep, dep ∈ deps → is_library_kind (_get_target_item e dep "kind") = true.
Proof.
  unfold library_deps_of.
  destruct (string_to_array _) as [all| | |]; try done.
  intros [= <-] dep [_ H]%list_elem_of_In%List.filter_In. done.
Qed.

(** Every enumerated target is a library. *)
Lemma dfs_enumeration_kinds (e : env) (fuel : nat) (name : string) (l : list string) :
  dfs_enumeration fuel e name = Ret l →
  ∀ t, t ∈ l → is_library_kind (_get_target_item e t "kind") = true.
Proof.
  revert name l. induction fuel as [|fuel IH]; intros name l; [done|].
  cbn [dfs_enumeration].
  destruct (library_deps_of e name) as [deps| | |] eqn:Hdeps; try done.
  cbn [mbind result_bind]. intros Hl t Ht.
  destruct (dfs_list_elem _ _ _ _ Hl Ht) as (dep & below & Hdep & Hbelow & [->|Hin] & _).
  - by eapply library_deps_are_libraries.
  - by eapply IH.
Qed.

(** The library dependencies of every enumerated target are enumerated. *)
Lemma dfs_enumeration_closed (e : env) (fuel : nat) (name : string) (l : list string) :
  dfs_enumeration fuel e name = Ret l →
  ∀ t, t ∈ l → ∃ deps, library_deps_of e t = Ret deps ∧ ∀ dep, dep ∈ deps → dep ∈ l.
Proof.
  revert name l. induction fuel as [|fuel IH]; intros name l; [done|].
  cbn [dfs_enumeration].
  destruct (library_deps_of e name) as [deps| | |] eqn:Hdeps; try done.
  cbn [mbind result_bind]. intros Hl t Ht.
  destruct (dfs_list_elem _ _ _ _ Hl Ht) as (dep & below & Hdep & Hbelow & [->|Hin] & Hsub).
  - destruct fuel as [|fuel]; [done|]. cbn [dfs_enumeration] in Hbelow.
    destruct (library_deps_of e dep) as [ddeps| | |] eqn:Hddeps; try done.
    cbn [mbind result_bind] in Hbelow.
    exists ddeps. split; [done|]. intros d Hd.
    apply Hsub. right. by eapply dfs_list_heads.
  - destruct (IH _ _ Hbelow t Hin) as (tdeps & Htdeps & Hclosed).
    exists tdeps. split; [done|]. intros d Hd. apply Hsub. right. by apply Hclosed.
Qed.

(** Writing the memo of a target leaves the kind and the dependencies
    of every target as they are. *)
Lemma memo_key_ne (name : jsval) (t key : string) :
  key = "kind" ∨ key = "deps" →
  (if test_nz name then to_string name +:+ "_" +:+ "librarydeps" else "__root_" +:+ "librarydeps")
  ≠ t +:+ "_" +:+ key
  ∧ (if test_nz name then to_string name +:+ "_" +:+ "librarydeps"
     else "__root_" +:+ "librarydeps") ≠ "__root_" +:+ key.
Proof.
  intros [->| ->].
  - split; destruct (test_nz name).
    + change ("_" +:+ "librarydeps") with "_librarydeps".
      change ("_" +:+ "kind") with "_kind". by apply key_suffix_ne.
    + change ("__root_" +:+ "librarydeps") with ("" +:+ "__root_librarydeps").
      change ("_" +:+ "kind") with "_kind". by apply key_suffix_ne.
    + change ("_" +:+ "librarydeps") with "_librarydeps".
      change ("__root_" +:+ "kind") with ("" +:+ "__root_kind"). by apply key_suffix_ne.
    + done.
  - assert (∀ a b : string, a +:+ "_librarydeps" ≠ b +:+ "_deps") as Hne.
    { intros a b H.
      change "_librarydeps" with ("_library" +:+ "deps") in H.
      change "_deps" with ("_" +:+ "deps") in H.
      rewrite <-!append_assoc in H. apply append_inj_l in H.
      revert H. by apply key_suffix_ne. }
    split; destruct (test_nz name).
    + apply Hne.
    + apply (Hne "__root").
    + apply (Hne _ "__root").
    + done.
Qed.

Lemma map_has_set (m : gmap string (gmap string jsval)) (name key key' : string)
    (value : jsval) :
  key ≠ key' → _map_has (_map_set m name key value) name key' = _map_has m name key'.
Proof.
  intros Hne. unfold _map_has, _map_set.
  destruct (m !! name) as [inner|] eqn:E; rewrite lookup_insert_eq, lookup_insert_ne by done.
  - done.
  - rewrite lookup_empty. by rewrite bool_decide_eq_false_2 by (by intros [? ?]).
Qed.

Lemma set_memo_keeps_graph (name : jsval) (value : jsval) (e e' : env) (t key : string) :
  key = "kind" ∨ key = "deps" →
  _set_target_item name "librarydeps" value e = Ret (tt, e') →
  _get_target_item e' t key = _get_target_item e t key.
Proof.
  intros Hkey Hset. destruct (memo_key_ne name t key Hkey) as [Hne1 Hne2].
  unfold _set_target_item in Hset. unfold _get_target_item.
  destruct (test_nz name); injection Hset as <-; cbn [maps with_maps];
    rewrite !map_get_set, !map_has_set by done; by repeat case_decide.
Qed.

(** C3 (amended): in a dependency graph without cycles through
    libraries, the first call of [_get_target_librarydeps] for a target
    returns, and its answer is the depth-first enumeration of the
    library dependencies below the target in which the last occurrence
    of every name is kept and the earlier ones are dropped (an answer
    that would be the memo mark [__none__] alone reads as empty). *)
Theorem librarydeps_is_dfs_keep_last (e : env) (rank : string → nat) (name : string) :
  ranked_deps e rank →
  test_z (_get_target_item e name "librarydeps") = true →
  ∃ l : list string,
    (∀ fuel, (rank name < fuel)%nat → dfs_enumeration fuel e name = Ret l)
    ∧ (∀ fuel, (rank name < fuel)%nat →
         ∃ e', _get_target_librarydeps fuel name e = Ret (VStr (librarydeps_answer l), e'))
    ∧ (keep_last l ≠ ["__none__"] →
       librarydeps_answer l = Js.join " " (keep_last l)
       ∧ Js.tokens (librarydeps_answer l) = keep_last l).
Proof.
  intros Hrank Hmemo.
  destruct (dfs_enumeration_total e rank Hrank (S (rank name)) name) as [l Hl]; [lia|].
  exists l. split; [intros fuel Hfuel; apply Hl; lia|].
  pose proof (ranked_deps_words e rank Hrank) as Hwords.
  split.
  - intros fuel Hfuel.
    destruct (librarydeps_first_call e fuel name l Hmemo Hwords) as (e' & _ & He' & _);
      [apply Hl; lia|].
    by exists e'.
  - intros Hnone.
    destruct (librarydeps_first_call e (S (rank name)) name l Hmemo Hwords)
      as (_ & _ & _ & _ & Htok); [apply Hl; lia|].
    rewrite (tokens_librarydeps_answer l Htok). unfold librarydeps_answer.
    by rewrite bool_decide_eq_false_2.
Qed.

(** C8: in a dependency graph without cycles through libraries, the
    first call of [_get_target_librarydeps] for a target returns a list
    of names that are all libraries, that holds every library
    dependency of each of its names, and that holds no name twice; the
    call leaves the kinds and the dependencies of all targets as they
    were. *)
Theorem librarydeps_closed_without_duplicates (e : env) (rank : string → nat)
    (name : string) (fuel : nat) :
  ranked_deps e rank →
  test_z (_get_target_item e name "librarydeps") = true →
  (rank name < fuel)%nat →
  ∃ (answer : string) (e' : env),
    _get_target_librarydeps fuel name e = Ret (VStr answer, e')
    ∧ (∀ t, t ∈ Js.tokens answer →
            is_library_kind (_get_target_item e t "kind") = true)
    ∧ (∀ t, t ∈ Js.tokens answer →
            ∃ deps, string_to_array (_get_target_item e t "deps") = Ret deps
                    ∧ ∀ dep, dep ∈ deps →
                             is_library_kind (_get_target_item e dep "kind") = true →
                             dep ∈ Js.tokens answer)
    ∧ NoDup (Js.tokens answer)
    ∧ (∀ t, _get_target_item e' t "kind" = _get_target_item e t "kind"
            ∧ _get_target_item e' t "deps" = _get_target_item e t "deps").
Proof.
  intros Hrank Hmemo Hfuel.
  destruct (dfs_enumeration_total e rank Hrank (S (rank name)) name) as [l Hl]; [lia|].
  pose proof (ranked_deps_words e rank Hrank) as Hwords.
  destruct (librarydeps_first_call e fuel name l Hmemo Hwords)
    as (e' & memo & He' & Hset & Htok); [apply Hl; lia|].
  exists (librarydeps_answer l), e'. split; [done|].
  rewrite (tokens_librarydeps_answer l Htok).
  assert (∀ t, t ∈ (if bool_decide (keep_last l = ["__none__"]) then [] else keep_last l)
               → t ∈ l) as Hin.
  { intros t. case_bool_decide; [by intros ?%elem_of_nil|]. apply keep_last_elem. }
  split; [|split; [|split]].
  - intros t Ht%Hin. eapply dfs_enumeration_kinds; [apply (Hl (S (rank name))); lia|done].
  - intros t Ht. pose proof (Hin t Ht) as Htl.
    destruct (dfs_enumeration_closed e _ name l (Hl (S (rank name)) (le_n _)) t Htl)
      as (deps & Hdeps & Hclosed).
    unfold library_deps_of in Hdeps.
    destruct (string_to_array (_get_target_item e t "deps")) as [all| | |]; try done.
    injection Hdeps as <-.
    exists all. split; [done|]. intros dep Hdep Hlib.
    assert (dep ∈ l) as Hdl.
    { apply Hclosed, list_elem_of_In, List.filter_In. split; [by apply list_elem_of_In|done]. }
    case_bool_decide as Hk.
    + exfalso. apply keep_last_elem in Htl, Hdl. rewrite Hk in Htl, Hdl.
      by apply elem_of_nil in Ht.
    + by apply keep_last_elem.
  - case_bool_decide; [constructor|apply keep_last_NoDup].
  - intros t. split; eapply set_memo_keeps_graph; eauto.
Qed.

(** ** The sample project *)

Lemma drop_app (t s : string) : Js.drop (String.length t) (t +:+ s) = s.
Proof. induction t as [|a t IH]; [done|]. by rewrite append_cons. Qed.

Lemma take_app (t s : string) : take (String.length t) (t +:+ s) = t.
Proof. induction t as [|a t IH]; [done|]. rewrite append_cons. simpl. by rewrite IH. Qed.

(** A key made of a name and a suffix gives the name back. *)
Lemma strip_suffix_key (t s k : string) : t +:+ s = k → strip_suffix s k = Some t.
Proof.
  intros <-. unfold strip_suffix, Js.endsWith. rewrite length_append.
  replace (String.length t + String.length s - String.length s)%nat
    with (String.length t) by lia.
  rewrite drop_app, take_app, String.eqb_refl.
  by rewrite (proj2 (Nat.leb_le _ _)) by lia.
Qed.

Lemma diamond_targets :
  maps diamond_env !! "targets" = Some (list_to_map diamond_items).
Proof. by vm_compute. Qed.

Lemma diamond_no_root (key : string) :
  key = "deps" ∨ key = "kind" →
  _map_has (maps diamond_env) "targets" ("__root_" +:+ key) = false.
Proof. intros [->| ->]; by vm_compute. Qed.

(** The cases of a lookup in the sample project at a key made of an
    unknown name and a known suffix. *)
Ltac diamond_cases H :=
  apply elem_of_list_to_map_2 in H; unfold diamond_items in H;
  repeat (apply elem_of_cons in H as [H|H]);
  [ injection H as H ?; apply strip_suffix_key in H; vm_compute in H;
    try discriminate H; injection H as <-; subst .. | by apply elem_of_nil in H ].

Lemma diamond_deps (name : string) :
  _get_target_item diamond_env name "deps"
  = if String.eqb name "app" then VStr "b a"
    else if String.eqb name "a" then VStr "b" else VUndef.
Proof.
  unfold _get_target_item. rewrite diamond_no_root by (by left).
  unfold _map_get. rewrite diamond_targets.
  destruct (list_to_map diamond_items !! (name +:+ "_" +:+ "deps")) as [v|] eqn:E.
  - diamond_cases E; reflexivity.
  - destruct (String.eqb_spec name "app") as [->|_]; [by vm_compute in E|].
    destruct (String.eqb_spec name "a") as [->|_]; [by vm_compute in E|]. done.
Qed.

Lemma diamond_kind (name : string) :
  _get_target_item diamond_env name "kind"
  = if String.eqb name "app" then VStr "binary"
    else if String.eqb name "a" then VStr "static"
    else if String.eqb name "b" then VStr "shared" else VUndef.
Proof.
  unfold _get_target_item. rewrite diamond_no_root by (by right).
  unfold _map_get. rewrite diamond_targets.
  destruct (list_to_map diamond_items !! (name +:+ "_" +:+ "kind")) as [v|] eqn:E.
  - diamond_cases E; reflexivity.
  - destruct (String.eqb_spec name "app") as [->|_]; [by vm_compute in E|].
    destruct (String.eqb_spec name "a") as [->|_]; [by vm_compute in E|].
    destruct (String.eqb_spec name "b") as [->|_]; [by vm_compute in E|]. done.
Qed.

Lemma diamond_ranked : ranked_deps diamond_env diamond_rank.
Proof.
  intros name. rewrite diamond_deps.
  destruct (String.eqb_spec name "app") as [->|Happ].
  - exists ["b"; "a"]. split; [done|]. split; [by repeat constructor|].
    intros dep [->|[->|[]%elem_of_nil]%elem_of_cons]%elem_of_cons _; cbn; lia.
  - destruct (String.eqb_spec name "a") as [->|Ha].
    + exists ["b"]. split; [done|]. split; [by repeat constructor|].
      intros dep [->|[]%elem_of_nil]%elem_of_cons _; cbn; lia.
    + exists []. split; [done|]. split; [constructor|]. by intros dep []%elem_of_nil.
Qed.

Lemma librarydeps_is_dfs_keep_last_witness :
  dfs_enumeration 3 diamond_env "app" = Ret ["b"; "a"; "b"]
  ∧ keep_last ["b"; "a"; "b"] = ["a"; "b"]
  ∧ fst <$> _get_target_librarydeps 3 "app" diamond_env = Ret (VStr "a b").
Proof.
  destruct (librarydeps_is_dfs_keep_last diamond_env diamond_rank "app" diamond_ranked eq_refl)
    as (l & Hl & Hanswer & _).
  assert (l = ["b"; "a"; "b"]) as ->.
  { specialize (Hl 3%nat (le_n 3)). vm_compute in Hl. by injection Hl as <-. }
  split; [exact (Hl 3%nat (le_n 3))|]. split; [reflexivity|].
  destruct (Hanswer 3%nat (le_n 3)) as [e' He']. by rewrite He'.
Defined.

(** C3 as stated fails: [app] depends on [b] and [a], and [a] on [b];
    the enumeration meets [b] first, yet the answer keeps its last
    occurrence and puts [a] before it. *)
Lemma librarydeps_keeps_last_not_first :
  dfs_enumeration 3 diamond_env "app" = Ret ["b"; "a"; "b"]
  ∧ keep_first ["b"; "a"; "b"] = ["b"; "a"]
  ∧ fst <$> _get_target_librarydeps 3 "app" diamond_env = Ret (VStr "a b")
  ∧ Js.join " " (keep_first ["b"; "a"; "b"]) ≠ "a b".
Proof. split; [|split; [|split]]; by vm_compute. Qed.

Lemma librarydeps_closed_without_duplicates_witness :
  ∃ e', _get_target_librarydeps 3 "app" diamond_env = Ret (VStr "a b", e')
        ∧ NoDup (Js.tokens "a b")
        ∧ is_library_kind (_get_target_item e' "a" "kind") = true
        ∧ is_library_kind (_get_target_item e' "b" "kind") = true.
Proof.
  destruct (librarydeps_closed_without_duplicates diamond_env diamond_rank "app" 3
              diamond_ranked eq_refl (le_n 3))
    as (answer & e' & He' & Hkinds & _ & Hnodup & Hsame).
  assert (answer = "a b") as ->.
  { assert (fst <$> _get_target_librarydeps 3 "app" diamond_env = Ret (VStr "a b")) as H
      by (by vm_compute).
    rewrite He' in H. by injection H as ->. }
  exists e'. split; [exact He'|]. split; [exact Hnodup|].
  split; rewrite (proj1 (Hsame _)); apply Hkinds; decide_by_computation.
Defined.

(** ** Undefines *)

Lemma bind_returns {A B : Type} (m : M A) (f : A → M B) (e e' : env) (b : B) :
  (m ≫= f) e = Ret (b, e') → ∃ a e1, m e = Ret (a, e1) ∧ f a e1 = Ret (b, e').
Proof.
  unfold mbind, M_bind. destruct (m e) as [[a e1]| | |]; try done.
  intros H. by exists a, e1.
Qed.

Lemma preserves_ret {A : Type} (Q : env → env → Prop) (a : A) :
  Reflexive Q → preserves Q (mret a).
Proof. intros HQ e a' e' [= <- <-]. apply HQ. Qed.

Lemma preserves_bind {A B : Type} (Q : env → env → Prop) (m : M A) (f : A → M B) :
  Transitive Q → preserves Q m → (∀ a, preserves Q (f a)) → preserves Q (m ≫= f).
Proof.
  intros HQ Hm Hf e b e' (a & e1 & H1 & H2)%bind_returns.
  eapply HQ; [by eapply Hm|by eapply Hf].
Qed.

Lemma preserves_get_env (Q : env → env → Prop) : Reflexive Q → preserves Q get_env.
Proof. intros HQ e a e' [= <- <-]. apply HQ. Qed.

Lemma preserves_for_each {A : Type} (Q : env → env → Prop) (args : list A)
    (body : A → M unit) :
  Reflexive Q → Transitive Q → (∀ x, preserves Q (body x)) → preserves Q (for_each args body).
Proof.
  intros Hrefl Htrans Hbody. induction args as [|x args IH].
  - by apply preserves_ret.
  - cbn [for_each]. apply preserves_bind; [done|apply Hbody|]. by intros _.
Qed.

(** The translator knows no item name [undefines]: a list of values
    under that name translates to nothing, or not at all. *)
Lemma abstract_flags_undefines (c : config) (toolkind toolname : string)
    (values : jsval) (flags : string) :
  _get_abstract_flags c toolkind toolname "undefines" values = Ret flags → flags = "".
Proof.
  unfold _get_abstract_flags.
  destruct (string_to_array values) as [[|word words]| | |]; try done.
  - by intros [= <-].
  - cbn [mbind result_bind _get_abstract_flags_loop].
    destruct (String.eqb toolname "gcc" || String.eqb toolname "gxx"
              || String.eqb toolname "clang" || String.eqb toolname "clangxx"); done.
Qed.

Lemma abstract_flags_undefines_throws (c : config) (toolkind toolname : string)
    (values : jsval) (word : string) (words : list string) :
  toolname ∈ gcc_clang_family →
  string_to_array values = Ret (word :: words) →
  _get_abstract_flags c toolkind toolname "undefines" values
  = Throw (unknown_itemname "undefines").
Proof.
  intros Hfam Hwords. unfold _get_abstract_flags. rewrite Hwords.
  cbn [mbind result_bind _get_abstract_flags_loop]. by rewrite (family_toolname _ Hfam).
Qed.

Lemma lift_returns {A : Type} (r : result A) (e e' : env) (a : A) :
  lift r e = Ret (a, e') → r = Ret a ∧ e' = e.
Proof. unfold lift. destruct r; cbn; try done. by intros [= <- <-]. Qed.

Lemma target_abstract_flags_undefines (fuel : nat) (name toolkind toolname : string)
    (values : jsval) (e e' : env) (flags : string) :
  _get_target_abstract_flags fuel name toolkind toolname "undefines" values e
  = Ret (flags, e') →
  flags = "".
Proof.
  unfold _get_target_abstract_flags.
  intros (_values & e1 & _ & (e2 & e3 & _ & H)%bind_returns)%bind_returns.
  apply lift_returns in H as [H _]. by eapply abstract_flags_undefines.
Qed.

Lemma target_flags_loop_app (fuel : nat) (name toolkind toolname : string)
    (pre post : list string) (acc : string) (e : env) :
  target_flags_loop fuel name toolkind toolname (pre ++ post) acc e
  = (target_flags_loop fuel name toolkind toolname pre acc
     ≫= target_flags_loop fuel name toolkind toolname post) e.
Proof.
  revert acc e. induction pre as [|itemname pre IH]; intros acc e; [done|].
  cbn [app target_flags_loop]. unfold mbind, M_bind.
  destruct (_get_target_abstract_flags fuel name toolkind toolname itemname VUndef e)
    as [[flags e1]| | |]; try done.
Qed.

(** ** What the flags of a target depend on *)

Lemma drop_app_keep (b s : string) (n : nat) :
  (n ≤ String.length s)%nat →
  Js.drop (String.length (b +:+ s) - n) (b +:+ s) = Js.drop (String.length s - n) s.
Proof.
  intros Hn. induction b as [|x b IH]; [done|].
  rewrite append_cons. cbn [String.length].
  pose proof (length_append b s) as Hlen.
  replace (S (String.length (b +:+ s)) - n)%nat with (S (String.length (b +:+ s) - n)) by lia.
  exact IH.
Qed.

(** Whether a string ends with [t] is decided by a suffix of it that
    is at least as long as [t]. *)
Lemma endsWith_app (b s t : string) :
  (String.length t ≤ String.length s)%nat → Js.endsWith (b +:+ s) t = Js.endsWith s t.
Proof.
  intros Ht. unfold Js.endsWith. rewrite (drop_app_keep b s _ Ht).
  f_equal. rewrite length_append.
  destruct (Nat.leb_spec (String.length t) (String.length s)); [|lia].
  by apply Nat.leb_le; lia.
Qed.

Lemma last_char_drop (n : nat) (x : string) :
  Js.nonempty (Js.drop n x) = true → last_char (Js.drop n x) = last_char x.
Proof.
  revert x. induction n as [|n IH]; intros x; [done|].
  destruct x as [|a r]; [done|]. cbn [Js.drop]. intros H. rewrite (IH r H).
  destruct r; [by destruct n|done].
Qed.

Lemma endsWith_last_char (x t : string) :
  Js.nonempty t = true → Js.endsWith x t = true → last_char x = last_char t.
Proof.
  intros Ht [_ H%String.eqb_eq]%andb_true_iff.
  rewrite <-H in Ht. rewrite <-(last_char_drop _ _ Ht). by rewrite H.
Qed.

(** The last characters, told apart by [P], tell the strings apart. *)
Lemma endsWith_false (P : ascii → bool) (x t : string) :
  match last_char x with Some c => P c | None => false end = true →
  match last_char t with Some c => negb (P c) | None => false end = true →
  Js.endsWith x t = false.
Proof.
  intros Hx Ht. destruct (Js.endsWith x t) eqn:E; [|done].
  apply endsWith_last_char in E; [|by destruct t].
  rewrite E in Hx. destruct (last_char t); [|done]. by rewrite Hx in Ht.
Qed.

Lemma eqb_false_last (P : ascii → bool) (x t : string) :
  match last_char x with Some c => P c | None => false end = true →
  match last_char t with Some c => negb (P c) | None => false end = true →
  String.eqb x t = false.
Proof.
  intros Hx Ht. destruct (String.eqb_spec x t) as [->|]; [|done].
  destruct (last_char t); [|done]. by rewrite Hx in Ht.
Qed.

Lemma endsWith_refl (s : string) : Js.endsWith s s = true.
Proof.
  unfold Js.endsWith. rewrite Nat.leb_refl, Nat.sub_diag. cbn [Js.drop andb].
  apply String.eqb_refl.
Qed.

Lemma drop_app_short (b s : string) (n : nat) :
  (n ≤ String.length b)%nat → Js.drop n (b +:+ s) = Js.drop n b +:+ s.
Proof.
  revert b. induction n as [|n IH]; intros b Hn; [done|].
  destruct b as [|x b]; [cbn in Hn; lia|].
  rewrite append_cons. cbn [Js.drop]. apply IH. cbn in Hn. lia.
Qed.

(** Two suffixes of one string: one of them is a suffix of the other. *)
Lemma endsWith_incomparable (b s t : string) :
  Js.endsWith t s = false → Js.endsWith s t = false → Js.endsWith (b +:+ s) t = false.
Proof.
  intros Hts Hst. destruct (Js.endsWith (b +:+ s) t) eqn:E; [|done].
  destruct (Nat.le_gt_cases (String.length t) (String.length s)) as [Hle|Hgt].
  - rewrite (endsWith_app b s t Hle) in E. congruence.
  - apply andb_true_iff in E as [Hlen E%String.eqb_eq].
    apply Nat.leb_le in Hlen. rewrite length_append in Hlen, E.
    rewrite drop_app_short in E by lia.
    rewrite <-E, endsWith_app, endsWith_refl in Hts; done.
Qed.

Lemma eqb_false_suffix (b s t : string) :
  Js.endsWith t s = false → String.eqb (b +:+ s) t = false.
Proof.
  intros Hts. destruct (String.eqb_spec (b +:+ s) t) as [<-|]; [|done].
  by rewrite endsWith_app, endsWith_refl in Hts.
Qed.


Lemma apart_from_spec (suffix key name : string) :
  apart_from suffix key = true → Js.endsWith (name +:+ "_" +:+ key) suffix = false.
Proof.
  unfold apart_from. intros [H1%negb_true_iff H2%negb_true_iff]%andb_true_iff.
  by apply endsWith_incomparable.
Qed.

Lemma map_get_targets (e : env) (key : string) :
  _map_get (maps e) "targets" key = default VUndef (targets_of e !! key).
Proof. unfold _map_get, targets_of. by destruct (maps e !! "targets"). Qed.

Lemma map_has_targets (e : env) (key : string) :
  _map_has (maps e) "targets" key = bool_decide (is_Some (targets_of e !! key)).
Proof. unfold _map_has, targets_of. by destruct (maps e !! "targets"). Qed.

Lemma targets_of_set (e : env) (key : string) (value : jsval) :
  targets_of (with_maps (_map_set (maps e) "targets" key value) e)
  = <[key := value]> (targets_of e).
Proof.
  unfold targets_of, _map_set. destruct e as [m]; cbn.
  destruct (m !! "targets"); cbn; by rewrite lookup_insert_eq.
Qed.

Lemma agree_outcome {A : Type} (hidden : string → bool) (r r' : result (A * env)) :
  agree hidden r r' → outcome r' = outcome r.
Proof.
  unfold agree, outcome.
  destruct r as [[a e]| | |], r' as [[a' e']| | |]; try done; cbn.
  - by intros [-> _].
  - by intros ->.
  - by intros ->.
Qed.

Lemma public_key (itemname : string) :
  itemname ∈ flag_items → itemname +:+ "_public" ∈ flag_keys.
Proof.
  intros Hin. unfold flag_keys.
  apply elem_of_app. right. apply elem_of_app. right. apply elem_of_app. left.
  apply list_elem_of_fmap. by exists itemname.
Qed.

Lemma item_key (itemname : string) : itemname ∈ flag_items → itemname ∈ flag_keys.
Proof.
  intros Hin. unfold flag_keys. apply elem_of_app. right. apply elem_of_app. by left.
Qed.

Lemma flagname_key (toolkind flagname : string) :
  _get_flagname toolkind = Ret flagname → flagname ∈ flag_keys.
Proof.
  unfold _get_flagname. cbn [switch].
  repeat (match goal with |- (if ?b then _ else _) = _ → _ => destruct b end;
          [intros [= <-]; by decide_by_computation|]).
  done.
Qed.

Section Blind.

(** The keys that are left out, and what is asked of them: no
    attribute that the assembly reads is kept under such a key. *)
Variable hidden : string → bool.
Hypothesis plain :
  ∀ key name : string, key ∈ flag_keys → hidden (name +:+ "_" +:+ key) = false.

Lemma item_same (e e' : env) (name key : string) :
  same_but hidden e e' → key ∈ flag_keys →
  _get_target_item e' name key = _get_target_item e name key.
Proof.
  intros (_ & _ & Hkeys) Hplain. unfold _get_target_item.
  rewrite !map_get_targets, !map_has_targets.
  change ("__root_" +:+ key) with ("__root" +:+ "_" +:+ key).
  by rewrite !Hkeys by by apply plain.
Qed.

Lemma toolset_same (e e' : env) (name : jsval) (kind : string) :
  same_but hidden e e' →
  _get_toolchain_toolset e' name kind = _get_toolchain_toolset e name kind.
Proof.
  intros (_ & Htc & _). unfold _get_toolchain_toolset, _get_toolchain_item, _map_get.
  by rewrite Htc.
Qed.

Lemma same_but_set (e e' : env) (key : string) (value : jsval) :
  same_but hidden e e' →
  same_but hidden (with_maps (_map_set (maps e) "targets" key value) e)
    (with_maps (_map_set (maps e') "targets" key value) e').
Proof.
  intros (Hcfg & Htc & Hkeys). split; [|split].
  - by destruct e, e'.
  - assert (∀ x : env, maps (with_maps (_map_set (maps x) "targets" key value) x)
                       !! "toolchains" = maps x !! "toolchains") as Hx.
    { intros [m]; cbn. unfold _map_set. destruct (m !! "targets"); by rewrite lookup_insert_ne. }
    by rewrite !Hx.
  - intros k Hk. rewrite !targets_of_set.
    destruct (decide (key = k)) as [->|Hne]; [by rewrite !lookup_insert_eq|].
    rewrite !lookup_insert_ne by done. by apply Hkeys.
Qed.

Lemma blind_ret {A : Type} (a : A) : blind hidden (mret a) (mret a).
Proof. by intros e e' H. Qed.

Lemma blind_bind {A B : Type} (m m' : M A) (k k' : A → M B) :
  blind hidden m m' → (∀ a, blind hidden (k a) (k' a)) → blind hidden (m ≫= k) (m' ≫= k').
Proof.
  intros Hm Hk e e' H. specialize (Hm e e' H). unfold mbind, M_bind, agree in *.
  destruct (m e) as [[a e1]| | |], (m' e') as [[a' e1']| | |]; try done.
  destruct Hm as [-> H1]. by apply Hk.
Qed.

Lemma blind_get_env {B : Type} (k k' : env → M B) :
  (∀ e e', same_but hidden e e' → blind hidden (k e) (k' e')) →
  blind hidden (get_env ≫= k) (get_env ≫= k').
Proof. intros Hk e e' H. by apply Hk. Qed.

Lemma blind_lift {A : Type} (r r' : result A) : r' = r → blind hidden (lift r) (lift r').
Proof. intros -> e e' H. unfold lift. by destruct r. Qed.

Lemma blind_lift_bind {A B : Type} (r r' : result A) (k k' : A → M B) :
  r' = r → (∀ a, r = Ret a → blind hidden (k a) (k' a)) →
  blind hidden (lift r ≫= k) (lift r' ≫= k').
Proof.
  intros -> Hk e e' H. unfold mbind, M_bind, lift. destruct r; cbn; try done.
  by apply Hk.
Qed.

Lemma blind_set_target_item (name : jsval) (key : string) (value : jsval) :
  blind hidden (_set_target_item name key value) (_set_target_item name key value).
Proof.
  intros e e' H. unfold _set_target_item.
  destruct (test_nz name); cbn; split; try done; by apply same_but_set.
Qed.

Lemma librarydeps_impl_same (fuel : nat) (e e' : env) (name : string) :
  same_but hidden e e' →
  _get_target_librarydeps_impl fuel e' name = _get_target_librarydeps_impl fuel e name.
Proof.
  intros H. revert name. induction fuel as [|fuel IH]; intros name; [done|].
  cbn [_get_target_librarydeps_impl].
  rewrite (item_same e e' name "deps") by (done || by decide_by_computation).
  destruct (string_to_array _) as [deps| | |]; try done. cbn.
  generalize "". induction deps as [|dep deps IHd]; intros acc; [done|].
  cbn [_get_target_librarydeps_loop].
  rewrite (item_same e e' dep "kind") by (done || by decide_by_computation).
  destruct (is_library_kind _); [|apply IHd].
  rewrite IH. destruct (_get_target_librarydeps_impl fuel e dep); try done. cbn. apply IHd.
Qed.

Lemma blind_librarydeps (fuel : nat) (name : string) :
  blind hidden (_get_target_librarydeps fuel name) (_get_target_librarydeps fuel name).
Proof.
  unfold _get_target_librarydeps. apply blind_get_env. intros e e' H.
  rewrite (item_same e e' name "librarydeps") by (done || by decide_by_computation).
  apply blind_bind; [|intros; apply blind_ret].
  destruct (_ && _); [|apply blind_ret].
  apply blind_lift_bind; [by apply librarydeps_impl_same|]. intros deps _.
  destruct (Js.nonempty deps);
    (apply blind_bind; [apply blind_set_target_item|intros; apply blind_ret]).
Qed.

Lemma public_values_same (e e' : env) (itemname : string) (deps values : list string) :
  same_but hidden e e' → itemname ∈ flag_items →
  public_values_loop e' itemname deps values = public_values_loop e itemname deps values.
Proof.
  intros H Hitem. revert values. induction deps as [|dep deps IH]; intros values; [done|].
  cbn [public_values_loop].
  rewrite (item_same e e' dep "kind") by (done || by decide_by_computation).
  rewrite (item_same e e' dep (itemname +:+ "_public")) by (done || by apply public_key).
  by rewrite IH.
Qed.

(** The abstract flags of an item: the values are read from the
    attribute of that name when none is given. *)
Lemma blind_abstract_flags (fuel : nat) (name toolkind toolname itemname : string)
    (values : jsval) :
  nullish values (VStr "") ≠ VStr "" ∨ itemname ∈ flag_items →
  blind hidden (_get_target_abstract_flags fuel name toolkind toolname itemname values)
    (_get_target_abstract_flags fuel name toolkind toolname itemname values).
Proof.
  intros Hcase. unfold _get_target_abstract_flags.
  assert (∀ v : jsval,
            blind hidden
              (get_env ≫= λ e : env,
                 lift (_get_abstract_flags (cfg e) toolkind toolname itemname v))
              (get_env ≫= λ e : env,
                 lift (_get_abstract_flags (cfg e) toolkind toolname itemname v))) as Hend.
  { intros v. apply blind_get_env. intros e e' H. apply blind_lift. by rewrite (proj1 H). }
  apply blind_bind; [|intros; apply Hend].
  destruct (strict_eq (nullish values (VStr "")) (VStr "")) eqn:E; [|apply blind_ret].
  destruct Hcase as [Hgiven|Hitem].
  { exfalso. apply Hgiven. destruct (nullish values (VStr "")) as [| | |x|]; try done.
    cbn in E. by apply String.eqb_eq in E as ->. }
  apply blind_get_env. intros e e' H.
  rewrite (item_same e e' name itemname) by (done || by apply item_key).
  apply blind_bind; [apply blind_librarydeps|]. intros deps.
  apply blind_get_env. intros e1 e1' H1.
  apply blind_lift_bind; [done|]. intros dep_list _.
  apply blind_lift_bind; [done|]. intros own _.
  rewrite (public_values_same e1 e1') by done. apply blind_ret.
Qed.

Lemma blind_target_flags_loop (fuel : nat) (name toolkind toolname : string)
    (itemnames : list string) (result : string) :
  Forall (λ itemname, itemname ∈ flag_items) itemnames →
  blind hidden (target_flags_loop fuel name toolkind toolname itemnames result)
    (target_flags_loop fuel name toolkind toolname itemnames result).
Proof.
  intros Hplain. revert result.
  induction Hplain as [|itemname itemnames Hitem _ IH]; intros result; [apply blind_ret|].
  cbn [target_flags_loop]. apply blind_bind; [by apply blind_abstract_flags; right|].
  intros flags. apply IH.
Qed.

Lemma toolchain_flags_same (e e' : env) (name toolkind toolname : string) :
  same_but hidden e e' →
  _get_target_toolchain_flags e' name toolkind toolname
  = _get_target_toolchain_flags e name toolkind toolname.
Proof.
  intros H. unfold _get_target_toolchain_flags, _get_target_toolchain_flags_for_gcc,
    _get_target_toolchain_flags_for_clang.
  rewrite (item_same e e' name "kind") by (done || by decide_by_computation).
  by rewrite (proj1 H).
Qed.

Lemma blind_compiler_flags (fuel : nat) (name toolkind : string) :
  blind hidden (_get_target_compiler_flags fuel name toolkind)
    (_get_target_compiler_flags fuel name toolkind).
Proof.
  unfold _get_target_compiler_flags. apply blind_get_env. intros e e' H.
  rewrite (toolset_same e e'), (proj1 H) by done.
  apply blind_lift_bind; [done|]. intros toolname _.
  apply blind_lift_bind; [by apply toolchain_flags_same|]. intros toolchain_flags _.
  apply blind_bind.
  { apply blind_target_flags_loop. unfold compiler_itemnames.
    repeat (constructor; [by decide_by_computation|]). constructor. }
  intros result. apply blind_lift_bind; [done|]. intros flagname Hflag%flagname_key.
  apply blind_get_env. intros e1 e1' H1.
  rewrite (item_same e1 e1' name flagname) by done.
  rewrite (item_same e1 e1' name "cxflags") by (done || by decide_by_computation).
  rewrite (item_same e1 e1' name "mxflags") by (done || by decide_by_computation).
  repeat (match goal with |- blind _ (if ?b then _ else _) _ => destruct b end);
    apply blind_ret.
Qed.

End Blind.

(** No attribute that the assembly reads is kept under a key of the
    private undefines. *)
Lemma udefines_plain (key name : string) :
  key ∈ flag_keys → is_udefines_key (name +:+ "_" +:+ key) = false.
Proof.
  intros Hkey. apply apart_from_spec.
  assert (Forall (λ k, apart_from "_udefines" k = true) flag_keys) as Hall
    by (by decide_by_computation).
  by apply (proj1 (Forall_forall _ _) Hall).
Qed.

(** A call of [add_udefines] without [{public}] writes private
    undefines, or the attributes of an option. *)
Lemma add_target_item_udefines (name : jsval) (value : jsval) (e e' : env) :
  _add_target_item name "udefines" value e = Ret (tt, e') → same_but_udefines e e'.
Proof.
  unfold _add_target_item. intros [= <-].
  set (slot := if test_nz name then _ else _).
  assert (is_udefines_key slot = true) as Hslot.
  { subst slot. unfold is_udefines_key. destruct (test_nz name); [|done].
    change ("_" +:+ "udefines") with "_udefines".
    by rewrite (endsWith_app (to_string name) "_udefines" "_udefines") by (cbn; lia). }
  split; [by destruct e|split].
  - destruct e as [m]; cbn. unfold _map_set.
    destruct (m !! "targets"); by rewrite lookup_insert_ne.
  - intros k Hk. rewrite targets_of_set, lookup_insert_ne; [done|congruence].
Qed.

Lemma add_option_item_same_but (hidden : string → bool) (name : jsval) (key : string)
    (value : jsval) (e e' : env) :
  _add_option_item name key value e = Ret (tt, e') → same_but hidden e e'.
Proof.
  unfold _add_option_item. destruct (test_nz name); [|done]. intros [= <-].
  destruct e as [m]; unfold same_but, targets_of, _map_set; cbn.
  split; [done|].
  destruct (m !! "options"); by rewrite !lookup_insert_ne.
Qed.

Lemma same_but_trans (hidden : string → bool) (e1 e2 e3 : env) :
  same_but hidden e1 e2 → same_but hidden e2 e3 → same_but hidden e1 e3.
Proof.
  intros (Hc & Ht & Hk) (Hc' & Ht' & Hk'). split; [congruence|split; [congruence|]].
  intros key Hkey. by rewrite Hk', Hk.
Qed.

Lemma same_but_refl (hidden : string → bool) (e : env) : same_but hidden e e.
Proof. done. Qed.

Lemma add_udefines_private (args : list string) (e e' : env) :
  has_public args = false →
  add_udefines args e = Ret (tt, e') → same_but_udefines e e'.
Proof.
  intros Hpublic.
  assert (preserves same_but_udefines (add_udefines args)) as Hpres;
    [|intros H; by apply Hpres in H].
  unfold add_udefines. rewrite Hpublic.
  assert (Reflexive same_but_udefines) as Hrefl by (intros x; apply same_but_refl).
  assert (Transitive same_but_udefines) as Htrans
    by (intros x y z; apply (same_but_trans is_udefines_key)).
  apply preserves_bind; [done|by apply preserves_get_env|]. intros e0.
  destruct (_loading_targets e0 && test_z (_xmake_sh_option_current e0)).
  - apply preserves_bind; [done| |intros _; by apply preserves_ret].
    apply preserves_for_each; [done..|]. intros x.
    destruct (test_nq _ _); [|by apply preserves_ret].
    intros e1 [] e2. apply add_target_item_udefines.
  - destruct (_loading_options e0 && test_nz (_xmake_sh_option_current e0));
      [|by apply preserves_ret].
    apply preserves_for_each; [done..|]. intros x e1 [] e2.
    apply (add_option_item_same_but is_udefines_key).
Qed.




(** ** The configfile templater *)

(** The regular expression of the final sweep asks for the end of the
    text and then for a brace: it matches nowhere. *)
Lemma sweep_regex_never_matches (s : string) : rmatch sweep_regex s = None.
Proof. by destruct s. Qed.

Lemma sweep_leaves_text (repl before s : string) :
  regex_scan sweep_regex repl before O s = s.
Proof.
  revert before. induction s as [|a r IH]; intros before; [done|].
  cbn [regex_scan]. rewrite sweep_regex_never_matches. by rewrite IH.
Qed.

(** The final sweep of [_generate_configfile] changes nothing. *)
Lemma final_sweep_is_identity (content : string) (replaceValue : jsval) :
  _io_replace_file content [(PRegex sweep_regex, replaceValue)] = content.
Proof. cbn. apply sweep_leaves_text. Qed.

Lemma has_char_app (c : ascii) (a b : string) :
  has_char c (a +:+ b) = has_char c a || has_char c b.
Proof.
  induction a as [|x a IH]; [done|]. rewrite append_cons. simpl.
  by rewrite IH, orb_assoc.
Qed.

Lemma substitution_plain (matched before after repl : string) :
  has_char "$" repl = false → Js.substitution matched before after repl = repl.
Proof.
  induction repl as [|a r IH]; [done|]. simpl.
  intros [Ha Hr]%orb_false_iff. rewrite Ha. by rewrite (IH Hr).
Qed.

Lemma prefix_app (pat rest : string) : String.prefix pat (pat +:+ rest) = true.
Proof.
  induction pat as [|a pat IH]; [by destruct rest|].
  rewrite append_cons. simpl. by destruct (ascii_dec a a).
Qed.

(** With a replacement free of dollars the scan does not depend on the
    text already passed. *)
Lemma replace_scan_before (all : bool) (pat repl b1 b2 : string) (skip : nat)
    (active : bool) (s : string) :
  has_char "$" repl = false →
  Js.replace_scan all pat repl b1 skip active s
  = Js.replace_scan all pat repl b2 skip active s.
Proof.
  intros Hrepl. revert b1 b2 skip active.
  induction s as [|a r IH]; intros b1 b2 skip active; [done|].
  cbn [Js.replace_scan]. destruct skip as [|k]; [|apply IH].
  destruct (active && String.prefix pat (String a r)).
  - rewrite !(substitution_plain _ _ _ _ Hrepl). f_equal. apply IH.
  - f_equal. apply IH.
Qed.

Lemma replace_scan_skip (all : bool) (pat repl before p rest : string) (active : bool) :
  has_char "$" repl = false →
  Js.replace_scan all pat repl before (String.length p) active (p +:+ rest)
  = Js.replace_scan all pat repl before O active rest.
Proof.
  intros Hrepl. revert before. induction p as [|a p IH]; intros before; [done|].
  rewrite append_cons. cbn [String.length Js.replace_scan].
  rewrite IH. by apply replace_scan_before.
Qed.

(** The first match of a pattern is replaced and the scan goes on
    after it. *)
Lemma replaceAll_first (pat repl pre post : string) :
  Js.nonempty pat = true →
  has_char "$" repl = false →
  clear_before pat pre (pat +:+ post) = true →
  Js.replaceAll (pre +:+ pat +:+ post) pat repl = pre +:+ repl +:+ Js.replaceAll post pat repl.
Proof.
  intros Hpat Hrepl. unfold Js.replaceAll. generalize EmptyString at 1 as before.
  induction pre as [|a pre IH]; intros before Hclear.
  - rewrite !append_empty_l. destruct pat as [|a pat]; [done|].
    rewrite (append_cons a pat post). cbn [Js.replace_scan andb].
    rewrite <-(append_cons a pat post), prefix_app.
    rewrite (substitution_plain _ _ _ _ Hrepl).
    replace (String.length (String a pat) - 1)%nat with (String.length pat)
      by (cbn [String.length]; lia).
    f_equal.
    rewrite replace_scan_skip by done. by apply replace_scan_before.
  - cbn [clear_before] in Hclear. apply andb_true_iff in Hclear as [Hhere Hclear].
    apply negb_true_iff in Hhere.
    rewrite !append_cons in *. cbn [Js.replace_scan andb]. rewrite Hhere.
    f_equal. by apply IH.
Qed.

Lemma replace_configvar_define_text (name : string) (value : jsval) :
  _replace_configvar_define name value
  = (PStr (define_placeholder name), VStr (define_text name value)).
Proof.
  unfold _replace_configvar_define, define_text, define_placeholder, test_eq.
  destruct (test_z value); [done|].
  destruct value as [|b|n|s|l]; try done. cbn [strict_eq].
  destruct (String.eqb_spec s "1") as [->|H1]; [done|].
  destruct (String.eqb_spec s "true") as [->|H2]; [done|]. cbn [orb].
  rewrite bool_decide_eq_false_2 by (intros [[=]|[=]]; done).
  destruct (String.eqb_spec s "0") as [->|H3]; [done|].
  destruct (String.eqb_spec s "false") as [->|H4]; [done|]. cbn [orb].
  by rewrite bool_decide_eq_false_2 by (intros [[=]|[=]]; done).
Qed.

Lemma define_text_plain (name : string) (value : jsval) :
  has_char "$" name = false → has_char "$" (to_string value) = false →
  has_char "$" (define_text name value) = false.
Proof.
  intros Hname Hvalue. unfold define_text.
  destruct (test_z value); [by rewrite !has_char_app, Hname|].
  case_bool_decide; [by rewrite !has_char_app, Hname|].
  case_bool_decide; [by rewrite !has_char_app, Hname|].
  by rewrite !has_char_app, Hname, Hvalue.
Qed.

(** C2 (amended): the substitution made for the configvar [VAR] has the
    placeholder [${define VAR}] as its pattern and, as its text,
    [/*#undef VAR*/] when the value is empty or unset, [#define VAR 1]
    when it is the string [1] or [true], [/*#define VAR 0*/] when it is
    the string [0] or [false], and [#define VAR] followed by the value
    otherwise; applied to a template, it puts that text in the place of
    the first placeholder and goes on with the text after it (for names
    and values without a dollar sign). *)
Theorem define_placeholder_is_replaced (name : string) (value : jsval) :
  _replace_configvar_define name value
  = (PStr (define_placeholder name), VStr (define_text name value))
  ∧ (test_z value = true → define_text name value = "/*#undef " +:+ name +:+ "*/")
  ∧ (value = VStr "1" ∨ value = VStr "true" →
     define_text name value = "#define " +:+ name +:+ " 1")
  ∧ (value = VStr "0" ∨ value = VStr "false" →
     define_text name value = "/*#define " +:+ name +:+ " 0*/")
  ∧ (has_char "$" name = false → has_char "$" (to_string value) = false →
     ∀ pre post : string,
       clear_before (define_placeholder name) pre (define_placeholder name +:+ post) = true →
       _io_replace_file (pre +:+ define_placeholder name +:+ post)
         [_replace_configvar_define name value]
       = pre +:+ define_text name value
         +:+ _io_replace_file post [_replace_configvar_define name value]).
Proof.
  split; [apply replace_configvar_define_text|].
  split; [unfold define_text; by intros ->|].
  split; [intros [->| ->]; reflexivity|].
  split; [intros [->| ->]; reflexivity|].
  intros Hname Hvalue pre post Hclear.
  rewrite replace_configvar_define_text. cbn [_io_replace_file foldl js_replaceAll fst snd].
  cbn [to_string]. apply replaceAll_first; [done| |done].
  by apply define_text_plain.
Qed.

Lemma define_placeholder_is_replaced_witness :
  _io_replace_file "a ${define HAS_PTHREAD} b ${define HAS_PTHREAD}"
    [_replace_configvar_define "HAS_PTHREAD" (VNum 1)]
  = "a #define HAS_PTHREAD 1 b #define HAS_PTHREAD 1"
  ∧ define_text "FOO" VUndef = "/*#undef FOO*/"
  ∧ define_text "ONE" (VStr "true") = "#define ONE 1"
  ∧ define_text "ZERO" (VStr "false") = "/*#define ZERO 0*/".
Proof.
  split; [|split; [|split]].
  - destruct (define_placeholder_is_replaced "HAS_PTHREAD" (VNum 1)) as (_ & _ & _ & _ & H).
    exact (H eq_refl eq_refl "a " " b ${define HAS_PTHREAD}" eq_refl).
  - exact (proj1 (proj2 (define_placeholder_is_replaced "FOO" VUndef)) eq_refl).
  - exact (proj1 (proj2 (proj2 (define_placeholder_is_replaced "ONE" (VStr "true"))))
             (or_intror eq_refl)).
  - exact (proj1 (proj2 (proj2 (proj2 (define_placeholder_is_replaced "ZERO" (VStr "false")))))
             (or_intror eq_refl)).
Defined.

(** C2 as stated fails: the text written for an empty configvar has no
    blanks inside the comment, and the final sweep leaves the
    placeholder of a variable that no target sets where it is. *)
Lemma undef_text_and_final_sweep :
  _replace_configvar_define "FOO" VUndef = (PStr "${define FOO}", VStr "/*#undef FOO*/")
  ∧ "/*#undef FOO*/" ≠ "/* #undef FOO */"
  ∧ substitute_configfile "${define BAR}" [] = "${define BAR}"
  ∧ "${define BAR}" ≠ "/* #undef BAR */"
  ∧ WriteFile "out/config.h"
      ("#define V 1" +:+ Js.lf +:+ "#define HAS_PTHREAD 1" +:+ Js.lf
       +:+ "/*#undef FOO*/" +:+ Js.lf +:+ "${define BAR}" +:+ Js.lf
       +:+ "/*#define ZERO 0*/" +:+ Js.lf)
    ∈ trace (state_after (sample_generate_configfile "app" "config.h.in") configvars_env).
Proof.
  split; [reflexivity|]. split; [discriminate|]. split; [reflexivity|].
  split; [discriminate|]. decide_by_computation.
Qed.

(** ** Exit codes *)

Lemma handle_arguments_app argv0 mk nj plat arch (pre rest : list string) (e e1 : env) :
  handle_arguments argv0 mk nj plat arch pre e = Ret (tt, e1) →
  handle_arguments argv0 mk nj plat arch (pre ++ rest) e
  = handle_arguments argv0 mk nj plat arch rest e1.
Proof.
  revert e. induction pre as [|arg pre IH]; intros e.
  - by intros [= <-].
  - cbn [app handle_arguments]. unfold mbind, M_bind.
    destruct (_handle_option argv0 mk nj plat arch arg e) as [[[|] e2]| | |]; try done.
    apply IH.
Qed.

Lemma show_options_usage_outcome (e : env) (names : list string) (usage : string) :
  (∃ text, _show_options_usage_loop e names usage = Ret text)
  ∨ (∃ msg, _show_options_usage_loop e names usage = Throw msg).
Proof.
  revert usage. induction names as [|name names IH]; intros usage; [left; by eexists|].
  cbn [_show_options_usage_loop]. unfold repeat_space.
  destruct (_ <? 0); [right; by eexists|]. apply IH.
Qed.

(** After the usage text the process ends with the code 1, whether the
    text could be put together or not. *)
Lemma show_usage_exit_code {A : Type} argv0 mk nj plat arch (e : env) :
  exit_code (_show_usage (A := A) argv0 mk nj plat arch e) = Some 1.
Proof.
  unfold _show_usage, _show_options_usage.
  destruct (show_options_usage_outcome e (words_of (_get_options_for_menu e)) "")
    as [[text ->]|[msg ->]]; reflexivity.
Qed.

Lemma handle_option_unknown argv0 mk nj plat arch (arg : string) (e : env) :
  _parse_argument_name arg ∉ builtin_option_names →
  _has_option e (_parse_argument_name arg) = false →
  _handle_option argv0 mk nj plat arch arg e = Ret (false, e).
Proof.
  unfold builtin_option_names. intros Hname Hopt. split_notin.
  unfold _handle_option. eqb_simpl.
  unfold mbind, M_bind, get_env. by rewrite Hopt.
Qed.

Lemma show_usage_outcome {A : Type} argv0 mk nj plat arch (e : env) :
  _show_usage (A := A) argv0 mk nj plat arch e = Exit 1
  ∨ ∃ msg, _show_usage (A := A) argv0 mk nj plat arch e = Throw msg.
Proof.
  unfold _show_usage, _show_options_usage.
  destruct (show_options_usage_outcome e (words_of (_get_options_for_menu e)) "")
    as [[text ->]|[msg ->]]; [by left|right; by eexists].
Qed.

(** How the handling of one argument can end. *)
Lemma handle_option_outcome argv0 mk nj plat arch (arg : string) (e : env) :
  match _handle_option argv0 mk nj plat arch arg e with
  | Ret _ => True
  | Exit code =>
      code = 2 ∧ _parse_argument_name arg = "version"
      ∨ code = 1 ∧ (_parse_argument_name arg = "help" ∨ _parse_argument_name arg = "")
  | Throw _ => _parse_argument_name arg = "help"
  | Diverge => False
  end.
Proof.
  unfold _handle_option.
  destruct (String.eqb_spec (_parse_argument_name arg) "help") as [Hhelp|_].
  { destruct (show_usage_outcome (A := bool) argv0 mk nj plat arch e) as [->|[msg ->]];
      [right; split; [done|by left]|done]. }
  destruct (String.eqb_spec (_parse_argument_name arg) "version") as [Hversion|_].
  { cbn. by left. }
  repeat (match goal with
          | |- match (if ?b then _ else _) _ with _ => _ end => destruct b; [done|]
          end).
  unfold mbind, M_bind, get_env. destruct (_has_option e _); [|done].
  unfold _set_option_value, _set_option_item.
  destruct (_parse_argument_name arg) as [|a name]; [|done].
  cbn. right. split; [done|by right].
Qed.

(** How the loop over the arguments can end. *)
Lemma handle_arguments_outcome argv0 mk nj plat arch (args : list string) (e : env) :
  match handle_arguments argv0 mk nj plat arch args e with
  | Ret _ => True
  | Exit code =>
      ∃ arg, arg ∈ args
             ∧ (code = 2 ∧ _parse_argument_name arg = "version"
                ∨ code = 1
                  ∧ (_parse_argument_name arg = "help" ∨ _parse_argument_name arg = ""))
  | Throw msg =>
      ∃ arg, arg ∈ args
             ∧ (msg = "Unknown option: " +:+ arg ∨ _parse_argument_name arg = "help")
  | Diverge => False
  end.
Proof.
  revert e. induction args as [|arg args IH]; intros e; [done|].
  cbn [handle_arguments]. unfold mbind, M_bind.
  pose proof (handle_option_outcome argv0 mk nj plat arch arg e) as Hone.
  destruct (_handle_option argv0 mk nj plat arch arg e) as [[[|] e1]|msg|code|]; try done.
  - specialize (IH e1).
    destruct (handle_arguments argv0 mk nj plat arch args e1) as [[[] e2]|msg|code|];
      try done; destruct IH as (a & Hin & Ha); exists a; (split; [|done]);
      apply elem_of_cons; by right.
  - cbn. exists arg. split; [apply elem_of_cons; by left|by left].
  - exists arg. split; [apply elem_of_cons; by left|by right].
  - exists arg. split; [apply elem_of_cons; by left|done].
Qed.

Section ExitCodes.

Variables argv0 mk nj plat arch : string.
Variable exec : list event → string → list string → Z.
Variable tmp_name : nat → string.
Variables load_scripts declare_toolchains check_toolchain : M unit.
Variables generate_configfiles generate_for_gmake : M unit.

Local Abbreviation run :=
  (configure argv0 mk nj plat arch exec tmp_name load_scripts declare_toolchains
     check_toolchain generate_configfiles generate_for_gmake).

(** The run from the first argument that is not a plain setting. *)
Lemma run_from_argument (e0 e e1 : env) (pre : list string) (arg : string)
    (rest : list string) (outcome : result (bool * env)) :
  _load_options_and_toolchains load_scripts e0 = Ret (tt, e) →
  handle_arguments argv0 mk nj plat arch pre e = Ret (tt, e1) →
  _handle_option argv0 mk nj plat arch arg e1 = outcome →
  (∀ e2, outcome ≠ Ret (true, e2)) →
  run (pre ++ arg :: rest) e0
  = match outcome with
    | Ret _ => Throw ("Unknown option: " +:+ arg)
    | Throw msg => Throw msg
    | Exit code => Exit code
    | Diverge => Diverge
    end.
Proof.
  intros Hload Hpre Harg Hstop. unfold configure.
  unfold mbind at 1, M_bind at 1. rewrite Hload.
  unfold mbind at 1, M_bind at 1.
  rewrite (handle_arguments_app _ _ _ _ _ pre (arg :: rest) e e1 Hpre).
  cbn [handle_arguments]. unfold mbind at 1, M_bind at 1. rewrite Harg.
  destruct outcome as [[[|] e2]| | |]; try done. by destruct (Hstop e2).
Qed.


End ExitCodes.


(** * Properties of the rest of the module *)

(** ** Lists of words without repetition *)

Lemma keep_first_elem (x : string) (l : list string) : x ∈ keep_first l ↔ x ∈ l.
Proof.
  induction l as [|y l IH]; [done|]. cbn [keep_first].
  rewrite !elem_of_cons, list_elem_of_In, List.filter_In, <-list_elem_of_In, IH.
  destruct (String.eqb_spec y x) as [->|Hne]; cbn; tauto.
Qed.

Lemma NoDup_filter_bool {A : Type} (f : A → bool) (l : list A) :
  NoDup l → NoDup (List.filter f l).
Proof.
  induction 1 as [|x l Hx _ IH]; simpl; [constructor|].
  destruct (f x); [|done]. constructor; [|done].
  rewrite list_elem_of_In, List.filter_In, <-list_elem_of_In. tauto.
Qed.

Lemma keep_first_NoDup (l : list string) : NoDup (keep_first l).
Proof.
  induction l as [|x l IH]; [constructor|]. cbn [keep_first].
  constructor; [|by apply NoDup_filter_bool].
  rewrite list_elem_of_In, List.filter_In. intros [_ H].
  by rewrite String.eqb_refl in H.
Qed.

Lemma filter_twice {A : Type} (f g h : A → bool) (l : list A) :
  (∀ y, h y = g y && f y) → List.filter g (List.filter f l) = List.filter h l.
Proof.
  intros Hh. induction l as [|y l IH]; [done|]. simpl. rewrite Hh.
  destruct (f y); simpl; [destruct (g y); by rewrite IH|by rewrite andb_false_r].
Qed.

(** The loop of [_dedup] appends to [deduped] the first occurrences of
    the words it has not seen. *)
Lemma dedup_loop_keep_first (words deduped : list string) :
  _dedup_loop words deduped
  = deduped ++ List.filter (λ y, negb (bool_decide (y ∈ deduped))) (keep_first words).
Proof.
  revert deduped. induction words as [|x words IH]; intros deduped.
  - by rewrite app_nil_r.
  - cbn [_dedup_loop keep_first List.filter]. rewrite !IH. case_bool_decide as Hx; cbn [negb].
    + f_equal. symmetry. apply filter_twice. intros y.
      destruct (String.eqb_spec x y) as [<-|Hne]; cbn; [by rewrite bool_decide_true|].
      by destruct (bool_decide (y ∈ deduped)).
    + rewrite <-app_assoc. cbn [app]. do 2 f_equal. symmetry. apply filter_twice. intros y.
      destruct (String.eqb_spec x y) as [<-|Hne]; cbn [negb].
      * rewrite andb_false_r, bool_decide_true; [done|].
        apply elem_of_app. right. by apply list_elem_of_singleton.
      * rewrite andb_true_r. apply (f_equal negb), bool_decide_ext.
        rewrite elem_of_app, list_elem_of_singleton.
        split; [intros [H| ->]; [done|by destruct Hne]|by left].
Qed.

Lemma keep_first_Forall (P : string → Prop) (l : list string) :
  Forall P l → Forall P (keep_first l).
Proof.
  rewrite !Forall_forall. intros H w Hw. by apply H, (proj1 (keep_first_elem w l)).
Qed.

Lemma dedup_loop_nil (words : list string) : _dedup_loop words [] = keep_first words.
Proof.
  rewrite dedup_loop_keep_first. cbn [app].
  induction (keep_first words) as [|y l IH]; [done|]. cbn [List.filter].
  rewrite bool_decide_false by apply not_elem_of_nil. cbn [negb]. by rewrite IH.
Qed.

Lemma keep_first_id (l : list string) : NoDup l → keep_first l = l.
Proof.
  induction 1 as [|x l Hx _ IH]; [done|]. cbn [keep_first]. rewrite IH. f_equal.
  clear IH. induction l as [|y l IH]; [done|]. simpl.
  apply not_elem_of_cons in Hx as [Hne Hx].
  destruct (String.eqb_spec x y) as [->|_]; [done|]. cbn. by rewrite IH.
Qed.

(** X1: [_dedup] keeps the first occurrence of every word, in the order
    of the input: its result has no word twice, has the words of the
    input, and is left as it is by a second [_dedup]. *)
Theorem dedup_keeps_first_occurrences (str : string) :
  Js.tokens (_dedup str) = keep_first (Js.tokens str)
  ∧ NoDup (Js.tokens (_dedup str))
  ∧ (∀ w, w ∈ Js.tokens (_dedup str) ↔ w ∈ Js.tokens str)
  ∧ _dedup (_dedup str) = _dedup str.
Proof.
  assert (Js.tokens (_dedup str) = keep_first (Js.tokens str)) as Hwords.
  { unfold _dedup. rewrite dedup_loop_nil.
    apply tokens_join, keep_first_Forall, tokens_are_tokens. }
  split; [done|]. rewrite Hwords. split; [apply keep_first_NoDup|].
  split; [intros w; apply keep_first_elem|].
  unfold _dedup at 1. rewrite Hwords, dedup_loop_nil.
  rewrite keep_first_id by apply keep_first_NoDup.
  unfold _dedup. by rewrite dedup_loop_nil.
Qed.

(** ** The host *)

(** X2: the tests on [os_host] run in sequence on the value that the
    earlier ones have left, and [bsd] is looked for after [freebsd]:
    the host is never [freebsd]; it is one of five names or the name
    that the system gave; a system name with [bsd] in it ends as one of
    the five; and the make program defaults to [gmake] on [bsd] only. *)
Theorem host_is_never_freebsd (os_type : string) :
  os_host os_type ≠ "freebsd"
  ∧ is_host (os_host os_type) ["freebsd"] = false
  ∧ (os_host os_type ∈ ["cygwin"; "msys"; "macosx"; "linux"; "bsd"]
     ∨ os_host os_type = os_type)
  ∧ (Js.contains os_type "bsd" = true →
     os_host os_type ∈ ["cygwin"; "msys"; "macosx"; "linux"; "bsd"])
  ∧ (_make_program_default (os_host os_type) = "gmake" ↔ os_host os_type = "bsd").
Proof.
  assert (os_host os_type ≠ "freebsd") as Hne.
  { unfold os_host. cbv zeta.
    repeat (match goal with
            | |- context [Js.contains os_type ?p] =>
                destruct (Js.contains os_type p) eqn:?; cbn [Js.contains String.prefix]
            end); try done.
    intros ->. done. }
  split; [done|]. split.
  { unfold is_host. apply bool_decide_eq_false. by intros H%list_elem_of_singleton. }
  split; [|split].
  - unfold os_host. cbv zeta.
    repeat (match goal with
            | |- context [Js.contains os_type ?p] =>
                destruct (Js.contains os_type p) eqn:?
            end);
      first [by right | left; decide_by_computation].
  - intros Hbsd. unfold os_host. cbv zeta.
    repeat (match goal with
            | |- context [Js.contains os_type ?p] =>
                destruct (Js.contains os_type p) eqn:?
            end);
      first [congruence | decide_by_computation].
  - unfold _make_program_default, is_host. split.
    + case_bool_decide as H; [|by case_bool_decide].
      intros _. apply elem_of_cons in H as [H|H%list_elem_of_singleton]; done.
    + by intros ->.
Qed.

(** ** Suffixes *)

(** A test on a string of which a suffix is known is decided by the
    suffix. *)
Ltac suffix_test :=
  match goal with
  | |- context [Js.endsWith (?b +:+ ?s) ?t] =>
      first [ rewrite (endsWith_app b s t) by (cbn; lia)
            | rewrite (endsWith_incomparable b s t) by reflexivity ]
  | |- context [String.eqb (?b +:+ ?s) ?t] =>
      rewrite (eqb_false_suffix b s t) by reflexivity
  end.

(** ** Source kinds and tool names *)

(** X3: the kind of a source file is decided by its extension, in the
    order of the tests; a file with another ending stops the process
    with the code 1; and for every kind that is returned [_get_flagname]
    has a flag name. *)
Theorem source_kinds_have_flag_names (file : string) :
  (path_sourcekind file = Exit 1
   ∨ ∃ kind flagname,
       path_sourcekind file = Ret kind
       ∧ kind ∈ ["cc"; "cxx"; "mm"; "mxx"; "as"]
       ∧ _get_flagname kind = Ret flagname)
  ∧ path_sourcekind (file +:+ ".c") = Ret "cc"
  ∧ path_sourcekind (file +:+ ".cpp") = Ret "cxx"
  ∧ path_sourcekind (file +:+ ".cc") = Ret "cxx"
  ∧ path_sourcekind (file +:+ ".ixx") = Ret "cxx"
  ∧ path_sourcekind (file +:+ ".m") = Ret "mm"
  ∧ path_sourcekind (file +:+ ".mm") = Ret "mxx"
  ∧ path_sourcekind (file +:+ ".S") = Ret "as"
  ∧ path_sourcekind (file +:+ ".s") = Ret "as"
  ∧ path_sourcekind (file +:+ ".asm") = Ret "as"
  ∧ path_sourcekind (file +:+ ".h") = Exit 1.
Proof.
  split.
  - unfold path_sourcekind.
    repeat (match goal with
            | |- context [Js.endsWith file ?p] => destruct (Js.endsWith file p)
            end;
            [right; eexists _, _; split; [reflexivity|];
             split; [decide_by_computation|reflexivity]|]).
    by left.
  - unfold path_sourcekind.
    repeat split; repeat suffix_test; reflexivity.
Qed.

(** X4: [path_toolname] knows a program by the end of its path: a
    compiler or archiver named with a prefix, after [-] or [/], is the
    tool that its last part names; every name that is returned is one
    of five; and a program whose name ends with a digit, as the
    versioned [gcc-12], is not known. *)
Theorem toolname_is_read_from_the_suffix (prefix : string) :
  path_toolname (VStr (prefix +:+ "-gcc")) = Ret "gcc"
  ∧ path_toolname (VStr (prefix +:+ "/gcc")) = Ret "gcc"
  ∧ path_toolname (VStr (prefix +:+ "-g++")) = Ret "gxx"
  ∧ path_toolname (VStr (prefix +:+ "/g++")) = Ret "gxx"
  ∧ path_toolname (VStr (prefix +:+ "-clang")) = Ret "clang"
  ∧ path_toolname (VStr (prefix +:+ "/clang")) = Ret "clang"
  ∧ path_toolname (VStr (prefix +:+ "-clang++")) = Ret "clangxx"
  ∧ path_toolname (VStr (prefix +:+ "/clang++")) = Ret "clangxx"
  ∧ path_toolname (VStr (prefix +:+ "-ar")) = Ret "ar"
  ∧ path_toolname (VStr (prefix +:+ "/ar")) = Ret "ar"
  ∧ (∀ (path : jsval) (toolname : string),
       path_toolname path = Ret toolname →
       toolname ∈ ["gcc"; "gxx"; "clang"; "clangxx"; "ar"])
  ∧ (∀ (path : string) (d : ascii),
       last_char path = Some d → is_digit d = true →
       path_toolname (VStr path) = Throw ("unknown tool " +:+ path)).
Proof.
  repeat match goal with |- _ ∧ _ => split end;
    try (unfold path_toolname; repeat suffix_test;
         destruct (Js.startsWith _ "xcrun"); reflexivity).
  - intros [| | |path|] toolname; try done. unfold path_toolname.
    repeat match goal with
           | |- context [if ?b then _ else _] => destruct b
           end;
      try done; intros [= <-]; decide_by_computation.
  - intros path d Hlast Hd. unfold path_toolname.
    rewrite !(endsWith_false is_digit path), !(eqb_false_last is_digit path)
      by (first [by rewrite Hlast|reflexivity]).
    by rewrite !andb_false_r.
Qed.

(** ** Arguments of the command line *)

Lemma after_first_eq_app (name rest : string) :
  has_char "=" name = false →
  after_first_eq (name +:+ "=" +:+ rest) = Some rest.
Proof.
  induction name as [|a r IH]; [done|]. cbn [has_char].
  intros [Ha Hr]%orb_false_iff. rewrite append_cons. cbn [after_first_eq].
  rewrite Ha. by apply IH.
Qed.

Lemma after_first_eq_none (s : string) : has_char "=" s = false → after_first_eq s = None.
Proof.
  induction s as [|a r IH]; [done|]. cbn [has_char after_first_eq].
  intros [-> Hr]%orb_false_iff. by apply IH.
Qed.

Lemma before_last_eq_none (s : string) : has_char "=" s = false → before_last_eq s = None.
Proof.
  induction s as [|a r IH]; [done|]. cbn [has_char before_last_eq].
  intros [-> Hr]%orb_false_iff. by rewrite (IH Hr).
Qed.

Lemma before_last_eq_app (name rest : string) :
  before_last_eq (name +:+ "=" +:+ rest)
  = Some (name +:+ default "" ((λ p, "=" +:+ p) <$> before_last_eq rest)).
Proof.
  induction name as [|a r IH].
  - rewrite !append_empty_l. change ("=" +:+ rest) with (String "="%char rest).
    cbn [before_last_eq]. by destruct (before_last_eq rest).
  - rewrite (append_cons a r ("=" +:+ rest)), (append_cons a r _).
    cbn [before_last_eq]. by rewrite IH.
Qed.

Lemma drop_two_dashes (s : string) :
  (if Js.startsWith ("--" +:+ s) "--" then Js.drop 2 ("--" +:+ s) else "--" +:+ s) = s.
Proof. by destruct s. Qed.

(** X5: an argument [--name=value] is read back as its name and its
    value when neither holds an equals sign.  The value is what follows
    the first equals sign and the name what precedes the last one, so
    a value with an equals sign in it changes the name that is read;
    and the value of an argument without an equals sign is the whole
    argument. *)
Theorem argument_name_and_value (name value : string) :
  (has_char "=" name = false →
   _parse_argument_value ("--" +:+ name +:+ "=" +:+ value) = value)
  ∧ (has_char "=" value = false →
     _parse_argument_name ("--" +:+ name +:+ "=" +:+ value) = name)
  ∧ (∀ v1 v2 : string,
       has_char "=" v2 = false →
       _parse_argument_name ("--" +:+ name +:+ "=" +:+ v1 +:+ "=" +:+ v2)
       = name +:+ "=" +:+ v1)
  ∧ (has_char "=" name = false →
     _parse_argument_value ("--" +:+ name) = "--" +:+ name
     ∧ _parse_argument_name ("--" +:+ name) = name).
Proof.
  split; [|split; [|split]].
  - intros Hname. unfold _parse_argument_value.
    change ("--" +:+ name +:+ "=" +:+ value) with (("--" +:+ name) +:+ "=" +:+ value).
    by rewrite after_first_eq_app.
  - intros Hvalue. unfold _parse_argument_name. rewrite drop_two_dashes.
    rewrite before_last_eq_app, (before_last_eq_none _ Hvalue). cbn.
    by rewrite append_empty_r.
  - intros v1 v2 Hv2. unfold _parse_argument_name. rewrite drop_two_dashes.
    rewrite before_last_eq_app, before_last_eq_app, (before_last_eq_none _ Hv2). cbn.
    by rewrite append_empty_r.
  - intros Hname. unfold _parse_argument_value, _parse_argument_name.
    rewrite drop_two_dashes, (before_last_eq_none _ Hname).
    change ("--" +:+ name) with (String "-" (String "-" name)).
    cbn [after_first_eq Ascii.eqb]. cbn. by rewrite (after_first_eq_none _ Hname).
Qed.

(** X6: an option given without a value, [--name], is handled, but its
    value is the argument itself: the option is set to the text
    [--name], which does not enable it. *)
Theorem option_without_value_is_not_enabled argv0 mk nj plat arch (e : env) (name : string) :
  Js.nonempty name = true →
  has_char "=" name = false →
  name ∉ builtin_option_names →
  _has_option e name = true →
  ∃ e' : env,
    _handle_option argv0 mk nj plat arch ("--" +:+ name) e = Ret (true, e')
    ∧ _get_option_item e' name "value" = VStr ("--" +:+ name)
    ∧ _get_option_value e' name = VStr ("--" +:+ name)
    ∧ _is_enabled (_get_option_value e' name) = false
    ∧ has_config (with_loading false false true e') name = false.
Proof.
  intros Hne Heq Hname Hopt.
  destruct (argument_name_and_value name "") as (_ & _ & _ & Hbare).
  destruct (Hbare Heq) as [Hvalue Hparsed].
  unfold builtin_option_names in Hname. split_notin.
  unfold _handle_option. rewrite Hparsed, Hvalue. eqb_simpl.
  unfold mbind at 1, M_bind at 1, get_env at 1. rewrite Hopt.
  unfold _set_option_value, _set_option_item, mbind, M_bind, mret, M_ret.
  assert (test_nz (VStr name) = true) as -> by (by destruct name).
  set (e' := with_maps (_map_set (maps e) "options" (to_string (VStr name) +:+ "_" +:+ "value")
                          (VStr ("--" +:+ name))) e).
  exists e'. split; [reflexivity|].
  assert (_get_option_item e' name "value" = VStr ("--" +:+ name)) as Hitem.
  { unfold _get_option_item. cbn [maps with_maps to_string e']. rewrite map_get_set.
    by case_decide. }
  assert (_get_option_value e' name = VStr ("--" +:+ name)) as Hval.
  { unfold _get_option_value. by rewrite Hitem. }
  split; [done|]. split; [done|]. rewrite Hval. split; [done|].
  unfold has_config. cbn [_loading_targets with_loading negb].
  assert (_get_option_value (with_loading false false true e') name = _get_option_value e' name)
    as -> by done.
  by rewrite Hval.
Qed.

Lemma option_without_value_is_not_enabled_witness :
  ∃ e' : env,
    sample_handle_option "--debug" debug_env = Ret (true, e')
    ∧ _get_option_item e' "debug" "value" = VStr "--debug"
    ∧ _get_option_value e' "debug" = VStr "--debug"
    ∧ _is_enabled (_get_option_value e' "debug") = false
    ∧ has_config (with_loading false false true e') "debug" = false.
Proof.
  apply (option_without_value_is_not_enabled "node" "make" "ninja" "linux" "x86_64"
           debug_env "debug"); [reflexivity|reflexivity|decide_by_computation|reflexivity].
Defined.

(** ** The help text *)

Lemma toupper_length (s : string) : String.length (string_toupper s) = String.length s.
Proof. induction s as [|a r IH]; [done|]. cbn. by rewrite IH. Qed.

Lemma usage_head_length (name : string) :
  Z.of_nat (String.length ("--" +:+ name +:+ "=" +:+ string_toupper name))
  = 3 + 2 * Z.of_nat (String.length name).
Proof. rewrite !length_append, toupper_length. cbn [String.length]. lia. Qed.

Lemma show_options_usage_short (e : env) (names : list string) (usage : string) :
  Forall (λ name, (String.length name ≤ 10)%nat) names →
  ∃ text, _show_options_usage_loop e names usage = Ret text.
Proof.
  intros Hall. revert usage. induction Hall as [|name names Hname _ IH]; intros usage.
  - by eexists.
  - cbn [_show_options_usage_loop]. rewrite usage_head_length. unfold repeat_space.
    destruct (Z.ltb_spec (24 - (3 + 2 * Z.of_nat (String.length name))) 0); [lia|].
    apply IH.
Qed.

Lemma show_options_usage_long (e : env) (names : list string) (usage : string) :
  Exists (λ name, (10 < String.length name)%nat) names →
  ∃ msg, _show_options_usage_loop e names usage = Throw msg.
Proof.
  revert usage. induction names as [|name names IH]; intros usage Hex.
  - by apply Exists_nil in Hex.
  - cbn [_show_options_usage_loop]. rewrite usage_head_length. unfold repeat_space.
    destruct (Z.ltb_spec (24 - (3 + 2 * Z.of_nat (String.length name))) 0); [by eexists|].
    apply Exists_cons in Hex as [Hlong|Hex]; [lia|]. by apply IH.
Qed.

(** X7: the help text pads every option line to the column 24 with
    [" ".repeat(24 - head.length)], where the head is [--name=NAME].
    For option names in ASCII (where the length of a text is its
    number of characters and the capital form has the same length):
    when every option of the menu has a name of ten characters at most
    the text is printed and the process ends with the code 1; as soon
    as one name is longer the count is negative and [--help] ends with
    an exception instead. *)
Theorem usage_needs_short_option_names argv0 mk nj plat arch (e : env) :
  Forall (λ name, is_ascii name = true) (words_of (_get_options_for_menu e)) →
  (Forall (λ name, (String.length name ≤ 10)%nat) (words_of (_get_options_for_menu e)) →
   (∃ text, _show_options_usage e = Ret text)
   ∧ _show_usage (A := bool) argv0 mk nj plat arch e = Exit 1
   ∧ _handle_option argv0 mk nj plat arch "--help" e = Exit 1)
  ∧ (Exists (λ name, (10 < String.length name)%nat) (words_of (_get_options_for_menu e)) →
     ∃ msg,
       _show_options_usage e = Throw msg
       ∧ _show_usage (A := bool) argv0 mk nj plat arch e = Throw msg
       ∧ _handle_option argv0 mk nj plat arch "--help" e = Throw msg).
Proof.
  intros _. split.
  - intros Hall. destruct (show_options_usage_short e _ "" Hall) as [text Htext].
    split; [by exists text|].
    assert (_show_usage (A := bool) argv0 mk nj plat arch e = Exit 1) as Husage.
    { unfold _show_usage, _show_options_usage. by rewrite Htext. }
    split; [done|]. exact Husage.
  - intros Hex. destruct (show_options_usage_long e _ "" Hex) as [msg Hmsg].
    exists msg. split; [done|].
    assert (_show_usage (A := bool) argv0 mk nj plat arch e = Throw msg) as Husage.
    { unfold _show_usage, _show_options_usage. by rewrite Hmsg. }
    split; [done|]. exact Husage.
Qed.

Lemma usage_needs_short_option_names_witness :
  words_of (_get_options_for_menu long_name_env) = ["compression"]
  ∧ ∃ msg,
      _show_options_usage long_name_env = Throw msg
      ∧ _show_usage (A := bool) "node" "make" "ninja" "linux" "x86_64" long_name_env
        = Throw msg
      ∧ _handle_option "node" "make" "ninja" "linux" "x86_64" "--help" long_name_env
        = Throw msg.
Proof.
  split; [reflexivity|].
  apply (usage_needs_short_option_names "node" "make" "ninja" "linux" "x86_64" long_name_env).
  - by decide_by_computation.
  - apply Exists_exists. exists "compression". split; [by decide_by_computation|cbn; lia].
Defined.

(** ** The menu and the prober *)

Lemma options_for_menu_loop (e : env) (names : list string) (options : string) :
  _get_options_for_menu_loop e names options
  = options +:+ spaced (List.filter (shown_in_menu e) names).
Proof.
  revert options. induction names as [|name names IH]; intros options.
  - simpl. by rewrite append_empty_r.
  - cbn [_get_options_for_menu_loop List.filter]. rewrite IH.
    unfold shown_in_menu at 2. cbv zeta.
    destruct (_is_enabled (_get_option_item e name "showmenu")); cbn [orb].
    + cbn [spaced]. by rewrite !append_assoc.
    + destruct (test_z _ && negb _); [|done]. cbn [spaced]. by rewrite !append_assoc.
Qed.

Lemma options_for_menu_words (e : env) :
  Forall (λ w, is_name w = true) (words_of (_xmake_sh_options e)) →
  words_of (_get_options_for_menu e)
  = List.filter (shown_in_menu e) (words_of (_xmake_sh_options e)).
Proof.
  intros Hnames. unfold _get_options_for_menu.
  rewrite options_for_menu_loop, append_empty_l.
  by apply words_of_spaced, Forall_filter_bool.
Qed.

Lemma enabled_is_truthy (v : jsval) : _is_enabled v = true → truthy v = true.
Proof.
  destruct v as [|[|]|n|s|l]; try done. cbn.
  destruct s; [|done]. done.
Qed.

(** X8: no option is both listed in the help menu and handed to the
    prober (option names being words without white space): an option
    whose menu entry is forced is not probed, whatever inputs it has,
    and an option that is probed is not shown. *)
Theorem menu_and_checking_are_disjoint (e : env) (name : string) :
  Forall (λ w, is_name w = true) (words_of (_xmake_sh_options e)) →
  (name ∈ words_of (_get_options_for_menu e) →
   name ∉ words_of (_get_options_for_checking e))
  ∧ (_is_enabled (_get_option_item e name "showmenu") = true →
     name ∉ words_of (_get_options_for_checking e)).
Proof.
  intros Hnames.
  rewrite (options_for_menu_words e Hnames), (options_for_checking_words e Hnames).
  rewrite !list_elem_of_In, !List.filter_In.
  unfold shown_in_menu, selected_for_checking. split.
  - intros [_ Hshown] [_ Hsel]. apply andb_true_iff in Hsel as [Hmenu Hneed].
    apply orb_true_iff in Hshown as [Hon|Hoff].
    + by rewrite (enabled_is_truthy _ Hon) in Hmenu.
    + apply andb_true_iff in Hoff as [_ Hoff]. by rewrite Hneed in Hoff.
  - intros Hon [_ Hsel]. apply andb_true_iff in Hsel as [Hmenu _].
    by rewrite (enabled_is_truthy _ Hon) in Hmenu.
Qed.

Lemma menu_and_checking_are_disjoint_witness :
  _option_need_checking zlib_env "zlib" = true
  ∧ "zlib" ∈ words_of (_get_options_for_menu zlib_env)
  ∧ "zlib" ∉ words_of (_get_options_for_checking zlib_env).
Proof.
  split; [reflexivity|].
  assert ("zlib" ∈ words_of (_get_options_for_menu zlib_env)) as Hmenu
    by decide_by_computation.
  split; [exact Hmenu|].
  refine (proj1 (menu_and_checking_are_disjoint zlib_env "zlib" _) Hmenu).
  decide_by_computation.
Defined.

(** ** The store *)

(** A key is split into its name and its attribute at the last
    underscore when the attribute has none. *)
Lemma key_split (a b k1 k2 : string) :
  has_char "_" k1 = false → has_char "_" k2 = false →
  a +:+ "_" +:+ k1 = b +:+ "_" +:+ k2 → a = b ∧ k1 = k2.
Proof.
  intros Hk1 Hk2. revert b. induction a as [|x a IH]; intros [|y b] H.
  - change (String "_" k1 = String "_" k2) in H. by injection H as ->.
  - change (String "_" k1 = String y (b +:+ "_" +:+ k2)) in H. injection H as _ H.
    rewrite H, has_char_app in Hk1. cbn in Hk1. by rewrite orb_true_r in Hk1.
  - change (String x (a +:+ "_" +:+ k1) = String "_" k2) in H. injection H as _ H.
    rewrite <-H, has_char_app in Hk2. cbn in Hk2. by rewrite orb_true_r in Hk2.
  - change (String x (a +:+ "_" +:+ k1) = String y (b +:+ "_" +:+ k2)) in H.
    injection H as -> H. destruct (IH b H) as [-> ->]. done.
Qed.

(** X10: the attributes of the targets live in one map under the keys
    [name_attribute].  For attribute names without an underscore the
    keys do not collide: setting an attribute of a target (whose name
    is not [__root], the prefix of the root scope) is read back from
    that target, and leaves every other attribute of every target as
    it was.  With an underscore in the attribute name they can: the
    attribute [b_k] of a target [a] is the attribute [k] of the target
    [a_b]. *)
Theorem target_attributes_are_separate (e e' : env) (n1 n2 k1 k2 : string) (v : jsval) :
  has_char "_" k1 = false → has_char "_" k2 = false →
  Js.nonempty n1 = true → n1 ≠ "__root" →
  _set_target_item (VStr n1) k1 v e = Ret (tt, e') →
  (_map_has (maps e) "targets" ("__root_" +:+ k1) = false → _get_target_item e' n1 k1 = v)
  ∧ ((n1, k1) ≠ (n2, k2) → _get_target_item e' n2 k2 = _get_target_item e n2 k2)
  ∧ (∀ (a b k : string) (value : jsval) (e1 e2 : env),
       _set_target_item (VStr a) (b +:+ "_" +:+ k) value e1 = Ret (tt, e2) →
       Js.nonempty a = true →
       _map_get (maps e2) "targets" ((a +:+ "_" +:+ b) +:+ "_" +:+ k) = value).
Proof.
  intros Hk1 Hk2 Hn1 Hroot. unfold _set_target_item.
  assert (test_nz (VStr n1) = true) as -> by (by destruct n1). intros [= <-].
  assert (∀ k, has_char "_" k = false → n1 +:+ "_" +:+ k1 ≠ "__root_" +:+ k) as Hneroot.
  { intros k Hk H. change ("__root_" +:+ k) with ("__root" +:+ "_" +:+ k) in H.
    by destruct (key_split _ _ _ _ Hk1 Hk H) as [? _]. }
  split; [|split].
  - intros Hnoroot. unfold _get_target_item. cbn [maps with_maps to_string].
    rewrite map_has_set, Hnoroot by (by apply Hneroot). rewrite map_get_set. by case_decide.
  - intros Hne. unfold _get_target_item. cbn [maps with_maps to_string].
    assert (n1 +:+ "_" +:+ k1 ≠ n2 +:+ "_" +:+ k2) as Hkeys.
    { intros H. destruct (key_split _ _ _ _ Hk1 Hk2 H) as [-> ->]. done. }
    rewrite !map_get_set, !map_has_set by (by first [apply Hneroot|idtac]).
    pose proof (Hneroot k2 Hk2). by repeat case_decide.
  - intros a b k value e1 e2. assert (∀ x, test_nz (VStr x) = Js.nonempty x) as Hnz
      by (by intros []).
    rewrite Hnz. intros H Ha. rewrite Ha in H. injection H as <-.
    cbn [maps with_maps to_string]. rewrite map_get_set, !append_assoc. by case_decide.
Qed.

Lemma target_attributes_are_separate_witness :
  _get_target_item (state_after (_set_target_item (VStr "a") "kind" (VStr "shared")) diamond_env)
    "a" "kind" = VStr "shared"
  ∧ _get_target_item (state_after (_set_target_item (VStr "a") "kind" (VStr "shared")) diamond_env)
      "b" "kind" = _get_target_item diamond_env "b" "kind"
  ∧ _get_target_item alias_env "app_configvar" "kind" = VStr "1".
Proof.
  assert (_set_target_item (VStr "a") "kind" (VStr "shared") diamond_env
          = Ret (tt, state_after (_set_target_item (VStr "a") "kind" (VStr "shared"))
                       diamond_env)) as Hset by (by vm_compute).
  destruct (target_attributes_are_separate diamond_env _ "a" "b" "kind" "kind" (VStr "shared")
              eq_refl eq_refl eq_refl ltac:(done) Hset) as (Hsame & Hother & _).
  split; [apply Hsame; by vm_compute|]. split; [by apply Hother|]. by vm_compute.
Defined.

Lemma map_set_id (m : gmap string (gmap string jsval)) (name key : string) (v : jsval) :
  _map_has m name key = true → _map_get m name key = v → _map_set m name key v = m.
Proof.
  unfold _map_has, _map_get, _map_set. destruct (m !! name) as [inner|] eqn:E; [|done].
  intros [x Hx]%bool_decide_eq_true. rewrite Hx. cbn. intros <-.
  by rewrite (insert_id inner), insert_id.
Qed.

Lemma map_has_set_eq (m : gmap string (gmap string jsval)) (name key : string) (v : jsval) :
  _map_has (_map_set m name key v) name key = true.
Proof.
  unfold _map_has, _map_set. destruct (m !! name) as [inner|];
    rewrite lookup_insert_eq, lookup_insert_eq; by apply bool_decide_eq_true.
Qed.

Lemma map_get_set_eq (m : gmap string (gmap string jsval)) (name key : string) (v : jsval) :
  _map_get (_map_set m name key v) name key = v.
Proof. rewrite map_get_set. by case_decide. Qed.

Lemma map_set_twice (m : gmap string (gmap string jsval)) (name key : string) (v : jsval) :
  _map_set (_map_set m name key v) name key v = _map_set m name key v.
Proof. apply map_set_id; [apply map_has_set_eq|apply map_get_set_eq]. Qed.

Ltac env_simpl :=
  cbn [negb with_targets with_options with_maps with_option_current with_target_current
       with_cfg with_loading with_trace with_tmp_count emit
       maps cfg _loading_toolchains _loading_options _loading_targets
       _xmake_sh_options _xmake_sh_targets _xmake_sh_option_current _xmake_sh_target_current
       trace tmp_count].

(** X11: declaring a target, or an option with the same description
    and default, a second time changes nothing: the name is listed
    once and the attributes are the ones of the first declaration. *)
Theorem redeclaration_is_idempotent (name : string) (description _default : jsval) (e : env) :
  (target_ name;; target_ name) e = target_ name e
  ∧ (option_ name description _default;; option_ name description _default) e
    = option_ name description _default e.
Proof.
  destruct e as [m c lt lo lg os ts oc tc tr n]. split.
  - unfold mbind, M_bind, target_. env_simpl.
    destruct lg; env_simpl; [|done].
    destruct (_map_has m "targets" (name +:+ "_name")); env_simpl;
      rewrite map_has_set_eq; env_simpl; by rewrite map_set_twice.
  - unfold mbind, M_bind, option_. env_simpl.
    assert (name +:+ "_name" ≠ name +:+ "_description") as H1 by (by apply key_suffix_ne).
    assert (name +:+ "_name" ≠ name +:+ "_default") as H2 by (by apply key_suffix_ne).
    assert (name +:+ "_description" ≠ name +:+ "_default") as H3 by (by apply key_suffix_ne).
    assert (∀ m0 : gmap string (gmap string jsval),
              let m3 := _map_set (_map_set (_map_set m0 "options" (name +:+ "_name") (VStr name))
                                    "options" (name +:+ "_description") description)
                          "options" (name +:+ "_default") _default in
              _map_has m3 "options" (name +:+ "_name") = true
              ∧ _map_set (_map_set (_map_set m3 "options" (name +:+ "_name") (VStr name))
                            "options" (name +:+ "_description") description)
                  "options" (name +:+ "_default") _default = m3) as Hm3.
    { intros m0 m3. assert (_map_has m3 "options" (name +:+ "_name") = true) as Hhas.
      { subst m3. rewrite !map_has_set by done. apply map_has_set_eq. }
      split; [done|].
      rewrite (map_set_id m3 _ (name +:+ "_name")); [|done|].
      - rewrite (map_set_id m3 _ (name +:+ "_description")).
        + apply map_set_twice.
        + subst m3. rewrite map_has_set by done. apply map_has_set_eq.
        + subst m3. rewrite map_get_set. case_decide; [done|]. apply map_get_set_eq.
      - subst m3. rewrite !map_get_set. repeat case_decide; done. }
    destruct lo; env_simpl.
    + destruct (_map_has m "options" (name +:+ "_name")), (test_nz description); env_simpl;
        destruct (Hm3 m) as [Hh Hs]; cbv zeta in Hh, Hs; rewrite Hh; env_simpl; rewrite Hs; done.
    + destruct (test_nz description); env_simpl; done.
Qed.

Lemma join_cons_spaced (w : string) (l : list string) : Js.join " " (w :: l) = w +:+ spaced l.
Proof.
  revert w. induction l as [|w' l IH]; intros w; [by rewrite append_empty_r|].
  change (Js.join " " (w :: w' :: l)) with (w +:+ " " +:+ Js.join " " (w' :: l)).
  by rewrite IH.
Qed.

Lemma join_snoc (l : list string) (w : string) :
  l ≠ [] → Js.join " " (l ++ [w]) = Js.join " " l +:+ " " +:+ w.
Proof.
  destruct l as [|x l]; [done|]. intros _. cbn [app].
  rewrite !join_cons_spaced, spaced_app, append_assoc. cbn [spaced].
  by rewrite append_empty_r.
Qed.

(** A list of names written with a space between them reads back as
    the same list. *)
Lemma words_of_join (l : list string) :
  Forall (λ w, is_name w = true) l → words_of (Js.join " " l) = l.
Proof.
  intros Hall. destruct l as [|w l]; [done|]. rewrite join_cons_spaced.
  transitivity (words_of (spaced (w :: l))); [|by apply words_of_spaced].
  unfold words_of, Js.trim.
  change (spaced (w :: l)) with (String Js.space (w +:+ spaced l)).
  change (Js.trimStart (String Js.space (w +:+ spaced l))) with (Js.trimStart (w +:+ spaced l)).
  reflexivity.
Qed.

Lemma added_values_snoc (pre : list string) (dep : string) :
  match added_values pre with
  | VUndef => VStr dep
  | _ => VStr (to_string (added_values pre) +:+ " " +:+ to_string (VStr dep))
  end = added_values (pre ++ [dep]).
Proof.
  destruct pre as [|x pre]; [done|]. unfold added_values.
  cbn [app to_string]. by rewrite <-(join_snoc (x :: pre)).
Qed.

(** The loop of [add_deps] extends the list that the attribute holds. *)
Lemma add_deps_loop (name : string) (args pre : list string) (e : env) :
  _xmake_sh_target_current e = VStr name → Js.nonempty name = true →
  _map_get (maps e) "targets" (name +:+ "_deps") = added_values pre →
  ∃ e' : env,
    for_each args (λ dep,
      e ← get_env; _add_target_item (_xmake_sh_target_current e) "deps" (VStr dep)) e
    = Ret (tt, e')
    ∧ _map_get (maps e') "targets" (name +:+ "_deps") = added_values (pre ++ args)
    ∧ (∀ key, key ≠ name +:+ "_deps" →
              _map_get (maps e') "targets" key = _map_get (maps e) "targets" key)
    ∧ (∀ key, key ≠ name +:+ "_deps" →
              _map_has (maps e') "targets" key = _map_has (maps e) "targets" key).
Proof.
  intros Hcur Hname. revert pre e Hcur.
  induction args as [|dep args IH]; intros pre e Hcur Hget.
  - exists e. rewrite app_nil_r. by repeat split.
  - cbn [for_each]. unfold mbind at 1, M_bind at 1. unfold mbind at 1, M_bind at 1.
    unfold get_env at 1. rewrite Hcur. unfold _add_target_item at 1.
    assert (test_nz (VStr name) = true) as -> by (by destruct name).
    cbn [to_string]. change ("_" +:+ "deps") with "_deps". rewrite Hget, added_values_snoc.
    set (e1 := with_maps _ e).
    destruct (IH (pre ++ [dep]) e1) as (e' & Hrun & Hdeps & Hget' & Hhas'); [done|..].
    { subst e1. cbn [maps with_maps]. apply map_get_set_eq. }
    exists e'. split; [exact Hrun|]. rewrite <-app_assoc in Hdeps. split; [exact Hdeps|].
    split; intros key Hkey.
    + rewrite (Hget' key Hkey). subst e1. cbn [maps with_maps]. rewrite map_get_set.
      by case_decide.
    + rewrite (Hhas' key Hkey). subst e1. cbn [maps with_maps]. by rewrite map_has_set.
Qed.

(** X12: the dependencies that [add_deps] adds to a target that had
    none are read back by [string_to_array], as the dependency walk
    reads them, in the order of the call (the names being words
    without white space, the root scope having no dependencies, and
    the target not being named [__root] like the root scope). *)
Theorem add_deps_reads_back (e : env) (name : string) (args : list string) :
  _loading_targets e = true →
  _xmake_sh_target_current e = VStr name → Js.nonempty name = true → name ≠ "__root" →
  _map_has (maps e) "targets" "__root_deps" = false →
  _map_get (maps e) "targets" (name +:+ "_deps") = VUndef →
  Forall (λ w, is_name w = true) args →
  ∃ e' : env,
    add_deps args e = Ret (tt, e')
    ∧ string_to_array (_get_target_item e' name "deps") = Ret args.
Proof.
  intros Hload Hcur Hname Hnoroot Hroot Hfresh Hargs.
  destruct (add_deps_loop name args [] e Hcur Hname Hfresh)
    as (e' & Hrun & Hdeps & _ & Hhas).
  exists e'. split.
  - unfold add_deps, mbind, M_bind, get_env. rewrite Hload. exact Hrun.
  - unfold _get_target_item. change ("_" +:+ "deps") with "_deps".
    change ("__root_" +:+ "deps") with "__root_deps".
    rewrite Hhas, Hroot, Hdeps.
    + cbn [app]. destruct args as [|w args]; [done|].
      unfold added_values, string_to_array. by rewrite words_of_join.
    + change "__root_deps" with ("__root" +:+ "_deps"). by intros H%append_inj_l.
Qed.

Lemma add_deps_reads_back_witness :
  ∃ e' : env,
    add_deps ["b"; "a"] (state_after (target_ "tool") diamond_env) = Ret (tt, e')
    ∧ string_to_array (_get_target_item e' "tool" "deps") = Ret ["b"; "a"].
Proof.
  apply (add_deps_reads_back (state_after (target_ "tool") diamond_env) "tool" ["b"; "a"]);
    [by vm_compute|by vm_compute|reflexivity|done|by vm_compute|by vm_compute
    |decide_by_computation].
Defined.

(** ** The effects of a probe *)

Lemma effects_app (a b : list event) : effects (a ++ b) = effects a ++ effects b.
Proof. apply List.filter_app. Qed.

Lemma prints_only_ret {A : Type} (a : A) : prints_only (mret a).
Proof. intros e a' e' [= <- <-]. exists []. by rewrite app_nil_r. Qed.

Lemma prints_only_bind {A B : Type} (m : M A) (f : A → M B) :
  prints_only m → (∀ a, prints_only (f a)) → prints_only (m ≫= f).
Proof.
  intros Hm Hf e b e' (a & e1 & H1 & H2)%bind_returns.
  destruct (Hm _ _ _ H1) as (evs1 & Ht1 & He1 & Hc1).
  destruct (Hf _ _ _ _ H2) as (evs2 & Ht2 & He2 & Hc2).
  exists (evs1 ++ evs2). rewrite Ht2, Ht1, app_assoc, effects_app, He1, He2.
  repeat split. congruence.
Qed.

Lemma prints_only_lift {A : Type} (r : result A) : prints_only (lift r).
Proof.
  intros e a e' [-> ->]%lift_returns. exists []. by rewrite app_nil_r.
Qed.

Lemma prints_only_get_env : prints_only get_env.
Proof. intros e a e' [= <- <-]. exists []. by rewrite app_nil_r. Qed.

Lemma prints_only_print (line : string) : prints_only (print line).
Proof. intros e a e' [= <- <-]. by exists [Log line]. Qed.

Lemma prints_only_dprint (line : string) : prints_only (dprint line).
Proof.
  intros e a e'. unfold dprint. destruct (xmake_sh_diagnosis (cfg e)).
  - apply prints_only_print.
  - apply (prints_only_ret tt).
Qed.

Lemma prints_only_vprint (line : string) : prints_only (vprint line).
Proof.
  intros e a e'. unfold vprint. destruct (xmake_sh_verbose (cfg e)).
  - apply prints_only_print.
  - apply (prints_only_ret tt).
Qed.

Ltac prints_only_tac :=
  repeat first
    [ apply prints_only_ret | apply prints_only_lift | apply prints_only_get_env
    | apply prints_only_print | apply prints_only_dprint | apply prints_only_vprint
    | apply prints_only_bind; [|intros ?]
    | match goal with |- prints_only (if ?b then _ else _) => destruct b end
    | progress cbv zeta ].

Lemma os_runv_emits exec (program : string) (args : list string) (e e' : env) (ok : bool) :
  _os_runv exec program args e = Ret (ok, e') →
  ok = true ∧ exec (trace e) program args = 0 ∧ e' = emit (Run program args) e.
Proof.
  unfold _os_runv. destruct (Z.eqb_spec (exec (trace e) program args) 0); [|done].
  by intros [= <- <-].
Qed.

Lemma os_runv_returns exec (program : string) (args : list string) (e e' : env) (ok : bool) :
  _os_runv exec program args e = Ret (ok, e') →
  ok = true ∧ exec (trace e) program args = 0
  ∧ trace e' = trace e ++ [Run program args] ∧ tmp_count e' = tmp_count e.
Proof.
  unfold _os_runv. destruct (Z.eqb_spec (exec (trace e) program args) 0); [|done].
  by intros [= <- <-].
Qed.

(** What a snippet check that returns has done. *)
Lemma check_cxsnippets_returns exec tmp_name (name kind : string) (e e' : env) (ok : bool) :
  _check_cxsnippets exec tmp_name name kind e = Ret (ok, e') →
  ∃ evs : list event,
    trace e' = trace e ++ evs
    ∧ (has_inputs e name kind = false ∧ effects evs = [] ∧ ok = false
       ∧ tmp_count e' = tmp_count e
       ∨ ∃ (sourcecode compcmd : string) (link : list event) (history : list event),
           let tmpfile := tmp_name (tmp_count e) in
           let sourcefile := tmpfile +:+ (if String.eqb kind "cxx" then ".cpp" else ".c") in
           has_inputs e name kind = true
           ∧ effects evs
             = [WriteFile tmpfile ""; WriteFile sourcefile sourcecode; Run compcmd []] ++ link
               ++ [Remove sourcefile; Remove (tmpfile +:+ ".o"); Remove (tmpfile +:+ ".bin")]
           ∧ ok = true
           ∧ exec history compcmd [] = 0
           ∧ (link = []
              ∨ ∃ (linkcmd : string) (history' : list event),
                  link = [Run linkcmd []] ∧ exec history' linkcmd [] = 0)
           ∧ tmp_count e' = S (tmp_count e)).
Proof.
  unfold _check_cxsnippets, has_inputs. intros H.
  apply bind_returns in H as (e0 & e1 & [= <- <-] & H).
  destruct (test_z _ && test_z _ && test_z _ && test_z _).
  { injection H as <- <-. exists []. rewrite app_nil_r. split; [done|]. by left. }
  cbv zeta in H.
  apply bind_returns in H as (sourcecode & e1 & [_ ->]%lift_returns & H).
  apply bind_returns in H as ([] & e1 & (ev1 & Ht1 & Hf1 & Hc1)%prints_only_dprint & H).
  apply bind_returns in H as (tmpfile & e2 & [= <- <-] & H).
  apply bind_returns in H as ([] & e3 & [= <-] & H).
  apply bind_returns in H as (toolname & e4 & [_ ->]%lift_returns & H).
  apply bind_returns in H as (compflags & e4 & [_ ->]%lift_returns & H).
  apply bind_returns in H as (compcmd & e4 & [_ ->]%lift_returns & H).
  apply bind_returns in H as ([] & e4 & Hp4 & H).
  assert (prints_only (if xmake_sh_diagnosis (cfg e) then print ("> " +:+ compcmd) else mret tt))
    as Hpo4 by prints_only_tac.
  apply Hpo4 in Hp4 as (ev4 & Ht4 & Hf4 & Hc4).
  apply bind_returns in H as (ok1 & e5 & (-> & Hok1 & Ht5 & Hc5)%os_runv_returns & H).
  apply bind_returns in H as (ok2 & e6 & Hlink & H).
  apply bind_returns in H as ([] & e7 & Hp7 & H).
  apply bind_returns in H as ([] & e8 & [= <-] & H).
  apply bind_returns in H as ([] & e9 & [= <-] & H).
  apply bind_returns in H as ([] & e10 & [= <-] & H).
  injection H as <- <-.
  match type of Hp7 with
  | ?m _ = _ => assert (prints_only m) as Hpo7 by prints_only_tac
  end.
  apply Hpo7 in Hp7 as (ev7 & Ht7 & Hf7 & Hc7). clear Hpo4 Hpo7.
  assert (∃ link : list event,
            trace e6 = trace e5 ++ link ∧ tmp_count e6 = tmp_count e5 ∧ ok2 = true
            ∧ (effects link = []
               ∨ ∃ (linkcmd : string) (history' : list event),
                   effects link = [Run linkcmd []] ∧ exec history' linkcmd [] = 0))
    as (link & Ht6 & Hc6 & -> & Hshape).
  { match type of Hlink with
    | (if ?c then _ else _) _ = _ => destruct c
    end.
    - apply bind_returns in Hlink as (toolname' & e5' & [_ ->]%lift_returns & Hlink).
      apply bind_returns in Hlink as (linkflags & e5' & [_ ->]%lift_returns & Hlink).
      apply bind_returns in Hlink as (linkflags' & e5' & [_ ->]%lift_returns & Hlink).
      apply bind_returns in Hlink as (linkcmd & e5' & [_ ->]%lift_returns & Hlink).
      apply bind_returns in Hlink as ([] & e5' & Hp & Hlink).
      assert (prints_only (if xmake_sh_diagnosis (cfg e) then print ("> " +:+ linkcmd)
                           else mret tt)) as Hpo by prints_only_tac.
      apply Hpo in Hp as (ev & Ht & Hf & Hc).
      apply os_runv_returns in Hlink as (-> & Hok2 & Ht6 & Hc6).
      exists (ev ++ [Run linkcmd []]). rewrite Ht6, Ht, app_assoc.
      split; [done|]. split; [congruence|]. split; [done|]. right.
      exists linkcmd, (trace e5'). by rewrite effects_app, Hf.
    - injection Hlink as <- <-. exists []. rewrite app_nil_r. by repeat split; [..|left]. }
  cbn [trace emit with_trace with_tmp_count tmp_count] in *.
  eexists. rewrite Ht7, Ht6, Ht5, Ht4, Ht1, <-!app_assoc. split; [reflexivity|].
  right. rewrite Hc1. exists sourcecode, compcmd, (effects link), (trace e4).
  rewrite !effects_app, Hf1, Hf4, Hf7. cbn [app effects List.filter is_log negb].
  split; [done|]. split; [done|]. split; [done|]. split; [done|]. split; [exact Hshape|].
  congruence.
Qed.

(** X13: a snippet check that returns has either done nothing (the
    option has no input of that kind, the answer is false), or it has
    created a temporary file, written one source file beside it, run
    the compile command and the link command after it at most, each
    of which has exited with the code 0, removed the source file, the
    object file and the binary file, in that order, and answered true.
    The temporary file itself is not removed.  (A command that exits
    otherwise makes [execaSync] throw: the check does not return, and
    nothing is removed.) *)
Theorem probe_removes_its_files exec tmp_name (name kind : string) (e e' : env) (ok : bool) :
  _check_cxsnippets exec tmp_name name kind e = Ret (ok, e') →
  ∃ evs : list event,
    trace e' = trace e ++ evs
    ∧ (effects evs = [] ∧ ok = false ∧ tmp_count e' = tmp_count e
       ∨ ∃ (sourcecode compcmd : string) (link : list event) (history : list event),
           let tmpfile := tmp_name (tmp_count e) in
           let sourcefile := tmpfile +:+ (if String.eqb kind "cxx" then ".cpp" else ".c") in
           effects evs
           = [WriteFile tmpfile ""; WriteFile sourcefile sourcecode; Run compcmd []] ++ link
             ++ [Remove sourcefile; Remove (tmpfile +:+ ".o"); Remove (tmpfile +:+ ".bin")]
           ∧ (Remove tmpfile ∉ evs)
           ∧ ok = true
           ∧ exec history compcmd [] = 0
           ∧ (link = []
              ∨ ∃ (linkcmd : string) (history' : list event),
                  link = [Run linkcmd []] ∧ exec history' linkcmd [] = 0)
           ∧ tmp_count e' = S (tmp_count e)).
Proof.
  intros (evs & Ht & Hshape)%check_cxsnippets_returns. exists evs. split; [done|].
  destruct Hshape as [(_ & Hnone)|(sourcecode & compcmd & link & history & Hdone)];
    [by left|right].
  exists sourcecode, compcmd, link, history. cbv zeta in Hdone |- *.
  destruct Hdone as (_ & Heffects & Hok & Hcomp & Hlink & Hcount).
  split; [done|]. split; [|done].
  intros Hin.
  assert (Remove (tmp_name (tmp_count e)) ∈ effects evs) as Heff.
  { unfold effects. apply list_elem_of_In, List.filter_In. by split; [apply list_elem_of_In|]. }
  rewrite Heffects in Heff.
  assert (∀ suffix : string, Js.nonempty suffix = true →
            tmp_name (tmp_count e) ≠ tmp_name (tmp_count e) +:+ suffix) as Hne.
  { intros suffix Hs Heq. apply (f_equal String.length) in Heq.
    rewrite length_append in Heq. destruct suffix; [done|]. cbn in Heq. lia. }
  destruct Hlink as [->|(linkcmd & history' & -> & _)]; cbn [app] in Heff;
    repeat (apply elem_of_cons in Heff as [Heff|Heff];
            [try done; injection Heff as Heff; by apply Hne in Heff; [|destruct (String.eqb kind "cxx")]|]);
    by apply elem_of_nil in Heff.
Qed.

Lemma probe_removes_its_files_witness :
  ∃ evs : list event,
    trace (state_after (_check_cxsnippets always_ok sample_tmp_name "pthread" "c") pthread_env)
    = trace pthread_env ++ evs
    ∧ (effects evs = [] ∧ true = false
       ∧ tmp_count (state_after (_check_cxsnippets always_ok sample_tmp_name "pthread" "c")
                      pthread_env) = tmp_count pthread_env
       ∨ ∃ (sourcecode compcmd : string) (link : list event) (history : list event),
           let tmpfile := sample_tmp_name (tmp_count pthread_env) in
           let sourcefile := tmpfile +:+ ".c" in
           effects evs
           = [WriteFile tmpfile ""; WriteFile sourcefile sourcecode; Run compcmd []] ++ link
             ++ [Remove sourcefile; Remove (tmpfile +:+ ".o"); Remove (tmpfile +:+ ".bin")]
           ∧ (Remove tmpfile ∉ evs)
           ∧ true = true
           ∧ always_ok history compcmd [] = 0
           ∧ (link = []
              ∨ ∃ (linkcmd : string) (history' : list event),
                  link = [Run linkcmd []] ∧ always_ok history' linkcmd [] = 0)
           ∧ tmp_count (state_after (_check_cxsnippets always_ok sample_tmp_name "pthread" "c")
                          pthread_env) = S (tmp_count pthread_env)).
Proof.
  apply (probe_removes_its_files always_ok sample_tmp_name "pthread" "c" pthread_env).
  by vm_compute.
Defined.

(** ** The values that the prober stores *)

Lemma check_cxsnippets_answer exec tmp_name (name kind : string) (e e' : env) (ok : bool) :
  _check_cxsnippets exec tmp_name name kind e = Ret (ok, e') →
  ok = has_inputs e name kind ∧ maps e' = maps e.
Proof.
  intros H. split; [|by apply same_variables_maps, (keeps_check_cxsnippets _ _ _ _ _ _ _ H)].
  apply check_cxsnippets_returns in H as (evs & _ & [(-> & _ & -> & _)|Hdone]); [done|].
  destruct Hdone as (? & ? & ? & ? & Hdone). cbv zeta in Hdone.
  by destruct Hdone as (-> & _ & -> & _).
Qed.

(** The answer of the probe of an option: both kinds must have inputs. *)
Lemma check_option_answer exec tmp_name (name : string) (e e' : env) (ok : bool) :
  _check_option exec tmp_name name e = Ret (ok, e') →
  ok = probe_answer e name ∧ maps e' = maps e.
Proof.
  unfold _check_option, _check_csnippets, _check_cxxsnippets, probe_answer.
  intros (ok1 & e1 & [-> Hm1]%check_cxsnippets_answer & H)%bind_returns.
  destruct (has_inputs e name "c") eqn:Hc.
  - apply check_cxsnippets_answer in H as [-> Hm2]. unfold has_inputs, _get_option_item.
    rewrite Hm1. split; [done|congruence].
  - by injection H as <- <-.
Qed.

(** The answer depends on the inputs of the option, which a value
    stored for an option does not touch. *)
Lemma probe_answer_same (e e' : env) (name : string) :
  (∀ key, Js.nonempty key = true → last_char key ≠ Some "e"%char →
          _get_option_item e' name key = _get_option_item e name key) →
  probe_answer e' name = probe_answer e name.
Proof.
  intros Hsame. unfold probe_answer, has_inputs. cbn [append].
  by rewrite !Hsame.
Qed.

Lemma set_value_keeps_inputs (e e' : env) (n name key : string) (v : jsval) :
  _set_option_value n v e = Ret (tt, e') →
  Js.nonempty key = true → last_char key ≠ Some "e"%char →
  _get_option_item e' name key = _get_option_item e name key.
Proof.
  intros Hset Hkey Hlast. apply (set_option_value_other e e' n name key v Hset).
  apply key_suffix_ne; [done|by destruct key|].
  change ("_" +:+ key) with (String "_" key). destruct key; [done|]. exact (not_eq_sym Hlast).
Qed.

(** Probing the options of a list sets the value of each of them to
    the answer of its probe. *)
Lemma check_options_loop_sets exec tmp_name (names : list string) (name : string)
    (e e' : env) :
  name ∈ names →
  _check_options_loop exec tmp_name names e = Ret (tt, e') →
  _get_option_item e' name "value" = VBool (probe_answer e name)
  ∧ ∃ e1 e2 : env,
      _check_option exec tmp_name name e1 = Ret (probe_answer e name, e2).
Proof.
  revert e. induction names as [|n names IH]; intros e Hin; [by apply elem_of_nil in Hin|].
  cbn [_check_options_loop]. unfold mbind at 1, M_bind at 1.
  destruct (_check_option exec tmp_name n e) as [[ok e1]| | |] eqn:Hcheck; try done.
  unfold mbind at 1, M_bind at 1.
  set (step := if ok then _ else _).
  destruct (step e1) as [[[] e2]| | |] eqn:Hstep; try done.
  intros Hrest.
  destruct (check_option_answer _ _ _ _ _ _ Hcheck) as [Hok Hm1].
  assert (∃ line e1', e1' = emit (Log line) e1
                      ∧ _set_option_value n (VBool ok) e1' = Ret (tt, e2)) as
    (line & e1' & He1' & Hset).
  { subst step. destruct ok; eexists _, _; (split; [reflexivity|exact Hstep]). }
  assert (∀ other key, _get_option_item e1' other key = _get_option_item e other key)
    as Hsame1.
  { intros other key. unfold _get_option_item. subst e1'. cbn [maps emit with_trace].
    by rewrite Hm1. }
  destruct (decide (name ∈ names)) as [Hlater|Hlast].
  - destruct (IH e2 Hlater Hrest) as (Hvalue & e3 & e4 & Hprobe).
    assert (probe_answer e2 name = probe_answer e name) as Hanswer.
    { apply probe_answer_same. intros key Hkey Hlast.
      by rewrite (set_value_keeps_inputs e1' e2 n name key _ Hset), Hsame1. }
    rewrite Hanswer in Hvalue, Hprobe. split; [done|]. by exists e3, e4.
  - apply elem_of_cons in Hin as [->|]; [|done].
    rewrite (check_options_loop_other _ _ _ n "value" _ _ Hlast (or_introl eq_refl) Hrest).
    split; [|exists e, e1; by rewrite <-Hok].
    unfold _set_option_value, _set_option_item in Hset.
    destruct (test_nz (VStr n)); [|done]. injection Hset as <-.
    unfold _get_option_item. cbn [maps with_maps to_string].
    rewrite map_get_set. case_decide; [by rewrite Hok|done].
Qed.

(** X9: an option that is handed to the prober gets the answer of its
    probe as its value, and resolves to it: a value given for it on the
    command line before is overwritten.  The answer is true exactly
    when the option has inputs of both kinds, C and C++ (a check whose
    commands do not exit with 0 does not return). *)
Theorem probing_overwrites_the_given_value exec tmp_name (e e' : env) (name : string) :
  name ∈ words_of (_get_options_for_checking e) →
  _check_options exec tmp_name e = Ret (tt, e') →
  _get_option_item e' name "value" = VBool (probe_answer e name)
  ∧ _get_option_value e' name = VBool (probe_answer e name)
  ∧ ∃ e1 e2 : env,
      _check_option exec tmp_name name e1 = Ret (probe_answer e name, e2).
Proof.
  intros Hin Hrun. unfold _check_options in Hrun. cbn in Hrun.
  destruct (check_options_loop_sets _ _ _ _ _ _ Hin Hrun) as [Hvalue Hprobe].
  split; [done|]. split; [|done]. unfold _get_option_value. by rewrite Hvalue.
Qed.

Lemma probing_overwrites_the_given_value_witness :
  _get_option_value pthread_cli_env "pthread" = VStr "yes"
  ∧ probe_answer pthread_cli_env "pthread" = false
  ∧ _get_option_item (state_after (_check_options always_ok sample_tmp_name) pthread_cli_env)
      "pthread" "value" = VBool (probe_answer pthread_cli_env "pthread")
  ∧ _get_option_value (state_after (_check_options always_ok sample_tmp_name) pthread_cli_env)
      "pthread" = VBool (probe_answer pthread_cli_env "pthread")
  ∧ ∃ e1 e2 : env,
      _check_option always_ok sample_tmp_name "pthread" e1
      = Ret (probe_answer pthread_cli_env "pthread", e2).
Proof.
  split; [reflexivity|]. split; [reflexivity|].
  apply (probing_overwrites_the_given_value always_ok sample_tmp_name pthread_cli_env);
    [decide_by_computation|by vm_compute].
Defined.

(** ** The detection of the toolchain *)

Lemma gbind_returns {A B : Type} (m : G A) (f : A → G B) (s s' : session) (b : B) :
  (m ≫= f) s = Ret (b, s') → ∃ a s1, m s = Ret (a, s1) ∧ f a s1 = Ret (b, s').
Proof.
  unfold mbind, G_bind. destruct (m s) as [[a s1]| | |]; try done.
  intros H. by exists a, s1.
Qed.

Lemma on_vars_returns {A : Type} (m : M A) (s s' : session) (a : A) :
  on_vars m s = Ret (a, s') → ∃ e', m (vars s) = Ret (a, e') ∧ s' = with_vars e' s.
Proof.
  unfold on_vars. destruct (m (vars s)) as [[a' e']| | |]; try done.
  intros [= <- <-]. by exists e'.
Qed.

Lemma same_variables_cfg (e e' : env) : same_variables e e' → cfg e' = cfg e.
Proof. unfold same_variables. destruct e, e'; cbn. by intros [= _ -> _]. Qed.

Lemma probes_only_ret {A : Type} (a : A) : probes_only (mret a).
Proof. by intros s a' s' [= <- <-]. Qed.

Lemma probes_only_bind {A B : Type} (m : G A) (f : A → G B) :
  probes_only m → (∀ a, probes_only (f a)) → probes_only (m ≫= f).
Proof.
  intros Hm Hf s b s' (a & s1 & H1 & H2)%gbind_returns.
  destruct (Hm _ _ _ H1) as [Hm1 Hc1]. destruct (Hf _ _ _ _ H2) as [Hm2 Hc2].
  split; congruence.
Qed.

Lemma probes_only_on_vars {A : Type} (m : M A) : keeps m → probes_only (on_vars m).
Proof.
  intros Hm s a s' (e' & H & ->)%on_vars_returns. apply Hm in H.
  cbn [vars with_vars]. split; [by apply same_variables_maps|by apply same_variables_cfg].
Qed.

Lemma probes_only_get_session : probes_only get_session.
Proof. by intros s a s' [= <- <-]. Qed.

Lemma probes_only_modify (f : session → session) :
  (∀ s, vars (f s) = vars s) → probes_only (modify_session f).
Proof. intros Hf s a s' [= <- <-]. by rewrite Hf. Qed.

Ltac probes_only_tac :=
  repeat first
    [ apply probes_only_ret | apply probes_only_get_session
    | apply probes_only_modify; reflexivity
    | apply probes_only_on_vars; unfold _os_tryrm, writeFileSync; keeps_tac
    | apply probes_only_bind; [|intros ?]
    | match goal with |- probes_only (if ?b then _ else _) => destruct b end
    | progress cbv zeta ].

Lemma probes_only_try_program exec tmp_name (toolchain kind : string) (program : jsval) :
  probes_only (_toolchain_try_program exec tmp_name toolchain kind program).
Proof.
  unfold _toolchain_try_program, _toolchain_try_gcc, _toolchain_try_gxx, _toolchain_try_clang,
    _toolchain_try_clangxx, _toolchain_try_ar.
  probes_only_tac.
Qed.

(** A program that passes its check has a tool name. *)
Lemma try_program_toolname exec tmp_name (toolchain kind : string) (program : jsval)
    (s s' : session) (ok : bool) :
  _toolchain_try_program exec tmp_name toolchain kind program s = Ret (ok, s') →
  ∃ toolname, path_toolname program = Ret toolname.
Proof.
  unfold _toolchain_try_program.
  intros (toolname & s1 & (e1 & [H _]%lift_returns & _)%on_vars_returns & _)%gbind_returns.
  by exists toolname.
Qed.

Lemma append_inj_r (t a b : string) : t +:+ a = t +:+ b → a = b.
Proof. induction t as [|x t IH]; [done|]. rewrite !append_cons. intros [= H]. by apply IH. Qed.

Lemma toolset_slot_ne (toolchain k1 k2 : string) :
  k1 ≠ k2 → toolset_slot toolchain k1 ≠ toolset_slot toolchain k2.
Proof.
  intros Hne H. unfold toolset_slot in H.
  apply append_inj_r in H. change ("_" +:+ "toolset_" +:+ k1) with ("_toolset_" +:+ k1) in H.
  change ("_" +:+ "toolset_" +:+ k2) with ("_toolset_" +:+ k2) in H.
  by apply append_inj_r in H.
Qed.

(** What a search through the programs of a tool kind leaves: when it
    succeeds, a program that was listed under one of the indices, is
    not empty and has a tool name, is now the program of the kind; when
    it fails the store is as it was. *)
Lemma try_toolset_loop_returns exec tmp_name (toolchain kind description : string)
    (indices : list nat) (s s' : session) (ok : bool) :
  _toolchain_try_toolset_loop exec tmp_name toolchain kind description indices s
  = Ret (ok, s') →
  cfg (vars s') = cfg (vars s)
  ∧ if ok then
      ∃ (idx : nat) (program : jsval) (toolname : string),
        idx ∈ indices
        ∧ program = _get_toolchain_toolset (vars s) (VStr toolchain) (toolset_key kind idx)
        ∧ test_nz program = true
        ∧ path_toolname program = Ret toolname
        ∧ Js.nonempty toolchain = true
        ∧ maps (vars s')
          = _map_set (maps (vars s)) "toolchains" (toolset_slot toolchain kind) program
    else maps (vars s') = maps (vars s).
Proof.
  revert s ok. induction indices as [|idx indices IH]; intros s ok.
  - by intros [= <- <-].
  - cbn [_toolchain_try_toolset_loop].
    intros (s0 & s1 & [= <- <-] & H)%gbind_returns.
    assert (∀ b s2, _toolchain_try_toolset_loop exec tmp_name toolchain kind description
                      indices s2 = Ret (b, s') →
                    maps (vars s2) = maps (vars s) → cfg (vars s2) = cfg (vars s) →
                    cfg (vars s') = cfg (vars s)
                    ∧ if b then
                        ∃ (idx0 : nat) (program : jsval) (toolname : string),
                          idx0 ∈ idx :: indices
                          ∧ program = _get_toolchain_toolset (vars s) (VStr toolchain)
                                        (toolset_key kind idx0)
                          ∧ test_nz program = true
                          ∧ path_toolname program = Ret toolname
                          ∧ Js.nonempty toolchain = true
                          ∧ maps (vars s')
                            = _map_set (maps (vars s)) "toolchains"
                                (toolset_slot toolchain kind) program
                      else maps (vars s') = maps (vars s)) as Hrest.
    { intros b s2 Hrun Hm Hc. destruct (IH _ _ Hrun) as [Hcfg Hres].
      split; [congruence|]. destruct b.
      - destruct Hres as (idx0 & program & toolname & Hin & -> & Hnz & Htool & Hne & Hmaps).
        exists idx0, (_get_toolchain_toolset (vars s) (VStr toolchain) (toolset_key kind idx0)),
          toolname.
        assert (_get_toolchain_toolset (vars s2) (VStr toolchain) (toolset_key kind idx0)
                = _get_toolchain_toolset (vars s) (VStr toolchain) (toolset_key kind idx0))
          as Hsame by (unfold _get_toolchain_toolset, _get_toolchain_item; by rewrite Hm).
        rewrite Hsame in *. rewrite Hm in Hmaps.
        split; [apply elem_of_cons; by right|]. done.
      - congruence. }
    destruct (test_nz (_get_toolchain_toolset (vars s) (VStr toolchain) (toolset_key kind idx)))
      eqn:Hnz; [|by eapply Hrest].
    apply gbind_returns in H as (found & s2 & Htry & H).
    pose proof (probes_only_try_program _ _ _ _ _ _ _ _ Htry) as [Hm2 Hc2].
    destruct found; [|by eapply Hrest].
    destruct (try_program_toolname _ _ _ _ _ _ _ _ Htry) as [toolname Htool].
    apply gbind_returns in H as ([] & s3 & (e3 & Hset & ->)%on_vars_returns & H).
    apply gbind_returns in H as ([] & s4 & (e4 & [= <-] & ->)%on_vars_returns & H).
    injection H as <- <-.
    unfold _set_toolchain_toolset, _set_toolchain_item in Hset.
    destruct (test_nz (VStr toolchain)) eqn:Htc; [|done]. injection Hset as <-.
    cbn [vars with_vars maps cfg with_maps emit with_trace]. split; [done|].
    exists idx, (_get_toolchain_toolset (vars s) (VStr toolchain) (toolset_key kind idx)),
      toolname.
    split; [apply elem_of_cons; by left|]. split; [done|]. split; [done|]. split; [done|].
    split; [by destruct toolchain|]. by rewrite Hm2.
Qed.

Lemma toolset_get_slot (e : env) (toolchain kind : string) :
  _get_toolchain_toolset e (VStr toolchain) kind
  = _map_get (maps e) "toolchains" (toolset_slot toolchain kind).
Proof. reflexivity. Qed.

Lemma try_toolset_returns exec tmp_name (toolchain kind description : string)
    (s s' : session) (ok : bool) :
  _toolchain_try_toolset exec tmp_name toolchain kind description s = Ret (ok, s') →
  cfg (vars s') = cfg (vars s)
  ∧ if ok then
      Js.nonempty toolchain = true
      ∧ served (vars s') toolchain kind
      ∧ ¬ unserved (vars s) toolchain kind
      ∧ ∀ key, key ≠ toolset_slot toolchain kind →
               _map_get (maps (vars s')) "toolchains" key
               = _map_get (maps (vars s)) "toolchains" key
    else maps (vars s') = maps (vars s).
Proof.
  unfold _toolchain_try_toolset. intros H.
  apply (try_toolset_loop_returns _ _ _ _ _ toolset_indices) in H as [Hcfg H].
  split; [done|].
  destruct ok; [|done].
  destruct H as (idx & program & toolname & Hin & Hprog & Hnz & Htool & Hne & Hmaps).
  split; [done|]. split; [|split].
  - destruct program as [| | |p|]; try done.
    exists p, toolname. rewrite toolset_get_slot, Hmaps, map_get_set_eq.
    split; [done|]. split; [|done]. by destruct p.
  - intros Hun. specialize (Hun idx Hin). congruence.
  - intros key Hkey. rewrite Hmaps, map_get_set. by case_decide.
Qed.

(** The keys under which the programs of a kind are listed. *)
Lemma toolset_key_kind (kind k : string) (idx : nat) :
  has_char "_" k = false → k ≠ kind → k ≠ toolset_key kind idx.
Proof.
  intros Hk Hne. destruct idx as [|idx]; [done|]. cbn [toolset_key]. intros ->.
  rewrite has_char_app in Hk. cbn in Hk. by rewrite orb_true_r in Hk.
Qed.

Lemma unserved_frame (e e' : env) (toolchain kind : string) :
  (∀ idx, idx ∈ toolset_indices →
          _map_get (maps e') "toolchains" (toolset_slot toolchain (toolset_key kind idx))
          = _map_get (maps e) "toolchains" (toolset_slot toolchain (toolset_key kind idx))) →
  unserved e toolchain kind → unserved e' toolchain kind.
Proof.
  intros Hsame Hun idx Hidx. rewrite toolset_get_slot, (Hsame idx Hidx), <-toolset_get_slot.
  by apply Hun.
Qed.

(** What the conjunction over the tool kinds leaves when it holds: the
    toolchain has a name and every kind is served. *)
Lemma try_kinds_returns exec tmp_name (toolchain : string) (kinds : list (string * string))
    (s s' : session) (ok : bool) :
  NoDup kinds.*1 →
  Forall (λ k, has_char "_" k = false) kinds.*1 →
  _toolchain_try_kinds exec tmp_name toolchain kinds s = Ret (ok, s') →
  cfg (vars s') = cfg (vars s)
  ∧ (∀ key, (∀ kind, kind ∈ kinds.*1 → key ≠ toolset_slot toolchain kind) →
            _map_get (maps (vars s')) "toolchains" key
            = _map_get (maps (vars s)) "toolchains" key)
  ∧ (ok = true →
     (kinds ≠ [] → Js.nonempty toolchain = true)
     ∧ ∀ kind, kind ∈ kinds.*1 →
               served (vars s') toolchain kind ∧ ¬ unserved (vars s) toolchain kind).
Proof.
  revert s. induction kinds as [|[kind description] kinds IH]; intros s Hnodup Hplain.
  - intros [= <- <-]. split; [done|]. split; [done|]. intros _. split; [done|].
    intros kind Hin. by apply elem_of_nil in Hin.
  - change (((kind, description) :: kinds).*1) with (kind :: kinds.*1) in *.
    apply NoDup_cons in Hnodup as [Hfresh Hnodup].
    apply Forall_cons in Hplain as [Hkind Hplain].
    cbn [_toolchain_try_kinds].
    intros (found & s1 & Htry & H)%gbind_returns.
    apply try_toolset_returns in Htry as [Hcfg1 Htry].
    destruct found.
    + destruct Htry as (Hne & Hserved & Hwas & Hframe1).
      destruct (IH s1 Hnodup Hplain H) as (Hcfg & Hframe & Hok).
      split; [congruence|]. split.
      * intros key Hkey. rewrite Hframe, Hframe1; [done| |].
        -- apply Hkey. apply elem_of_cons. by left.
        -- intros k Hk. apply Hkey. apply elem_of_cons. by right.
      * intros ->. destruct (Hok eq_refl) as [_ Hall]. split; [done|].
        intros k [->|Hk]%elem_of_cons.
        -- split; [|done]. destruct Hserved as (program & toolname & Hget & Hp & Htool).
           exists program, toolname. split; [|done]. rewrite toolset_get_slot.
           rewrite Hframe; [by rewrite <-toolset_get_slot|].
           intros k Hk. apply toolset_slot_ne. intros ->. done.
        -- destruct (Hall k Hk) as [Hs Hu]. split; [done|]. intros Hun. apply Hu.
           apply (unserved_frame (vars s)); [|done]. intros idx Hidx. apply Hframe1.
           apply toolset_slot_ne. intros Heq. symmetry in Heq. revert Heq.
           apply toolset_key_kind; [done|]. intros ->. done.
    + injection H as <- <-. split; [done|]. split; [by rewrite Htry|]. done.
Qed.

Lemma kind_names : toolchain_kinds.*1 = toolchain_kind_names.
Proof. reflexivity. Qed.

Lemma kind_names_plain : Forall (λ k, has_char "_" k = false) toolchain_kind_names.
Proof. by repeat constructor. Qed.

Lemma kind_names_NoDup : NoDup toolchain_kind_names.
Proof. decide_by_computation. Qed.

Lemma try_returns exec tmp_name (toolchain : string) (s s' : session) (ok : bool) :
  _toolchain_try exec tmp_name toolchain s = Ret (ok, s') →
  cfg (vars s') = cfg (vars s)
  ∧ (ok = true →
     Js.nonempty toolchain = true
     ∧ ∀ kind, kind ∈ toolchain_kind_names →
               served (vars s') toolchain kind ∧ ¬ unserved (vars s) toolchain kind).
Proof.
  unfold _toolchain_try.
  intros ([] & s1 & (e1 & Hp & ->)%on_vars_returns & H)%gbind_returns.
  pose proof (same_variables_cfg _ _ (keeps_vprint _ _ _ _ Hp)) as Hc1.
  pose proof (same_variables_maps _ _ (keeps_vprint _ _ _ _ Hp)) as Hm1.
  apply try_kinds_returns in H as (Hcfg & _ & Hok);
    [|rewrite kind_names; apply kind_names_NoDup|rewrite kind_names; apply kind_names_plain].
  cbn [vars with_vars] in *. split; [congruence|].
  intros ->. destruct (Hok eq_refl) as [Hne Hall]. split; [by apply Hne|].
  intros kind Hkind. rewrite <-kind_names in Hkind. destruct (Hall kind Hkind) as [Hs Hu].
  split; [done|]. intros Hun. apply Hu. intros idx Hidx.
  unfold _get_toolchain_toolset, _get_toolchain_item. rewrite Hm1. by apply Hun.
Qed.

(** X14: a toolchain is taken only if each of the eight tool kinds has
    a program to try: when one kind has no program under its keys
    (the key of the kind and the keys numbered 1 to 5), as the archiver
    of the [envs] toolchain when [AR] is not set, the toolchain is
    turned down, whatever the programs of the other kinds answer. *)
Theorem toolchain_must_serve_every_kind exec tmp_name (toolchain kind : string)
    (s s' : session) (ok : bool) :
  kind ∈ toolchain_kind_names →
  unserved (vars s) toolchain kind →
  _toolchain_try exec tmp_name toolchain s = Ret (ok, s') →
  ok = false.
Proof.
  intros Hkind Hun [_ H]%try_returns. destruct ok; [|done].
  destruct (H eq_refl) as [_ Hall]. by destruct (Hall kind Hkind) as [_ []].
Qed.

Lemma detect_loop_returns exec tmp_name (toolchains : list string) (s s' : session) :
  _toolchain_detect_loop exec tmp_name toolchains s = Ret (tt, s') →
  _target_toolchain (cfg (vars s')) = _target_toolchain (cfg (vars s))
  ∨ ∃ toolchain : string,
      toolchain ∈ toolchains
      ∧ _target_toolchain (cfg (vars s')) = VStr toolchain
      ∧ Js.nonempty toolchain = true
      ∧ ∀ kind, kind ∈ toolchain_kind_names → served (vars s') toolchain kind.
Proof.
  revert s. induction toolchains as [|toolchain toolchains IH]; intros s.
  - intros [= <-]. by left.
  - cbn [_toolchain_detect_loop].
    intros (ok & s1 & Htry & H)%gbind_returns.
    apply try_returns in Htry as [Hcfg Hok]. destruct ok.
    + apply on_vars_returns in H as (e' & [= <-] & ->).
      destruct (Hok eq_refl) as [Hne Hall]. right. exists toolchain.
      split; [apply elem_of_cons; by left|]. split; [done|]. split; [done|].
      intros kind Hkind. by destruct (Hall kind Hkind).
    + destruct (IH _ H) as [Hsame|(tc & Hin & Htc)].
      * left. congruence.
      * right. exists tc. split; [apply elem_of_cons; by right|done].
Qed.

Lemma toolchain_must_serve_every_kind_witness :
  unserved (vars declared_session) "envs" "ar"
  ∧ fst <$> _toolchain_try always_ok sample_tmp_name "envs" declared_session = Ret false.
Proof.
  assert (unserved (vars declared_session) "envs" "ar") as Hun.
  { intros idx Hidx. unfold toolset_indices in Hidx.
    repeat (apply elem_of_cons in Hidx as [->|Hidx]; [by vm_compute|]).
    by apply elem_of_nil in Hidx. }
  split; [exact Hun|].
  destruct (_toolchain_try always_ok sample_tmp_name "envs" declared_session)
    as [[ok s']| | |] eqn:Hrun; try (by vm_compute in Hrun).
  cbn. f_equal.
  refine (toolchain_must_serve_every_kind always_ok sample_tmp_name "envs" "ar"
            declared_session s' ok _ Hun Hrun).
  decide_by_computation.
Defined.

Lemma detect_backend_returns exec mk nj (s s' : session) :
  _toolchain_detect_backend exec mk nj s = Ret (tt, s') →
  maps (vars s') = maps (vars s)
  ∧ _target_toolchain (cfg (vars s')) = _target_toolchain (cfg (vars s))
  ∧ _target_plat (cfg (vars s')) = _target_plat (cfg (vars s))
  ∧ _target_arch (cfg (vars s')) = _target_arch (cfg (vars s)).
Proof.
  unfold _toolchain_detect_backend.
  intros (s0 & s1 & [= <- <-] & H)%gbind_returns.
  assert (∀ (f : jsval → config → config) (program : jsval) (line1 line2 msg : string),
            (∀ c, _target_toolchain (f program c) = _target_toolchain c
                  ∧ _target_plat (f program c) = _target_plat c
                  ∧ _target_arch (f program c) = _target_arch c) →
            (on_vars (modify_env (λ e, with_cfg (f program (cfg e)) e));;
             on_vars (_os_runv exec (to_string program) ["--version"]) ≫= λ ok : bool,
             if ok then on_vars (print line1)
             else on_vars (print line2);; on_vars (lift (raise msg))) s = Ret (tt, s') →
            maps (vars s') = maps (vars s)
            ∧ _target_toolchain (cfg (vars s')) = _target_toolchain (cfg (vars s))
            ∧ _target_plat (cfg (vars s')) = _target_plat (cfg (vars s))
            ∧ _target_arch (cfg (vars s')) = _target_arch (cfg (vars s))) as Hdetect.
  { intros f program line1 line2 msg Hf Hrun.
    apply gbind_returns in Hrun as ([] & s1 & (e1 & [= <-] & ->)%on_vars_returns & Hrun).
    apply gbind_returns in Hrun
      as (ok & s2 & (e2 & (-> & _ & ->)%os_runv_emits & ->)%on_vars_returns & Hrun).
    apply on_vars_returns in Hrun as (e3 & [= <-] & ->).
    cbn [vars with_vars maps cfg with_cfg emit with_trace]. split; [done|]. apply Hf. }
  destruct (String.eqb (_project_generator (cfg (vars s))) "gmake").
  { unfold _toolchain_detect_make, _toolchain_try_make in H.
    apply gbind_returns in H as (s0 & s1 & [= <- <-] & H).
    by apply (Hdetect with_make) in H. }
  destruct (String.eqb (_project_generator (cfg (vars s))) "ninja").
  { unfold _toolchain_detect_ninja, _toolchain_try_ninja in H.
    apply gbind_returns in H as (s0 & s1 & [= <- <-] & H).
    by apply (Hdetect with_ninja) in H. }
  by injection H as <-.
Qed.

(** X15: when the detection of the toolchain returns, a toolchain is
    selected, its name is not empty, and each of the eight tool kinds
    has a program in the store that is not empty and has a tool name:
    the later readers of [_get_toolchain_toolset(_target_toolchain,
    kind)] get a program that [path_toolname] knows. *)
Theorem detected_toolchain_serves_every_kind exec tmp_name mk nj (s s' : session) :
  _check_toolchain exec tmp_name mk nj s = Ret (tt, s') →
  ∃ toolchain : string,
    _target_toolchain (cfg (vars s')) = VStr toolchain
    ∧ toolchain ≠ ""
    ∧ (∀ kind, kind ∈ toolchain_kind_names → served (vars s') toolchain kind)
    ∧ ∀ kind, kind ∈ toolchain_kind_names →
        ∃ toolname : string,
          path_toolname (_get_toolchain_toolset (vars s') (_target_toolchain (cfg (vars s')))
                           kind) = Ret toolname.
Proof.
  unfold _check_toolchain.
  intros (s0 & s1 & [= <- <-] & H)%gbind_returns.
  apply gbind_returns in H as ([] & s1 & (e1 & [= <-] & ->)%on_vars_returns & H).
  apply gbind_returns in H as ([] & s2 & Hdetect & H).
  apply gbind_returns in H as (s3 & s4 & [= <- <-] & H).
  unfold _toolchain_detect in Hdetect.
  apply gbind_returns in Hdetect as ([] & s5 & Hbackend & Hdetect).
  apply detect_backend_returns in Hbackend as (_ & Htc & _).
  apply gbind_returns in Hdetect as (s6 & s7 & [= <- <-] & Hdetect). cbv zeta in Hdetect.
  assert (_target_toolchain (cfg (vars s2)) = VStr ""
          ∨ ∃ toolchain : string,
              _target_toolchain (cfg (vars s2)) = VStr toolchain
              ∧ Js.nonempty toolchain = true
              ∧ ∀ kind, kind ∈ toolchain_kind_names → served (vars s2) toolchain kind)
    as [Hnone|(toolchain & Hset & Hne & Hall)].
  { match type of Hdetect with
    | match ?t with _ => _ end _ = _ => destruct t as [| | |toolchains|]
    end; try (by apply on_vars_returns in Hdetect as (? & [? ?]%lift_returns & _)).
    apply detect_loop_returns in Hdetect as [Hsame|(toolchain & _ & Hset & Hrest)].
    - left. by rewrite Hsame, Htc.
    - right. by exists toolchain. }
  - rewrite Hnone in H. cbn [test_nz] in H.
    apply gbind_returns in H as ([] & s8 & _ & H).
    by apply on_vars_returns in H as (? & [? ?]%lift_returns & _).
  - rewrite Hset in H.
    assert (test_nz (VStr toolchain) = true) as Hnz by (by destruct toolchain).
    rewrite Hnz in H. apply on_vars_returns in H as (e' & [= <-] & ->).
    exists toolchain. cbn [vars with_vars cfg emit with_trace].
    split; [done|]. split; [by destruct toolchain|]. split; [exact Hall|].
    intros kind Hkind. destruct (Hall kind Hkind) as (program & toolname & Hget & _ & Htool).
    exists toolname. rewrite Hset.
    unfold _get_toolchain_toolset, _get_toolchain_item in Hget |- *.
    cbn [maps emit with_trace]. by rewrite Hget.
Qed.

Lemma detected_toolchain_serves_every_kind_witness :
  ∃ toolchain : string,
    _target_toolchain
      (cfg (vars (session_after (_check_toolchain always_ok sample_tmp_name "make" "ninja")
                    declared_session))) = VStr toolchain
    ∧ toolchain ≠ ""
    ∧ (∀ kind, kind ∈ toolchain_kind_names →
         served (vars (session_after (_check_toolchain always_ok sample_tmp_name "make" "ninja")
                         declared_session)) toolchain kind)
    ∧ ∀ kind, kind ∈ toolchain_kind_names →
        ∃ toolname : string,
          path_toolname
            (_get_toolchain_toolset
               (vars (session_after (_check_toolchain always_ok sample_tmp_name "make" "ninja")
                        declared_session))
               (_target_toolchain
                  (cfg (vars (session_after
                                (_check_toolchain always_ok sample_tmp_name "make" "ninja")
                                declared_session))))
               kind) = Ret toolname.
Proof.
  apply (detected_toolchain_serves_every_kind always_ok sample_tmp_name "make" "ninja"
           declared_session).
  by vm_compute.
Defined.

Lemma vprint_runs (line : string) (e : env) :
  ∃ e', vprint line e = Ret (tt, e') ∧ maps e' = maps e ∧ cfg e' = cfg e.
Proof. unfold vprint. destruct (xmake_sh_verbose (cfg e)); by eexists. Qed.

Lemma try_toolset_loop_unserved exec tmp_name (toolchain kind description : string)
    (indices : list nat) (s : session) :
  (∀ idx, idx ∈ indices →
          test_nz (_get_toolchain_toolset (vars s) (VStr toolchain) (toolset_key kind idx))
          = false) →
  _toolchain_try_toolset_loop exec tmp_name toolchain kind description indices s
  = Ret (false, s).
Proof.
  induction indices as [|idx indices IH]; intros Hun; [done|].
  cbn [_toolchain_try_toolset_loop]. unfold mbind at 1, G_bind at 1, get_session at 1.
  rewrite (Hun idx) by (apply elem_of_cons; by left).
  apply IH. intros i Hi. apply Hun. apply elem_of_cons. by right.
Qed.

Lemma try_unserved exec tmp_name (toolchain : string) (s : session) :
  unserved (vars s) toolchain "cc" →
  ∃ s', _toolchain_try exec tmp_name toolchain s = Ret (false, s')
        ∧ maps (vars s') = maps (vars s) ∧ cfg (vars s') = cfg (vars s).
Proof.
  intros Hun. unfold _toolchain_try.
  destruct (vprint_runs ("checking for " +:+ toolchain +:+ " toolchain ...") (vars s))
    as (e' & Hp & Hm & Hc).
  exists (with_vars e' s). unfold mbind at 1, G_bind at 1, on_vars at 1. rewrite Hp.
  cbn [_toolchain_try_kinds toolchain_kinds]. unfold mbind at 1, G_bind at 1.
  unfold _toolchain_try_toolset. rewrite try_toolset_loop_unserved; [done|].
  intros idx Hidx. cbn [vars with_vars].
  unfold _get_toolchain_toolset, _get_toolchain_item. rewrite Hm. by apply Hun.
Qed.

Lemma detect_loop_unserved exec tmp_name (toolchains : list string) (s : session) :
  (∀ toolchain, toolchain ∈ toolchains → unserved (vars s) toolchain "cc") →
  ∃ s', _toolchain_detect_loop exec tmp_name toolchains s = Ret (tt, s')
        ∧ maps (vars s') = maps (vars s) ∧ cfg (vars s') = cfg (vars s).
Proof.
  revert s. induction toolchains as [|toolchain toolchains IH]; intros s Hun.
  - by exists s.
  - destruct (try_unserved exec tmp_name toolchain s) as (s1 & Htry & Hm1 & Hc1).
    { apply Hun. apply elem_of_cons. by left. }
    destruct (IH s1) as (s' & Hrun & Hm & Hc).
    { intros tc Htc idx Hidx. unfold _get_toolchain_toolset, _get_toolchain_item.
      rewrite Hm1. apply (Hun tc); [apply elem_of_cons; by right|done]. }
    exists s'. cbn [_toolchain_detect_loop]. unfold mbind at 1, G_bind at 1. rewrite Htry.
    split; [done|]. split; congruence.
Qed.

Lemma detect_backend_outcome exec mk nj (s : session) :
  (∃ (program : string) (code : Z),
     exec (trace (vars s)) program ["--version"] = code ∧ code ≠ 0
     ∧ _toolchain_detect_backend exec mk nj s
       = Throw (command_failed program ["--version"] code))
  ∨ ∃ s', _toolchain_detect_backend exec mk nj s = Ret (tt, s').
Proof.
  unfold _toolchain_detect_backend, _toolchain_detect_make, _toolchain_detect_ninja,
    _toolchain_try_make, _toolchain_try_ninja.
  unfold mbind, G_bind, get_session, on_vars, modify_env, _os_runv, print, lift, raise.
  destruct (String.eqb _ "gmake").
  { cbn. match goal with |- context [?code =? 0] => destruct (Z.eqb_spec code 0) end; cbn;
      [right; by eexists|left; by eexists _, _]. }
  destruct (String.eqb _ "ninja").
  { cbn. match goal with |- context [?code =? 0] => destruct (Z.eqb_spec code 0) end; cbn;
      [right; by eexists|left; by eexists _, _]. }
  right. by eexists.
Qed.

Lemma check_unknown_toolchain exec tmp_name mk nj (s : session) (requested : string) :
  _target_toolchain (cfg (vars s)) = VStr requested →
  requested ≠ "" →
  (∀ toolchain, toolchain ∈ Js.split Js.space requested →
                unserved (vars s) toolchain "cc") →
  _check_toolchain exec tmp_name mk nj s
  = match _toolchain_detect_backend exec mk nj
            (with_vars (with_cfg (with_toolchain (VStr "") (cfg (vars s))) (vars s)) s) with
    | Ret _ => Throw "toolchain not found!"
    | Throw msg => Throw msg
    | Exit code => Exit code
    | Diverge => Diverge
    end.
Proof.
  intros Hreq Hne Hun. unfold _check_toolchain.
  unfold mbind at 1, G_bind at 1, get_session at 1.
  unfold mbind at 1, G_bind at 1, on_vars at 1, modify_env at 1. rewrite Hreq.
  set (s1 := with_vars _ s).
  unfold mbind at 1, G_bind at 1. unfold _toolchain_detect.
  unfold mbind at 1, G_bind at 1.
  destruct (_toolchain_detect_backend exec mk nj s1) as [[[] s2]| | |] eqn:Hback; try done.
  pose proof (detect_backend_returns _ _ _ _ _ Hback) as (Hm2 & Htc2 & _).
  unfold mbind at 1, G_bind at 1, get_session at 1. cbv zeta.
  assert (test_z (VStr requested) = false) as -> by (by destruct requested).
  destruct (detect_loop_unserved exec tmp_name (Js.split Js.space requested) s2)
    as (s3 & Hloop & Hm3 & Hc3).
  { intros tc Htc idx Hidx. unfold _get_toolchain_toolset, _get_toolchain_item.
    rewrite Hm2. by apply (Hun tc). }
  rewrite Hloop. unfold mbind at 1, G_bind at 1, get_session at 1.
  rewrite Hc3, Htc2. by subst s1.
Qed.

(** X16: a request for a toolchain that is not declared, or that has
    no C compiler to try, does not fall back on another toolchain: the
    detection ends with an exception, which is [toolchain not found!]
    when the build program has answered (its [--version] has exited
    with the code 0); otherwise it is the error of that command. *)
Theorem unknown_toolchain_is_not_found exec tmp_name mk nj (s : session) (requested : string) :
  _target_toolchain (cfg (vars s)) = VStr requested →
  requested ≠ "" →
  (∀ toolchain, toolchain ∈ Js.split Js.space requested →
                unserved (vars s) toolchain "cc") →
  (∃ msg : string, _check_toolchain exec tmp_name mk nj s = Throw msg)
  ∧ ((∀ program : string, exec (trace (vars s)) program ["--version"] = 0) →
     _check_toolchain exec tmp_name mk nj s = Throw "toolchain not found!").
Proof.
  intros Hreq Hne Hun. rewrite (check_unknown_toolchain _ _ _ _ _ _ Hreq Hne Hun).
  destruct (detect_backend_outcome exec mk nj
              (with_vars (with_cfg (with_toolchain (VStr "") (cfg (vars s))) (vars s)) s))
    as [(program & code & Hcode & Hfails & ->)|[s' ->]].
  - split; [by eexists|]. intros Hanswers. cbn [vars with_vars trace] in Hcode.
    replace (trace (with_cfg (with_toolchain (VStr "") (cfg (vars s))) (vars s)))
      with (trace (vars s)) in Hcode by (by destruct (vars s)).
    by rewrite Hanswers in Hcode.
  - split; [by eexists|done].
Qed.

Lemma unknown_toolchain_is_not_found_witness :
  (∃ msg : string,
     _check_toolchain always_ok sample_tmp_name "make" "ninja"
       (with_vars (state_after (sample_handle_option "--toolchain=tcc") (vars declared_session))
          declared_session) = Throw msg)
  ∧ ((∀ program : string,
        always_ok
          (trace (vars (with_vars
                          (state_after (sample_handle_option "--toolchain=tcc")
                             (vars declared_session))
                          declared_session)))
          program ["--version"] = 0) →
     _check_toolchain always_ok sample_tmp_name "make" "ninja"
       (with_vars (state_after (sample_handle_option "--toolchain=tcc") (vars declared_session))
          declared_session) = Throw "toolchain not found!").
Proof.
  apply (unknown_toolchain_is_not_found always_ok sample_tmp_name "make" "ninja" _ "tcc");
    [by vm_compute|done|].
  intros toolchain Hin idx Hidx.
  apply list_elem_of_singleton in Hin as ->. unfold toolset_indices in Hidx.
  repeat (apply elem_of_cons in Hidx as [->|Hidx]; [by vm_compute|]).
  by apply elem_of_nil in Hidx.
Defined.

Lemma vprint_returns (line : string) (e e' : env) :
  vprint line e = Ret (tt, e') →
  ∃ evs, trace e' = trace e ++ evs ∧ effects evs = [].
Proof.
  intros (evs & Ht & He & _)%prints_only_vprint. by exists evs.
Qed.

(** What the check of a compiler leaves: the outcome is remembered
    under the tool name; and when an outcome was remembered already,
    the answer is that outcome and no command is run. *)
Lemma try_program_remembers exec tmp_name (toolchain kind : string) (program : jsval)
    (toolname : string) (s s' : session) (ok : bool) :
  toolname ∈ ["gcc"; "gxx"; "clang"; "clangxx"] →
  path_toolname program = Ret toolname →
  _toolchain_try_program exec tmp_name toolchain kind program s = Ret (ok, s') →
  remembered s' toolname = (if ok then "ok" else "no")
  ∧ (remembered s toolname = "ok" ∨ remembered s toolname = "no" →
     remembered s toolname = (if ok then "ok" else "no")
     ∧ ∃ evs, trace (vars s') = trace (vars s) ++ evs ∧ effects evs = []).
Proof.
  intros Hname Htool. unfold _toolchain_try_program.
  unfold mbind at 1, G_bind at 1, on_vars at 1. rewrite Htool. cbn [lift fmap result_fmap].
  assert (∀ (b : bool) (s1 : session),
            (if b
             then on_vars (vprint ("checking for " +:+ to_string program +:+ " ... ok"));;
                  mret true
             else on_vars (vprint ("checking for " +:+ to_string program +:+ " ... no"));;
                  mret false) s1 = Ret (ok, s') →
            ok = b ∧ remembered s' toolname = remembered s1 toolname
            ∧ ∃ evs, trace (vars s') = trace (vars s1) ++ evs ∧ effects evs = []) as Hreport.
  { intros b s1 H. destruct b.
    - apply gbind_returns in H as ([] & s2 & (e2 & Hp & ->)%on_vars_returns & [= <- <-]).
      split; [done|]. split; [done|]. by apply vprint_returns in Hp.
    - apply gbind_returns in H as ([] & s2 & (e2 & Hp & ->)%on_vars_returns & [= <- <-]).
      split; [done|]. split; [done|]. by apply vprint_returns in Hp. }
  intros (b & s1 & Hcheck & Hrep)%gbind_returns.
  destruct (Hreport _ _ Hrep) as (-> & Hmem & evs & Ht & He). rewrite Hmem. clear Hreport Hrep.
  repeat (apply elem_of_cons in Hname as [->|Hname]);
    [| | | |by apply elem_of_nil in Hname];
    cbn [String.eqb Ascii.eqb Bool.eqb] in Hcheck; unfold remembered;
    cbn [String.eqb Ascii.eqb Bool.eqb].
  all: unfold _toolchain_try_gcc, _toolchain_try_gxx, _toolchain_try_clang,
         _toolchain_try_clangxx in Hcheck;
       apply gbind_returns in Hcheck as (s0 & s2 & [= <- <-] & Hcheck);
       match type of Hcheck with
       | (if String.eqb ?m "ok" then _ else _) _ = _ =>
           destruct (String.eqb_spec m "ok") as [Hok|Hnok]
       end.
  all: try (injection Hcheck as <- <-; rewrite Hok; split; [done|]; intros _; split; [done|];
            by exists evs).
  all: match type of Hcheck with
       | (if String.eqb ?m "no" then _ else _) _ = _ =>
           destruct (String.eqb_spec m "no") as [Hno|Hnno]
       end.
  all: try (injection Hcheck as <- <-; rewrite Hno; split; [done|]; intros _; split; [done|];
            by exists evs).
  all: apply gbind_returns in Hcheck as (ran & s3 & (e3 & Hrun & ->)%on_vars_returns & Hcheck);
       destruct ran;
       apply gbind_returns in Hcheck as ([] & s4 & [= <-] & [= <- <-]);
       (split; [done|]); by intros [?|?].
Qed.

(** With an outcome remembered for the tool name, the check returns it
    and prints at most. *)
Lemma try_program_remembered exec tmp_name (toolchain kind : string) (program : jsval)
    (toolname : string) (s : session) (ok : bool) :
  toolname ∈ ["gcc"; "gxx"; "clang"; "clangxx"] →
  path_toolname program = Ret toolname →
  remembered s toolname = (if ok then "ok" else "no") →
  ∃ (s' : session) (evs : list event),
    _toolchain_try_program exec tmp_name toolchain kind program s = Ret (ok, s')
    ∧ trace (vars s') = trace (vars s) ++ evs ∧ effects evs = [].
Proof.
  intros Hname Htool Hmem. unfold _toolchain_try_program.
  unfold mbind at 1, G_bind at 1, on_vars at 1. rewrite Htool. cbn [lift fmap result_fmap].
  unfold remembered in Hmem.
  repeat (apply elem_of_cons in Hname as [->|Hname]);
    [| | | |by apply elem_of_nil in Hname];
    cbn [String.eqb Ascii.eqb Bool.eqb] in Hmem |- *.
  all: unfold _toolchain_try_gcc, _toolchain_try_gxx, _toolchain_try_clang,
         _toolchain_try_clangxx;
       unfold mbind, G_bind, get_session;
       replace (with_vars (vars s) s) with s by (by destruct s); rewrite Hmem;
       destruct ok; cbn [String.eqb Ascii.eqb Bool.eqb mret G_ret];
       unfold on_vars, vprint, print, modify_env;
       destruct (xmake_sh_verbose (cfg (vars s)));
       eexists _, _; (split; [reflexivity|]); cbn [vars with_vars trace emit with_trace].
  all: first [by split; [symmetry; apply app_nil_r|] | by split ].
Qed.

(** X17: the check of a compiler is made once for each tool name, not
    for each program: after a check of a program read as gcc, g++, clang
    or clang++ has returned, the check of any program of the same tool
    name (a cross compiler, say) returns the same answer, and runs no
    command; it prints at most. *)
Theorem compiler_check_is_remembered exec tmp_name
    (toolchain1 kind1 toolchain2 kind2 : string) (program1 program2 : jsval)
    (toolname : string) (s s1 : session) (ok : bool) :
  toolname ∈ ["gcc"; "gxx"; "clang"; "clangxx"] →
  path_toolname program1 = Ret toolname →
  path_toolname program2 = Ret toolname →
  _toolchain_try_program exec tmp_name toolchain1 kind1 program1 s = Ret (ok, s1) →
  ∃ (s2 : session) (evs : list event),
    _toolchain_try_program exec tmp_name toolchain2 kind2 program2 s1 = Ret (ok, s2)
    ∧ trace (vars s2) = trace (vars s1) ++ evs ∧ effects evs = [].
Proof.
  intros Hname Htool1 Htool2 Hfirst.
  apply (try_program_remembers _ _ _ _ _ toolname) in Hfirst as [Hmem _]; [|done..].
  by apply (try_program_remembered _ _ _ _ _ toolname).
Qed.

Lemma compiler_check_is_remembered_witness :
  ∃ (s2 : session) (evs : list event),
    _toolchain_try_program only_gcc sample_tmp_name "x86_64_w64_mingw32" "cc"
      (VStr "x86_64-w64-mingw32-gcc")
      (session_after (_toolchain_try_program only_gcc sample_tmp_name "gcc" "cc" (VStr "gcc"))
         (session_of initial_env))
    = Ret (true, s2)
    ∧ trace (vars s2)
      = trace (vars (session_after
                       (_toolchain_try_program only_gcc sample_tmp_name "gcc" "cc" (VStr "gcc"))
                       (session_of initial_env))) ++ evs
    ∧ effects evs = [].
Proof.
  apply (compiler_check_is_remembered only_gcc sample_tmp_name "gcc" "cc"
           "x86_64_w64_mingw32" "cc" (VStr "gcc") (VStr "x86_64-w64-mingw32-gcc") "gcc"
           (session_of initial_env));
    [apply elem_of_cons; by left|by vm_compute|by vm_compute|by vm_compute].
Defined.

(** ** The build rules of the makefile *)

Lemma with_vars_same (s : session) : with_vars (vars s) s = s.
Proof. by destruct s. Qed.

Lemma stops_throw {A : Type} (msg : string) : stops (@Throw A msg).
Proof. right. by exists msg. Qed.

Lemma stops_exit {A : Type} : stops (@Exit A 1).
Proof. by left. Qed.

Lemma lands_ret {A : Type} (a : A) : lands (Ret a).
Proof. left. by exists a. Qed.

Lemma lands_stops {A : Type} (r : result A) : stops r → lands r.
Proof. by right. Qed.

Lemma lands_bind {A B : Type} (r : result A) (f : A → result B) :
  lands r → (∀ a, lands (f a)) → lands (r ≫= f).
Proof.
  intros [[a ->]|[->|[msg ->]]] Hf; [apply Hf|apply lands_stops, stops_exit|
                                     apply lands_stops, stops_throw].
Qed.

Lemma lands_fmap {A B : Type} (r : result A) (f : A → B) : lands r → lands (f <$> r).
Proof.
  intros [[a ->]|[->|[msg ->]]]; [apply lands_ret|apply lands_stops, stops_exit|
                                  apply lands_stops, stops_throw].
Qed.

Lemma stops_lift {A B : Type} (r : result A) (k : A → G B) (s : session) :
  lands r → (∀ a, r = Ret a → stops (k a s)) → stops ((on_vars (lift r) ≫= k) s).
Proof.
  intros Hr Hk. unfold mbind, G_bind, on_vars, lift.
  destruct Hr as [[a ->]|[->|[msg ->]]]; cbn.
  - rewrite with_vars_same. by apply Hk.
  - by left.
  - right. by exists msg.
Qed.

Lemma stops_append {B : Type} (data : string) (k : G B) (s : session) :
  stops (k (with_makefile (makefile s +:+ data) s)) →
  stops ((appendFileSync data;; k) s).
Proof. done. Qed.

Lemma lands_path_join path_join (args : list jsval) : lands (js_path_join path_join args).
Proof.
  unfold js_path_join. destruct (all_strings args); [apply lands_ret|].
  apply lands_stops, stops_throw.
Qed.

Lemma lands_targetdir path_join (e : env) (name : string) :
  lands (_get_targetdir path_join e name).
Proof.
  unfold _get_targetdir. destruct (test_z _); [|apply lands_ret].
  apply lands_fmap, lands_path_join.
Qed.

Lemma lands_target_file path_join (e : env) (name : string) :
  lands (_get_target_file path_join e name).
Proof.
  unfold _get_target_file. apply lands_bind; [apply lands_targetdir|].
  intros a. apply lands_path_join.
Qed.

Lemma lands_objectfile path_join (e : env) (name sourcefile : string) :
  lands (_get_target_objectfile path_join e name sourcefile).
Proof.
  unfold _get_target_objectfile, _get_target_objectdir. apply lands_bind.
  - destruct (test_z _); [|apply lands_ret]. apply lands_fmap, lands_path_join.
  - intros a. apply lands_path_join.
Qed.

Lemma lands_string_to_array (s : jsval) : lands (string_to_array s).
Proof. destruct s; try apply lands_ret; apply lands_stops, stops_throw. Qed.

Lemma lands_objectfiles path_join (e : env) (name : string) :
  lands (_get_target_objectfiles path_join e name).
Proof.
  unfold _get_target_objectfiles. apply lands_bind; [apply lands_string_to_array|].
  intros l. apply lands_bind; [|intros; apply lands_ret].
  induction l as [|f l IH]; [apply lands_ret|]. cbn [objectfiles_loop].
  apply lands_bind; [apply lands_objectfile|]. intros o.
  apply lands_bind; [apply IH|]. intros; apply lands_ret.
Qed.

Lemma lands_depfiles path_join (e : env) (deps : list string) :
  lands (depfiles_loop path_join e deps).
Proof.
  induction deps as [|d l IH]; [apply lands_ret|]. cbn [depfiles_loop].
  apply lands_bind; [apply lands_target_file|]. intros o.
  apply lands_bind; [apply IH|]. intros; apply lands_ret.
Qed.

Lemma lands_toolname (program : jsval) : lands (path_toolname program).
Proof.
  destruct program; try (apply lands_stops, stops_throw). unfold path_toolname.
  repeat (match goal with |- lands (if ?b then _ else _) => destruct b end;
          [apply lands_ret|]).
  apply lands_stops, stops_throw.
Qed.

Lemma lands_flagname (toolkind : string) : lands (_get_flagname toolkind).
Proof.
  unfold _get_flagname. cbn [switch].
  repeat (match goal with |- lands (if ?b then _ else _) => destruct b end;
          [apply lands_ret|]).
  apply lands_stops, stops_throw.
Qed.

(** Reading the source files of a target that has none stops the
    writer. *)
Lemma build_objects_without_files path_join path_dirname (target : string) (s : session) :
  _get_target_item (vars s) target "files" = VUndef →
  stops (_gmake_add_build_objects path_join path_dirname target s).
Proof.
  intros Hfiles. unfold _gmake_add_build_objects, _get_target_sourcefiles.
  unfold mbind, G_bind, get_session. rewrite Hfiles. apply stops_throw.
Qed.

Ltac stops_tac :=
  repeat first
    [ apply stops_lift;
      [first [apply lands_targetdir|apply lands_target_file|apply lands_objectfiles
             |apply lands_toolname|apply lands_flagname|apply lands_string_to_array
             |apply lands_depfiles]|intros ? _]
    | apply stops_append ].

(** The rule of a target is written to the end only when the kind of
    the target is one of the three and the rules of its objects are. *)
Lemma build_target_stops path_join path_dirname (target : string) (s : session) :
  (_get_target_item (vars s) target "kind" = VUndef
   ∨ ∀ s', vars s' = vars s →
           stops (_gmake_add_build_objects path_join path_dirname target s')) →
  stops (_gmake_add_build_target path_join path_dirname target s).
Proof.
  intros Hstops. unfold _gmake_add_build_target.
  change ((get_session ≫= ?k) s) with (k s s). cbv beta zeta.
  stops_tac.
  assert (∀ (toolkind : string) (k : string → G ()) ,
            (∀ t, stops (k t s)) → stops ((mret toolkind ≫= k) s)) as Hret
    by (intros ? ? H; apply H).
  assert (∀ (k : string → G ()) msg, stops ((on_vars (lift (raise msg)) ≫= k) s)) as Hraise
    by (intros; by left).
  destruct Hstops as [->|Hobjects]; [apply Hraise|].
  repeat (match goal with |- stops (((if ?b then _ else _) ≫= _) _) => destruct b end;
          [apply Hret; intros toolkind|]); [| | |apply Hraise].
  all: stops_tac.
  all: unfold switch;
       repeat (match goal with |- stops (((if ?b then _ else _);; _) _) => destruct b end).
  all: try (by left).
  all: unfold _gmake_add_build_target_for_gcc_clang, _gmake_add_build_target_for_ar;
       apply Hobjects; done.
Qed.

(** X18: a target needs source files: when no file was added to a
    target, nor outside of the targets, the writer of the makefile does
    not come back from the rule of that target; it ends with an
    exception, or ends the process with the code 1. *)
Theorem build_rule_needs_source_files path_join path_dirname (target : string)
    (s : session) :
  _get_target_item (vars s) target "files" = VUndef →
  stops (_gmake_add_build_target path_join path_dirname target s).
Proof.
  intros Hfiles. apply build_target_stops. right. intros s' Hvars.
  apply build_objects_without_files. by rewrite Hvars.
Qed.

Lemma build_rule_needs_source_files_witness :
  stops (_gmake_add_build_target sample_path_join (λ file, file) "app"
           (session_of diamond_env)).
Proof.
  apply (build_rule_needs_source_files sample_path_join (λ file, file) "app"
           (session_of diamond_env)).
  by vm_compute.
Defined.

(** X19: the build rules are written for the words of the list of the
    targets split at the spaces, and the split of an empty list is one
    empty word: with no target declared, a rule is written for the
    target of the empty name, which takes what was set outside of the
    targets. Unless a kind and source files were set there, the writer
    does not come back. *)
Theorem no_target_stops_the_build_rules path_join path_dirname (s : session) :
  Js.trim (_xmake_sh_targets (vars s)) = "" →
  _get_target_item (vars s) "" "kind" = VUndef
  ∨ _get_target_item (vars s) "" "files" = VUndef →
  stops (_gmake_add_build_targets path_join path_dirname s).
Proof.
  intros Hnone Hroot. unfold _gmake_add_build_targets.
  change ((get_session ≫= ?k) s) with (k s s). cbv beta zeta.
  rewrite Hnone. stops_tac. cbn [Js.split _gmake_add_build_targets_loop].
  match goal with
  | |- stops ((_ ≫= _) ?s1) =>
      assert (stops (_gmake_add_build_target path_join path_dirname "" s1)) as Hstops
  end.
  { apply build_target_stops. cbn [vars with_makefile with_vars].
    destruct Hroot as [Hkind|Hfiles]; [by left|right].
    intros s' Hvars. apply build_objects_without_files. by rewrite Hvars. }
  unfold mbind, G_bind. by destruct Hstops as [->|[msg ->]]; [left|right; exists msg].
Qed.

Lemma no_target_stops_the_build_rules_witness :
  stops (_gmake_add_build_targets sample_path_join (λ file, file)
           (session_of loading_targets_env)).
Proof.
  apply (no_target_stops_the_build_rules sample_path_join (λ file, file)
           (session_of loading_targets_env)); [by vm_compute|left; by vm_compute].
Defined.

(** ** The flags of the linker *)

(** The directory of a target is never the empty string, when
    [path.join] never returns it. *)
Lemma targetdir_given path_join (e : env) (name : string) (targetdir : jsval) :
  (∀ l, path_join l ≠ "") →
  _get_targetdir path_join e name = Ret targetdir →
  nullish targetdir (VStr "") ≠ VStr "".
Proof.
  intros Hjoin. unfold _get_targetdir.
  destruct (test_z (_get_target_item e name "targetdir")) eqn:E.
  - cbn. intros [= <-]. cbn. intros [= Hempty]. by apply Hjoin in Hempty.
  - intros [= <-]. by destruct (_get_target_item e name "targetdir") as [| | |[]|].
Qed.

Section BlindLinker.

Variable hidden : string → bool.
Hypothesis plain :
  ∀ key name : string, key ∈ flag_keys → hidden (name +:+ "_" +:+ key) = false.

Lemma targetdir_same path_join (e e' : env) (name : string) :
  same_but hidden e e' →
  _get_targetdir path_join e' name = _get_targetdir path_join e name.
Proof.
  intros H. unfold _get_targetdir.
  rewrite (item_same hidden plain e e' name "targetdir") by (done || by decide_by_computation).
  by rewrite (proj1 H).
Qed.

Lemma blind_linker_deps_loop path_join path_relative (fuel : nat)
    (name toolkind toolname : string) (deps : list string) (result : string) :
  (∀ l, path_join l ≠ "") →
  blind hidden
    (linker_deps_loop path_join path_relative fuel name toolkind toolname deps result)
    (linker_deps_loop path_join path_relative fuel name toolkind toolname deps result).
Proof.
  intros Hjoin. revert result. induction deps as [|dep deps IH]; intros result;
    [apply blind_ret|].
  cbn [linker_deps_loop]. apply blind_get_env. intros e e' H.
  rewrite (item_same hidden plain e e' dep "kind") by (done || by decide_by_computation).
  destruct (_ || _); [|apply IH].
  apply blind_lift_bind; [by apply targetdir_same|]. intros dep_targetdir Hdir.
  apply blind_bind.
  { apply blind_abstract_flags; [exact plain|].
    left. by apply (targetdir_given path_join e dep). }
  intros linkdirs_flags. unfold _get_target_basename.
  rewrite (item_same hidden plain e e' dep "basename") by (done || by decide_by_computation).
  apply blind_bind.
  { apply blind_abstract_flags; [exact plain|]. right. by decide_by_computation. }
  intros links_flags.
  apply blind_bind; [|intros; apply IH].
  destruct (test_eq _ _); [|apply blind_ret].
  apply blind_get_env. intros e1 e1' H1.
  apply blind_lift_bind; [by apply targetdir_same|]. intros targetdir _.
  apply blind_lift_bind; [done|]. intros subdir _.
  apply blind_bind; [|intros; apply blind_ret].
  apply blind_abstract_flags; [exact plain|]. left. cbn.
  destruct (Js.nonempty subdir); [|done].
  intros [= Hempty]. by apply Hjoin in Hempty.
Qed.

Lemma blind_linker_flags path_join path_relative (fuel : nat) (name toolkind : string) :
  (∀ l, path_join l ≠ "") →
  blind hidden (_get_target_linker_flags path_join path_relative fuel name toolkind)
    (_get_target_linker_flags path_join path_relative fuel name toolkind).
Proof.
  intros Hjoin. unfold _get_target_linker_flags. apply blind_get_env. intros e e' H.
  rewrite (toolset_same hidden e e'), (proj1 H) by done.
  apply blind_lift_bind; [done|]. intros toolname _.
  apply blind_lift_bind; [by apply (toolchain_flags_same hidden plain)|]. intros toolchain_flags _.
  apply blind_bind; [apply (blind_librarydeps hidden plain)|]. intros deps.
  apply blind_lift_bind; [done|]. intros dep_list _.
  apply blind_bind; [by apply blind_linker_deps_loop|]. intros result.
  apply blind_bind.
  { apply blind_target_flags_loop; [exact plain|]. unfold linker_itemnames.
    repeat (constructor; [by decide_by_computation|]). constructor. }
  intros result'. apply blind_lift_bind; [done|]. intros flagname Hflag%flagname_key.
  apply blind_get_env. intros e1 e1' H1.
  rewrite (item_same hidden plain e1 e1' name flagname) by done.
  apply blind_ret.
Qed.

Lemma blind_archiver_flags (name toolkind : string) :
  blind hidden (_get_target_archiver_flags name toolkind)
    (_get_target_archiver_flags name toolkind).
Proof.
  unfold _get_target_archiver_flags. apply blind_get_env. intros e e' H.
  rewrite (toolset_same hidden e e'), (proj1 H) by done.
  apply blind_lift_bind; [done|]. intros toolname _.
  apply blind_lift_bind; [by apply (toolchain_flags_same hidden plain)|]. intros toolchain_flags _.
  apply blind_lift_bind; [done|]. intros flagname Hflag%flagname_key.
  rewrite (item_same hidden plain e e' name flagname) by done. apply blind_ret.
Qed.

Lemma blind_target_flags path_join path_relative (fuel : nat) (name toolkind : string) :
  (∀ l, path_join l ≠ "") →
  blind hidden (_get_target_flags path_join path_relative fuel name toolkind)
    (_get_target_flags path_join path_relative fuel name toolkind).
Proof.
  intros Hjoin. unfold _get_target_flags.
  repeat (match goal with |- blind _ (if ?b then _ else _) _ => destruct b end);
    [by apply blind_linker_flags|by apply blind_linker_flags|apply blind_archiver_flags|
     apply (blind_compiler_flags hidden plain)].
Qed.

End BlindLinker.

(** No attribute that the assembly reads is kept under a key of the
    link directories. *)
Lemma linkdirs_plain (key name : string) :
  key ∈ flag_keys → is_linkdirs_key (name +:+ "_" +:+ key) = false.
Proof.
  intros Hkey. unfold is_linkdirs_key.
  assert (Forall (λ k, apart_from "_linkdirs" k && apart_from "_linkdirs_public" k = true)
            flag_keys) as Hall by (by decide_by_computation).
  apply (proj1 (Forall_forall _ _) Hall) in Hkey. apply andb_true_iff in Hkey as [H1 H2].
  by rewrite !apart_from_spec.
Qed.

Lemma node_path_join_nonempty (l : list string) : node_path_join l ≠ "".
Proof.
  unfold node_path_join. destruct (Js.nonempty _) eqn:E; [|done].
  intros Hempty. by rewrite Hempty in E.
Qed.

Lemma same_but_linkdirs_put (e : env) (key : string) (value : jsval) :
  is_linkdirs_key key = true →
  same_but_linkdirs e (with_maps (_map_set (maps e) "targets" key value) e).
Proof.
  intros Hkey. split; [by destruct e|split].
  - destruct e as [m]; cbn. unfold _map_set.
    destruct (m !! "targets"); by rewrite lookup_insert_ne.
  - intros k Hk. rewrite targets_of_set, lookup_insert_ne; [done|congruence].
Qed.

(** X20: the link directories of the targets do not reach the flags
    written for a target, for any kind of tool: two states that differ
    in them at most give the same flags, or end the same way. (The
    linker reads the attribute [linkdir], which no call sets, and gives
    the directory of each library dependency as its link directory;
    Node's [path.join] never returns the empty string.) *)
Theorem link_directories_are_not_linked path_join path_relative (fuel : nat)
    (name toolkind : string) (e e' : env) :
  (∀ l, path_join l ≠ "") →
  same_but_linkdirs e e' →
  outcome (_get_target_flags path_join path_relative fuel name toolkind e')
  = outcome (_get_target_flags path_join path_relative fuel name toolkind e).
Proof.
  intros Hjoin H.
  eapply agree_outcome, blind_target_flags; [exact linkdirs_plain|exact Hjoin|exact H].
Qed.

Lemma link_directories_are_not_linked_witness :
  outcome (_get_target_flags node_path_join (λ _ target, target) 3 "app" "ld"
             (with_maps (_map_set (maps diamond_env) "targets" "app_linkdirs"
                           (VStr "/opt/lib")) diamond_env))
  = outcome (_get_target_flags node_path_join (λ _ target, target) 3 "app" "ld" diamond_env).
Proof.
  apply (link_directories_are_not_linked node_path_join (λ _ target, target) 3 "app" "ld"
           diamond_env);
    [apply node_path_join_nonempty|by apply same_but_linkdirs_put].
Defined.

Lemma same_but_linkdirs_refl (e : env) : same_but_linkdirs e e.
Proof. done. Qed.

Lemma same_but_linkdirs_trans (e1 e2 e3 : env) :
  same_but_linkdirs e1 e2 → same_but_linkdirs e2 e3 → same_but_linkdirs e1 e3.
Proof.
  intros (Hc & Ht & Hk) (Hc' & Ht' & Hk'). split; [congruence|split; [congruence|]].
  intros key Hkey. by rewrite Hk', Hk.
Qed.

Lemma add_target_linkdirs (name : jsval) (key : string) (value : jsval) (e e' : env) :
  key = "linkdirs" ∨ key = "linkdirs_public" →
  _add_target_item name key value e = Ret (tt, e') → same_but_linkdirs e e'.
Proof.
  intros Hkey. unfold _add_target_item. intros [= <-]. apply same_but_linkdirs_put.
  unfold is_linkdirs_key.
  destruct (test_nz name), Hkey as [->| ->];
    change ("_" +:+ "linkdirs") with "_linkdirs";
    change ("_" +:+ "linkdirs_public") with "_linkdirs_public".
  - by rewrite (endsWith_app (to_string name) "_linkdirs" "_linkdirs") by (cbn; lia).
  - rewrite (endsWith_app (to_string name) "_linkdirs_public" "_linkdirs_public")
      by (cbn; lia).
    apply orb_true_r.
  - done.
  - done.
Qed.

Lemma add_option_item_same (name : jsval) (key : string) (value : jsval) (e e' : env) :
  _add_option_item name key value e = Ret (tt, e') → same_but_linkdirs e e'.
Proof.
  unfold _add_option_item. destruct (test_nz name); [|done]. intros [= <-].
  destruct e as [m]; unfold same_but_linkdirs, targets_of, _map_set; cbn.
  split; [done|].
  destruct (m !! "options"); by rewrite !lookup_insert_ne.
Qed.

(** A call of [add_linkdirs] changes the link directories of a target,
    or the attributes of an option. *)
Lemma add_linkdirs_same path_join path_relative path_is_absolute projectdir
    (args : list string) (s s' : session) :
  add_linkdirs path_join path_relative path_is_absolute projectdir args s = Ret (tt, s') →
  same_but_linkdirs (vars s) (vars s').
Proof.
  unfold add_linkdirs.
  intros ([] & s1 & Hfirst & Hsecond)%gbind_returns.
  apply (same_but_linkdirs_trans _ (vars s1)).
  - clear Hsecond. revert s Hfirst. induction args as [|dir args IH]; intros s.
    { by intros [= <-]. }
    cbn [add_linkdirs_loop]. intros ([] & s2 & Hdir & Hrest)%gbind_returns.
    apply (same_but_linkdirs_trans _ (vars s2)); [|by apply IH]. clear Hrest IH.
    destruct (test_nq _ _); [|by injection Hdir as <-].
    apply gbind_returns in Hdir as (s0 & s3 & [= <- <-] & Hdir).
    apply gbind_returns in Hdir as (stored & s3 & (e3 & [_ ->]%lift_returns & ->)%on_vars_returns
                                    & Hdir).
    rewrite with_vars_same in Hdir.
    destruct (_ && _).
    { apply on_vars_returns in Hdir as (e4 & Hadd & ->).
      apply add_target_linkdirs in Hadd; [done|by left]. }
    destruct (_ && _); [|by injection Hdir as <-].
    apply on_vars_returns in Hdir as (e4 & Hadd & ->). by apply add_option_item_same in Hadd.
  - destruct (has_public args); [|by injection Hsecond as <-].
    clear Hfirst. revert s1 Hsecond. induction args as [|dir args IH]; intros s1.
    { by intros [= <-]. }
    cbn [add_linkdirs_public_loop]. intros ([] & s2 & Hdir & Hrest)%gbind_returns.
    apply (same_but_linkdirs_trans _ (vars s2)); [|by apply IH]. clear Hrest IH.
    destruct (test_nq _ _); [|by injection Hdir as <-].
    apply gbind_returns in Hdir as (s0 & s3 & [= <- <-] & Hdir).
    apply gbind_returns in Hdir as (stored & s3 & (e3 & [_ ->]%lift_returns & ->)%on_vars_returns
                                    & Hdir).
    rewrite with_vars_same in Hdir.
    destruct (_ && _); [|by injection Hdir as <-].
    apply on_vars_returns in Hdir as (e4 & Hadd & ->).
    apply add_target_linkdirs in Hadd; [done|by right].
Qed.

(** X21: a call of [add_linkdirs] changes no flag of any target: the
    flags written for a target and a kind of tool after the call are
    those before it, and where their assembly ends otherwise it ends
    the same way. *)
Theorem add_linkdirs_changes_no_flags path_join path_relative path_is_absolute projectdir
    (args : list string) (s s' : session) (fuel : nat) (name toolkind : string) :
  (∀ l, path_join l ≠ "") →
  add_linkdirs path_join path_relative path_is_absolute projectdir args s = Ret (tt, s') →
  outcome (_get_target_flags path_join path_relative fuel name toolkind (vars s'))
  = outcome (_get_target_flags path_join path_relative fuel name toolkind (vars s)).
Proof.
  intros Hjoin Hadd%add_linkdirs_same.
  eapply agree_outcome, blind_target_flags; [exact linkdirs_plain|exact Hjoin|exact Hadd].
Qed.

Lemma add_linkdirs_changes_no_flags_witness :
  outcome (_get_target_flags node_path_join (λ _ target, target) 3 "app" "ld"
             (vars (session_after
                      (add_linkdirs node_path_join (λ _ target, target)
                         (λ dir, Js.startsWith dir "/") "/project" ["/opt/lib"; "{public}"])
                      app_scope)))
  = outcome (_get_target_flags node_path_join (λ _ target, target) 3 "app" "ld"
               (vars app_scope)).
Proof.
  apply (add_linkdirs_changes_no_flags node_path_join (λ _ target, target)
           (λ dir, Js.startsWith dir "/") "/project" ["/opt/lib"; "{public}"] app_scope);
    [apply node_path_join_nonempty|by vm_compute].
Defined.

(** ** The programs that a toolchain ends with *)

(** The first program of a tool kind: when its check holds it is the
    program of the kind; the next ones are tried when it fails. *)
Lemma try_toolset_loop_first exec tmp_name (toolchain kind description : string)
    (idx : nat) (indices : list nat) (s s' : session) (ok : bool) :
  test_nz (_get_toolchain_toolset (vars s) (VStr toolchain) (toolset_key kind idx)) = true →
  _toolchain_try_toolset_loop exec tmp_name toolchain kind description (idx :: indices) s
  = Ret (ok, s') →
  ∃ (found : bool) (s1 : session),
    _toolchain_try_program exec tmp_name toolchain kind
      (_get_toolchain_toolset (vars s) (VStr toolchain) (toolset_key kind idx)) s
    = Ret (found, s1)
    ∧ if found then
        ok = true
        ∧ maps (vars s')
          = _map_set (maps (vars s)) "toolchains" (toolset_slot toolchain kind)
              (_get_toolchain_toolset (vars s) (VStr toolchain) (toolset_key kind idx))
        ∧ ∀ toolname, remembered s' toolname = remembered s1 toolname
      else
        _toolchain_try_toolset_loop exec tmp_name toolchain kind description indices s1
        = Ret (ok, s').
Proof.
  intros Hnz. cbn [_toolchain_try_toolset_loop].
  intros (s0 & s1 & [= <- <-] & H)%gbind_returns. rewrite Hnz in H.
  apply gbind_returns in H as (found & s2 & Htry & H).
  exists found, s2. split; [done|].
  pose proof (probes_only_try_program _ _ _ _ _ _ _ _ Htry) as [Hm2 Hc2].
  destruct found; [|done].
  apply gbind_returns in H as ([] & s3 & (e3 & Hset & ->)%on_vars_returns & H).
  apply gbind_returns in H as ([] & s4 & (e4 & [= <-] & ->)%on_vars_returns & H).
  injection H as <- <-.
  unfold _set_toolchain_toolset, _set_toolchain_item in Hset.
  destruct (test_nz (VStr toolchain)) eqn:Htc; [|done]. injection Hset as <-.
  cbn [vars with_vars maps cfg with_maps emit with_trace]. by rewrite Hm2.
Qed.

(** X22: the C++ compiler of a toolchain is its C compiler, when the
    toolchain lists that one program for the kind [cc] and lists it
    first for the kind [cxx], as the toolchains [gcc], [clang] and
    [envs] do: the check of the tool name is remembered from the kind
    [cc], so that a toolchain that is taken ends with that program for
    [cxx], and a second program of [cxx] ([g++], [clang++], [CXX]) is
    never tried. *)
Theorem cxx_compiler_is_the_c_compiler exec tmp_name (toolchain program toolname : string)
    (s s' : session) :
  _get_toolchain_toolset (vars s) (VStr toolchain) "cc" = VStr program →
  (∀ idx, idx ∈ [1; 2; 3; 4; 5]%nat →
          test_nz (_get_toolchain_toolset (vars s) (VStr toolchain) (toolset_key "cc" idx))
          = false) →
  _get_toolchain_toolset (vars s) (VStr toolchain) "cxx" = VStr program →
  path_toolname (VStr program) = Ret toolname →
  toolname ∈ ["gcc"; "gxx"; "clang"; "clangxx"] →
  _toolchain_try exec tmp_name toolchain s = Ret (true, s') →
  _get_toolchain_toolset (vars s') (VStr toolchain) "cxx" = VStr program.
Proof.
  intros Hcc Hrest Hcxx Htool Hname. unfold _toolchain_try.
  intros ([] & s1 & (e1 & Hp & ->)%on_vars_returns & H)%gbind_returns.
  pose proof (same_variables_maps _ _ (keeps_vprint _ _ _ _ Hp)) as Hm1.
  assert (∀ kind, _get_toolchain_toolset (vars (with_vars e1 s)) (VStr toolchain) kind
                  = _get_toolchain_toolset (vars s) (VStr toolchain) kind) as Hsame.
  { intros kind. unfold _get_toolchain_toolset, _get_toolchain_item. cbn [vars with_vars].
    by rewrite Hm1. }
  assert (program ≠ "") as Hprogram by (by intros ->).
  assert (test_nz (VStr program) = true) as Hnz by (by destruct program).
  unfold toolchain_kinds in H.
  match type of H with
  | context [?cc :: ?cxx :: ?others] => remember others as kinds eqn:Hkinds
  end.
  cbn [_toolchain_try_kinds] in H.
  (* the kind cc *)
  apply gbind_returns in H as (ok1 & s2 & Hfirst & H).
  unfold _toolchain_try_toolset in Hfirst.
  apply try_toolset_loop_first in Hfirst as (found & s1' & Htry & Hfound);
    [|cbn [toolset_key]; by rewrite Hsame, Hcc].
  cbn [toolset_key] in Htry, Hfound. rewrite Hsame, Hcc in Htry, Hfound.
  pose proof (probes_only_try_program _ _ _ _ _ _ _ _ Htry) as [Hm2 _].
  destruct (try_program_remembers _ _ _ _ _ toolname _ _ _ Hname Htool Htry) as [Hmem _].
  destruct found.
  2:{ rewrite try_toolset_loop_unserved in Hfound.
      - injection Hfound as <- <-. by injection H.
      - intros idx Hidx. unfold _get_toolchain_toolset, _get_toolchain_item.
        rewrite Hm2. cbn [vars with_vars]. rewrite Hm1. by apply Hrest. }
  destruct Hfound as (-> & Hmaps2 & Hmem2).
  (* the kind cxx *)
  apply gbind_returns in H as (ok2 & s3 & Hsecond & H).
  unfold _toolchain_try_toolset in Hsecond.
  assert (_get_toolchain_toolset (vars s2) (VStr toolchain) "cxx" = VStr program) as Hcxx2.
  { rewrite toolset_get_slot, Hmaps2, map_get_set.
    case_decide as Hslot; [by apply toolset_slot_ne in Hslot|].
    cbn [vars with_vars]. rewrite Hm1. by rewrite <-toolset_get_slot. }
  apply try_toolset_loop_first in Hsecond as (found & s2' & Htry2 & Hfound2);
    [|cbn [toolset_key]; by rewrite Hcxx2].
  cbn [toolset_key] in Htry2, Hfound2. rewrite Hcxx2 in Htry2, Hfound2.
  destruct (try_program_remembered exec tmp_name toolchain "cxx" (VStr program) toolname s2 true
              Hname Htool) as (s2'' & evs & Htry2' & _).
  { by rewrite Hmem2, Hmem. }
  rewrite Htry2' in Htry2. injection Htry2 as <- <-.
  destruct Hfound2 as (-> & Hmaps3 & _).
  (* the other kinds *)
  subst kinds. apply try_kinds_returns in H as (_ & Hkeep & _).
  - rewrite toolset_get_slot, Hkeep, Hmaps3; [by rewrite map_get_set_eq|].
    intros kind Hkind. apply toolset_slot_ne. intros <-.
    cbn in Hkind. repeat (apply elem_of_cons in Hkind as [Hkind|Hkind]; [done|]).
    by apply elem_of_nil in Hkind.
  - cbn. by repeat (constructor; [by decide_by_computation|]); constructor.
  - cbn. by repeat constructor.
Qed.

Lemma cxx_compiler_is_the_c_compiler_witness :
  _get_toolchain_toolset
    (vars (session_after (_toolchain_try always_ok sample_tmp_name "gcc") declared_session))
    (VStr "gcc") "cxx" = VStr "gcc".
Proof.
  apply (cxx_compiler_is_the_c_compiler always_ok sample_tmp_name "gcc" "gcc" "gcc"
           declared_session).
  - by vm_compute.
  - intros idx Hidx.
    repeat (apply elem_of_cons in Hidx as [->|Hidx]; [by vm_compute|]).
    by apply elem_of_nil in Hidx.
  - by vm_compute.
  - by vm_compute.
  - apply elem_of_cons. by left.
  - by vm_compute.
Defined.

(** ** The toolchain of the environment variables *)

Lemma envs_unserved (CC CXX AS LD AR : string) :
  (CC = "" → unserved (vars (declared_for CC CXX AS LD AR)) "envs" "cc")
  ∧ (AR = "" → unserved (vars (declared_for CC CXX AS LD AR)) "envs" "ar").
Proof.
  split; intros -> idx Hidx; unfold toolset_indices in Hidx;
    repeat (apply elem_of_cons in Hidx as [->|Hidx]; [by vm_compute|]);
    by apply elem_of_nil in Hidx.
Qed.

(** X23: the toolchain [envs] is made of the environment variables,
    and [CC] and [AR] decide whether it can be taken: every tool kind
    has a program to try exactly when both are set, whatever [CXX],
    [AS] and [LD] are; when one of the two is not set the toolchain is
    turned down, whatever the programs answer. *)
Theorem envs_needs_CC_and_AR (CC CXX AS LD AR : string) :
  ((∀ kind, kind ∈ toolchain_kind_names →
            ¬ unserved (vars (declared_for CC CXX AS LD AR)) "envs" kind)
   ↔ CC ≠ "" ∧ AR ≠ "")
  ∧ (CC = "" ∨ AR = "" →
     ∀ exec tmp_name (ok : bool) (s' : session),
       _toolchain_try exec tmp_name "envs" (declared_for CC CXX AS LD AR) = Ret (ok, s') →
       ok = false).
Proof.
  destruct (envs_unserved CC CXX AS LD AR) as [Hcc Har].
  split; [split|].
  - intros Hall. split; intros Hempty.
    + apply (Hall "cc"); [by decide_by_computation|by apply Hcc].
    + apply (Hall "ar"); [by decide_by_computation|by apply Har].
  - intros [HCC HAR] kind Hkind Hun. unfold toolchain_kind_names in Hkind.
    assert (test_nz (VStr CC) = true) as Hc by (by destruct CC).
    assert (test_nz (VStr AR) = true) as Ha by (by destruct AR).
    assert (0%nat ∈ toolset_indices) as H0 by (by decide_by_computation).
    assert (1%nat ∈ toolset_indices) as H1 by (by decide_by_computation).
    repeat (apply elem_of_cons in Hkind as [->|Hkind]); [..|by apply elem_of_nil in Hkind].
    + specialize (Hun 0%nat H0). vm_compute in Hun. vm_compute in Hc. congruence.
    + specialize (Hun 0%nat H0). vm_compute in Hun. vm_compute in Hc. congruence.
    + specialize (Hun 0%nat H0). vm_compute in Hun. vm_compute in Hc. congruence.
    + specialize (Hun 0%nat H0). vm_compute in Hun. vm_compute in Hc. congruence.
    + specialize (Hun 0%nat H0). vm_compute in Hun. vm_compute in Hc. congruence.
    + specialize (Hun 1%nat H1). vm_compute in Hun. vm_compute in Hc. congruence.
    + specialize (Hun 0%nat H0). vm_compute in Hun. vm_compute in Ha. congruence.
    + specialize (Hun 1%nat H1). vm_compute in Hun. vm_compute in Hc. congruence.
  - intros Hempty exec tmp_name ok s' [_ H]%try_returns. destruct ok; [|done].
    destruct (H eq_refl) as [_ Hall].
    destruct Hempty as [HCC|HAR].
    + by destruct (Hall "cc"  ltac:(by decide_by_computation)) as [_ []]; apply Hcc.
    + by destruct (Hall "ar"  ltac:(by decide_by_computation)) as [_ []]; apply Har.
Qed.

(** ** The values of the options *)

(** X24: [set_config] and the readers of an option: the value set for
    a name is the value read for it, but for the empty string and
    [undefined], which leave the default of the option in force; the
    values read for the other names are not changed, whatever the
    names are; and outside of an option, for the empty name, the call
    ends the process with the code 1. *)
Theorem set_config_reads_back (name : string) (value : jsval) (e : env) :
  if Js.nonempty name then
    ∃ e' : env,
      set_config name value e = Ret (tt, e')
      ∧ _get_option_value e' name
        = (if test_z value then _get_option_item e name "default" else value)
      ∧ (∀ other : string, other ≠ name →
           _get_option_value e' other = _get_option_value e other)
      ∧ has_config e' name
        = _loading_targets e
          && _is_enabled (if test_z value then _get_option_item e name "default" else value)
  else set_config name value e = Exit 1.
Proof.
  destruct name as [|a name]; [done|]. cbn [Js.nonempty].
  set (n := String a name).
  assert (∃ e', set_config n value e = Ret (tt, e')) as [e' Hset] by (by eexists).
  exists e'. split; [done|].
  assert (_get_option_item e' n "value" = value) as Hvalue.
  { unfold set_config, _set_option_value, _set_option_item in Hset. cbn in Hset.
    injection Hset as <-. unfold _get_option_item. cbn [maps with_maps].
    by rewrite map_get_set_eq. }
  assert (_get_option_item e' n "default" = _get_option_item e n "default") as Hdefault.
  { apply (set_option_value_other e e' n n "default" value Hset).
    change (n +:+ "_" +:+ "default") with (n +:+ "_default").
    by apply key_suffix_ne. }
  assert (_get_option_value e' n
          = (if test_z value then _get_option_item e n "default" else value)) as Hread.
  { unfold _get_option_value. rewrite Hvalue, Hdefault. by destruct (test_z value). }
  split; [done|]. split.
  - intros other Hother. unfold _get_option_value.
    rewrite !(set_option_value_other e e' n other _ value Hset); [done|..].
    + change (other +:+ "_" +:+ "default") with (other +:+ "_default").
      by apply key_suffix_ne.
    + change (other +:+ "_" +:+ "value") with (other +:+ "_value").
      by apply key_name_ne.
  - unfold has_config. rewrite Hread.
    assert (_loading_targets e' = _loading_targets e) as ->.
    { unfold set_config, _set_option_value, _set_option_item in Hset. cbn in Hset.
      injection Hset as <-. by destruct e. }
    by destruct (_loading_targets e).
Qed.

